(** * GMLReader: a shallow embedding of ogr/ogrsf_frmts/gml/gmlreader.cpp

    The reader object is a record that is threaded through its methods;
    every method of the C++ class is a function from the record to the record
    (and a result).  Pointers that may be NULL are options, the hand-rolled
    array of class pointers is a list, the stack of read states is a list
    whose head is the top.  Functions of the repository that gmlreader.cpp
    calls but that live in other files are either section variables or are
    modelled from the specification, and are marked so. *)

From Stdlib Require Import ZArith Lia Bool Ascii Floats.
From stdpp Require Import base list strings.

#[local] Set Warnings "-register-all".

(** ** The C string functions the reader uses *)

Module CPL.

Definition toupper (c : ascii) : ascii :=
  let n := nat_of_ascii c in
  if (97 <=? n)%nat && (n <=? 122)%nat then ascii_of_nat (n - 32) else c.

Fixpoint strlen (s : string) : nat :=
  match s with
  | EmptyString => 0
  | String _ s' => S (strlen s')
  end.

(** [strcmp(a,b) == 0] *)
Definition strcmp_eq (a b : string) : bool := String.eqb a b.

(** [EQUAL(a,b)], i.e. [strcasecmp(a,b) == 0] *)
Fixpoint EQUAL (a b : string) : bool :=
  match a, b with
  | EmptyString, EmptyString => true
  | String x a', String y b' =>
      Ascii.eqb (toupper x) (toupper y) && EQUAL a' b'
  | _, _ => false
  end.

(** [strncmp(a,b,n) == 0] *)
Fixpoint strncmp_eq (a b : string) (n : nat) {struct n} : bool :=
  match n with
  | 0 => true
  | S n' =>
      match a, b with
      | EmptyString, EmptyString => true
      | String x a', String y b' => Ascii.eqb x y && strncmp_eq a' b' n'
      | _, _ => false
      end
  end.

(** [p + k] for a pointer [p] into a string of at least [k] characters *)
Fixpoint advance (k : nat) (s : string) : string :=
  match k, s with
  | 0, _ => s
  | S k', String _ s' => advance k' s'
  | S _, EmptyString => EmptyString
  end.

(** [strchr(s,c)]: the tail of [s] that starts at the first [c] *)
Fixpoint strchr (s : string) (c : ascii) : option string :=
  match s with
  | EmptyString => None
  | String x s' => if Ascii.eqb x c then Some s else strchr s' c
  end.

(** [strrchr(s,c)]: the tail of [s] that starts at the last [c] *)
Fixpoint strrchr (s : string) (c : ascii) : option string :=
  match s with
  | EmptyString => None
  | String x s' =>
      match strrchr s' c with
      | Some t => Some t
      | None => if Ascii.eqb x c then Some s else None
      end
  end.

(** [needle] is an initial segment of [s] *)
Fixpoint starts_with (needle s : string) : bool :=
  match needle, s with
  | EmptyString, _ => true
  | String x n', String y s' => Ascii.eqb x y && starts_with n' s'
  | String _ _, EmptyString => false
  end.

(** [strstr(s,needle) != NULL] *)
Fixpoint strstr (s needle : string) : bool :=
  starts_with needle s ||
  match s with
  | EmptyString => false
  | String _ s' => strstr s' needle
  end.

(** The bytes of a buffer up to its first NUL: what a [char*] denotes. *)
Fixpoint c_str (buf : string) : string :=
  match buf with
  | EmptyString => EmptyString
  | String x buf' =>
      if Ascii.eqb x Ascii.zero then EmptyString else String x (c_str buf')
  end.

(** The error sink.  Messages keep their format string. *)
Inductive CPLErr := CE_Warning | CE_Failure.
Inductive CPLErrorNum := CPLE_AppDefined | CPLE_OpenFailed.
Inductive log_entry :=
| LogDebug (category message : string)
| LogError (eErrClass : CPLErr) (err_no : CPLErrorNum) (message : string).

Definition is_error (e : log_entry) : bool :=
  match e with LogDebug _ _ => false | LogError _ _ _ => true end.

End CPL.
Export CPL.

(** ** Data model *)

(** [GMLPropertyType] (gmlreader.h) *)
Inductive GMLPropertyType :=
| GMLPT_Untyped | GMLPT_String | GMLPT_Integer | GMLPT_Real | GMLPT_Complex
| GMLPT_StringList | GMLPT_IntegerList | GMLPT_RealList.

Record GMLPropertyDefn := mkGMLPropertyDefn {
  m_pszName : string;
  m_pszSrcElement : string;
  m_eType : GMLPropertyType
}.

Record OGREnvelope := mkOGREnvelope {
  MinX : float; MaxX : float; MinY : float; MaxY : float
}.

(** The extents of a class, in the order of [GetExtents]/[SetExtents]:
    xmin, xmax, ymin, ymax. *)
Definition extents := (float * float * float * float)%type.

Record GMLFeatureClass := mkGMLFeatureClass {
  m_pszClassName : string;
  m_pszElementName : string;
  m_papoProperty : list GMLPropertyDefn;
  m_bSchemaLocked : bool;
  m_nFeatureCount : Z;
  m_nGeometryType : Z;
  m_oExtents : option extents;
  m_pszSRSName : option string;
  (* the mark [MergeSRSName] keeps: no two different names met so far *)
  m_bSRSNameConsistent : bool
}.

Definition GetName (c : GMLFeatureClass) : string := m_pszClassName c.
Definition GetElementName (c : GMLFeatureClass) : string := m_pszElementName c.
Definition IsSchemaLocked (c : GMLFeatureClass) : bool := m_bSchemaLocked c.
Definition GetPropertyCount (c : GMLFeatureClass) : nat :=
  length (m_papoProperty c).

(** [CPLXMLNode] (cpl_minixml.h): the [psChild]/[psNext] chain of a node is
    the list of its children. *)
Inductive CPLXMLNodeType :=
| CXT_Element | CXT_Text | CXT_Attribute | CXT_Comment | CXT_Literal.

Inductive CPLXMLNode :=
| XMLNode (eType : CPLXMLNodeType) (pszValue : string)
          (psChild : list CPLXMLNode).

Definition node_eType (n : CPLXMLNode) : CPLXMLNodeType :=
  match n with XMLNode t _ _ => t end.
Definition node_pszValue (n : CPLXMLNode) : string :=
  match n with XMLNode _ v _ => v end.
Definition node_psChild (n : CPLXMLNode) : list CPLXMLNode :=
  match n with XMLNode _ _ l => l end.

Definition is_CXT_Element (t : CPLXMLNodeType) : bool :=
  match t with CXT_Element => true | _ => false end.

(** A feature points to its class.  The registry grows only at its end, so
    the pointer is the position of the class in [m_papoClass]; the class
    object itself is shared by all its features and is read and written
    through the registry. *)
Record GMLFeature := mkGMLFeature {
  m_poClass : nat;
  m_pszFID : option string;
  m_papszProperty : list (option string);
  m_papsGeometry : list CPLXMLNode
}.

(** A frame of the read-state stack.  [m_nPathLength] is the length of the
    component list and [m_pszPath] its [|]-joined concatenation. *)
Record GMLReadState := mkGMLReadState {
  m_poFeature : option GMLFeature;
  m_papszPathComponents : list string
}.

Definition new_GMLReadState : GMLReadState := mkGMLReadState None [].

Definition m_nPathLength (s : GMLReadState) : nat :=
  length (m_papszPathComponents s).

Fixpoint join_path (l : list string) : string :=
  match l with
  | [] => ""
  | [x] => x
  | x :: l' => x +:+ "|" +:+ join_path l'
  end.

Definition m_pszPath (s : GMLReadState) : string :=
  join_path (m_papszPathComponents s).

(** Modelled from the spec: [GMLReadState::GetLastComponent]
    (gmlreadstate.cpp is not among the sources); section 3 calls it the
    accessor for the innermost element name of the frame's path.  A frame
    with an empty path has the empty string. *)
Definition GetLastComponent (s : GMLReadState) : string :=
  List.last (m_papszPathComponents s) "".

(** What one call of the tokenizer does to the reader.  The element handler
    (gmlhandler.cpp) is driven by the tokenizer and calls back into the
    reader; a parse step lists those calls in order. *)
Inductive handler_call :=
| HPushFeature (pszElement : string) (pszFID : option string)
| HPopState
| HSetFeatureProperty (pszElement pszValue : string)
| HPushPath (pszElement : string)
| HPopPath
| HAddGeometry (psGeom : CPLXMLNode)
| HSetGlobalSRSName (pszGlobalSRSName : string).

Inductive parse_outcome :=
| ParseOk                 (* XML_STATUS_OK, or parseFirst/parseNext true *)
| ParseFail               (* XML_STATUS_ERROR, or parseFirst/parseNext false *)
| ThrowsXMLException
| ThrowsSAXException.

Record parse_step := mkParseStep {
  calls : list handler_call;
  outcome : parse_outcome;
  (* GMLExpatHandler::HasStoppedParsing() after the step *)
  handler_stopped : bool
}.

(** An open file: the steps its whole content gives rise to, and those not
    read yet.  [VSIFEofL] holds once the last one has been read. *)
Record VSILFILE := mkVSILFILE {
  document : list parse_step;
  unread : list parse_step
}.

Definition VSIFSeekL_start (fp : VSILFILE) : VSILFILE :=
  mkVSILFILE (document fp) (document fp).

Definition VSIFEofL (fp : VSILFILE) : bool :=
  match unread fp with [] => true | _ => false end.

Record GMLReader := mkGMLReader {
  bUseExpatReader : bool;
  m_papoClass : list GMLFeatureClass;
  m_bClassListLocked : bool;
  m_poState : list GMLReadState;
  m_poSAXReader : bool;
  m_GMLInputSource : bool;
  m_poCompleteFeature : option GMLFeature;
  oParser : bool;
  ppoFeatureTab : list GMLFeature;
  nFeatureTabIndex : nat;
  fpGML : option VSILFILE;
  m_bReadStarted : bool;
  m_bStopParsing : bool;
  m_pszFilename : option string;
  m_bInvertAxisOrderIfLatLong : bool;
  m_bConsiderEPSGAsURN : bool;
  m_pszGlobalSRSName : option string;
  m_bCanUseGlobalSRSName : bool;
  m_pszFilteredClassName : option string;
  cpl_log : list log_entry
}.

Definition set_m_papoClass (v : list GMLFeatureClass) (r : GMLReader) : GMLReader :=
  mkGMLReader (bUseExpatReader r) v (m_bClassListLocked r) (m_poState r)
    (m_poSAXReader r) (m_GMLInputSource r) (m_poCompleteFeature r)
    (oParser r) (ppoFeatureTab r) (nFeatureTabIndex r) (fpGML r)
    (m_bReadStarted r) (m_bStopParsing r) (m_pszFilename r)
    (m_bInvertAxisOrderIfLatLong r) (m_bConsiderEPSGAsURN r)
    (m_pszGlobalSRSName r) (m_bCanUseGlobalSRSName r)
    (m_pszFilteredClassName r) (cpl_log r).

Definition set_m_bClassListLocked (v : bool) (r : GMLReader) : GMLReader :=
  mkGMLReader (bUseExpatReader r) (m_papoClass r) v (m_poState r)
    (m_poSAXReader r) (m_GMLInputSource r) (m_poCompleteFeature r)
    (oParser r) (ppoFeatureTab r) (nFeatureTabIndex r) (fpGML r)
    (m_bReadStarted r) (m_bStopParsing r) (m_pszFilename r)
    (m_bInvertAxisOrderIfLatLong r) (m_bConsiderEPSGAsURN r)
    (m_pszGlobalSRSName r) (m_bCanUseGlobalSRSName r)
    (m_pszFilteredClassName r) (cpl_log r).

Definition set_m_poState (v : list GMLReadState) (r : GMLReader) : GMLReader :=
  mkGMLReader (bUseExpatReader r) (m_papoClass r) (m_bClassListLocked r) v
    (m_poSAXReader r) (m_GMLInputSource r) (m_poCompleteFeature r)
    (oParser r) (ppoFeatureTab r) (nFeatureTabIndex r) (fpGML r)
    (m_bReadStarted r) (m_bStopParsing r) (m_pszFilename r)
    (m_bInvertAxisOrderIfLatLong r) (m_bConsiderEPSGAsURN r)
    (m_pszGlobalSRSName r) (m_bCanUseGlobalSRSName r)
    (m_pszFilteredClassName r) (cpl_log r).

Definition set_m_poSAXReader (v : bool) (r : GMLReader) : GMLReader :=
  mkGMLReader (bUseExpatReader r) (m_papoClass r) (m_bClassListLocked r)
    (m_poState r) v (m_GMLInputSource r) (m_poCompleteFeature r) (oParser r)
    (ppoFeatureTab r) (nFeatureTabIndex r) (fpGML r) (m_bReadStarted r)
    (m_bStopParsing r) (m_pszFilename r) (m_bInvertAxisOrderIfLatLong r)
    (m_bConsiderEPSGAsURN r) (m_pszGlobalSRSName r)
    (m_bCanUseGlobalSRSName r) (m_pszFilteredClassName r) (cpl_log r).

Definition set_m_GMLInputSource (v : bool) (r : GMLReader) : GMLReader :=
  mkGMLReader (bUseExpatReader r) (m_papoClass r) (m_bClassListLocked r)
    (m_poState r) (m_poSAXReader r) v (m_poCompleteFeature r) (oParser r)
    (ppoFeatureTab r) (nFeatureTabIndex r) (fpGML r) (m_bReadStarted r)
    (m_bStopParsing r) (m_pszFilename r) (m_bInvertAxisOrderIfLatLong r)
    (m_bConsiderEPSGAsURN r) (m_pszGlobalSRSName r)
    (m_bCanUseGlobalSRSName r) (m_pszFilteredClassName r) (cpl_log r).

Definition set_m_poCompleteFeature (v : option GMLFeature) (r : GMLReader) : GMLReader :=
  mkGMLReader (bUseExpatReader r) (m_papoClass r) (m_bClassListLocked r)
    (m_poState r) (m_poSAXReader r) (m_GMLInputSource r) v (oParser r)
    (ppoFeatureTab r) (nFeatureTabIndex r) (fpGML r) (m_bReadStarted r)
    (m_bStopParsing r) (m_pszFilename r) (m_bInvertAxisOrderIfLatLong r)
    (m_bConsiderEPSGAsURN r) (m_pszGlobalSRSName r)
    (m_bCanUseGlobalSRSName r) (m_pszFilteredClassName r) (cpl_log r).

Definition set_oParser (v : bool) (r : GMLReader) : GMLReader :=
  mkGMLReader (bUseExpatReader r) (m_papoClass r) (m_bClassListLocked r)
    (m_poState r) (m_poSAXReader r) (m_GMLInputSource r)
    (m_poCompleteFeature r) v (ppoFeatureTab r) (nFeatureTabIndex r)
    (fpGML r) (m_bReadStarted r) (m_bStopParsing r) (m_pszFilename r)
    (m_bInvertAxisOrderIfLatLong r) (m_bConsiderEPSGAsURN r)
    (m_pszGlobalSRSName r) (m_bCanUseGlobalSRSName r)
    (m_pszFilteredClassName r) (cpl_log r).

Definition set_ppoFeatureTab (v : list GMLFeature) (r : GMLReader) : GMLReader :=
  mkGMLReader (bUseExpatReader r) (m_papoClass r) (m_bClassListLocked r)
    (m_poState r) (m_poSAXReader r) (m_GMLInputSource r)
    (m_poCompleteFeature r) (oParser r) v (nFeatureTabIndex r) (fpGML r)
    (m_bReadStarted r) (m_bStopParsing r) (m_pszFilename r)
    (m_bInvertAxisOrderIfLatLong r) (m_bConsiderEPSGAsURN r)
    (m_pszGlobalSRSName r) (m_bCanUseGlobalSRSName r)
    (m_pszFilteredClassName r) (cpl_log r).

Definition set_nFeatureTabIndex (v : nat) (r : GMLReader) : GMLReader :=
  mkGMLReader (bUseExpatReader r) (m_papoClass r) (m_bClassListLocked r)
    (m_poState r) (m_poSAXReader r) (m_GMLInputSource r)
    (m_poCompleteFeature r) (oParser r) (ppoFeatureTab r) v (fpGML r)
    (m_bReadStarted r) (m_bStopParsing r) (m_pszFilename r)
    (m_bInvertAxisOrderIfLatLong r) (m_bConsiderEPSGAsURN r)
    (m_pszGlobalSRSName r) (m_bCanUseGlobalSRSName r)
    (m_pszFilteredClassName r) (cpl_log r).

Definition set_fpGML (v : option VSILFILE) (r : GMLReader) : GMLReader :=
  mkGMLReader (bUseExpatReader r) (m_papoClass r) (m_bClassListLocked r)
    (m_poState r) (m_poSAXReader r) (m_GMLInputSource r)
    (m_poCompleteFeature r) (oParser r) (ppoFeatureTab r)
    (nFeatureTabIndex r) v (m_bReadStarted r) (m_bStopParsing r)
    (m_pszFilename r) (m_bInvertAxisOrderIfLatLong r)
    (m_bConsiderEPSGAsURN r) (m_pszGlobalSRSName r)
    (m_bCanUseGlobalSRSName r) (m_pszFilteredClassName r) (cpl_log r).

Definition set_m_bReadStarted (v : bool) (r : GMLReader) : GMLReader :=
  mkGMLReader (bUseExpatReader r) (m_papoClass r) (m_bClassListLocked r)
    (m_poState r) (m_poSAXReader r) (m_GMLInputSource r)
    (m_poCompleteFeature r) (oParser r) (ppoFeatureTab r)
    (nFeatureTabIndex r) (fpGML r) v (m_bStopParsing r) (m_pszFilename r)
    (m_bInvertAxisOrderIfLatLong r) (m_bConsiderEPSGAsURN r)
    (m_pszGlobalSRSName r) (m_bCanUseGlobalSRSName r)
    (m_pszFilteredClassName r) (cpl_log r).

Definition set_m_bStopParsing (v : bool) (r : GMLReader) : GMLReader :=
  mkGMLReader (bUseExpatReader r) (m_papoClass r) (m_bClassListLocked r)
    (m_poState r) (m_poSAXReader r) (m_GMLInputSource r)
    (m_poCompleteFeature r) (oParser r) (ppoFeatureTab r)
    (nFeatureTabIndex r) (fpGML r) (m_bReadStarted r) v (m_pszFilename r)
    (m_bInvertAxisOrderIfLatLong r) (m_bConsiderEPSGAsURN r)
    (m_pszGlobalSRSName r) (m_bCanUseGlobalSRSName r)
    (m_pszFilteredClassName r) (cpl_log r).

Definition set_m_pszFilename (v : option string) (r : GMLReader) : GMLReader :=
  mkGMLReader (bUseExpatReader r) (m_papoClass r) (m_bClassListLocked r)
    (m_poState r) (m_poSAXReader r) (m_GMLInputSource r)
    (m_poCompleteFeature r) (oParser r) (ppoFeatureTab r)
    (nFeatureTabIndex r) (fpGML r) (m_bReadStarted r) (m_bStopParsing r) v
    (m_bInvertAxisOrderIfLatLong r) (m_bConsiderEPSGAsURN r)
    (m_pszGlobalSRSName r) (m_bCanUseGlobalSRSName r)
    (m_pszFilteredClassName r) (cpl_log r).

Definition set_m_pszGlobalSRSName (v : option string) (r : GMLReader) : GMLReader :=
  mkGMLReader (bUseExpatReader r) (m_papoClass r) (m_bClassListLocked r)
    (m_poState r) (m_poSAXReader r) (m_GMLInputSource r)
    (m_poCompleteFeature r) (oParser r) (ppoFeatureTab r)
    (nFeatureTabIndex r) (fpGML r) (m_bReadStarted r) (m_bStopParsing r)
    (m_pszFilename r) (m_bInvertAxisOrderIfLatLong r)
    (m_bConsiderEPSGAsURN r) v (m_bCanUseGlobalSRSName r)
    (m_pszFilteredClassName r) (cpl_log r).

Definition set_m_bCanUseGlobalSRSName (v : bool) (r : GMLReader) : GMLReader :=
  mkGMLReader (bUseExpatReader r) (m_papoClass r) (m_bClassListLocked r)
    (m_poState r) (m_poSAXReader r) (m_GMLInputSource r)
    (m_poCompleteFeature r) (oParser r) (ppoFeatureTab r)
    (nFeatureTabIndex r) (fpGML r) (m_bReadStarted r) (m_bStopParsing r)
    (m_pszFilename r) (m_bInvertAxisOrderIfLatLong r)
    (m_bConsiderEPSGAsURN r) (m_pszGlobalSRSName r) v
    (m_pszFilteredClassName r) (cpl_log r).

Definition set_m_pszFilteredClassName (v : option string) (r : GMLReader) : GMLReader :=
  mkGMLReader (bUseExpatReader r) (m_papoClass r) (m_bClassListLocked r)
    (m_poState r) (m_poSAXReader r) (m_GMLInputSource r)
    (m_poCompleteFeature r) (oParser r) (ppoFeatureTab r)
    (nFeatureTabIndex r) (fpGML r) (m_bReadStarted r) (m_bStopParsing r)
    (m_pszFilename r) (m_bInvertAxisOrderIfLatLong r)
    (m_bConsiderEPSGAsURN r) (m_pszGlobalSRSName r)
    (m_bCanUseGlobalSRSName r) v (cpl_log r).

Definition set_cpl_log (v : list log_entry) (r : GMLReader) : GMLReader :=
  mkGMLReader (bUseExpatReader r) (m_papoClass r) (m_bClassListLocked r)
    (m_poState r) (m_poSAXReader r) (m_GMLInputSource r)
    (m_poCompleteFeature r) (oParser r) (ppoFeatureTab r)
    (nFeatureTabIndex r) (fpGML r) (m_bReadStarted r) (m_bStopParsing r)
    (m_pszFilename r) (m_bInvertAxisOrderIfLatLong r)
    (m_bConsiderEPSGAsURN r) (m_pszGlobalSRSName r)
    (m_bCanUseGlobalSRSName r) (m_pszFilteredClassName r) v.


(** ** Collaborators

    Everything the reader calls that is defined outside gmlreader.cpp and
    that the specification treats as an external interface. *)

Record OGRGeometry := mkOGRGeometry {
  getGeometryType : Z;
  IsEmpty : bool;
  getEnvelope : OGREnvelope
}.

(** What reading a whole schema file gives: [VSIFOpenL] fails, [VSIMalloc]
    fails, [VSIFReadL] does not deliver the announced bytes, or the buffer. *)
Inductive file_read :=
| FileOpenFails | FileAllocFails | FileReadFails | FileBytes (buf : string).

Class Environment := {
  (* how the library was built *)
  HAVE_XERCES : bool;
  HAVE_EXPAT : bool;
  (* CPLGetConfigOption("GML_FIELDTYPES", "") *)
  GML_FIELDTYPES : string;
  (* VSIFOpenL(name, "rt") on a GML document *)
  VSIFOpenL : string -> option (list parse_step);
  (* XMLPlatformUtils::Initialize() and XMLReaderFactory::createXMLReader()
     return without throwing *)
  XercesInitializes : bool;
  XercesCreatesReader : bool;
  (* opening and reading a schema file at once *)
  read_whole_file : string -> file_read;
  CPLParseXMLString : string -> option CPLXMLNode;
  (* GMLFeatureClass::InitializeFromXML on a fresh class *)
  InitializeFromXML : CPLXMLNode -> option GMLFeatureClass;
  (* GMLPropertyDefn::AnalysePropertyValue: the type of the definition after
     the call, from its type before and the value *)
  AnalysePropertyValue : GMLPropertyType -> string -> GMLPropertyType;
  (* GMLFeatureClass::MergeSRSName: the name and the mark of the class after
     the call, from those before and the name met *)
  MergeSRSName : option string * bool -> option string -> option string * bool;
  (* gmlutils and the geometry library; the list, bInvertAxisOrderIfLatLong
     and bConsiderEPSGAsURN are the arguments that vary *)
  GML_BuildOGRGeometryFromList :
    list CPLXMLNode -> bool -> bool -> option OGRGeometry;
  GML_ExtractSrsNameFromGeometry : list CPLXMLNode -> bool -> option string;
  GML_IsSRSLatLongOrder : option string -> bool;
  OGRMergeGeometryTypes : Z -> Z -> Z;
  (* the spatial reference library *)
  OGRSpatialReference : Type;
  SetFromUserInput : option string -> option OGRSpatialReference;
  HasGEOGCS : OGRSpatialReference -> bool;
  StripAxisNodes : OGRSpatialReference -> OGRSpatialReference;
  exportToWkt : OGRSpatialReference -> option string
}.

(** The comparison [GMLFeatureClass::GetPropertyIndex] applies to field
    names.  The class is not among the sources; both candidates, [strcmp]
    and [EQUAL], relate a name to itself and only names of one length. *)
Class FieldNameComparison := {
  same_name : string -> string -> bool;
  same_name_refl : forall s, same_name s s = true;
  same_name_strlen : forall a b, same_name a b = true -> strlen a = strlen b
}.

Definition wkbUnknown : Z := 0.
Definition wkbNone : Z := 100.

(** Modelled from the spec: the constructor [GMLFeatureClass(pszName)]
    (gmlfeatureclass.cpp is not among the sources).  Section 3: the name is
    initially the element's local name, which is also the element name that
    triggers the class; the feature count starts at the sentinel -1, the
    geometry type at unknown (not yet set), without extents or SRS and
    with no SRS conflict seen, with an empty schema that is not locked. *)
Definition new_GMLFeatureClass (pszName : string) : GMLFeatureClass :=
  mkGMLFeatureClass pszName pszName [] false (-1) wkbUnknown None None true.

(** Setters of [GMLFeatureClass] *)
Definition SetSchemaLocked (b : bool) (c : GMLFeatureClass) :=
  mkGMLFeatureClass (m_pszClassName c) (m_pszElementName c) (m_papoProperty c)
    b (m_nFeatureCount c) (m_nGeometryType c) (m_oExtents c) (m_pszSRSName c)
    (m_bSRSNameConsistent c).
Definition SetFeatureCount (n : Z) (c : GMLFeatureClass) :=
  mkGMLFeatureClass (m_pszClassName c) (m_pszElementName c) (m_papoProperty c)
    (m_bSchemaLocked c) n (m_nGeometryType c) (m_oExtents c) (m_pszSRSName c)
    (m_bSRSNameConsistent c).
Definition SetGeometryType (t : Z) (c : GMLFeatureClass) :=
  mkGMLFeatureClass (m_pszClassName c) (m_pszElementName c) (m_papoProperty c)
    (m_bSchemaLocked c) (m_nFeatureCount c) t (m_oExtents c) (m_pszSRSName c)
    (m_bSRSNameConsistent c).
Definition SetExtents (e : extents) (c : GMLFeatureClass) :=
  mkGMLFeatureClass (m_pszClassName c) (m_pszElementName c) (m_papoProperty c)
    (m_bSchemaLocked c) (m_nFeatureCount c) (m_nGeometryType c) (Some e)
    (m_pszSRSName c) (m_bSRSNameConsistent c).
Definition SetSRSName (s : option string) (c : GMLFeatureClass) :=
  mkGMLFeatureClass (m_pszClassName c) (m_pszElementName c) (m_papoProperty c)
    (m_bSchemaLocked c) (m_nFeatureCount c) (m_nGeometryType c) (m_oExtents c)
    s (m_bSRSNameConsistent c).
Definition set_m_papoProperty (l : list GMLPropertyDefn) (c : GMLFeatureClass) :=
  mkGMLFeatureClass (m_pszClassName c) (m_pszElementName c) l
    (m_bSchemaLocked c) (m_nFeatureCount c) (m_nGeometryType c) (m_oExtents c)
    (m_pszSRSName c) (m_bSRSNameConsistent c).
(** What [MergeSRSName] works on: the name and the mark. *)
Definition srs_state : Type := option string * bool.
Definition set_srs_state (st : srs_state) (c : GMLFeatureClass) :=
  mkGMLFeatureClass (m_pszClassName c) (m_pszElementName c) (m_papoProperty c)
    (m_bSchemaLocked c) (m_nFeatureCount c) (m_nGeometryType c) (m_oExtents c)
    (fst st) (snd st).

Definition set_m_poFeature (f : option GMLFeature) (s : GMLReadState) :=
  mkGMLReadState f (m_papszPathComponents s).
Definition set_m_papszPathComponents (l : list string) (s : GMLReadState) :=
  mkGMLReadState (m_poFeature s) l.

(** The position at which a [for] loop with a [break] stops: the first
    index whose element passes the test, the length if there is none. *)
Fixpoint first_index {A} (test : A -> bool) (l : list A) : nat :=
  match l with
  | [] => 0
  | x :: l' => if test x then 0 else S (first_index test l')
  end.

(** ** The reader *)

Section Reader.
Context {env : Environment} {names : FieldNameComparison}.

(** [GMLReader::GMLReader] *)
Definition new_GMLReader (bUseExpatParserPreferably bInvertAxisOrderIfLatLong
                          bConsiderEPSGAsURN : bool) : GMLReader :=
  let bUseExpat :=
    if negb HAVE_XERCES then true
    else if HAVE_EXPAT then bUseExpatParserPreferably else false in
  mkGMLReader bUseExpat [] false [] false false None false [] 0 None
    false false None bInvertAxisOrderIfLatLong bConsiderEPSGAsURN
    None false None [].

(** [GMLReader::SetSourceFile] and [GetSourceFileName] *)
Definition SetSourceFile (pszFilename : string) (r : GMLReader) : GMLReader :=
  set_m_pszFilename (Some pszFilename) r.
Definition GetSourceFileName (r : GMLReader) : option string := m_pszFilename r.

Definition CPLDebug (category message : string) (r : GMLReader) :=
  set_cpl_log (cpl_log r ++ [LogDebug category message]) r.
Definition CPLError (c : CPLErr) (n : CPLErrorNum) (message : string)
                    (r : GMLReader) :=
  set_cpl_log (cpl_log r ++ [LogError c n message]) r.

(** *** The class registry *)

Definition GetClassCount (r : GMLReader) : Z :=
  Z.of_nat (length (m_papoClass r)).
Definition IsClassListLocked (r : GMLReader) : bool := m_bClassListLocked r.
Definition SetClassListLocked (b : bool) (r : GMLReader) : GMLReader :=
  set_m_bClassListLocked b r.

(** [GMLReader::GetClass(int)] *)
Definition GetClass (r : GMLReader) (iClass : Z) : option GMLFeatureClass :=
  if (iClass <? 0)%Z || (iClass >=? GetClassCount r)%Z then None
  else m_papoClass r !! Z.to_nat iClass.

(** [GMLReader::GetClass(const char* )] *)
Definition GetClassByName (r : GMLReader) (pszName : string)
  : option GMLFeatureClass :=
  let iClass :=
    first_index (fun c => EQUAL (GetName c) pszName) (m_papoClass r) in
  if (Z.of_nat iClass <? GetClassCount r)%Z
  then GetClass r (Z.of_nat iClass) else None.

(** [GMLReader::AddClass]; the assertion that the name is new is compiled
    out of release builds and does not guard the insertion. *)
Definition AddClass (poNewClass : GMLFeatureClass) (r : GMLReader)
  : Z * GMLReader :=
  let r' := set_m_papoClass (m_papoClass r ++ [poNewClass]) r in
  ((GetClassCount r' - 1)%Z, r').

Definition ClearClasses (r : GMLReader) : GMLReader := set_m_papoClass [] r.

(** *** The read-state stack *)

Definition PushState (poState : GMLReadState) (r : GMLReader) : GMLReader :=
  set_m_poState (poState :: m_poState r) r.

(** [GMLReader::PopState].  The pull backend latches the feature of the
    popped frame into the single slot when the slot is free; the push
    backend appends it to the table.  A feature that is moved nowhere
    goes away with its frame. *)
Definition PopState (r : GMLReader) : GMLReader :=
  match m_poState r with
  | [] => r
  | top :: poParent =>
      let '(r1, top1) :=
        if HAVE_XERCES && negb (bUseExpatReader r)
           && bool_decide (m_poFeature top <> None)
           && bool_decide (m_poCompleteFeature r = None)
        then (set_m_poCompleteFeature (m_poFeature top) r,
              set_m_poFeature None top)
        else (r, top) in
      let r2 :=
        match m_poFeature top1 with
        | Some f =>
            if HAVE_EXPAT && bUseExpatReader r1
            then set_ppoFeatureTab (ppoFeatureTab r1 ++ [f]) r1
            else r1
        | None => r1
        end in
      set_m_poState poParent r2
  end.

(** [GMLReader::PushFeature] *)
Definition PushFeature (pszElement : string) (pszFID : option string)
                       (r : GMLReader) : GMLReader :=
  let iClass :=
    first_index (fun c => EQUAL pszElement (GetElementName c))
                (m_papoClass r) in
  let r1 :=
    if (Z.of_nat iClass =? GetClassCount r)%Z
    then snd (AddClass (new_GMLFeatureClass pszElement) r) else r in
  let poFeature := mkGMLFeature iClass pszFID [] [] in
  PushState (mkGMLReadState (Some poFeature) []) r1.

(** *** Recognising feature elements *)

(** [pszLast + nLen - 7] for a component of at least six characters.  With
    exactly six the address is one byte before the component;
    [byte_before] is the byte that memory holds there. *)
Definition seven_from_end (byte_before : ascii) (pszLast : string) : string :=
  let nLen := strlen pszLast in
  if (nLen =? 6)%nat then String byte_before pszLast
  else advance (nLen - 7) pszLast.

(** The chain of tests on the context of [GMLReader::IsFeatureElement]:
    [Some b] when the chain returns [b] at once, [None] when it falls
    through to the tests on the class list. *)
Definition feature_context (byte_before : ascii) (pszLast pszElement : string)
  : option bool :=
  let nLen := strlen pszLast in
  let nElementLength := strlen pszElement in
  if strcmp_eq pszLast "dane" then None
  else if strcmp_eq pszLast "GeocodeResponseList"
          && strcmp_eq pszElement "GeocodedAddress" then None
  else if strcmp_eq pszLast "DetermineRouteResponse" then
    if strcmp_eq pszElement "RouteInstructionsList" then Some false else None
  else if strcmp_eq pszElement "RouteInstruction"
          && strcmp_eq pszLast "RouteInstructionsList" then None
  else if (6 <? nLen)%nat
          && strcmp_eq (advance (nLen - 6) pszLast) "_layer"
          && (8 <? nElementLength)%nat
          && strcmp_eq (advance (nElementLength - 8) pszElement) "_feature"
  then None
  else if (nLen <? 6)%nat
          || negb (EQUAL (advance (nLen - 6) pszLast) "member"
                   || EQUAL (seven_from_end byte_before pszLast) "members")
  then Some false
  else None.

(** [GMLReader::IsFeatureElement]; [None] when there is no read state,
    which the function asserts not to happen. *)
Definition IsFeatureElement (byte_before : ascii) (pszElement : string)
                            (r : GMLReader) : option bool :=
  match m_poState r with
  | [] => None
  | top :: _ =>
      match feature_context byte_before (GetLastComponent top) pszElement with
      | Some b => Some b
      | None =>
          if negb (IsClassListLocked r) then Some true
          else Some (existsb (fun c => EQUAL pszElement (GetElementName c))
                             (m_papoClass r))
      end
  end.

(** *** Properties *)

(** Modelled from the spec: [GMLFeatureClass::GetPropertyIndex],
    [GetProperty(name)] and [AddProperty] (gmlfeatureclass.cpp is not among
    the sources).  Sections 3 and 4.5: the properties are an ordered
    sequence searched by field name; a new definition goes to the end,
    and is refused when its field name is taken, which is what the
    negative result tested by the caller stands for. *)
Definition GetPropertyIndex (c : GMLFeatureClass) (pszName : string) : Z :=
  let i := first_index (fun p => same_name pszName (m_pszName p))
                       (m_papoProperty c) in
  if (i <? GetPropertyCount c)%nat then Z.of_nat i else (-1)%Z.

Definition GetPropertyByName (c : GMLFeatureClass) (pszName : string)
  : option GMLPropertyDefn :=
  let i := GetPropertyIndex c pszName in
  if (i <? 0)%Z then None else m_papoProperty c !! Z.to_nat i.

Definition AddProperty (poDefn : GMLPropertyDefn) (c : GMLFeatureClass)
  : Z * GMLFeatureClass :=
  match GetPropertyByName c (m_pszName poDefn) with
  | Some _ => ((-1)%Z, c)
  | None =>
      (Z.of_nat (GetPropertyCount c),
       set_m_papoProperty (m_papoProperty c ++ [poDefn]) c)
  end.

(** Modelled from the spec: the constructor
    [GMLPropertyDefn(pszName, pszSrcElement)] and [SetType]
    (gmlpropertydefn.cpp is not among the sources).  Section 4.5.1 widens
    a type from unknown, the type of a definition for which no value has
    been analysed yet; [SetFeatureProperty] sets string itself, and only
    under GML_FIELDTYPES=ALWAYS_STRING. *)
Definition new_GMLPropertyDefn (pszName pszSrcElement : string) :=
  mkGMLPropertyDefn pszName pszSrcElement GMLPT_Untyped.
Definition SetType (t : GMLPropertyType) (p : GMLPropertyDefn) :=
  mkGMLPropertyDefn (m_pszName p) (m_pszSrcElement p) t.

(** Modelled from the spec: [GMLFeature::SetProperty]
    (gmlfeature.cpp is not among the sources).  Section 3: the values are
    an array indexed like the properties of the class; section 4.5: the
    value is stored at the index of the property, and a later value for
    the same property replaces the earlier one. *)
Definition SetProperty (iIndex : nat) (pszValue : string) (f : GMLFeature)
  : GMLFeature :=
  let old := m_papszProperty f in
  let grown := old ++ replicate (S iIndex - length old) None in
  mkGMLFeature (m_poClass f) (m_pszFID f)
               (<[iIndex := Some pszValue]> grown) (m_papsGeometry f).

Definition longest_name (c : GMLFeatureClass) : nat :=
  foldr (fun p n => Nat.max (strlen (m_pszName p)) n) 0 (m_papoProperty c).

(** The loop [while( GetProperty(osFieldName) != NULL ) osFieldName += "_"].
    Each turn makes the name one character longer, and a name longer than
    every field name of the class is free, so the loop is over after at
    most [longest_name c + 1] turns; [turns] counts them down. *)
Fixpoint append_underscores (turns : nat) (c : GMLFeatureClass)
                            (osFieldName : string) : string :=
  match turns with
  | 0 => osFieldName
  | S turns' =>
      match GetPropertyByName c osFieldName with
      | Some _ => append_underscores turns' c (osFieldName +:+ "_")
      | None => osFieldName
      end
  end.

(** The field name [SetFeatureProperty] gives to a new property. *)
Definition new_field_name (c : GMLFeatureClass) (pszElement : string) : string :=
  let osFieldName :=
    match strchr pszElement "|" with
    | None => pszElement
    | Some _ =>
        let after := match strrchr pszElement "|" with
                     | Some t => advance 1 t
                     | None => pszElement
                     end in
        if (GetPropertyIndex c after =? -1)%Z then after else pszElement
    end in
  append_underscores (S (longest_name c)) c osFieldName.

(** The last part of [SetFeatureProperty]: store the value in the feature
    of the top frame and, for an unlocked class, refine the type. *)
Definition store_property (iProperty : nat) (pszValue : string)
    (poFeature : GMLFeature) (poClass : GMLFeatureClass)
    (top : GMLReadState) (below : list GMLReadState) (r : GMLReader)
  : GMLReader :=
  let poFeature' := SetProperty iProperty pszValue poFeature in
  let poClass' :=
    if negb (IsSchemaLocked poClass) then
      match m_papoProperty poClass !! iProperty with
      | Some p =>
          set_m_papoProperty
            (<[iProperty := SetType (AnalysePropertyValue (m_eType p) pszValue)
                                    p]>
               (m_papoProperty poClass)) poClass
      | None => poClass
      end
    else poClass in
  set_m_poState (set_m_poFeature (Some poFeature') top :: below)
    (set_m_papoClass (<[m_poClass poFeature := poClass']> (m_papoClass r)) r).

(** [GMLReader::SetFeatureProperty]; [None] when the top frame holds no
    feature, which the function asserts not to happen, or when the
    feature's class is not in the registry. *)
Definition SetFeatureProperty (pszElement pszValue : string) (r : GMLReader)
  : option GMLReader :=
  match m_poState r with
  | [] => None
  | top :: below =>
      match m_poFeature top with
      | None => None
      | Some poFeature =>
          match m_papoClass r !! m_poClass poFeature with
          | None => None
          | Some poClass =>
              let iProperty :=
                first_index
                  (fun p => strcmp_eq (m_pszSrcElement p) pszElement)
                  (m_papoProperty poClass) in
              if (iProperty =? GetPropertyCount poClass)%nat then
                if IsSchemaLocked poClass then
                  Some (CPLDebug "GML"
                          "Encountered property missing from class schema."
                          r)
                else
                  let osFieldName := new_field_name poClass pszElement in
                  let poPDefn := new_GMLPropertyDefn osFieldName pszElement in
                  let poPDefn :=
                    if EQUAL GML_FIELDTYPES "ALWAYS_STRING"
                    then SetType GMLPT_String poPDefn else poPDefn in
                  let '(iAdded, poClass') := AddProperty poPDefn poClass in
                  if (iAdded <? 0)%Z then Some r
                  else Some (store_property iProperty pszValue poFeature
                                            poClass' top below r)
              else
                Some (store_property iProperty pszValue poFeature poClass
                                     top below r)
          end
      end
  end.

(** *** The global SRS and the class filter *)

(** [GMLReader::SetGlobalSRSName].  [CPLSPrintf] with the format
    [urn:ogc:def:crs:EPSG::%s] puts the argument after the literal text. *)
Definition SetGlobalSRSName (pszGlobalSRSName : option string)
                            (r : GMLReader) : GMLReader :=
  match m_pszGlobalSRSName r, pszGlobalSRSName with
  | None, Some s =>
      if strncmp_eq s "EPSG:" 5 && m_bConsiderEPSGAsURN r
      then set_m_pszGlobalSRSName
             (Some ("urn:ogc:def:crs:EPSG::" +:+ advance 5 s)) r
      else set_m_pszGlobalSRSName (Some s) r
  | _, _ => r
  end.

(** [GMLReader::SetFilteredClassName] *)
Definition SetFilteredClassName (pszClassName : option string)
                                (r : GMLReader) : bool * GMLReader :=
  (true, set_m_pszFilteredClassName pszClassName r).

(** *** The schema file *)

(** The loop of [LoadClasses] over the children of the root. *)
Fixpoint load_class_nodes (l : list CPLXMLNode) (r : GMLReader)
  : bool * GMLReader :=
  match l with
  | [] => (true, SetClassListLocked true r)
  | psThis :: rest =>
      if is_CXT_Element (node_eType psThis)
         && EQUAL (node_pszValue psThis) "GMLFeatureClass"
      then
        match InitializeFromXML psThis with
        | None => (false, r)
        | Some poClass =>
            load_class_nodes rest
              (snd (AddClass (SetSchemaLocked true poClass) r))
        end
      else load_class_nodes rest r
  end.

(** [GMLReader::LoadClasses] *)
Definition LoadClasses (pszFile : option string) (r : GMLReader)
  : bool * GMLReader :=
  match pszFile with
  | None => (false, r)
  | Some file =>
      match read_whole_file file with
      | FileOpenFails =>
          (false, CPLError CE_Failure CPLE_OpenFailed
                    "Failed to open file %s." r)
      | FileAllocFails =>
          (false, CPLError CE_Failure CPLE_AppDefined
                    "Failed to allocate %d byte buffer for %s, is this really a GMLFeatureClassList file?"
                    r)
      | FileReadFails =>
          (false, CPLError CE_Failure CPLE_AppDefined "Read failed on %s." r)
      | FileBytes buf =>
          let pszWholeText := c_str buf in
          if negb (strstr pszWholeText "<GMLFeatureClassList>") then
            (false, CPLError CE_Failure CPLE_AppDefined
                      "File %s does not contain a GMLFeatureClassList tree."
                      r)
          else
            match CPLParseXMLString pszWholeText with
            | None => (false, r)
            | Some psRoot =>
                if negb (is_CXT_Element (node_eType psRoot))
                   || negb (EQUAL (node_pszValue psRoot)
                                  "GMLFeatureClassList")
                then
                  (false, CPLError CE_Failure CPLE_AppDefined
                            "File %s is not a GMLFeatureClassList document."
                            r)
                else load_class_nodes (node_psChild psRoot) r
            end
      end
  end.

(** *** Setting up and tearing down the parser *)

(** [GMLReader::CleanupParser] *)
Definition CleanupParser (r : GMLReader) : GMLReader :=
  if HAVE_XERCES && negb (bUseExpatReader r) && negb (m_poSAXReader r)
  then r
  else if HAVE_EXPAT && bUseExpatReader r && negb (oParser r) then r
  else
    let r1 := Nat.iter (length (m_poState r)) PopState r in
    let r2 :=
      if HAVE_XERCES
      then set_m_poCompleteFeature None
             (set_m_GMLInputSource false (set_m_poSAXReader false r1))
      else r1 in
    let r3 :=
      if HAVE_EXPAT
      then set_nFeatureTabIndex 0 (set_ppoFeatureTab [] (set_oParser false r2))
      else r2 in
    set_m_bReadStarted false r3.

(** [GMLReader::SetupParserXerces] *)
Definition SetupParserXerces (r : GMLReader) : bool * GMLReader :=
  if negb XercesInitializes then
    (false, CPLError CE_Warning CPLE_AppDefined
              "Exception initializing Xerces based GML reader. %s" r)
  else
    let r1 := if m_poSAXReader r then CleanupParser r else r in
    if negb XercesCreatesReader then
      (false, CPLError CE_Warning CPLE_AppDefined
                "Exception initializing Xerces based GML reader." r1)
    else
      let r2 := set_m_poSAXReader true r1 in
      let r3 :=
        if negb (m_GMLInputSource r2) && bool_decide (fpGML r2 <> None)
        then set_m_GMLInputSource true r2 else r2 in
      (true, r3).

(** [GMLReader::SetupParserExpat] *)
Definition SetupParserExpat (r : GMLReader) : bool * GMLReader :=
  let r1 := if oParser r then CleanupParser r else r in
  (true, set_oParser true r1).

(** [GMLReader::SetupParser]; [bRet] is [None] for -1. *)
Definition SetupParser (r : GMLReader) : bool * GMLReader :=
  let r1 :=
    match fpGML r with
    | None =>
        match m_pszFilename r with
        | Some name =>
            set_fpGML (option_map (fun d => mkVSILFILE d d) (VSIFOpenL name)) r
        | None => r
        end
    | Some _ => r
    end in
  let r2 :=
    match fpGML r1 with
    | Some fp => set_fpGML (Some (VSIFSeekL_start fp)) r1
    | None => r1
    end in
  let '(bRet, r3) :=
    if HAVE_EXPAT && bUseExpatReader r2
    then let '(b, r') := SetupParserExpat r2 in (Some b, r')
    else (None, r2) in
  let '(bRet, r4) :=
    if HAVE_XERCES && negb (bUseExpatReader r3)
    then let '(b, r') := SetupParserXerces r3 in (Some b, r')
    else (bRet, r3) in
  match bRet with
  | None =>
      (false, CPLError CE_Failure CPLE_AppDefined
                "SetupParser(): shouldn't happen" r4)
  | Some false => (false, r4)
  | Some true =>
      (true, PushState new_GMLReadState (set_m_bReadStarted false r4))
  end.

(** *** Parsing *)

(** Modelled from the spec: [GMLReadState::PushPath], [PopPath] and
    [GMLFeature::AddGeometry] (gmlreadstate.cpp and gmlfeature.cpp are not
    among the sources).  Section 3: the path is the sequence of element
    names visited since the feature element; section 5: geometry
    elements are appended in document order. *)
Definition PushPath (pszElement : string) (s : GMLReadState) :=
  set_m_papszPathComponents (m_papszPathComponents s ++ [pszElement]) s.
Definition PopPath (s : GMLReadState) :=
  set_m_papszPathComponents (removelast (m_papszPathComponents s)) s.
Definition AddGeometry (psGeom : CPLXMLNode) (f : GMLFeature) :=
  mkGMLFeature (m_poClass f) (m_pszFID f) (m_papszProperty f)
               (m_papsGeometry f ++ [psGeom]).

Definition on_top_state (g : GMLReadState -> GMLReadState) (r : GMLReader) :=
  match m_poState r with
  | [] => r
  | top :: below => set_m_poState (g top :: below) r
  end.

(** One call of the handler into the reader.  The handler calls
    [SetFeatureProperty] inside a feature only; elsewhere the call is
    taken to leave the reader as it is. *)
Definition apply_call (c : handler_call) (r : GMLReader) : GMLReader :=
  match c with
  | HPushFeature pszElement pszFID => PushFeature pszElement pszFID r
  | HPopState => PopState r
  | HSetFeatureProperty pszElement pszValue =>
      match SetFeatureProperty pszElement pszValue r with
      | Some r' => r'
      | None => r
      end
  | HPushPath pszElement => on_top_state (PushPath pszElement) r
  | HPopPath => on_top_state PopPath r
  | HAddGeometry psGeom =>
      on_top_state
        (fun s => set_m_poFeature (AddGeometry psGeom <$> m_poFeature s) s) r
  | HSetGlobalSRSName pszGlobalSRSName =>
      SetGlobalSRSName (Some pszGlobalSRSName) r
  end.

Definition run_calls (l : list handler_call) (r : GMLReader) : GMLReader :=
  foldl (fun r c => apply_call c r) r l.

Definition unread_steps (r : GMLReader) : list parse_step :=
  match fpGML r with Some fp => unread fp | None => [] end.

Definition set_unread (steps : list parse_step) (r : GMLReader) : GMLReader :=
  match fpGML r with
  | Some fp => set_fpGML (Some (mkVSILFILE (document fp) steps)) r
  | None => r
  end.

(** [parseFirst] and [parseNext] of the pull backend: one step of the
    input, with the calls the handler makes during it. *)
Definition xerces_parse (r : GMLReader) : parse_outcome * GMLReader :=
  match unread_steps r with
  | [] => (ParseFail, r)
  | s :: rest => (outcome s, run_calls (calls s) (set_unread rest r))
  end.

(** [while( m_poCompleteFeature == NULL && !m_bStopParsing
            && m_poSAXReader->parseNext( m_oToFill ) ) {}]
    over the steps not read yet.  The result carries the steps left and
    the exception that ended the loop, if one did. *)
Fixpoint xerces_parse_loop (steps : list parse_step) (r : GMLReader)
         {struct steps} : list parse_step * GMLReader * option parse_outcome :=
  if bool_decide (m_poCompleteFeature r = None) && negb (m_bStopParsing r)
  then
    match steps with
    | [] => ([], r, None)
    | s :: rest =>
        let r' := run_calls (calls s) r in
        match outcome s with
        | ParseOk => xerces_parse_loop rest r'
        | ParseFail => (rest, r', None)
        | exc => (rest, r', Some exc)
        end
    end
  else (steps, r, None).

(** How the [try] block of [NextFeatureXerces] ends: it reaches the end
    with [poReturn], an exception leaves it, or [parseFirst] or [parseNext]
    is called through [m_poSAXReader] while that pointer is NULL.  In the
    last case the call does not return; the reader is the one at the
    dereference. *)
Inductive try_result :=
| Returns (poReturn : option GMLFeature) (r : GMLReader)
| Raises (exc : parse_outcome) (r : GMLReader)
| Faults (r : GMLReader).

Definition NextFeatureXerces_try (r : GMLReader) : try_result :=
  let first :=
    if negb (m_bReadStarted r) then
      let r1 := if negb (m_poSAXReader r) then snd (SetupParser r) else r in
      let r2 := set_m_bReadStarted true r1 in
      if negb (m_GMLInputSource r2) then inl (Returns None r2)
      else if negb (m_poSAXReader r2) then inl (Faults r2)
      else
        match xerces_parse r2 with
        | (ParseOk, r3) => inr r3
        | (ParseFail, r3) => inl (Returns None r3)
        | (exc, r3) => inl (Raises exc r3)
        end
    else inr r in
  match first with
  | inl res => res
  | inr r4 =>
      if bool_decide (m_poCompleteFeature r4 = None)
         && negb (m_bStopParsing r4) && negb (m_poSAXReader r4)
      then Faults r4
      else
        let '(rest, r5, exc) := xerces_parse_loop (unread_steps r4) r4 in
        let r6 := set_unread rest r5 in
        match exc with
        | Some e => Raises e r6
        | None =>
            Returns (m_poCompleteFeature r6) (set_m_poCompleteFeature None r6)
        end
  end.

(** [GMLReader::NextFeatureXerces].  A call that faults has no result: the
    pair then holds no feature and the reader at the dereference, and
    [NextFeatureXerces_try] tells such a call from one that returns NULL. *)
Definition NextFeatureXerces (r : GMLReader) : option GMLFeature * GMLReader :=
  match NextFeatureXerces_try r with
  | Returns poReturn r' => (poReturn, r')
  | Raises ThrowsSAXException r' =>
      (None, set_m_bStopParsing true
               (CPLError CE_Failure CPLE_AppDefined "%s" r'))
  | Raises _ r' =>
      (None, set_m_bStopParsing true
               (CPLDebug "GML" "Error during NextFeature()! Message: %s" r'))
  | Faults r' => (None, r')
  end.

(** The [do ... while] loop of [NextFeatureExpat] over the buffers not read
    yet; [nDone] holds when the buffer just read was the last one. *)
Fixpoint expat_parse_loop (steps : list parse_step) (r : GMLReader)
         {struct steps} : list parse_step * GMLReader :=
  match steps with
  | [] => ([], r)
  | s :: rest =>
      let r1 := run_calls (calls s) r in
      let nDone := match rest with [] => true | _ => false end in
      let r2 :=
        match outcome s with
        | ParseOk => r1
        | _ =>
            set_m_bStopParsing true
              (CPLError CE_Failure CPLE_AppDefined
                 "XML parsing of GML file failed : %s at line %d, column %d"
                 r1)
        end in
      let r3 :=
        if negb (m_bStopParsing r2)
        then set_m_bStopParsing (handler_stopped s) r2 else r2 in
      if negb nDone && negb (m_bStopParsing r3)
         && (length (ppoFeatureTab r3) =? 0)%nat
      then expat_parse_loop rest r3
      else (rest, r3)
  end.

(** [GMLReader::NextFeatureExpat] *)
Definition NextFeatureExpat (r : GMLReader) : option GMLFeature * GMLReader :=
  let r1 :=
    if negb (m_bReadStarted r) then
      set_m_bReadStarted true
        (if negb (oParser r) then snd (SetupParser r) else r)
    else r in
  match fpGML r1 with
  | None => (None, r1)
  | Some fp =>
      if m_bStopParsing r1 then (None, r1)
      else if (nFeatureTabIndex r1 <? length (ppoFeatureTab r1))%nat then
        (ppoFeatureTab r1 !! nFeatureTabIndex r1,
         set_nFeatureTabIndex (S (nFeatureTabIndex r1)) r1)
      else if VSIFEofL fp then (None, r1)
      else
        let r2 := set_nFeatureTabIndex 0 (set_ppoFeatureTab [] r1) in
        let '(rest, r3) := expat_parse_loop (unread fp) r2 in
        let r4 := set_unread rest r3 in
        if (length (ppoFeatureTab r4) =? 0)%nat then (None, r4)
        else (ppoFeatureTab r4 !! nFeatureTabIndex r4,
              set_nFeatureTabIndex (S (nFeatureTabIndex r4)) r4)
  end.

(** [GMLReader::NextFeature] *)
Definition NextFeature (r : GMLReader) : option GMLFeature * GMLReader :=
  if HAVE_EXPAT && bUseExpatReader r then NextFeatureExpat r
  else if HAVE_XERCES && negb (bUseExpatReader r) then NextFeatureXerces r
  else (None, CPLError CE_Failure CPLE_AppDefined
                "NextFeature(): Should not happen" r).

(** *** Prescanning *)

(** The macros [MIN] and [MAX] on doubles. *)
Definition MIN (a b : float) : float := if PrimFloat.ltb a b then a else b.
Definition MAX (a b : float) : float := if PrimFloat.ltb b a then a else b.

(** The body of the [while] loop of [PrescanForSchema] for one feature
    that [NextFeature] returned.  The class of the feature is read from
    and written back to the registry. *)
Definition prescan_feature (bGetExtents : bool) (poFeature : GMLFeature)
                           (r : GMLReader) : GMLReader :=
  match m_papoClass r !! m_poClass poFeature with
  | None => r
  | Some poClass =>
      let counted :=
        if (m_nFeatureCount poClass =? -1)%Z then SetFeatureCount 1 poClass
        else SetFeatureCount (m_nFeatureCount poClass + 1) poClass in
      let '(poClass', bCanUse) :=
        if bGetExtents then
          match GML_BuildOGRGeometryFromList (m_papsGeometry poFeature)
                  (m_bInvertAxisOrderIfLatLong r) (m_bConsiderEPSGAsURN r)
          with
          | Some poGeometry =>
              let eGType := m_nGeometryType counted in
              let pszSRSName :=
                GML_ExtractSrsNameFromGeometry (m_papsGeometry poFeature)
                  (m_bConsiderEPSGAsURN r) in
              let bCanUse :=
                match pszSRSName with
                | Some _ => false
                | None => m_bCanUseGlobalSRSName r
                end in
              let merged :=
                set_srs_state
                  (MergeSRSName (m_pszSRSName counted,
                                 m_bSRSNameConsistent counted) pszSRSName)
                  counted in
              let eGType :=
                if (m_nFeatureCount merged =? 1)%Z && (eGType =? wkbUnknown)%Z
                then wkbNone else eGType in
              let typed :=
                SetGeometryType
                  (OGRMergeGeometryTypes eGType (getGeometryType poGeometry))
                  merged in
              let extended :=
                if negb (IsEmpty poGeometry) then
                  let sEnvelope := getEnvelope poGeometry in
                  match m_oExtents typed with
                  | Some (dfXMin, dfXMax, dfYMin, dfYMax) =>
                      SetExtents (MIN dfXMin (MinX sEnvelope),
                                  MAX dfXMax (MaxX sEnvelope),
                                  MIN dfYMin (MinY sEnvelope),
                                  MAX dfYMax (MaxY sEnvelope)) typed
                  | None =>
                      SetExtents (MinX sEnvelope, MaxX sEnvelope,
                                  MinY sEnvelope, MaxY sEnvelope) typed
                  end
                else typed in
              (extended, bCanUse)
          | None => (counted, m_bCanUseGlobalSRSName r)
          end
        else (counted, m_bCanUseGlobalSRSName r) in
      set_m_bCanUseGlobalSRSName bCanUse
        (set_m_papoClass (<[m_poClass poFeature := poClass']> (m_papoClass r))
                         r)
  end.

(** The body of the [for] loop over the classes that follows the scan. *)
Definition fix_axis_order (r : GMLReader) (poClass : GMLFeatureClass)
  : GMLFeatureClass :=
  let pszSRSName :=
    if m_bCanUseGlobalSRSName r then m_pszGlobalSRSName r
    else m_pszSRSName poClass in
  if m_bInvertAxisOrderIfLatLong r && GML_IsSRSLatLongOrder pszSRSName then
    match SetFromUserInput pszSRSName with
    | Some oSRS =>
        if HasGEOGCS oSRS then
          let stripped := StripAxisNodes oSRS in
          let renamed :=
            match exportToWkt stripped with
            | Some pszWKT => SetSRSName (Some pszWKT) poClass
            | None => poClass
            end in
          if m_bCanUseGlobalSRSName r then
            match m_oExtents renamed with
            | Some (dfXMin, dfXMax, dfYMin, dfYMax) =>
                SetExtents (dfYMin, dfYMax, dfXMin, dfXMax) renamed
            | None => renamed
            end
          else renamed
        else poClass
    | None => poClass
    end
  else poClass.

(** The weight of what a reader can still deliver: every step not read
    yet, every call in such a step, every feature waiting in the table or
    in the slot.  Each feature [NextFeature] returns makes it smaller, so
    it bounds the turns of the scan loop. *)
Definition step_weight (s : parse_step) : nat := S (length (calls s)).
Definition pending_weight (r : GMLReader) : nat :=
  sum_list (step_weight <$> unread_steps r)
  + (length (ppoFeatureTab r) - nFeatureTabIndex r)
  + (match m_poCompleteFeature r with Some _ => 1 | None => 0 end).

(** [while( (poFeature = NextFeature()) != NULL ) { ... }] *)
Fixpoint prescan_loop (turns : nat) (bGetExtents : bool) (r : GMLReader)
  : GMLReader :=
  match turns with
  | 0 => r
  | S turns' =>
      match NextFeature r with
      | (Some poFeature, r') =>
          prescan_loop turns' bGetExtents
                       (prescan_feature bGetExtents poFeature r')
      | (None, r') => r'
      end
  end.

(** [GMLReader::PrescanForSchema] up to the end of the scan loop; on the left
    the reader with which the function has returned FALSE before it. *)
Definition prescan_scan (bGetExtents : bool) (r : GMLReader)
  : GMLReader + GMLReader :=
  match m_pszFilename r with
  | None => inl r
  | Some _ =>
      let r1 := ClearClasses (SetClassListLocked false r) in
      let '(ok, r2) := SetupParser r1 in
      if negb ok then inl r2
      else
        let r3 := set_m_bCanUseGlobalSRSName true r2 in
        inr (prescan_loop (S (pending_weight r3)) bGetExtents r3)
  end.

(** [GMLReader::PrescanForSchema] *)
Definition PrescanForSchema (bGetExtents : bool) (r : GMLReader)
  : bool * GMLReader :=
  match prescan_scan bGetExtents r with
  | inl r' => (false, r')
  | inr r4 =>
      let r5 :=
        set_m_papoClass (fix_axis_order r4 <$> m_papoClass r4) r4 in
      let r6 := CleanupParser r5 in
      ((0 <? GetClassCount r6)%Z, r6)
  end.

(** [GMLReader::ResetReading] *)
Definition ResetReading (r : GMLReader) : GMLReader :=
  snd (SetFilteredClassName None (CleanupParser r)).
End Reader.

(** ** An instance of the collaborators

    The theorems below hold for every [Environment].  The examples, the
    witnesses and the counterexamples evaluate the reader in the small
    environment defined here. *)

Inductive token_kind := TokInteger | TokReal | TokString.

Definition is_digit (c : ascii) : bool :=
  let n := nat_of_ascii c in (48 <=? n)%nat && (n <=? 57)%nat.

Definition skip_sign (s : string) : string :=
  match s with
  | String "+"%char s' | String "-"%char s' => s'
  | _ => s
  end.

(** The number of leading digits and what follows them. *)
Fixpoint span_digits (s : string) : nat * string :=
  match s with
  | String c s' =>
      if is_digit c then let '(n, rest) := span_digits s' in (S n, rest)
      else (0, s)
  | EmptyString => (0, s)
  end.

Definition exponent_or_end (s : string) : bool :=
  match s with
  | EmptyString => true
  | String c s' =>
      (Ascii.eqb c "e" || Ascii.eqb c "E")
      && (let '(n, rest) := span_digits (skip_sign s') in
          (0 <? n)%nat && String.eqb rest "")
  end.

(** A signed decimal integer, a decimal real, or anything else. *)
Definition classify_token (tok : string) : token_kind :=
  let '(n1, r1) := span_digits (skip_sign tok) in
  match r1 with
  | EmptyString => if (0 <? n1)%nat then TokInteger else TokString
  | String "."%char r2 =>
      let '(n2, r3) := span_digits r2 in
      if (0 <? n1 + n2)%nat && exponent_or_end r3 then TokReal else TokString
  | _ => if (0 <? n1)%nat && exponent_or_end r1 then TokReal else TokString
  end.

Definition wider (a b : token_kind) : token_kind :=
  match a, b with
  | TokString, _ | _, TokString => TokString
  | TokReal, _ | _, TokReal => TokReal
  | TokInteger, TokInteger => TokInteger
  end.

(** Modelled from the spec: [GMLPropertyDefn::AnalysePropertyValue]
    (gmlpropertydefn.cpp is not among the sources), after section 4.5.1: an
    empty or blank value changes nothing; an integer widens unknown to
    integer; a real widens unknown and integer to real; any other text
    widens to string; several tokens move the type to the list variant of
    the widest element type; no type is ever narrowed, and string and
    string list are final. *)
Definition AnalysePropertyValue_widening (eType : GMLPropertyType)
                                         (pszValue : string)
  : GMLPropertyType :=
  match String.words pszValue with
  | [] => eType
  | tok :: more =>
      let seen := foldr (fun t k => wider (classify_token t) k)
                        (classify_token tok) more in
      let several := match more with [] => false | _ => true end in
      let '(held, listed) :=
        match eType with
        | GMLPT_Untyped => (None, false)
        | GMLPT_Integer => (Some TokInteger, false)
        | GMLPT_Real => (Some TokReal, false)
        | GMLPT_String => (Some TokString, false)
        | GMLPT_IntegerList => (Some TokInteger, true)
        | GMLPT_RealList => (Some TokReal, true)
        | GMLPT_StringList => (Some TokString, true)
        | GMLPT_Complex => (None, false)
        end in
      let element := match held with Some k => wider k seen | None => seen end in
      match eType with
      | GMLPT_Complex => GMLPT_Complex
      | _ =>
          match element, listed || several with
          | TokInteger, false => GMLPT_Integer
          | TokReal, false => GMLPT_Real
          | TokString, false => GMLPT_String
          | TokInteger, true => GMLPT_IntegerList
          | TokReal, true => GMLPT_RealList
          | TokString, true => GMLPT_StringList
          end
      end
  end.

(** The first SRS name a class meets stays; a different one marks the
    class. *)
Definition sample_MergeSRSName (st : option string * bool)
                               (pszSRSName : option string)
  : option string * bool :=
  match fst st, pszSRSName with
  | None, _ => (pszSRSName, snd st)
  | Some held, Some met => (Some held, snd st && String.eqb held met)
  | Some held, None => (Some held, false)
  end.

(** A geometry list that is not empty builds a point with a fixed envelope. *)
Definition sample_envelope : OGREnvelope :=
  mkOGREnvelope 10%float 20%float 50%float 60%float.

Definition sample_BuildGeometry (l : list CPLXMLNode) (bInvert bURN : bool)
  : option OGRGeometry :=
  match l with
  | [] => None
  | _ :: _ => Some (mkOGRGeometry 1 false sample_envelope)
  end.

(** The value of the [srsName] attribute of the first geometry element, an
    [EPSG:] name in its URN form when that is asked for. *)
Definition sample_ExtractSrsName (l : list CPLXMLNode) (bURN : bool)
  : option string :=
  match l with
  | XMLNode _ _ (XMLNode CXT_Attribute "srsName" [XMLNode CXT_Text v []] :: _)
    :: _ =>
      if bURN && strncmp_eq v "EPSG:" 5
      then Some ("urn:ogc:def:crs:EPSG::" +:+ advance 5 v) else Some v
  | _ => None
  end.

(** A URN that names code 4326 counts as latitude first. *)
Definition sample_IsSRSLatLongOrder (pszSRSName : option string) : bool :=
  match pszSRSName with
  | Some s => starts_with "urn:" s && strstr s ":4326"
  | None => false
  end.

Definition sample_MergeGeometryTypes (eMain eExtra : Z) : Z :=
  if (eMain =? wkbNone)%Z then eExtra
  else if (eMain =? eExtra)%Z then eMain else wkbUnknown.

(** A spatial reference is its name and whether it still has AXIS nodes;
    only [EPSG:] names and EPSG URNs parse. *)
Record sample_srs := mkSampleSRS { srs_name : string; srs_axis : bool }.

Definition sample_SetFromUserInput (pszSRSName : option string)
  : option sample_srs :=
  match pszSRSName with
  | Some s =>
      if starts_with "EPSG:" s || starts_with "urn:ogc:def:crs:EPSG::" s
      then Some (mkSampleSRS s true) else None
  | None => None
  end.

Definition sample_exportToWkt (s : sample_srs) : option string :=
  Some ("GEOGCS[" +:+ srs_name s
        +:+ (if srs_axis s then ",AXIS[Lat],AXIS[Long]]" else "]")).

(** A class element of a schema file, read from its [Name] child. *)
Definition sample_InitializeFromXML (n : CPLXMLNode) : option GMLFeatureClass :=
  match node_psChild n with
  | XMLNode CXT_Element "Name" [XMLNode CXT_Text v []] :: _ =>
      Some (new_GMLFeatureClass v)
  | _ => None
  end.

(** The environment of the examples: both backends built in, one GML
    document [doc] under the name [sample.gml], one schema file whose
    reading gives [schema] and whose text parses to [tree]. *)
Definition sample_env (fieldtypes : string) (doc : list parse_step)
                      (schema : file_read) (tree : option CPLXMLNode)
  : Environment :=
  {| HAVE_XERCES := true;
     HAVE_EXPAT := true;
     GML_FIELDTYPES := fieldtypes;
     VSIFOpenL := fun name => if String.eqb name "sample.gml" then Some doc
                              else None;
     XercesInitializes := true;
     XercesCreatesReader := true;
     read_whole_file := fun _ => schema;
     CPLParseXMLString := fun _ => tree;
     InitializeFromXML := sample_InitializeFromXML;
     AnalysePropertyValue := AnalysePropertyValue_widening;
     MergeSRSName := sample_MergeSRSName;
     GML_BuildOGRGeometryFromList := sample_BuildGeometry;
     GML_ExtractSrsNameFromGeometry := sample_ExtractSrsName;
     GML_IsSRSLatLongOrder := sample_IsSRSLatLongOrder;
     OGRMergeGeometryTypes := sample_MergeGeometryTypes;
     OGRSpatialReference := sample_srs;
     SetFromUserInput := sample_SetFromUserInput;
     HasGEOGCS := fun _ => true;
     StripAxisNodes := fun s => mkSampleSRS (srs_name s) false;
     exportToWkt := sample_exportToWkt |}.

(** * Properties *)

(** ** Strings *)

Lemma strcmp_eq_true (a b : string) : strcmp_eq a b = true <-> a = b.
Proof. unfold strcmp_eq. apply String.eqb_eq. Qed.

Lemma strcmp_eq_refl (s : string) : strcmp_eq s s = true.
Proof. by apply strcmp_eq_true. Qed.

Lemma strcmp_eq_strlen (a b : string) :
  strcmp_eq a b = true -> strlen a = strlen b.
Proof. by intros ->%strcmp_eq_true. Qed.

Lemma EQUAL_refl (s : string) : EQUAL s s = true.
Proof.
  induction s as [|c s IH]; simpl; [done|].
  by rewrite Ascii.eqb_refl, IH.
Qed.

Lemma EQUAL_strlen (a b : string) : EQUAL a b = true -> strlen a = strlen b.
Proof.
  revert b. induction a as [|x a IH]; intros [|y b]; simpl; try done.
  intros [_ H]%andb_true_iff. by rewrite (IH b H).
Qed.



(** The two comparisons [GetPropertyIndex] may apply. *)
Definition strcmp_names : FieldNameComparison :=
  {| same_name := strcmp_eq;
     same_name_refl := strcmp_eq_refl;
     same_name_strlen := strcmp_eq_strlen |}.

Definition EQUAL_names : FieldNameComparison :=
  {| same_name := EQUAL;
     same_name_refl := EQUAL_refl;
     same_name_strlen := EQUAL_strlen |}.

Lemma strlen_app (a b : string) : strlen (a +:+ b) = strlen a + strlen b.
Proof. induction a as [|x a IH]; simpl; [done|]. by rewrite IH. Qed.

Lemma strncmp_eq_prefix (s p : string) :
  strncmp_eq s p (strlen p) = true <-> exists rest, s = p +:+ rest.
Proof.
  revert s. induction p as [|y p IH]; intros s; simpl.
  - split; [intros _; exists s; reflexivity | done].
  - destruct s as [|x s]; simpl.
    + split; [discriminate | intros [rest H]; discriminate H].
    + rewrite andb_true_iff, IH. split.
      * intros [->%Ascii.eqb_eq [rest ->]]. by exists rest.
      * intros [rest H]. injection H as -> ->.
        split; [apply Ascii.eqb_refl | by exists rest].
Qed.

Lemma advance_app (p rest : string) : advance (strlen p) (p +:+ rest) = rest.
Proof. induction p as [|y p IH]; simpl; [by destruct rest | done]. Qed.

(** ** GetClass by index *)

Section Registry.

Lemma GetClass_in_range (r : GMLReader) (iClass : Z) :
  (0 <= iClass < GetClassCount r)%Z ->
  GetClass r iClass = m_papoClass r !! Z.to_nat iClass
  /\ is_Some (GetClass r iClass).
Proof.
  intros [H0 H1]. unfold GetClass.
  destruct (Z.ltb_spec iClass 0); [lia|].
  destruct (Z.geb_spec iClass (GetClassCount r)); [lia|]. simpl.
  split; [done|]. apply lookup_lt_is_Some. unfold GetClassCount in *. lia.
Qed.

Lemma GetClass_out_of_range (r : GMLReader) (iClass : Z) :
  (iClass < 0 \/ iClass >= GetClassCount r)%Z -> GetClass r iClass = None.
Proof.
  intros H. unfold GetClass.
  destruct (Z.ltb_spec iClass 0); [done|].
  destruct (Z.geb_spec iClass (GetClassCount r)); [done|lia].
Qed.

(** C9.  [GetClass(int)] is defined for every integer: it is NULL exactly
    when the index is negative or not below the class count, and otherwise
    it is the class at that position of the registry; [AddClass] puts a
    class at the position it returns, the count before the call, and leaves
    the classes at the earlier positions where they were, so positions
    follow the order of insertion. *)
Theorem GetClass_index_total (r : GMLReader) (iClass : Z) :
  ((iClass < 0 \/ iClass >= GetClassCount r)%Z <-> GetClass r iClass = None)
  /\ ((0 <= iClass < GetClassCount r)%Z <->
      exists c, GetClass r iClass = Some c
                /\ m_papoClass r !! Z.to_nat iClass = Some c)
  /\ (forall poNewClass,
        fst (AddClass poNewClass r) = GetClassCount r
        /\ GetClass (snd (AddClass poNewClass r)) (GetClassCount r)
           = Some poNewClass
        /\ ((0 <= iClass < GetClassCount r)%Z ->
            GetClass (snd (AddClass poNewClass r)) iClass = GetClass r iClass)).
Proof.
  assert (Hdec : (iClass < 0 \/ iClass >= GetClassCount r
                  \/ 0 <= iClass < GetClassCount r)%Z) by lia.
  split; [|split].
  - split; [apply GetClass_out_of_range|].
    intros Hnone. destruct Hdec as [?|[?|Hin]]; [lia..|].
    destruct (GetClass_in_range r iClass Hin) as [_ [c Hc]]. congruence.
  - split.
    + intros Hin. destruct (GetClass_in_range r iClass Hin) as [Heq [c Hc]].
      exists c. split; [done | by rewrite <- Heq].
    + intros [c [Hc _]]. destruct Hdec as [?|[?|Hin]]; [..|done];
        rewrite GetClass_out_of_range in Hc by lia; discriminate.
  - intros c. unfold AddClass. simpl.
    assert (Hcount : GetClassCount (set_m_papoClass (m_papoClass r ++ [c]) r)
                     = (GetClassCount r + 1)%Z).
    { unfold GetClassCount. simpl. rewrite length_app. simpl. lia. }
    split; [lia|]. split.
    + destruct (GetClass_in_range (set_m_papoClass (m_papoClass r ++ [c]) r)
                  (GetClassCount r)) as [-> _].
      { rewrite Hcount. unfold GetClassCount. lia. }
      simpl. unfold GetClassCount. rewrite Nat2Z.id.
      by rewrite lookup_app_r, Nat.sub_diag.
    + intros Hin.
      destruct (GetClass_in_range (set_m_papoClass (m_papoClass r ++ [c]) r)
                  iClass) as [-> _]; [lia|].
      destruct (GetClass_in_range r iClass Hin) as [-> _]. simpl.
      apply lookup_app_l. unfold GetClassCount in Hin. lia.
Qed.

End Registry.

(** ** SetGlobalSRSName *)

Section GlobalSRS.

Lemma SetGlobalSRSName_stored (s : string) (r : GMLReader) :
  m_pszGlobalSRSName r <> None -> SetGlobalSRSName (Some s) r = r.
Proof. unfold SetGlobalSRSName. by destruct (m_pszGlobalSRSName r). Qed.

Lemma SetGlobalSRSName_stores (s : string) (r : GMLReader) :
  m_pszGlobalSRSName r = None ->
  m_pszGlobalSRSName (SetGlobalSRSName (Some s) r) <> None.
Proof.
  intros H. unfold SetGlobalSRSName. rewrite H.
  by destruct (strncmp_eq s "EPSG:" 5 && m_bConsiderEPSGAsURN r).
Qed.

(** C6.  [SetGlobalSRSName] changes the reader only when no global SRS is
    stored: with one stored, and with a NULL argument, the reader stays as
    it is, so after a first call with a name every later call changes
    nothing, the same call repeated included.  When it stores, only the
    global SRS changes: a name [EPSG:<code>] under bConsiderEPSGAsURN is
    stored as [urn:ogc:def:crs:EPSG::<code>], every other name, and every
    name without the flag, as it is. *)
Theorem SetGlobalSRSName_one_shot (s later : string) (r : GMLReader) :
  (m_pszGlobalSRSName r <> None -> SetGlobalSRSName (Some s) r = r)
  /\ SetGlobalSRSName None r = r
  /\ SetGlobalSRSName (Some later) (SetGlobalSRSName (Some s) r)
     = SetGlobalSRSName (Some s) r
  /\ (m_pszGlobalSRSName r = None ->
      (forall code, s = "EPSG:" +:+ code -> m_bConsiderEPSGAsURN r = true ->
         SetGlobalSRSName (Some s) r
         = set_m_pszGlobalSRSName
             (Some ("urn:ogc:def:crs:EPSG::" +:+ code)) r)
      /\ ((~ exists code, s = "EPSG:" +:+ code)
          \/ m_bConsiderEPSGAsURN r = false ->
          SetGlobalSRSName (Some s) r = set_m_pszGlobalSRSName (Some s) r)).
Proof.
  split; [apply SetGlobalSRSName_stored|].
  split; [unfold SetGlobalSRSName; by destruct (m_pszGlobalSRSName r)|].
  split.
  - destruct (m_pszGlobalSRSName r) as [g|] eqn:Hg.
    + rewrite (SetGlobalSRSName_stored s r) by congruence.
      apply SetGlobalSRSName_stored. congruence.
    + apply SetGlobalSRSName_stored. by apply SetGlobalSRSName_stores.
  - intros Hnone. unfold SetGlobalSRSName. rewrite Hnone.
    pose proof (strncmp_eq_prefix s "EPSG:") as Hp. simpl strlen in Hp.
    split.
    + intros code -> ->.
      destruct Hp as [_ ->]; [|by exists code]. simpl andb. cbv iota.
      pose proof (advance_app "EPSG:" code) as Ha. simpl strlen in Ha.
      by rewrite Ha.
    + intros [Hno | ->].
      * destruct (strncmp_eq s "EPSG:" 5); [|done].
        exfalso. apply Hno. by apply Hp.
      * by rewrite andb_false_r.
Qed.

End GlobalSRS.

(** ** Loops with a break *)

Lemma first_index_le {A} (test : A -> bool) (l : list A) :
  first_index test l <= length l.
Proof. induction l as [|x l IH]; simpl; [done|]. destruct (test x); lia. Qed.

Lemma first_index_none {A} (test : A -> bool) (l : list A) :
  first_index test l = length l <-> forall x, x ∈ l -> test x = false.
Proof.
  induction l as [|x l IH]; simpl.
  - split; [intros _ x Hx; inversion Hx | done].
  - destruct (test x) eqn:Hx.
    + split; [done|]. intros H. rewrite H in Hx; [done | by left].
    + split.
      * intros [= H] y [-> | Hy]%elem_of_cons; [done|]. by apply IH.
      * intros H. f_equal. apply IH. intros y Hy. apply H. by right.
Qed.

Lemma first_index_found {A} (test : A -> bool) (l : list A) :
  first_index test l < length l ->
  exists x, l !! first_index test l = Some x /\ test x = true.
Proof.
  induction l as [|x l IH]; simpl; [lia|].
  destruct (test x) eqn:Hx; [by exists x|].
  intros H. apply IH. lia.
Qed.


Lemma first_index_app_new {A} (test : A -> bool) (l : list A) (x : A) :
  first_index test l = length l -> test x = true ->
  first_index test (l ++ [x]) = length l.
Proof.
  induction l as [|y l IH]; simpl; intros H Hx; [by rewrite Hx|].
  destruct (test y); [done|]. f_equal. apply IH; [lia | done].
Qed.

(** ** SetFeatureProperty on a locked schema *)

Section LockedSchema.
Context {env : Environment} {names : FieldNameComparison}.

(** C7.  When no property of the class of the current feature has the
    element path as its source element and the schema of that class is
    locked, [SetFeatureProperty] returns with the registry, and so the
    property list of the class, and the stack of read states, and so the
    values of the feature, as they were; all it does is to append one debug
    message to the log, which is no error. *)
Theorem SetFeatureProperty_locked_schema_drops
    (pszElement pszValue : string) (r : GMLReader)
    (top : GMLReadState) (below : list GMLReadState)
    (poFeature : GMLFeature) (poClass : GMLFeatureClass) :
  m_poState r = top :: below ->
  m_poFeature top = Some poFeature ->
  m_papoClass r !! m_poClass poFeature = Some poClass ->
  IsSchemaLocked poClass = true ->
  (forall p, p ∈ m_papoProperty poClass -> m_pszSrcElement p <> pszElement) ->
  exists r',
    SetFeatureProperty pszElement pszValue r = Some r'
    /\ m_papoClass r' = m_papoClass r
    /\ m_poState r' = m_poState r
    /\ set_cpl_log (cpl_log r) r' = r
    /\ (exists message, cpl_log r' = cpl_log r ++ [LogDebug "GML" message])
    /\ filter (fun e => is_error e = true) (cpl_log r')
       = filter (fun e => is_error e = true) (cpl_log r).
Proof.
  intros Hst Hf Hc Hlocked Hnone.
  unfold SetFeatureProperty. rewrite Hst, Hf, Hc.
  assert (Hidx : first_index
                   (fun p => strcmp_eq (m_pszSrcElement p) pszElement)
                   (m_papoProperty poClass) = GetPropertyCount poClass).
  { apply first_index_none. intros p Hp.
    destruct (strcmp_eq (m_pszSrcElement p) pszElement) eqn:E; [|done].
    apply strcmp_eq_true in E. by destruct (Hnone p Hp). }
  rewrite Hidx, Nat.eqb_refl, Hlocked.
  eexists. split; [done|]. simpl.
  split; [done|]. split; [done|]. split; [by destruct r|].
  split; [by eexists|].
  rewrite filter_app. simpl. rewrite filter_cons_False, filter_nil.
  - by rewrite app_nil_r.
  - simpl. done.
Qed.

End LockedSchema.

(** A reader of the sample environment that is inside a feature of the
    class at position 0, with the given path below the feature element. *)
Definition reader_in_feature (classes : list GMLFeatureClass) (locked : bool)
                             (path : list string) : GMLReader :=
  mkGMLReader true classes locked
    [mkGMLReadState (Some (mkGMLFeature 0 None [] [])) path; new_GMLReadState]
    false false None true [] 0 None true false (Some "sample.gml")
    false false None false None [].

Definition plain_env : Environment := sample_env "" [] FileOpenFails None.

Definition locked_Road : GMLFeatureClass :=
  mkGMLFeatureClass "Road" "Road" [mkGMLPropertyDefn "name" "name" GMLPT_String]
                    true 1 wkbUnknown None None true.

Lemma SetFeatureProperty_locked_schema_drops_witness :
  exists r',
    @SetFeatureProperty plain_env strcmp_names "width" "3"
       (reader_in_feature [locked_Road] true []) = Some r'
    /\ m_papoClass r' = [locked_Road]
    /\ m_poState r' = m_poState (reader_in_feature [locked_Road] true [])
    /\ set_cpl_log [] r' = reader_in_feature [locked_Road] true []
    /\ (exists message, cpl_log r' = [] ++ [LogDebug "GML" message])
    /\ filter (fun e => is_error e = true) (cpl_log r') = [].
Proof.
  apply (@SetFeatureProperty_locked_schema_drops plain_env strcmp_names
           "width" "3" (reader_in_feature [locked_Road] true [])
           (mkGMLReadState (Some (mkGMLFeature 0 None [] [])) [])
           [new_GMLReadState] (mkGMLFeature 0 None [] []) locked_Road);
    [reflexivity | reflexivity | reflexivity | reflexivity |].
  intros p Hp. apply list_elem_of_singleton in Hp. subst p. discriminate.
Defined.

(** ** IsFeatureElement *)

(** [s] ends in [suffix] up to the case of letters. *)
Definition has_suffix_nocase (suffix s : string) : bool :=
  (strlen suffix <=? strlen s)%nat
  && EQUAL (advance (strlen s - strlen suffix) s) suffix.

(** The cases of [IsFeatureElement] for the dialects: Polish TBD GML,
    OpenLS, and the MapServer answer to GetFeatureInfo. *)
Definition dialect_case (pszLast pszElement : string) : bool :=
  strcmp_eq pszLast "dane"
  || (strcmp_eq pszLast "GeocodeResponseList"
      && strcmp_eq pszElement "GeocodedAddress")
  || strcmp_eq pszLast "DetermineRouteResponse"
  || (strcmp_eq pszElement "RouteInstruction"
      && strcmp_eq pszLast "RouteInstructionsList")
  || ((6 <? strlen pszLast)%nat
      && strcmp_eq (advance (strlen pszLast - 6) pszLast) "_layer"
      && (8 <? strlen pszElement)%nat
      && strcmp_eq (advance (strlen pszElement - 8) pszElement) "_feature").

Lemma advance_split (k : nat) (s : string) :
  k <= strlen s -> exists front, s = front +:+ advance k s /\ strlen front = k.
Proof.
  revert s. induction k as [|k IH]; intros s Hk.
  - exists "". by destruct s.
  - destruct s as [|c s]; simpl in *; [lia|].
    destruct (IH s) as [front [Hs Hl]]; [lia|].
    exists (String c front). split; [|simpl; by rewrite Hl].
    change (String c s = String c (front +:+ advance k s)). by rewrite <- Hs.
Qed.

Lemma advance_app_front (front tail : string) :
  advance (strlen front) (front +:+ tail) = tail.
Proof. apply advance_app. Qed.

(** What the test says in words. *)
Lemma has_suffix_nocase_spec (suffix s : string) :
  has_suffix_nocase suffix s = true <->
  exists front tail, s = front +:+ tail /\ EQUAL tail suffix = true.
Proof.
  unfold has_suffix_nocase. rewrite andb_true_iff, Nat.leb_le. split.
  - intros [Hle Heq].
    destruct (advance_split (strlen s - strlen suffix) s) as [front [Hs _]];
      [lia|]. by exists front, (advance (strlen s - strlen suffix) s).
  - intros [front [tail [-> Heq]]]. pose proof (EQUAL_strlen _ _ Heq) as Hl.
    rewrite strlen_app, <- Hl. split; [lia|].
    replace (strlen front + strlen tail - strlen tail) with (strlen front)
      by lia. by rewrite advance_app.
Qed.

Section FeatureElement.

Lemma existsb_elem_of {A} (test : A -> bool) (l : list A) :
  existsb test l = true -> exists x, x ∈ l /\ test x = true.
Proof.
  induction l as [|x l IH]; simpl; [done|].
  intros [Hx | Hl]%orb_true_iff.
  - exists x. split; [by left | done].
  - destruct (IH Hl) as [y [Hy Ht]]. exists y. split; [by right | done].
Qed.

(** When the chain of tests falls through, a dialect case applies or the
    test on [member] and [members] has passed. *)
Lemma feature_context_falls_through (byte_before : ascii) (L E : string) :
  feature_context byte_before L E = None ->
  dialect_case L E = true
  \/ ((strlen L <? 6)%nat = false
      /\ (EQUAL (advance (strlen L - 6) L) "member" = true
          \/ EQUAL (seven_from_end byte_before L) "members" = true)).
Proof.
  unfold feature_context, dialect_case.
  destruct (strcmp_eq L "dane"); [by left|].
  destruct (strcmp_eq L "GeocodeResponseList"
            && strcmp_eq E "GeocodedAddress"); [by left|].
  destruct (strcmp_eq L "DetermineRouteResponse"); [by left|].
  destruct (strcmp_eq E "RouteInstruction"
            && strcmp_eq L "RouteInstructionsList"); [by left|].
  destruct ((6 <? strlen L)%nat
            && strcmp_eq (advance (strlen L - 6) L) "_layer"
            && (8 <? strlen E)%nat
            && strcmp_eq (advance (strlen E - 8) E) "_feature"); [by left|].
  destruct (strlen L <? 6)%nat; [discriminate|].
  destruct (EQUAL (advance (strlen L - 6) L) "member"); [right; by auto|].
  destruct (EQUAL (seven_from_end byte_before L) "members");
    [right; by auto | discriminate].
Qed.

Lemma feature_context_never_true (byte_before : ascii) (L E : string) :
  feature_context byte_before L E <> Some true.
Proof.
  unfold feature_context.
  repeat match goal with
         | |- context [if ?c then _ else _] => destruct c
         end; discriminate.
Qed.

(** Where [IsFeatureElement] returns true for the element [E] below the
    last path component [L].  Outside the dialect cases [L] ends in
    [member] or [members] up to the case of letters, or [L] has six
    characters and the test on [members], which then starts one byte before
    [L], has passed: [byte_before] followed by [L] reads [members] up to
    case.  With the class list locked, in every case, [E] equals the
    element name of a registered class up to the case of letters. *)
Lemma IsFeatureElement_member_suffix
    (byte_before : ascii) (pszElement : string) (r : GMLReader)
    (top : GMLReadState) (below : list GMLReadState) :
  m_poState r = top :: below ->
  IsFeatureElement byte_before pszElement r = Some true ->
  (dialect_case (GetLastComponent top) pszElement = false ->
   has_suffix_nocase "member" (GetLastComponent top) = true
   \/ has_suffix_nocase "members" (GetLastComponent top) = true
   \/ (strlen (GetLastComponent top) = 6
       /\ EQUAL (String byte_before (GetLastComponent top)) "members" = true))
  /\ (IsClassListLocked r = true ->
      exists c, c ∈ m_papoClass r
                /\ EQUAL pszElement (GetElementName c) = true).
Proof.
  intros Hst. unfold IsFeatureElement. rewrite Hst.
  set (L := GetLastComponent top).
  destruct (feature_context byte_before L pszElement) as [b|] eqn:Hctx.
  { intros [= ->]. by destruct (feature_context_never_true _ _ _ Hctx). }
  intros Htrue. split.
  - intros Hdialect.
    destruct (feature_context_falls_through _ _ _ Hctx)
      as [Hd | [Hlen Htests]]; [congruence|].
    apply Nat.ltb_ge in Hlen. unfold has_suffix_nocase.
    change (strlen "member") with 6. change (strlen "members") with 7.
    assert (Hsix : (6 <=? strlen L)%nat = true) by by apply Nat.leb_le.
    rewrite Hsix, andb_true_l.
    destruct Htests as [Hmember | Hmembers]; [by left|].
    unfold seven_from_end in Hmembers.
    destruct (Nat.eqb_spec (strlen L) 6) as [Heq | Hne].
    + right. right. by split.
    + right. left. assert (Hseven : (7 <=? strlen L)%nat = true)
        by (apply Nat.leb_le; lia).
      by rewrite Hseven.
  - intros Hlocked. unfold IsClassListLocked in *. rewrite Hlocked in Htrue.
    simpl in Htrue. injection Htrue as Htrue.
    by apply existsb_elem_of in Htrue.
Qed.

End FeatureElement.

Definition locked_member_reader : GMLReader :=
  mkGMLReader true [locked_Road] true
    [mkGMLReadState None ["FeatureCollection"; "featureMember"]]
    false false None true [] 0 None true false (Some "sample.gml")
    false false None false None [].

(** A reader with an unlocked class list below the element [embers]. *)
Definition reader_below_embers : GMLReader :=
  mkGMLReader true [] false
    [mkGMLReadState None ["FeatureCollection"; "embers"]]
    false false None true [] 0 None true false (Some "sample.gml")
    false false None false None [].

(** C2.  The test [EQUAL(pszLast+nLen-7,"members")] comes after the guard
    [nLen < 6], which lets a component of six characters through: for such
    a component other than [member] the comparison starts at the byte
    before the component.  Below [embers], which ends in neither [member]
    nor [members] and is no dialect case, [IsFeatureElement] returns true
    when that byte is [m] or [M], whatever the element, and false
    otherwise. *)
Lemma IsFeatureElement_six_characters :
  IsFeatureElement "m" "Road" reader_below_embers = Some true
  /\ IsFeatureElement "M" "Road" reader_below_embers = Some true
  /\ IsFeatureElement "000" "Road" reader_below_embers = Some false
  /\ seven_from_end "m" "embers" = "members"
  /\ dialect_case "embers" "Road" = false
  /\ has_suffix_nocase "member" "embers" = false
  /\ has_suffix_nocase "members" "embers" = false.
Proof. repeat split; vm_compute; reflexivity. Qed.

(** ** PushFeature and the class of a feature *)


Section ClassOfFeature.

(** [PushFeature] for an element that a registered class answers to: the
    registry stays, and the feature gets the first such class. *)
Lemma PushFeature_known (pszElement : string) (pszFID : option string)
                        (r : GMLReader) (c : GMLFeatureClass) :
  c ∈ m_papoClass r -> EQUAL pszElement (GetElementName c) = true ->
  exists i c',
    PushFeature pszElement pszFID r
    = PushState (mkGMLReadState (Some (mkGMLFeature i pszFID [] [])) []) r
    /\ i = first_index (fun c => EQUAL pszElement (GetElementName c))
                       (m_papoClass r)
    /\ m_papoClass r !! i = Some c'
    /\ EQUAL pszElement (GetElementName c') = true.
Proof.
  intros Hc Heq. unfold PushFeature.
  set (test := fun c => EQUAL pszElement (GetElementName c)).
  assert (Hlt : first_index test (m_papoClass r) < length (m_papoClass r)).
  { pose proof (first_index_le test (m_papoClass r)) as Hle.
    destruct (decide (first_index test (m_papoClass r)
                      = length (m_papoClass r))) as [Hn|]; [|lia].
    rewrite first_index_none in Hn. specialize (Hn c Hc). unfold test in Hn.
    congruence. }
  destruct (first_index_found test _ Hlt) as [c' [Hc' Ht]].
  exists (first_index test (m_papoClass r)), c'.
  unfold GetClassCount.
  destruct (Z.eqb_spec (Z.of_nat (first_index test (m_papoClass r)))
                       (Z.of_nat (length (m_papoClass r)))); [lia|].
  done.
Qed.



End ClassOfFeature.


(** ** SetFeatureProperty on an unlocked schema: the new property *)

(** [c] occurs in [s]. *)
Fixpoint has_char (c : ascii) (s : string) : bool :=
  match s with
  | EmptyString => false
  | String x s' => Ascii.eqb x c || has_char c s'
  end.

(** [k] underscores after [s]. *)
Fixpoint add_underscores (k : nat) (s : string) : string :=
  match k with
  | 0 => s
  | S k' => add_underscores k' (s +:+ "_")
  end.

Lemma strchr_None (s : string) (c : ascii) :
  strchr s c = None <-> has_char c s = false.
Proof.
  induction s as [|x s IH]; simpl; [done|].
  destruct (Ascii.eqb x c); simpl; [split; discriminate | done].
Qed.

Lemma strrchr_None (s : string) (c : ascii) :
  strrchr s c = None <-> has_char c s = false.
Proof.
  induction s as [|x s IH]; simpl; [done|].
  destruct (strrchr s c) eqn:Hr.
  - split; [discriminate|]. intros [_ H]%orb_false_iff.
    apply IH in H. discriminate.
  - destruct IH as [IH _]. rewrite (IH eq_refl), orb_false_r.
    destruct (Ascii.eqb x c); split; done.
Qed.

(** [strrchr] finds the last occurrence: nothing after it is [c]. *)
Lemma strrchr_Some (s t : string) (c : ascii) :
  strrchr s c = Some t ->
  exists front after,
    s = front +:+ String c after /\ t = String c after
    /\ has_char c after = false.
Proof.
  revert t. induction s as [|x s IH]; simpl; intros t; [discriminate|].
  destruct (strrchr s c) as [t'|] eqn:Hr.
  - intros [= <-]. destruct (IH t' eq_refl) as [front [after [Hs [Ht Hn]]]].
    exists (String x front), after. split; [|done].
    change (String x s = String x (front +:+ String c after)). by rewrite <- Hs.
  - destruct (Ascii.eqb_spec x c) as [->|]; [|discriminate].
    intros [= <-]. exists "", s. repeat split. by apply strrchr_None.
Qed.

Section NewProperty.
Context {env : Environment} {names : FieldNameComparison}.

(** Some property of the class has a field name that compares equal. *)
Definition field_name_taken (c : GMLFeatureClass) (pszName : string) : bool :=
  existsb (fun p => same_name pszName (m_pszName p)) (m_papoProperty c).

Lemma existsb_false_iff {A} (test : A -> bool) (l : list A) :
  existsb test l = false <-> forall x, x ∈ l -> test x = false.
Proof.
  induction l as [|x l IH]; simpl.
  - split; [intros _ y Hy; inversion Hy | done].
  - rewrite orb_false_iff, IH. split.
    + intros [Hx Hl] y [-> | Hy]%elem_of_cons; [done | by apply Hl].
    + intros H. split; [apply H; by left|]. intros y Hy. apply H. by right.
Qed.

Lemma GetPropertyIndex_taken (c : GMLFeatureClass) (pszName : string) :
  (GetPropertyIndex c pszName =? -1)%Z = negb (field_name_taken c pszName).
Proof.
  unfold GetPropertyIndex, field_name_taken, GetPropertyCount.
  set (test := fun p => same_name pszName (m_pszName p)).
  pose proof (first_index_le test (m_papoProperty c)) as Hle.
  destruct (Nat.ltb_spec (first_index test (m_papoProperty c))
                         (length (m_papoProperty c))) as [Hlt | Hge].
  - destruct (first_index_found test _ Hlt) as [p [Hp Ht]].
    assert (Hex : existsb test (m_papoProperty c) = true).
    { apply existsb_exists. exists p. split; [|done].
      apply list_elem_of_In. by apply list_elem_of_lookup_2 in Hp. }
    rewrite Hex. simpl. apply Z.eqb_neq. lia.
  - assert (Hn : first_index test (m_papoProperty c)
                 = length (m_papoProperty c)) by lia.
    pose proof (proj1 (first_index_none test _) Hn) as Hall.
    pose proof (proj2 (existsb_false_iff test _) Hall) as Hex.
    by rewrite Hex.
Qed.

Lemma GetPropertyByName_taken (c : GMLFeatureClass) (pszName : string) :
  GetPropertyByName c pszName = None <-> field_name_taken c pszName = false.
Proof.
  pose proof (GetPropertyIndex_taken c pszName) as Hidx.
  unfold GetPropertyByName. unfold GetPropertyIndex in *.
  unfold GetPropertyCount in *.
  set (i := first_index (fun p => same_name pszName (m_pszName p))
                        (m_papoProperty c)) in *.
  destruct (Nat.ltb_spec i (length (m_papoProperty c))) as [Hlt | Hge].
  - destruct (Z.ltb_spec (Z.of_nat i) 0); [lia|].
    rewrite Nat2Z.id.
    destruct (lookup_lt_is_Some_2 (m_papoProperty c) i Hlt) as [p Hp].
    rewrite Hp. destruct (field_name_taken c pszName); [done|].
    simpl in Hidx. apply Z.eqb_eq in Hidx. lia.
  - simpl. simpl in Hidx. symmetry in Hidx. apply negb_true_iff in Hidx.
    by rewrite Hidx.
Qed.

Lemma longest_name_bound (c : GMLFeatureClass) (p : GMLPropertyDefn) :
  p ∈ m_papoProperty c -> strlen (m_pszName p) <= longest_name c.
Proof.
  unfold longest_name. induction (m_papoProperty c) as [|q l IH]; simpl.
  - intros H. inversion H.
  - intros [-> | Hp]%elem_of_cons; [lia|]. specialize (IH Hp). lia.
Qed.

(** A name longer than every field name of the class is free. *)
Lemma long_name_free (c : GMLFeatureClass) (pszName : string) :
  longest_name c < strlen pszName -> field_name_taken c pszName = false.
Proof.
  intros Hlong. apply existsb_false_iff. intros p Hp.
  destruct (same_name pszName (m_pszName p)) eqn:Hs; [|done].
  apply same_name_strlen in Hs. apply longest_name_bound in Hp. lia.
Qed.

(** The loop ends by its own test within the turns it is given, and it has
    added the least number of underscores that makes the name free. *)
Lemma append_underscores_spec (turns : nat) (c : GMLFeatureClass)
                              (pszName : string) :
  longest_name c < turns + strlen pszName ->
  exists k,
    append_underscores turns c pszName = add_underscores k pszName
    /\ field_name_taken c (add_underscores k pszName) = false
    /\ forall j, j < k -> field_name_taken c (add_underscores j pszName) = true.
Proof.
  revert pszName. induction turns as [|turns IH]; intros pszName Hlong.
  - exists 0. simpl. split; [done|]. split; [|lia].
    apply long_name_free. lia.
  - simpl. destruct (GetPropertyByName c pszName) eqn:Hget.
    + destruct (IH (pszName +:+ "_")) as [k [Hk [Hfree Hmin]]].
      { rewrite strlen_app. simpl. lia. }
      exists (S k). simpl. split; [done|]. split; [done|].
      intros [|j] Hj; simpl.
      * destruct (field_name_taken c pszName) eqn:Ht; [done|].
        apply GetPropertyByName_taken in Ht. congruence.
      * apply Hmin. lia.
    + exists 0. simpl. split; [done|]. split; [|lia].
      by apply GetPropertyByName_taken.
Qed.

Lemma insert_app_last {A} (l : list A) (x y : A) :
  <[length l := y]> (l ++ [x]) = l ++ [y].
Proof.
  rewrite insert_app_r_alt by lia. by rewrite Nat.sub_diag.
Qed.

(** What [SetFeatureProperty] has done when it has added a property for the
    path [pszElement] to the class [poClass] of the feature [poFeature] in
    the top frame: the class holds one more property [p], at its end, named
    [base] with [k] underscores, and the feature holds the value. *)
Definition new_property_added
    (pszElement pszValue : string) (r : GMLReader)
    (top : GMLReadState) (below : list GMLReadState)
    (poFeature : GMLFeature) (poClass : GMLFeatureClass) : Prop :=
  exists r' poClass' p base k poFeature',
    SetFeatureProperty pszElement pszValue r = Some r'
    /\ m_papoClass r' = <[m_poClass poFeature := poClass']> (m_papoClass r)
    /\ m_papoClass r' !! m_poClass poFeature = Some poClass'
    /\ poClass' = set_m_papoProperty (m_papoProperty poClass ++ [p]) poClass
    /\ m_pszSrcElement p = pszElement
    /\ ((has_char "|" pszElement = false /\ base = pszElement)
        \/ (exists front after,
              pszElement = front +:+ String "|" after
              /\ has_char "|" after = false
              /\ base = if field_name_taken poClass after
                        then pszElement else after))
    /\ m_pszName p = add_underscores k base
    /\ (forall j, j < k -> field_name_taken poClass (add_underscores j base) = true)
    /\ field_name_taken poClass (m_pszName p) = false
    /\ (NoDup (m_pszName <$> m_papoProperty poClass) ->
        NoDup (m_pszName <$> m_papoProperty poClass'))
    /\ m_eType p
       = AnalysePropertyValue
           (if EQUAL GML_FIELDTYPES "ALWAYS_STRING"
            then GMLPT_String else GMLPT_Untyped) pszValue
    /\ m_poState r' = set_m_poFeature (Some poFeature') top :: below
    /\ m_papszProperty poFeature' !! length (m_papoProperty poClass)
       = Some (Some pszValue).

(** C3, amended.  On a class with an unlocked schema none of whose
    properties has the element path as its source element,
    [SetFeatureProperty] appends exactly one property to the class.  Its
    source element is the path.  Its field name is a base name followed by
    the least number of underscores that makes it differ from every field
    name of the class, the base being the path when it has no [|],
    otherwise the part after the last [|], or the path again when that part
    is a field name of the class already; so field names that were pairwise
    distinct stay so.  Its type is what [AnalysePropertyValue] makes, for the
    value, of string under GML_FIELDTYPES=ALWAYS_STRING and of the untyped
    state of a new definition otherwise.  The value is stored in the
    feature at the position of the new property. *)
Theorem SetFeatureProperty_new_property
    (pszElement pszValue : string) (r : GMLReader)
    (top : GMLReadState) (below : list GMLReadState)
    (poFeature : GMLFeature) (poClass : GMLFeatureClass) :
  m_poState r = top :: below ->
  m_poFeature top = Some poFeature ->
  m_papoClass r !! m_poClass poFeature = Some poClass ->
  IsSchemaLocked poClass = false ->
  (forall p, p ∈ m_papoProperty poClass -> m_pszSrcElement p <> pszElement) ->
  new_property_added pszElement pszValue r top below poFeature poClass.
Proof.
  intros Hst Hf Hc Hunlocked Hnone. unfold new_property_added.
  assert (Hidx : first_index
                   (fun p => strcmp_eq (m_pszSrcElement p) pszElement)
                   (m_papoProperty poClass) = GetPropertyCount poClass).
  { apply first_index_none. intros p Hp.
    destruct (strcmp_eq (m_pszSrcElement p) pszElement) eqn:E; [|done].
    apply strcmp_eq_true in E. by destruct (Hnone p Hp). }
  (* the base name *)
  set (base :=
         match strchr pszElement "|" with
         | None => pszElement
         | Some _ =>
             let after := match strrchr pszElement "|" with
                          | Some t => advance 1 t
                          | None => pszElement
                          end in
             if (GetPropertyIndex poClass after =? -1)%Z then after
             else pszElement
         end).
  assert (Hbase :
            (has_char "|" pszElement = false /\ base = pszElement)
            \/ (exists front after,
                  pszElement = front +:+ String "|" after
                  /\ has_char "|" after = false
                  /\ base = if field_name_taken poClass after
                            then pszElement else after)).
  { subst base. destruct (strchr pszElement "|") as [t0|] eqn:Hchr.
    - right. destruct (strrchr pszElement "|") as [t|] eqn:Hr.
      + destruct (strrchr_Some _ _ _ Hr) as [front [after [Hs [-> Hn]]]].
        exists front, after. simpl advance. cbv zeta.
        rewrite GetPropertyIndex_taken.
        split; [done|]. split; [done|].
        by destruct (field_name_taken poClass after).
      + apply strrchr_None in Hr. apply strchr_None in Hr. congruence.
    - left. split; [by apply strchr_None | done]. }
  destruct (append_underscores_spec (S (longest_name poClass)) poClass base)
    as [k [Hk [Hfree Hmin]]]; [lia|].
  set (T0 := if EQUAL GML_FIELDTYPES "ALWAYS_STRING"
             then GMLPT_String else GMLPT_Untyped).
  set (p0 := mkGMLPropertyDefn (add_underscores k base) pszElement T0).
  set (p := SetType (AnalysePropertyValue T0 pszValue) p0).
  set (poClass' := set_m_papoProperty (m_papoProperty poClass ++ [p]) poClass).
  set (poFeature' := SetProperty (length (m_papoProperty poClass)) pszValue
                                 poFeature).
  exists (set_m_poState (set_m_poFeature (Some poFeature') top :: below)
            (set_m_papoClass
               (<[m_poClass poFeature := poClass']> (m_papoClass r)) r)),
    poClass', p, base, k, poFeature'.
  split.
  { unfold SetFeatureProperty. rewrite Hst, Hf, Hc, Hidx, Nat.eqb_refl.
    rewrite Hunlocked. unfold new_field_name. fold base. rewrite Hk.
    assert (Hdefn :
              (if EQUAL GML_FIELDTYPES "ALWAYS_STRING"
               then SetType GMLPT_String
                      (new_GMLPropertyDefn (add_underscores k base) pszElement)
               else new_GMLPropertyDefn (add_underscores k base) pszElement)
              = p0).
    { subst p0 T0. by destruct (EQUAL GML_FIELDTYPES "ALWAYS_STRING"). }
    rewrite Hdefn. unfold AddProperty.
    assert (Hget : GetPropertyByName poClass (m_pszName p0) = None)
      by by apply GetPropertyByName_taken.
    rewrite Hget. simpl. f_equal. unfold store_property.
    unfold IsSchemaLocked in *. simpl. rewrite Hunlocked. simpl.
    unfold GetPropertyCount.
    rewrite lookup_app_r, Nat.sub_diag by lia. simpl.
    destruct (Z.ltb_spec (Z.of_nat (length (m_papoProperty poClass))) 0);
      [lia|].
    by rewrite insert_app_last. }
  simpl. split; [done|]. split.
  { apply list_lookup_insert_eq. by apply lookup_lt_Some in Hc. }
  split; [done|]. split; [done|]. split; [done|]. split; [done|].
  split; [done|]. split; [done|]. split.
  { intros Hnodup. rewrite fmap_app. simpl.
    apply NoDup_app. split; [done|]. split; [|apply NoDup_singleton].
    intros n Hn Hn'. apply list_elem_of_singleton in Hn'. subst n.
    apply list_elem_of_fmap in Hn as [q [Hq Hqin]].
    apply existsb_false_iff with (x := q) in Hfree; [|done].
    rewrite Hq, same_name_refl in Hfree. discriminate. }
  split; [done|]. split; [done|].
  subst poFeature'. unfold SetProperty. simpl.
  apply list_lookup_insert_eq. rewrite length_app, length_replicate. lia.
Qed.

End NewProperty.

Definition open_Road : GMLFeatureClass :=
  mkGMLFeatureClass "Road" "Road" [mkGMLPropertyDefn "name" "name" GMLPT_String]
                    false 1 wkbUnknown None None true.

Lemma SetFeatureProperty_new_property_witness :
  @new_property_added plain_env EQUAL_names "foo|name" "Y"
    (reader_in_feature [open_Road] false ["foo"])
    (mkGMLReadState (Some (mkGMLFeature 0 None [] [])) ["foo"])
    [new_GMLReadState] (mkGMLFeature 0 None [] []) open_Road.
Proof.
  apply (@SetFeatureProperty_new_property plain_env EQUAL_names);
    [reflexivity | reflexivity | reflexivity | reflexivity |].
  intros p Hp. apply list_elem_of_singleton in Hp. subst p. discriminate.
Defined.

(** C3 as stated fails in the type: without GML_FIELDTYPES, the property
    added for the value [1] is untyped when it is inserted and an integer
    when [SetFeatureProperty] returns, not a string; the field name is as
    the claim says. *)
Lemma SetFeatureProperty_type_counterexample :
  (m_papoProperty <$>
     (m_papoClass
        <$> @SetFeatureProperty plain_env EQUAL_names "n" "1"
              (reader_in_feature [new_GMLFeatureClass "Road"] false []))
     ≫= (fun classes => classes !! 0))
  = Some [mkGMLPropertyDefn "n" "n" GMLPT_Integer]
  /\ new_GMLPropertyDefn "n" "n" = mkGMLPropertyDefn "n" "n" GMLPT_Untyped
  /\ EQUAL (@GML_FIELDTYPES plain_env) "ALWAYS_STRING" = false.
Proof. repeat split. Qed.

(** ** What the parser leaves alone *)

(** The fields that setting up, tearing down and popping never write. *)
Definition settings (r : GMLReader) :=
  (bUseExpatReader r, m_papoClass r, m_bClassListLocked r, m_bStopParsing r,
   m_pszFilename r, m_bInvertAxisOrderIfLatLong r, m_bConsiderEPSGAsURN r,
   m_pszGlobalSRSName r, m_bCanUseGlobalSRSName r, m_pszFilteredClassName r).

Lemma settings_fields (r r' : GMLReader) :
  settings r' = settings r ->
  bUseExpatReader r' = bUseExpatReader r
  /\ m_papoClass r' = m_papoClass r
  /\ m_bClassListLocked r' = m_bClassListLocked r
  /\ m_bStopParsing r' = m_bStopParsing r
  /\ m_bInvertAxisOrderIfLatLong r' = m_bInvertAxisOrderIfLatLong r
  /\ m_pszGlobalSRSName r' = m_pszGlobalSRSName r
  /\ m_bCanUseGlobalSRSName r' = m_bCanUseGlobalSRSName r.
Proof. unfold settings. intros [= -> -> -> -> _ -> _ -> -> _]. done. Qed.

Section ParserFrame.
Context {env : Environment}.

Lemma PopState_settings (r : GMLReader) : settings (PopState r) = settings r.
Proof.
  unfold PopState. destruct (m_poState r) as [|top below]; [done|].
  destruct (HAVE_XERCES && negb (bUseExpatReader r)
            && bool_decide (m_poFeature top <> None)
            && bool_decide (m_poCompleteFeature r = None)); simpl.
  - by destruct (HAVE_EXPAT && bUseExpatReader r).
  - destruct (m_poFeature top); [|done].
    by destruct (HAVE_EXPAT && bUseExpatReader r).
Qed.

Lemma iter_PopState_settings (n : nat) (r : GMLReader) :
  settings (Nat.iter n PopState r) = settings r.
Proof.
  induction n as [|n IH]; simpl; [done|]. by rewrite PopState_settings.
Qed.

Lemma CleanupParser_settings (r : GMLReader) :
  settings (CleanupParser r) = settings r.
Proof.
  unfold CleanupParser.
  destruct (HAVE_XERCES && negb (bUseExpatReader r) && negb (m_poSAXReader r));
    [done|].
  destruct (HAVE_EXPAT && bUseExpatReader r && negb (oParser r)); [done|].
  rewrite <- (iter_PopState_settings (length (m_poState r)) r).
  by destruct HAVE_XERCES, HAVE_EXPAT.
Qed.

Lemma SetupParserXerces_settings (r : GMLReader) :
  settings (snd (SetupParserXerces r)) = settings r.
Proof.
  unfold SetupParserXerces. destruct XercesInitializes; [|done]. simpl.
  assert (H : settings (if m_poSAXReader r then CleanupParser r else r)
              = settings r).
  { destruct (m_poSAXReader r); [apply CleanupParser_settings | done]. }
  destruct XercesCreatesReader; simpl; [|done].
  rewrite <- H.
  by destruct (negb _ && bool_decide _).
Qed.

Lemma SetupParserExpat_settings (r : GMLReader) :
  settings (snd (SetupParserExpat r)) = settings r.
Proof.
  unfold SetupParserExpat. simpl.
  destruct (oParser r); [|done]. by rewrite <- (CleanupParser_settings r).
Qed.

Lemma SetupParser_settings (r : GMLReader) :
  settings (snd (SetupParser r)) = settings r.
Proof.
  unfold SetupParser.
  set (r1 := match fpGML r with
             | None => match m_pszFilename r with
                       | Some name => set_fpGML _ r
                       | None => r
                       end
             | Some _ => r
             end).
  assert (H1 : settings r1 = settings r).
  { subst r1. destruct (fpGML r); [done|]. by destruct (m_pszFilename r). }
  set (r2 := match fpGML r1 with
             | Some fp => set_fpGML (Some (VSIFSeekL_start fp)) r1
             | None => r1
             end).
  assert (H2 : settings r2 = settings r).
  { subst r2. by destruct (fpGML r1). }
  clearbody r2. clear H1 r1.
  destruct (HAVE_EXPAT && bUseExpatReader r2) eqn:He.
  - pose proof (SetupParserExpat_settings r2) as H3.
    destruct (SetupParserExpat r2) as [b r3]. simpl in H3.
    destruct (HAVE_XERCES && negb (bUseExpatReader r3)) eqn:Hx.
    + pose proof (SetupParserXerces_settings r3) as H4.
      destruct (SetupParserXerces r3) as [b' r4]. simpl in H4.
      destruct b'; simpl; unfold settings in *; simpl; congruence.
    + destruct b; simpl; unfold settings in *; simpl; congruence.
  - destruct (HAVE_XERCES && negb (bUseExpatReader r2)) eqn:Hx.
    + pose proof (SetupParserXerces_settings r2) as H4.
      destruct (SetupParserXerces r2) as [b' r4]. simpl in H4.
      destruct b'; simpl; unfold settings in *; simpl; congruence.
    + simpl. unfold settings in *. simpl. congruence.
Qed.

End ParserFrame.

(** ** NextFeature after parsing has stopped *)

(** [n] successive calls of [NextFeature]: what they return, and the reader
    after them. *)
Fixpoint NextFeature_calls `{env : Environment} `{names : FieldNameComparison}
    (n : nat) (r : GMLReader) : list (option GMLFeature) * GMLReader :=
  match n with
  | 0 => ([], r)
  | S n' =>
      let '(poFeature, r') := NextFeature r in
      let '(later, r'') := NextFeature_calls n' r' in
      (poFeature :: later, r'')
  end.

(** The call of [NextFeature] uses the parser of the pull backend while
    there is none: it does not return. *)
Definition NextFeature_faults {env : Environment} {names : FieldNameComparison}
    (r : GMLReader) : bool :=
  negb (HAVE_EXPAT && bUseExpatReader r)
  && (HAVE_XERCES && negb (bUseExpatReader r))
  && match NextFeatureXerces_try r with Faults _ => true | _ => false end.

(** One of [n] successive calls of [NextFeature] does. *)
Fixpoint NextFeature_calls_fault
    {env : Environment} {names : FieldNameComparison}
    (n : nat) (r : GMLReader) : bool :=
  match n with
  | 0 => false
  | S n' =>
      NextFeature_faults r || NextFeature_calls_fault n' (snd (NextFeature r))
  end.

(** The reader has stopped: [m_bStopParsing] is set and, with the pull
    backend, reading has started and the slot for the completed feature
    is empty. *)
Definition stopped (r : GMLReader) : Prop :=
  m_bStopParsing r = true
  /\ (bUseExpatReader r = false ->
      m_bReadStarted r = true /\ m_poCompleteFeature r = None).

Section StopParsing.
Context {env : Environment} {names : FieldNameComparison}.

Lemma NextFeatureExpat_stopped (r : GMLReader) :
  m_bStopParsing r = true ->
  fst (NextFeatureExpat r) = None
  /\ settings (snd (NextFeatureExpat r)) = settings r.
Proof.
  intros Hstop. unfold NextFeatureExpat.
  set (r1 := if negb (m_bReadStarted r)
             then set_m_bReadStarted true
                    (if negb (oParser r) then snd (SetupParser r) else r)
             else r).
  assert (H1 : settings r1 = settings r).
  { subst r1. destruct (m_bReadStarted r); simpl; [done|].
    destruct (oParser r); simpl; [done|].
    by rewrite <- (SetupParser_settings r). }
  assert (Hs : m_bStopParsing r1 = true).
  { apply settings_fields in H1 as (_ & _ & _ & -> & _). done. }
  destruct (fpGML r1); [|done]. by rewrite Hs.
Qed.

Lemma set_unread_fields (steps : list parse_step) (r : GMLReader) :
  settings (set_unread steps r) = settings r
  /\ m_bReadStarted (set_unread steps r) = m_bReadStarted r
  /\ m_poCompleteFeature (set_unread steps r) = m_poCompleteFeature r.
Proof. unfold set_unread. by destruct (fpGML r). Qed.

Lemma NextFeatureXerces_stopped (r : GMLReader) :
  m_bStopParsing r = true -> m_bReadStarted r = true ->
  m_poCompleteFeature r = None ->
  fst (NextFeatureXerces r) = None
  /\ settings (snd (NextFeatureXerces r)) = settings r
  /\ m_bReadStarted (snd (NextFeatureXerces r)) = true
  /\ m_poCompleteFeature (snd (NextFeatureXerces r)) = None.
Proof.
  intros Hstop Hstarted Hslot.
  unfold NextFeatureXerces, NextFeatureXerces_try. rewrite Hstarted. simpl.
  assert (Hloop : xerces_parse_loop (unread_steps r) r
                  = (unread_steps r, r, None)).
  { destruct (unread_steps r); simpl; by rewrite Hstop, andb_false_r. }
  rewrite Hstop, andb_false_r, Hloop. simpl.
  destruct (set_unread_fields (unread_steps r) r) as (Hset & Hst & Hsl).
  rewrite Hsl, Hslot. simpl. by rewrite Hst.
Qed.

Lemma NextFeature_stopped (r : GMLReader) :
  stopped r -> fst (NextFeature r) = None /\ stopped (snd (NextFeature r)).
Proof.
  intros [Hstop Hpull]. unfold NextFeature.
  destruct (HAVE_EXPAT && bUseExpatReader r) eqn:He.
  - apply andb_true_iff in He as [_ Hexpat].
    destruct (NextFeatureExpat_stopped r Hstop) as [Hnone Hset].
    split; [done|].
    apply settings_fields in Hset as (Hb & _ & _ & Hs & _).
    split; [congruence|]. intros Hpush. congruence.
  - destruct (HAVE_XERCES && negb (bUseExpatReader r)) eqn:Hx.
    + apply andb_true_iff in Hx as [_ Hnot]. apply negb_true_iff in Hnot.
      destruct (Hpull Hnot) as [Hstarted Hslot].
      destruct (NextFeatureXerces_stopped r Hstop Hstarted Hslot)
        as (Hnone & Hset & Hst & Hsl).
      split; [done|].
      apply settings_fields in Hset as (_ & _ & _ & Hs & _).
      split; [congruence | done].
    + simpl. split; [done|]. split; [done|]. exact Hpull.
Qed.


End StopParsing.

(** ** LoadClasses *)

Section SchemaFile.
Context {env : Environment}.

(** The root of the tree of a schema file that passes every test before the
    loop over the classes: the file is named, opened and read, its text has
    the literal [<GMLFeatureClassList>], parses, and the root is an element
    of that name. *)
Definition schema_root (pszFile : option string) : option CPLXMLNode :=
  match pszFile with
  | None => None
  | Some file =>
      match read_whole_file file with
      | FileBytes buf =>
          if strstr (c_str buf) "<GMLFeatureClassList>" then
            match CPLParseXMLString (c_str buf) with
            | Some psRoot =>
                if is_CXT_Element (node_eType psRoot)
                   && EQUAL (node_pszValue psRoot) "GMLFeatureClassList"
                then Some psRoot else None
            | None => None
            end
          else None
      | _ => None
      end
  end.

(** The classes of the [GMLFeatureClass] children that come before the
    first one [InitializeFromXML] fails on, each locked, and whether none
    fails. *)
Fixpoint classes_before_failure (l : list CPLXMLNode)
  : list GMLFeatureClass * bool :=
  match l with
  | [] => ([], true)
  | psThis :: rest =>
      if is_CXT_Element (node_eType psThis)
         && EQUAL (node_pszValue psThis) "GMLFeatureClass"
      then
        match InitializeFromXML psThis with
        | None => ([], false)
        | Some poClass =>
            let '(more, ok) := classes_before_failure rest in
            (SetSchemaLocked true poClass :: more, ok)
        end
      else classes_before_failure rest
  end.

Lemma classes_before_failure_locked (l : list CPLXMLNode) :
  Forall (fun c => IsSchemaLocked c = true) (fst (classes_before_failure l)).
Proof.
  induction l as [|n l IH]; simpl; [constructor|].
  destruct (is_CXT_Element (node_eType n)
            && EQUAL (node_pszValue n) "GMLFeatureClass"); [|done].
  destruct (InitializeFromXML n) as [c|]; [|constructor].
  destruct (classes_before_failure l) as [more ok]. simpl in *.
  by constructor.
Qed.

Lemma load_class_nodes_spec (l : list CPLXMLNode) (r : GMLReader) :
  load_class_nodes l r
  = (snd (classes_before_failure l),
     set_m_bClassListLocked
       (if snd (classes_before_failure l) then true else m_bClassListLocked r)
       (set_m_papoClass (m_papoClass r ++ fst (classes_before_failure l)) r)).
Proof.
  revert r. induction l as [|n l IH]; intros r; simpl.
  - rewrite app_nil_r. by destruct r.
  - destruct (is_CXT_Element (node_eType n)
              && EQUAL (node_pszValue n) "GMLFeatureClass"); [|apply IH].
    destruct (InitializeFromXML n) as [c|]; simpl.
    + rewrite IH. destruct (classes_before_failure l) as [more ok]. simpl.
      by rewrite <- app_assoc.
    + rewrite app_nil_r. by destruct r.
Qed.

(** C4, amended.  [LoadClasses] writes nothing but the registry, the lock
    of the class list and the log.  When the file does not get as far as
    the loop over the classes, the call returns false and leaves registry
    and lock as they were.  When it does, the classes of the
    [GMLFeatureClass] children before the first one that
    [InitializeFromXML] fails on are added at the end of the registry,
    every one of them locked; the call returns true, and locks the class
    list, exactly when no child fails, and after a failure the lock is as
    it was while the classes added before the failure stay. *)
Theorem LoadClasses_outcome (pszFile : option string) (r : GMLReader) :
  set_cpl_log (cpl_log r)
    (set_m_bClassListLocked (m_bClassListLocked r)
       (set_m_papoClass (m_papoClass r) (snd (LoadClasses pszFile r)))) = r
  /\ (schema_root pszFile = None ->
      fst (LoadClasses pszFile r) = false
      /\ m_papoClass (snd (LoadClasses pszFile r)) = m_papoClass r
      /\ m_bClassListLocked (snd (LoadClasses pszFile r))
         = m_bClassListLocked r)
  /\ (forall psRoot, schema_root pszFile = Some psRoot ->
      fst (LoadClasses pszFile r)
      = snd (classes_before_failure (node_psChild psRoot))
      /\ m_papoClass (snd (LoadClasses pszFile r))
         = m_papoClass r ++ fst (classes_before_failure (node_psChild psRoot))
      /\ Forall (fun c => IsSchemaLocked c = true)
                (fst (classes_before_failure (node_psChild psRoot)))
      /\ m_bClassListLocked (snd (LoadClasses pszFile r))
         = if fst (LoadClasses pszFile r) then true
           else m_bClassListLocked r).
Proof.
  assert (Hfails : forall r',
            set_cpl_log (cpl_log r)
              (set_m_bClassListLocked (m_bClassListLocked r)
                 (set_m_papoClass (m_papoClass r) r')) = r ->
            m_papoClass r' = m_papoClass r ->
            m_bClassListLocked r' = m_bClassListLocked r ->
            set_cpl_log (cpl_log r)
              (set_m_bClassListLocked (m_bClassListLocked r)
                 (set_m_papoClass (m_papoClass r) (snd (false, r')))) = r
            /\ (@None CPLXMLNode = None ->
                fst (false, r') = false
                /\ m_papoClass (snd (false, r')) = m_papoClass r
                /\ m_bClassListLocked (snd (false, r')) = m_bClassListLocked r)
            /\ (forall psRoot, None = Some psRoot ->
                fst (false, r')
                = snd (classes_before_failure (node_psChild psRoot))
                /\ m_papoClass (snd (false, r'))
                   = m_papoClass r
                     ++ fst (classes_before_failure (node_psChild psRoot))
                /\ Forall (fun c => IsSchemaLocked c = true)
                          (fst (classes_before_failure (node_psChild psRoot)))
                /\ m_bClassListLocked (snd (false, r'))
                   = if fst (false, r') then true else m_bClassListLocked r)).
  { intros r' H1 H2 H3. simpl. split; [done|]. split; [done|].
    intros psRoot H. discriminate H. }
  unfold LoadClasses, schema_root.
  destruct pszFile as [file|]; [|apply Hfails; by destruct r].
  destruct (read_whole_file file) as [| | |buf];
    [apply Hfails; by destruct r ..|].
  destruct (strstr (c_str buf) "<GMLFeatureClassList>"); simpl negb; cbv iota;
    [|apply Hfails; by destruct r].
  destruct (CPLParseXMLString (c_str buf)) as [psRoot|];
    [|apply Hfails; by destruct r].
  destruct (is_CXT_Element (node_eType psRoot)) eqn:Helem;
    [|apply Hfails; by destruct r].
  destruct (EQUAL (node_pszValue psRoot) "GMLFeatureClassList") eqn:Hname;
    [|apply Hfails; by destruct r].
  simpl. rewrite load_class_nodes_spec. simpl.
  split; [by destruct r|]. split; [done|].
  intros ? [= <-]. split; [done|]. split; [done|].
  split; [apply classes_before_failure_locked | done].
Qed.

End SchemaFile.

(** A schema file with two class elements, the second without a name. *)
Definition two_class_tree : CPLXMLNode :=
  XMLNode CXT_Element "GMLFeatureClassList"
    [XMLNode CXT_Element "GMLFeatureClass"
       [XMLNode CXT_Element "Name" [XMLNode CXT_Text "Road" []]];
     XMLNode CXT_Element "GMLFeatureClass"
       [XMLNode CXT_Element "ElementPath" [XMLNode CXT_Text "River" []]]].

Definition two_class_env : Environment :=
  sample_env "" []
    (FileBytes "<GMLFeatureClassList><GMLFeatureClass><Name>Road</Name></GMLFeatureClass><GMLFeatureClass><ElementPath>River</ElementPath></GMLFeatureClass></GMLFeatureClassList>")
    (Some two_class_tree).

(** C4 as stated fails: when the second class element of the file fails to
    initialise, [LoadClasses] returns false after it has added the first
    class to a registry that was empty; the class list is not locked. *)
Lemma LoadClasses_partial_counterexample :
  fst (@LoadClasses two_class_env (Some "sample.gfs")
         (new_GMLReader (env := two_class_env) true false false)) = false
  /\ m_papoClass (new_GMLReader (env := two_class_env) true false false) = []
  /\ m_papoClass
       (snd (@LoadClasses two_class_env (Some "sample.gfs")
               (new_GMLReader (env := two_class_env) true false false)))
     = [SetSchemaLocked true (new_GMLFeatureClass "Road")]
  /\ m_bClassListLocked
       (snd (@LoadClasses two_class_env (Some "sample.gfs")
               (new_GMLReader (env := two_class_env) true false false)))
     = false.
Proof. repeat split. Qed.

(** ** Prescanning: the geometry type of a class *)

(** A document with one feature that has a property and no geometry. *)
Definition doc_without_geometry : list parse_step :=
  [mkParseStep [HPushPath "FeatureCollection"; HPushPath "featureMember";
                HPushFeature "Road" (Some "r1");
                HSetFeatureProperty "name" "A"; HPopState;
                HPopPath; HPopPath] ParseOk false].

Definition env_without_geometry : Environment :=
  sample_env "" doc_without_geometry FileOpenFails None.

(** A reader on [sample.gml], with the push backend when [bExpat]. *)
Definition sample_reader (e : Environment) (bExpat bInvert bURN : bool)
  : GMLReader :=
  SetSourceFile "sample.gml" (@new_GMLReader e bExpat bInvert bURN).

(** C1 as stated fails: after prescanning, with extents, a document whose
    only feature has no geometry, with either backend, the class of the
    feature has one feature and the geometry type unknown, not none. *)
Lemma PrescanForSchema_no_geometry_counterexample :
  (let r := snd (@PrescanForSchema env_without_geometry strcmp_names true
                   (sample_reader env_without_geometry true false false)) in
   (fun c => (m_nFeatureCount c, m_nGeometryType c)) <$> m_papoClass r
   = [(1%Z, wkbUnknown)])
  /\ (let r := snd (@PrescanForSchema env_without_geometry strcmp_names true
                      (sample_reader env_without_geometry false false false)) in
      (fun c => (m_nFeatureCount c, m_nGeometryType c)) <$> m_papoClass r
      = [(1%Z, wkbUnknown)])
  /\ (wkbUnknown =? wkbNone)%Z = false.
Proof. repeat split; vm_compute; reflexivity. Qed.

(** ** Prescanning: axis order *)

(** The extents with the two axes exchanged. *)
Definition swap_axes (e : extents) : extents :=
  let '(dfXMin, dfXMax, dfYMin, dfYMax) := e in (dfYMin, dfYMax, dfXMin, dfXMax).

(** A class without its SRS name and its extents. *)
Definition beside_srs_and_extents (c : GMLFeatureClass) :=
  (m_pszClassName c, m_pszElementName c, m_papoProperty c, m_bSchemaLocked c,
   m_nFeatureCount c, m_nGeometryType c, m_bSRSNameConsistent c).

Section PrescanAxisOrder.
Context {env : Environment} {names : FieldNameComparison}.

(** The SRS name the loop over the classes looks at. *)
Definition effective_srs (r : GMLReader) (poClass : GMLFeatureClass)
  : option string :=
  if m_bCanUseGlobalSRSName r then m_pszGlobalSRSName r
  else m_pszSRSName poClass.

Lemma PrescanForSchema_classes (bGetExtents : bool) (r scanned : GMLReader) :
  prescan_scan bGetExtents r = inr scanned ->
  m_papoClass (snd (PrescanForSchema bGetExtents r))
  = fix_axis_order scanned <$> m_papoClass scanned.
Proof.
  intros Hscan. unfold PrescanForSchema. rewrite Hscan. simpl.
  pose proof (CleanupParser_settings
                (set_m_papoClass (fix_axis_order scanned <$> m_papoClass scanned)
                                 scanned)) as H.
  by apply settings_fields in H as (_ & -> & _).
Qed.

End PrescanAxisOrder.

(** Documents with one feature that has a point geometry: the point names
    its SRS itself, or the collection names an SRS for all. *)
Definition point_with_srs : CPLXMLNode :=
  XMLNode CXT_Element "Point"
    [XMLNode CXT_Attribute "srsName" [XMLNode CXT_Text "EPSG:4326" []];
     XMLNode CXT_Element "coordinates" [XMLNode CXT_Text "50,10" []]].

Definition point_without_srs : CPLXMLNode :=
  XMLNode CXT_Element "Point"
    [XMLNode CXT_Element "coordinates" [XMLNode CXT_Text "50,10" []]].

Definition doc_own_srs : list parse_step :=
  [mkParseStep [HPushPath "FeatureCollection"; HPushPath "featureMember";
                HPushFeature "Road" (Some "r1"); HAddGeometry point_with_srs;
                HPopState; HPopPath; HPopPath] ParseOk false].

Definition doc_global_srs (pszSRSName : string) : list parse_step :=
  [mkParseStep [HPushPath "FeatureCollection"; HSetGlobalSRSName pszSRSName;
                HPushPath "featureMember";
                HPushFeature "Road" (Some "r1"); HAddGeometry point_without_srs;
                HPopState; HPopPath; HPopPath] ParseOk false].

Definition env_own_srs : Environment :=
  sample_env "" doc_own_srs FileOpenFails None.
Definition env_global_srs (pszSRSName : string) : Environment :=
  sample_env "" (doc_global_srs pszSRSName) FileOpenFails None.

(** The reader at the end of the scan loop for the document whose
    collection names EPSG:4326, read with axis inversion and EPSG codes as
    URNs. *)
Definition scanned_global_srs : GMLReader :=
  match @prescan_scan (env_global_srs "EPSG:4326") strcmp_names true
          (sample_reader (env_global_srs "EPSG:4326") true true true) with
  | inl r | inr r => r
  end.

(** C5 as stated fails.  First, a class whose only SRS is EPSG:4326, named
    by its own geometry: no global SRS is substituted, the stored SRS has
    its AXIS nodes stripped, and the extents stay as accumulated, axes not
    exchanged.  Second, a class under a global SRS name that
    [GML_IsSRSLatLongOrder] takes for lat/long ordered and that does not
    parse: nothing is stripped or stored, and the extents stay. *)
Lemma PrescanForSchema_axis_order_counterexample :
  (let r := snd (@PrescanForSchema env_own_srs strcmp_names true
                   (sample_reader env_own_srs true true true)) in
   (fun c => (m_pszSRSName c, m_oExtents c)) <$> m_papoClass r
   = [(Some "GEOGCS[urn:ogc:def:crs:EPSG::4326]",
       Some (10, 20, 50, 60)%float)]
   /\ m_bCanUseGlobalSRSName r = false
   /\ m_pszGlobalSRSName r = None)
  /\ (let r := snd (@PrescanForSchema (env_global_srs "urn:x:4326")
                      strcmp_names true
                      (sample_reader (env_global_srs "urn:x:4326")
                                     true true true)) in
      (fun c => (m_pszSRSName c, m_oExtents c)) <$> m_papoClass r
      = [(None, Some (10, 20, 50, 60)%float)]
      /\ m_bCanUseGlobalSRSName r = true
      /\ m_pszGlobalSRSName r = Some "urn:x:4326"
      /\ @GML_IsSRSLatLongOrder (env_global_srs "urn:x:4326")
           (m_pszGlobalSRSName r) = true)
  /\ swap_axes (10, 20, 50, 60)%float = (50, 60, 10, 20)%float.
Proof. repeat split; vm_compute; reflexivity. Qed.

(** A push reader and a pull reader that have stopped after an error. *)
Definition stopped_expat_reader : GMLReader :=
  set_m_bStopParsing true
    (snd (@NextFeature env_without_geometry strcmp_names
            (sample_reader env_without_geometry true false false))).

(** ** What the element handler leaves alone *)

(** The options of a reader, which no method but their setters writes. *)
Definition options (r : GMLReader) :=
  (bUseExpatReader r, m_bInvertAxisOrderIfLatLong r, m_bConsiderEPSGAsURN r,
   m_pszFilename r, m_pszFilteredClassName r, m_bClassListLocked r).

(** The fields no call of the handler into the reader writes. *)
Definition handler_frame (r : GMLReader) :=
  (options r, m_poSAXReader r, m_GMLInputSource r, oParser r,
   nFeatureTabIndex r, fpGML r, m_bReadStarted r, m_bStopParsing r,
   m_bCanUseGlobalSRSName r).

Section HandlerFrame.
Context {env : Environment} {names : FieldNameComparison}.

Lemma PopState_frame (r : GMLReader) :
  handler_frame (PopState r) = handler_frame r.
Proof.
  unfold PopState. destruct (m_poState r) as [|top below]; [done|].
  destruct (HAVE_XERCES && negb (bUseExpatReader r)
            && bool_decide (m_poFeature top <> None)
            && bool_decide (m_poCompleteFeature r = None)); simpl.
  - by destruct (HAVE_EXPAT && bUseExpatReader r).
  - destruct (m_poFeature top); [|done].
    by destruct (HAVE_EXPAT && bUseExpatReader r).
Qed.

Lemma PushFeature_frame (pszElement : string) (pszFID : option string)
                        (r : GMLReader) :
  handler_frame (PushFeature pszElement pszFID r) = handler_frame r.
Proof. unfold PushFeature. by destruct (_ =? _)%Z. Qed.

Lemma SetFeatureProperty_frame (pszElement pszValue : string)
                               (r r' : GMLReader) :
  SetFeatureProperty pszElement pszValue r = Some r' ->
  handler_frame r' = handler_frame r.
Proof.
  unfold SetFeatureProperty.
  destruct (m_poState r) as [|top below]; [done|].
  destruct (m_poFeature top) as [poFeature|]; [|done].
  destruct (m_papoClass r !! m_poClass poFeature) as [poClass|]; [|done].
  destruct (_ =? _)%nat.
  - destruct (IsSchemaLocked poClass); [by intros [= <-]|].
    destruct (AddProperty _ poClass) as [iAdded poClass'].
    destruct (iAdded <? 0)%Z; by intros [= <-].
  - by intros [= <-].
Qed.

Lemma on_top_state_frame (g : GMLReadState -> GMLReadState) (r : GMLReader) :
  handler_frame (on_top_state g r) = handler_frame r.
Proof. unfold on_top_state. by destruct (m_poState r). Qed.

Lemma SetGlobalSRSName_frame (pszGlobalSRSName : option string)
                             (r : GMLReader) :
  handler_frame (SetGlobalSRSName pszGlobalSRSName r) = handler_frame r.
Proof.
  unfold SetGlobalSRSName.
  destruct (m_pszGlobalSRSName r) as [held|],
           pszGlobalSRSName as [given|]; try done.
  by destruct (strncmp_eq given "EPSG:" 5 && m_bConsiderEPSGAsURN r).
Qed.

Lemma apply_call_frame (c : handler_call) (r : GMLReader) :
  handler_frame (apply_call c r) = handler_frame r.
Proof.
  destruct c; simpl.
  - apply PushFeature_frame.
  - apply PopState_frame.
  - destruct (SetFeatureProperty pszElement pszValue r) eqn:H; [|done].
    by apply SetFeatureProperty_frame in H.
  - apply on_top_state_frame.
  - apply on_top_state_frame.
  - apply on_top_state_frame.
  - apply SetGlobalSRSName_frame.
Qed.

Lemma run_calls_frame (l : list handler_call) (r : GMLReader) :
  handler_frame (run_calls l r) = handler_frame r.
Proof.
  revert r. induction l as [|c l IH]; intros r; [done|].
  unfold run_calls in *. simpl. by rewrite IH, apply_call_frame.
Qed.

End HandlerFrame.

(** ** The scan loop ends *)

(** The features that wait to be returned: those in the table from the
    index on, and the one in the slot. *)
Definition waiting (r : GMLReader) : nat :=
  (length (ppoFeatureTab r) - nFeatureTabIndex r)
  + match m_poCompleteFeature r with Some _ => 1 | None => 0 end.

Definition steps_weight (steps : list parse_step) : nat :=
  sum_list (step_weight <$> steps).

(** [NextFeature] will not set the parser up again, which would rewind the
    file: reading has started, or the parser of the backend exists. *)
Definition ready (r : GMLReader) : Prop :=
  m_bReadStarted r = true
  \/ (bUseExpatReader r = true /\ oParser r = true)
  \/ (bUseExpatReader r = false /\ m_poSAXReader r = true).

Section ScanLoop.
Context {env : Environment} {names : FieldNameComparison}.

Lemma pending_weight_waiting (r : GMLReader) :
  pending_weight r = steps_weight (unread_steps r) + waiting r.
Proof. unfold pending_weight, waiting, steps_weight. lia. Qed.

Lemma frame_index (r r' : GMLReader) :
  handler_frame r' = handler_frame r ->
  nFeatureTabIndex r' = nFeatureTabIndex r
  /\ fpGML r' = fpGML r
  /\ m_bReadStarted r' = m_bReadStarted r
  /\ m_bStopParsing r' = m_bStopParsing r
  /\ bUseExpatReader r' = bUseExpatReader r
  /\ oParser r' = oParser r
  /\ m_poSAXReader r' = m_poSAXReader r
  /\ m_GMLInputSource r' = m_GMLInputSource r.
Proof.
  unfold handler_frame, options. intros H. by simplify_eq.
Qed.

Lemma PopState_waiting (r : GMLReader) : waiting (PopState r) <= S (waiting r).
Proof.
  unfold PopState, waiting. destruct (m_poState r) as [|top below]; [lia|].
  destruct (HAVE_XERCES && negb (bUseExpatReader r)
            && bool_decide (m_poFeature top <> None)
            && bool_decide (m_poCompleteFeature r = None)) eqn:Hlatch; simpl.
  - apply andb_true_iff in Hlatch as [_ Hnone].
    apply bool_decide_eq_true in Hnone. rewrite Hnone.
    destruct (m_poFeature top); lia.
  - destruct (m_poFeature top); [|lia].
    destruct (HAVE_EXPAT && bUseExpatReader r); simpl; [|lia].
    rewrite length_app. simpl. lia.
Qed.

Lemma apply_call_waiting (c : handler_call) (r : GMLReader) :
  waiting (apply_call c r) <= S (waiting r).
Proof.
  destruct c; simpl; try apply PopState_waiting.
  - unfold PushFeature, waiting. destruct (_ =? _)%Z; simpl; lia.
  - unfold SetFeatureProperty.
    destruct (m_poState r) as [|top below]; [lia|].
    destruct (m_poFeature top) as [poFeature|]; [|lia].
    destruct (m_papoClass r !! m_poClass poFeature) as [poClass|]; [|lia].
    destruct (_ =? _)%nat.
    + destruct (IsSchemaLocked poClass); [unfold waiting; simpl; lia|].
      destruct (AddProperty _ poClass) as [iAdded poClass'].
      destruct (iAdded <? 0)%Z; unfold waiting; simpl; lia.
    + unfold waiting; simpl; lia.
  - unfold on_top_state, waiting. destruct (m_poState r); simpl; lia.
  - unfold on_top_state, waiting. destruct (m_poState r); simpl; lia.
  - unfold on_top_state, waiting. destruct (m_poState r); simpl; lia.
  - unfold SetGlobalSRSName, waiting.
    destruct (m_pszGlobalSRSName r); [lia|].
    destruct (strncmp_eq _ "EPSG:" 5 && m_bConsiderEPSGAsURN r); simpl; lia.
Qed.

Lemma run_calls_waiting (l : list handler_call) (r : GMLReader) :
  waiting (run_calls l r) <= length l + waiting r.
Proof.
  revert r. induction l as [|c l IH]; intros r; [simpl; lia|].
  unfold run_calls in *. simpl.
  pose proof (IH (apply_call c r)). pose proof (apply_call_waiting c r). lia.
Qed.

End ScanLoop.

(** The fields neither parse loop writes. *)
Definition loop_frame (r : GMLReader) :=
  (options r, m_poSAXReader r, m_GMLInputSource r, oParser r,
   nFeatureTabIndex r, fpGML r, m_bReadStarted r, m_bCanUseGlobalSRSName r).

Section ParseLoops.
Context {env : Environment} {names : FieldNameComparison}.

Lemma handler_loop_frame (r r' : GMLReader) :
  handler_frame r' = handler_frame r -> loop_frame r' = loop_frame r.
Proof.
  unfold handler_frame, loop_frame. intros H. injection H. intros. congruence.
Qed.

Lemma run_calls_loop_frame (l : list handler_call) (r : GMLReader) :
  loop_frame (run_calls l r) = loop_frame r.
Proof. apply handler_loop_frame, run_calls_frame. Qed.

Lemma steps_weight_cons (s : parse_step) (rest : list parse_step) :
  steps_weight (s :: rest) = S (length (calls s)) + steps_weight rest.
Proof. done. Qed.

Lemma expat_parse_loop_weight (steps : list parse_step) (r : GMLReader) :
  steps_weight (fst (expat_parse_loop steps r))
  + waiting (snd (expat_parse_loop steps r))
  <= steps_weight steps + waiting r
  /\ loop_frame (snd (expat_parse_loop steps r)) = loop_frame r.
Proof.
  revert r. induction steps as [|s rest IH]; intros r; [simpl; split; [lia|done]|].
  cbn [expat_parse_loop].
  set (r1 := run_calls (calls s) r).
  set (r2 := match outcome s with
             | ParseOk => r1
             | _ => set_m_bStopParsing true (CPLError _ _ _ r1)
             end).
  set (r3 := if negb (m_bStopParsing r2)
             then set_m_bStopParsing (handler_stopped s) r2 else r2).
  assert (H3 : waiting r3 = waiting r1 /\ loop_frame r3 = loop_frame r1).
  { subst r3 r2. destruct (outcome s); simpl;
      repeat match goal with
             | |- context [if ?c then _ else _] => destruct c
             end; done. }
  destruct H3 as [Hw Hf].
  pose proof (run_calls_waiting (calls s) r) as Hcalls. fold r1 in Hcalls.
  pose proof (run_calls_loop_frame (calls s) r) as Hframe. fold r1 in Hframe.
  rewrite steps_weight_cons.
  destruct (negb match rest with [] => true | _ :: _ => false end
            && negb (m_bStopParsing r3)
            && (length (ppoFeatureTab r3) =? 0)%nat).
  - destruct (IH r3) as [IHw IHf]. split; [lia | congruence].
  - simpl. split; [lia | congruence].
Qed.

Lemma xerces_parse_loop_weight (steps : list parse_step) (r : GMLReader) :
  steps_weight (fst (fst (xerces_parse_loop steps r)))
  + waiting (snd (fst (xerces_parse_loop steps r)))
  <= steps_weight steps + waiting r
  /\ loop_frame (snd (fst (xerces_parse_loop steps r))) = loop_frame r.
Proof.
  revert r. induction steps as [|s rest IH]; intros r.
  - simpl. destruct (bool_decide _ && negb _); simpl; split; (lia || done).
  - cbn [xerces_parse_loop].
    destruct (bool_decide (m_poCompleteFeature r = None)
              && negb (m_bStopParsing r)); [|simpl; split; [lia|done]].
    pose proof (run_calls_waiting (calls s) r) as Hcalls.
    pose proof (run_calls_loop_frame (calls s) r) as Hframe.
    rewrite steps_weight_cons.
    destruct (outcome s); simpl; try (split; [lia | done]).
    destruct (IH (run_calls (calls s) r)) as [IHw IHf].
    split; [lia | congruence].
Qed.

End ParseLoops.

Section NextFeatureWeight.
Context {env : Environment} {names : FieldNameComparison}.

Lemma loop_frame_fields (r r' : GMLReader) :
  loop_frame r' = loop_frame r ->
  options r' = options r
  /\ nFeatureTabIndex r' = nFeatureTabIndex r
  /\ fpGML r' = fpGML r
  /\ m_bReadStarted r' = m_bReadStarted r
  /\ oParser r' = oParser r
  /\ m_poSAXReader r' = m_poSAXReader r
  /\ m_GMLInputSource r' = m_GMLInputSource r.
Proof.
  unfold loop_frame. intros H. injection H. intros.
  repeat split; try done. unfold options. congruence.
Qed.

Lemma options_backend (r r' : GMLReader) :
  options r' = options r -> bUseExpatReader r' = bUseExpatReader r.
Proof. unfold options. intros H. injection H. intros. congruence. Qed.

Lemma ready_frame (r r' : GMLReader) :
  options r' = options r -> oParser r' = oParser r ->
  m_poSAXReader r' = m_poSAXReader r ->
  (m_bReadStarted r = true -> m_bReadStarted r' = true) ->
  ready r -> ready r'.
Proof.
  intros Ho%options_backend Hp Hs Hst. unfold ready.
  rewrite Ho, Hp, Hs. tauto.
Qed.

(** Every feature the push backend returns lowers the weight. *)
Lemma NextFeatureExpat_weight (r r' : GMLReader) (f : GMLFeature) :
  ready r -> bUseExpatReader r = true ->
  NextFeatureExpat r = (Some f, r') ->
  pending_weight r' < pending_weight r
  /\ ready r' /\ options r' = options r.
Proof.
  intros Hready Hexpat. unfold NextFeatureExpat.
  set (r1 := if negb (m_bReadStarted r)
             then set_m_bReadStarted true
                    (if negb (oParser r) then snd (SetupParser r) else r)
             else r).
  assert (H1 : pending_weight r1 = pending_weight r
               /\ options r1 = options r /\ oParser r1 = oParser r
               /\ m_poSAXReader r1 = m_poSAXReader r
               /\ (m_bReadStarted r = true -> m_bReadStarted r1 = true)).
  { subst r1. destruct (m_bReadStarted r) eqn:Hst; simpl; [done|].
    destruct Hready as [Hs | [[_ Hp] | [Hx _]]]; [congruence | | congruence].
    rewrite Hp. simpl. by repeat split. }
  destruct H1 as (Hw1 & Ho1 & Hp1 & Hs1 & Hst1).
  assert (Hready1 : ready r1) by by apply (ready_frame r).
  clearbody r1. rewrite <- Hw1, <- Ho1. clear Hw1 Ho1 Hp1 Hs1 Hst1 Hready r Hexpat.
  destruct (fpGML r1) as [fp|] eqn:Hfp; [|done].
  destruct (m_bStopParsing r1); [done|].
  destruct (Nat.ltb_spec (nFeatureTabIndex r1) (length (ppoFeatureTab r1))).
  { intros [= _ <-]. split; [|split; [|done]].
    - unfold pending_weight, unread_steps. simpl. lia.
    - by apply (ready_frame r1). }
  destruct (VSIFEofL fp); [done|].
  set (r2 := set_nFeatureTabIndex 0 (set_ppoFeatureTab [] r1)).
  pose proof (expat_parse_loop_weight (unread fp) r2) as [Hw Hf].
  destruct (expat_parse_loop (unread fp) r2) as [rest r3]. simpl in Hw, Hf.
  apply loop_frame_fields in Hf as (Ho & Hidx & Hfp3 & Hst & Hp & Hs & _).
  simpl in Hidx, Hfp3, Hst, Hp, Hs.
  assert (Hset : set_unread rest r3
                 = set_fpGML (Some (mkVSILFILE (document fp) rest)) r3).
  { unfold set_unread. by rewrite Hfp3, Hfp. }
  rewrite Hset. simpl.
  destruct (Nat.eqb_spec (length (ppoFeatureTab r3)) 0); [done|].
  intros [= _ <-]. split; [|split].
  - unfold pending_weight, unread_steps. simpl. rewrite Hfp.
    fold (steps_weight rest). fold (steps_weight (unread fp)).
    unfold waiting in Hw. simpl in Hw. lia.
  - apply (ready_frame r1); simpl; try done. congruence.
  - simpl. unfold options in *. simpl in *. done.
Qed.

End NextFeatureWeight.

Section NextFeatureWeightPull.
Context {env : Environment} {names : FieldNameComparison}.

Lemma set_unread_weight (rest : list parse_step) (r : GMLReader) :
  steps_weight (unread_steps (set_unread rest r)) <= steps_weight rest
  /\ waiting (set_unread rest r) = waiting r
  /\ options (set_unread rest r) = options r
  /\ oParser (set_unread rest r) = oParser r
  /\ m_poSAXReader (set_unread rest r) = m_poSAXReader r
  /\ m_bReadStarted (set_unread rest r) = m_bReadStarted r
  /\ m_poCompleteFeature (set_unread rest r) = m_poCompleteFeature r.
Proof.
  unfold set_unread, unread_steps, steps_weight.
  destruct (fpGML r) eqn:Hfp; simpl; [done|]. rewrite Hfp. simpl.
  repeat split; try done. lia.
Qed.

Lemma unread_steps_frame (r r' : GMLReader) :
  loop_frame r' = loop_frame r -> unread_steps r' = unread_steps r.
Proof.
  intros (_ & _ & Hfp & _)%loop_frame_fields. unfold unread_steps.
  by rewrite Hfp.
Qed.

(** The loop of the pull backend and what follows it. *)
Lemma xerces_tail_weight (r4 r' : GMLReader) (f : GMLFeature) :
  (let '(rest, r5, exc) := xerces_parse_loop (unread_steps r4) r4 in
   match exc with
   | Some e => Raises e (set_unread rest r5)
   | None =>
       Returns (m_poCompleteFeature (set_unread rest r5))
               (set_m_poCompleteFeature None (set_unread rest r5))
   end) = Returns (Some f) r' ->
  pending_weight r' < pending_weight r4
  /\ options r' = options r4 /\ oParser r' = oParser r4
  /\ m_poSAXReader r' = m_poSAXReader r4
  /\ m_bReadStarted r' = m_bReadStarted r4.
Proof.
  pose proof (xerces_parse_loop_weight (unread_steps r4) r4) as [Hw Hf].
  destruct (xerces_parse_loop (unread_steps r4) r4) as [[rest r5] exc].
  simpl in Hw, Hf.
  destruct (set_unread_weight rest r5) as (Hu & Hwait & Ho & Hp & Hs & Hst & Hl).
  apply loop_frame_fields in Hf as (Ho5 & _ & _ & Hst5 & Hp5 & Hs5 & _).
  destruct exc as [e|]; [done|].
  intros [= Hslot <-]. simpl.
  split; [|repeat split; [unfold options in *; simpl in *|..]; congruence].
  assert (Hone : pending_weight
                   (set_m_poCompleteFeature None (set_unread rest r5)) + 1
                 = steps_weight (unread_steps (set_unread rest r5))
                   + waiting (set_unread rest r5)).
  { unfold pending_weight, waiting, unread_steps, steps_weight. simpl.
    rewrite Hslot. lia. }
  rewrite (pending_weight_waiting r4). lia.
Qed.

(** Every feature the pull backend returns lowers the weight. *)
Lemma NextFeatureXerces_weight (r r' : GMLReader) (f : GMLFeature) :
  ready r -> bUseExpatReader r = false ->
  NextFeatureXerces r = (Some f, r') ->
  pending_weight r' < pending_weight r
  /\ ready r' /\ options r' = options r.
Proof.
  intros Hready Hpull. unfold NextFeatureXerces.
  destruct (NextFeatureXerces_try r) as [poReturn r0 | exc r0 | r0] eqn:Htry.
  2:{ by destruct exc. }
  2:{ done. }
  intros [= -> ->]. revert Htry. unfold NextFeatureXerces_try.
  destruct (m_bReadStarted r) eqn:Hst; simpl.
  - destruct (_ && _ && negb (m_poSAXReader r)); [done|].
    intros H. apply xerces_tail_weight in H as (Hw & Ho & Hp & Hs & Hstarted).
    split; [done|]. split; [|done].
    apply (ready_frame r); try done. congruence.
  - destruct Hready as [? | [[? _] | [_ Hsax]]]; [congruence.. |].
    rewrite Hsax. simpl.
    destruct (m_GMLInputSource r); simpl; [|done].
    rewrite Hsax. simpl.
    unfold xerces_parse. simpl.
    destruct (unread_steps (set_m_bReadStarted true r)) as [|s rest] eqn:Hun;
      [done|].
    set (r3 := run_calls (calls s) (set_unread rest (set_m_bReadStarted true r))).
    destruct (outcome s) eqn:Hout; try done.
    destruct (_ && _ && negb (m_poSAXReader r3)); [done|].
    intros H. apply xerces_tail_weight in H as (Hw & Ho & Hp & Hs & Hstarted).
    pose proof (run_calls_waiting (calls s)
                  (set_unread rest (set_m_bReadStarted true r))) as Hcalls.
    pose proof (run_calls_loop_frame (calls s)
                  (set_unread rest (set_m_bReadStarted true r))) as Hframe.
    fold r3 in Hcalls, Hframe.
    pose proof (unread_steps_frame _ _ Hframe) as Hun3.
    apply loop_frame_fields in Hframe as (Ho3 & _ & _ & Hst3 & Hp3 & Hs3 & _).
    destruct (set_unread_weight rest (set_m_bReadStarted true r))
      as (Hu & Hwait & Hoo & Hpp & Hss & Hstt & _).
    split; [|split].
    + rewrite (pending_weight_waiting r3), Hun3 in Hw.
      rewrite (pending_weight_waiting r).
      assert (Hr : steps_weight (unread_steps r)
                   = S (length (calls s)) + steps_weight rest).
      { unfold unread_steps in *. simpl in Hun. by rewrite Hun. }
      assert (Hwr : waiting (set_m_bReadStarted true r) = waiting r) by done.
      lia.
    + left. by rewrite Hstarted, Hst3, Hstt.
    + by rewrite Ho, Ho3, Hoo.
Qed.

End NextFeatureWeightPull.

Section ScanLoopEnds.
Context {env : Environment} {names : FieldNameComparison}.

Lemma NextFeature_weight (r r' : GMLReader) (f : GMLFeature) :
  ready r -> NextFeature r = (Some f, r') ->
  pending_weight r' < pending_weight r /\ ready r' /\ options r' = options r.
Proof.
  intros Hready. unfold NextFeature.
  destruct (HAVE_EXPAT && bUseExpatReader r) eqn:He.
  - apply andb_true_iff in He as [_ He]. by apply NextFeatureExpat_weight.
  - destruct (HAVE_XERCES && negb (bUseExpatReader r)) eqn:Hx; [|done].
    apply andb_true_iff in Hx as [_ Hx]. apply negb_true_iff in Hx.
    by apply NextFeatureXerces_weight.
Qed.

Lemma prescan_feature_weight (bGetExtents : bool) (f : GMLFeature)
                             (r : GMLReader) :
  pending_weight (prescan_feature bGetExtents f r) = pending_weight r
  /\ (ready r -> ready (prescan_feature bGetExtents f r))
  /\ options (prescan_feature bGetExtents f r) = options r.
Proof.
  unfold prescan_feature.
  destruct (m_papoClass r !! m_poClass f) as [poClass|]; [|done].
  destruct bGetExtents; [|done].
  destruct (GML_BuildOGRGeometryFromList _ _ _); [|done].
  by destruct (GML_ExtractSrsNameFromGeometry _ _).
Qed.

(** Once the loop has more turns than the weight of the reader, further
    turns change nothing: the loop has ended because [NextFeature] returned
    NULL, within the turns [PrescanForSchema] gives it. *)
Theorem prescan_loop_ends (bGetExtents : bool) (turns more : nat)
                          (r : GMLReader) :
  ready r -> pending_weight r < turns -> pending_weight r < more ->
  prescan_loop turns bGetExtents r = prescan_loop more bGetExtents r.
Proof.
  revert more r. induction turns as [|turns IH]; intros more r Hready Ht Hm;
    [lia|].
  destruct more as [|more]; [lia|]. simpl.
  destruct (NextFeature r) as [[f|] r'] eqn:Hnext; [|done].
  destruct (NextFeature_weight r r' f Hready Hnext) as (Hw & Hr & _).
  destruct (prescan_feature_weight bGetExtents f r') as (Hw' & Hr' & _).
  apply IH; [by apply Hr' | lia | lia].
Qed.

Lemma SetupParser_ready (r r' : GMLReader) :
  SetupParser r = (true, r') -> ready r'.
Proof.
  unfold SetupParser.
  set (r2 := match fpGML _ with
             | Some fp => set_fpGML (Some (VSIFSeekL_start fp)) _
             | None => _
             end).
  clearbody r2.
  destruct (HAVE_EXPAT && bUseExpatReader r2) eqn:He.
  - apply andb_true_iff in He as [_ He].
    pose proof (SetupParserExpat_settings r2) as Hset.
    assert (Hp : oParser (snd (SetupParserExpat r2)) = true) by done.
    destruct (SetupParserExpat r2) as [b r3]. simpl in Hset, Hp.
    apply settings_fields in Hset as (Hb & _).
    destruct (HAVE_XERCES && negb (bUseExpatReader r3)) eqn:Hx.
    { apply andb_true_iff in Hx as [_ Hx]. apply negb_true_iff in Hx.
      congruence. }
    destruct b; [|done]. intros [= <-]. right. left. simpl.
    split; congruence.
  - destruct (HAVE_XERCES && negb (bUseExpatReader r2)) eqn:Hx; [|done].
    apply andb_true_iff in Hx as [_ Hx]. apply negb_true_iff in Hx.
    pose proof (SetupParserXerces_settings r2) as Hset.
    assert (Hs : fst (SetupParserXerces r2) = true ->
                 m_poSAXReader (snd (SetupParserXerces r2)) = true).
    { unfold SetupParserXerces. destruct XercesInitializes; [|done].
      destruct XercesCreatesReader; [|done]. simpl.
      by destruct (negb _ && bool_decide _). }
    destruct (SetupParserXerces r2) as [b r3]. simpl in Hset, Hs.
    apply settings_fields in Hset as (Hb & _).
    destruct b; [|done]. intros [= <-]. right. right. simpl.
    split; [congruence | by apply Hs].
Qed.

(** The turns [PrescanForSchema] gives its scan loop are enough. *)
Theorem prescan_scan_ends (bGetExtents : bool) (r scanned : GMLReader)
                          (more : nat) :
  prescan_scan bGetExtents r = inr scanned ->
  exists r3,
    ready r3
    /\ scanned = prescan_loop (S (pending_weight r3)) bGetExtents r3
    /\ (pending_weight r3 < more ->
        scanned = prescan_loop more bGetExtents r3).
Proof.
  unfold prescan_scan. destruct (m_pszFilename r); [|done].
  destruct (SetupParser _) as [ok r2] eqn:Hsetup.
  destruct ok; [|done]. change (negb true) with false. cbv iota zeta.
  intros [= <-]. apply SetupParser_ready in Hsetup.
  exists (set_m_bCanUseGlobalSRSName true r2).
  assert (Hready : ready (set_m_bCanUseGlobalSRSName true r2)) by done.
  split; [done|]. split; [done|]. intros Hmore.
  exact (prescan_loop_ends bGetExtents
           (S (pending_weight (set_m_bCanUseGlobalSRSName true r2))) more
           (set_m_bCanUseGlobalSRSName true r2) Hready
           (Nat.lt_succ_diag_r _) Hmore).
Qed.

End ScanLoopEnds.

(** ** What parsing keeps of the registry and of the options *)

Section ParsingKeeps.
Context {env : Environment} {names : FieldNameComparison}.

(** A property of classes that a new class has and that no change of the
    property list of a class breaks. *)
Variable P : GMLFeatureClass -> Prop.
Hypothesis P_new : forall pszName, P (new_GMLFeatureClass pszName).
Hypothesis P_properties :
  forall c l, P c -> P (set_m_papoProperty l c).

Lemma settings_options (r r' : GMLReader) :
  settings r' = settings r ->
  options r' = options r /\ m_papoClass r' = m_papoClass r.
Proof.
  unfold settings, options. intros H. injection H. intros.
  split; congruence.
Qed.

Lemma handler_frame_options (r r' : GMLReader) :
  handler_frame r' = handler_frame r -> options r' = options r.
Proof. intros H%handler_loop_frame. by apply loop_frame_fields in H as [? _]. Qed.

Lemma apply_call_keeps (c : handler_call) (r : GMLReader) :
  Forall P (m_papoClass r) -> Forall P (m_papoClass (apply_call c r)).
Proof.
  intros HP. destruct c; simpl.
  - unfold PushFeature. destruct (_ =? _)%Z; simpl; [|done].
    apply Forall_app. split; [done|]. by constructor.
  - by destruct (settings_options _ _ (PopState_settings r)) as [_ ->].
  - unfold SetFeatureProperty.
    destruct (m_poState r) as [|top below]; [done|].
    destruct (m_poFeature top) as [poFeature|]; [|done].
    destruct (m_papoClass r !! m_poClass poFeature) as [poClass|] eqn:Hc;
      [|done].
    assert (HPc : P poClass).
    { rewrite Forall_forall in HP. apply HP.
      by apply list_elem_of_lookup_2 in Hc. }
    assert (Hstore : forall i c', P c' ->
              Forall P (m_papoClass
                          (store_property i pszValue poFeature c' top below r))).
    { intros i c' HPc'. unfold store_property. simpl.
      apply Forall_insert; [done|].
      destruct (negb (IsSchemaLocked c')); [|done].
      destruct (m_papoProperty c' !! i); [|done]. by apply P_properties. }
    destruct (_ =? _)%nat; [|by apply Hstore].
    destruct (IsSchemaLocked poClass); [done|].
    unfold AddProperty.
    destruct (GetPropertyByName poClass _); simpl; [done|].
    destruct (_ <? 0)%Z; [done|]. apply Hstore. by apply P_properties.
  - unfold on_top_state. by destruct (m_poState r).
  - unfold on_top_state. by destruct (m_poState r).
  - unfold on_top_state. by destruct (m_poState r).
  - unfold SetGlobalSRSName. destruct (m_pszGlobalSRSName r); [done|].
    by destruct (strncmp_eq _ "EPSG:" 5 && m_bConsiderEPSGAsURN r).
Qed.

Lemma run_calls_keeps (l : list handler_call) (r : GMLReader) :
  Forall P (m_papoClass r) -> Forall P (m_papoClass (run_calls l r)).
Proof.
  revert r. induction l as [|c l IH]; intros r HP; [done|].
  unfold run_calls in *. simpl. by apply IH, apply_call_keeps.
Qed.

Lemma expat_parse_loop_keeps (steps : list parse_step) (r : GMLReader) :
  Forall P (m_papoClass r) ->
  Forall P (m_papoClass (snd (expat_parse_loop steps r))).
Proof.
  revert r. induction steps as [|s rest IH]; intros r HP; [done|].
  cbn [expat_parse_loop].
  set (r1 := run_calls (calls s) r).
  set (r2 := match outcome s with
             | ParseOk => r1
             | _ => set_m_bStopParsing true (CPLError _ _ _ r1)
             end).
  set (r3 := if negb (m_bStopParsing r2)
             then set_m_bStopParsing (handler_stopped s) r2 else r2).
  assert (H3 : m_papoClass r3 = m_papoClass r1).
  { subst r3 r2. destruct (outcome s); simpl;
      repeat match goal with
             | |- context [if ?c then _ else _] => destruct c
             end; done. }
  assert (HP3 : Forall P (m_papoClass r3)).
  { rewrite H3. by apply run_calls_keeps. }
  destruct (negb _ && negb _ && _); [by apply IH | done].
Qed.

Lemma xerces_parse_loop_keeps (steps : list parse_step) (r : GMLReader) :
  Forall P (m_papoClass r) ->
  Forall P (m_papoClass (snd (fst (xerces_parse_loop steps r)))).
Proof.
  revert r. induction steps as [|s rest IH]; intros r HP.
  - simpl. by destruct (bool_decide _ && negb _).
  - cbn [xerces_parse_loop].
    destruct (bool_decide _ && negb _); [|done].
    pose proof (run_calls_keeps (calls s) r HP).
    destruct (outcome s); simpl; try done. by apply IH.
Qed.

Lemma set_unread_keeps (rest : list parse_step) (r : GMLReader) :
  m_papoClass (set_unread rest r) = m_papoClass r.
Proof. unfold set_unread. by destruct (fpGML r). Qed.

Lemma NextFeatureExpat_keeps (r : GMLReader) :
  Forall P (m_papoClass r) ->
  Forall P (m_papoClass (snd (NextFeatureExpat r))).
Proof.
  intros HP. unfold NextFeatureExpat.
  set (r1 := if negb (m_bReadStarted r)
             then set_m_bReadStarted true
                    (if negb (oParser r) then snd (SetupParser r) else r)
             else r).
  assert (H1 : m_papoClass r1 = m_papoClass r).
  { subst r1. destruct (m_bReadStarted r); simpl; [done|].
    destruct (oParser r); simpl; [done|].
    by destruct (settings_options _ _ (SetupParser_settings r)) as [_ ->]. }
  rewrite <- H1 in HP. clearbody r1.
  destruct (fpGML r1) as [fp|]; [|done].
  destruct (m_bStopParsing r1); [done|].
  destruct (_ <? _)%nat; [done|].
  destruct (VSIFEofL fp); [done|].
  pose proof (expat_parse_loop_keeps (unread fp)
                (set_nFeatureTabIndex 0 (set_ppoFeatureTab [] r1)) HP) as HP3.
  destruct (expat_parse_loop _ _) as [rest r3]. simpl in HP3.
  destruct (_ =? 0)%nat; simpl; by rewrite set_unread_keeps.
Qed.

Lemma NextFeatureXerces_keeps (r : GMLReader) :
  Forall P (m_papoClass r) ->
  Forall P (m_papoClass (snd (NextFeatureXerces r))).
Proof.
  intros HP.
  assert (Htail : forall r4, Forall P (m_papoClass r4) ->
            forall res,
              (let '(rest, r5, exc) := xerces_parse_loop (unread_steps r4) r4 in
               match exc with
               | Some e => Raises e (set_unread rest r5)
               | None =>
                   Returns (m_poCompleteFeature (set_unread rest r5))
                     (set_m_poCompleteFeature None (set_unread rest r5))
               end) = res ->
              match res with
              | Returns _ r' | Raises _ r' | Faults r' => Forall P (m_papoClass r')
              end).
  { intros r4 HP4 res.
    pose proof (xerces_parse_loop_keeps (unread_steps r4) r4 HP4) as HP5.
    destruct (xerces_parse_loop _ _) as [[rest r5] exc]. simpl in HP5.
    destruct exc; intros <-; simpl; by rewrite set_unread_keeps. }
  assert (Htry : match NextFeatureXerces_try r with
                 | Returns _ r' | Raises _ r' | Faults r' => Forall P (m_papoClass r')
                 end).
  { unfold NextFeatureXerces_try.
    destruct (m_bReadStarted r); simpl.
    { destruct (_ && _ && negb (m_poSAXReader r)); [done|].
      by apply (Htail r). }
    set (r1 := if negb (m_poSAXReader r) then snd (SetupParser r) else r).
    assert (H1 : Forall P (m_papoClass r1)).
    { subst r1. destruct (m_poSAXReader r); simpl; [done|].
      by destruct (settings_options _ _ (SetupParser_settings r)) as [_ ->]. }
    clearbody r1. destruct (m_GMLInputSource r1); simpl; [|done].
    destruct (m_poSAXReader r1); simpl; [|done].
    unfold xerces_parse. simpl.
    destruct (unread_steps (set_m_bReadStarted true r1)) as [|s rest]; [done|].
    assert (H3 : Forall P (m_papoClass
                             (run_calls (calls s)
                                (set_unread rest (set_m_bReadStarted true r1))))).
    { apply run_calls_keeps. by rewrite set_unread_keeps. }
    destruct (outcome s); try done.
    destruct (_ && _ && negb _); [done | by apply (Htail _ H3)]. }
  unfold NextFeatureXerces.
  destruct (NextFeatureXerces_try r) as [poReturn r' | exc r' | r'];
    [done | | done].
  by destruct exc.
Qed.

Lemma NextFeature_keeps (r : GMLReader) :
  Forall P (m_papoClass r) -> Forall P (m_papoClass (snd (NextFeature r))).
Proof.
  intros HP. unfold NextFeature.
  destruct (HAVE_EXPAT && bUseExpatReader r);
    [by apply NextFeatureExpat_keeps|].
  destruct (HAVE_XERCES && negb (bUseExpatReader r));
    [by apply NextFeatureXerces_keeps | done].
Qed.

End ParsingKeeps.

(** ** How the pull backend comes to a stop *)

(** [NextFeatureXerces] sets [m_bStopParsing] in its [catch] blocks only.
    The slot for the completed feature is then what the calls of the step
    that threw have left.  A tokenizer that throws on a token does not
    deliver the end of a feature element with it: the step makes no call
    of [PopState]. *)
Definition raises (o : parse_outcome) : bool :=
  match o with
  | ThrowsXMLException | ThrowsSAXException => true
  | ParseOk | ParseFail => false
  end.

Definition is_PopState (c : handler_call) : bool :=
  match c with HPopState => true | _ => false end.

Definition step_orderly (s : parse_step) : bool :=
  negb (raises (outcome s)) || negb (existsb is_PopState (calls s)).

Definition orderly (steps : list parse_step) : Prop :=
  forallb step_orderly steps = true.

(** Every document the reader can come to read is orderly. *)
Definition orderly_input {env : Environment} (r : GMLReader) : Prop :=
  (forall fp, fpGML r = Some fp ->
              orderly (document fp) /\ orderly (unread fp))
  /\ (forall name doc, VSIFOpenL name = Some doc -> orderly doc).

(** A reader that has not started reading holds no completed feature. *)
Definition slot_free (r : GMLReader) : Prop :=
  m_bReadStarted r = false -> m_poCompleteFeature r = None.

Section CallsAndSlot.
Context {env : Environment} {names : FieldNameComparison}.

Lemma apply_call_slot (c : handler_call) (r : GMLReader) :
  is_PopState c = false ->
  m_poCompleteFeature (apply_call c r) = m_poCompleteFeature r.
Proof.
  destruct c; simpl; try done; intros _.
  - unfold PushFeature. by destruct (_ =? _)%Z.
  - unfold SetFeatureProperty.
    destruct (m_poState r) as [|top below]; [done|].
    destruct (m_poFeature top) as [poFeature|]; [|done].
    destruct (m_papoClass r !! m_poClass poFeature) as [poClass|]; [|done].
    destruct (_ =? _)%nat; [|done].
    destruct (IsSchemaLocked poClass); [done|].
    destruct (AddProperty _ poClass) as [iAdded poClass'].
    by destruct (iAdded <? 0)%Z.
  - unfold on_top_state. by destruct (m_poState r).
  - unfold on_top_state. by destruct (m_poState r).
  - unfold on_top_state. by destruct (m_poState r).
  - unfold SetGlobalSRSName. destruct (m_pszGlobalSRSName r); [done|].
    by destruct (strncmp_eq _ "EPSG:" 5 && m_bConsiderEPSGAsURN r).
Qed.

Lemma run_calls_slot (l : list handler_call) (r : GMLReader) :
  existsb is_PopState l = false ->
  m_poCompleteFeature (run_calls l r) = m_poCompleteFeature r.
Proof.
  revert r. induction l as [|c l IH]; intros r Hl; [done|].
  simpl in Hl. apply orb_false_iff in Hl as [Hc Hl].
  unfold run_calls in *. simpl. rewrite IH by done.
  by apply apply_call_slot.
Qed.

Lemma PopState_slot_without_xerces (r : GMLReader) :
  HAVE_XERCES = false ->
  m_poCompleteFeature (PopState r) = m_poCompleteFeature r.
Proof.
  intros Hx. unfold PopState. rewrite Hx. simpl.
  destruct (m_poState r) as [|top below]; [done|].
  destruct (m_poFeature top); [|done].
  by destruct (HAVE_EXPAT && bUseExpatReader r).
Qed.

Lemma CleanupParser_slot (r : GMLReader) :
  m_poCompleteFeature r = None -> m_poCompleteFeature (CleanupParser r) = None.
Proof.
  intros Hslot. unfold CleanupParser.
  destruct (HAVE_XERCES && _ && _); [done|].
  destruct (HAVE_EXPAT && _ && _); [done|].
  destruct HAVE_XERCES eqn:Hx.
  - by destruct HAVE_EXPAT.
  - assert (Hiter : forall n,
              m_poCompleteFeature (Nat.iter n PopState r) = None).
    { induction n as [|n IH]; [done|]. simpl.
      by rewrite PopState_slot_without_xerces. }
    destruct HAVE_EXPAT; simpl; apply Hiter.
Qed.

Lemma CleanupParser_fpGML (r : GMLReader) :
  fpGML (CleanupParser r) = fpGML r.
Proof.
  unfold CleanupParser.
  destruct (HAVE_XERCES && _ && _); [done|].
  destruct (HAVE_EXPAT && _ && _); [done|].
  assert (Hiter : forall n, fpGML (Nat.iter n PopState r) = fpGML r).
  { induction n as [|n IH]; [done|]. simpl.
    pose proof (PopState_frame (Nat.iter n PopState r)) as Hf.
    unfold handler_frame in Hf. injection Hf. intros. congruence. }
  destruct HAVE_XERCES, HAVE_EXPAT; simpl; apply Hiter.
Qed.

End CallsAndSlot.

Section SetupAndSlot.
Context {env : Environment} {names : FieldNameComparison}.

Lemma SetupParserExpat_slot (r : GMLReader) :
  fpGML (snd (SetupParserExpat r)) = fpGML r
  /\ (m_poCompleteFeature r = None ->
      m_poCompleteFeature (snd (SetupParserExpat r)) = None).
Proof.
  unfold SetupParserExpat. simpl. destruct (oParser r); [|done].
  split; [apply CleanupParser_fpGML | apply CleanupParser_slot].
Qed.

Lemma SetupParserXerces_slot (r : GMLReader) :
  fpGML (snd (SetupParserXerces r)) = fpGML r
  /\ (m_poCompleteFeature r = None ->
      m_poCompleteFeature (snd (SetupParserXerces r)) = None).
Proof.
  unfold SetupParserXerces.
  destruct XercesInitializes; [|done]. simpl.
  set (r1 := if m_poSAXReader r then CleanupParser r else r).
  assert (H1 : fpGML r1 = fpGML r
               /\ (m_poCompleteFeature r = None ->
                   m_poCompleteFeature r1 = None)).
  { subst r1. destruct (m_poSAXReader r); [|done].
    split; [apply CleanupParser_fpGML | apply CleanupParser_slot]. }
  clearbody r1. destruct XercesCreatesReader; [|done]. simpl.
  by destruct (negb _ && bool_decide _).
Qed.

Lemma orderly_input_frame (r r' : GMLReader) :
  fpGML r' = fpGML r -> orderly_input r -> orderly_input r'.
Proof. unfold orderly_input. by intros ->. Qed.

Lemma orderly_input_unread (r : GMLReader) :
  orderly_input r -> orderly (unread_steps r).
Proof.
  intros [Hfp _]. unfold unread_steps.
  destruct (fpGML r) as [fp|]; [by apply Hfp | done].
Qed.

Lemma orderly_input_set_unread (rest : list parse_step) (r : GMLReader) :
  orderly_input r -> orderly rest -> orderly_input (set_unread rest r).
Proof.
  intros [Hfp Hopen] Hrest. unfold set_unread.
  destruct (fpGML r) as [fp|] eqn:Hr; [|by split; [rewrite Hr|]].
  split; [|done]. simpl. intros fp' [= <-]. simpl.
  split; [by apply Hfp | done].
Qed.

(** After [SetupParser] the file is at its start, and the slot is as
    empty as it was. *)
Lemma SetupParser_slot (r : GMLReader) :
  orderly_input r ->
  orderly_input (snd (SetupParser r))
  /\ (m_poCompleteFeature r = None ->
      m_poCompleteFeature (snd (SetupParser r)) = None).
Proof.
  intros [Hfp Hopen]. unfold SetupParser.
  set (r1 := match fpGML r with
             | None => match m_pszFilename r with
                       | Some name => set_fpGML _ r
                       | None => r
                       end
             | Some _ => r
             end).
  assert (H1 : m_poCompleteFeature r1 = m_poCompleteFeature r
               /\ forall fp, fpGML r1 = Some fp -> orderly (document fp)).
  { subst r1. destruct (fpGML r) as [fp|] eqn:Hr.
    - split; [done|]. intros fp' Hfp'. rewrite Hr in Hfp'.
      injection Hfp' as <-. by apply Hfp.
    - destruct (m_pszFilename r) as [name|]; [|by rewrite Hr].
      split; [done|]. simpl. intros fp'.
      destruct (VSIFOpenL name) as [doc|] eqn:Hdoc; [|done].
      intros [= <-]. by apply (Hopen name). }
  clearbody r1. destruct H1 as [Hs1 Hd1].
  set (r2 := match fpGML r1 with
             | Some fp => set_fpGML (Some (VSIFSeekL_start fp)) r1
             | None => r1
             end).
  assert (H2 : m_poCompleteFeature r2 = m_poCompleteFeature r
               /\ orderly_input r2).
  { subst r2. unfold orderly_input. destruct (fpGML r1) as [fp|] eqn:Hr.
    - split; [done|]. split; [|done]. simpl. intros fp' [= <-]. simpl.
      split; by apply Hd1.
    - split; [done|]. by rewrite Hr. }
  clearbody r2. destruct H2 as [Hs2 Hu2].
  set (after_expat := if HAVE_EXPAT && bUseExpatReader r2
                      then let '(b, r') := SetupParserExpat r2 in (Some b, r')
                      else (None, r2)).
  assert (H3 : fpGML (snd after_expat) = fpGML r2
               /\ (m_poCompleteFeature r = None ->
                   m_poCompleteFeature (snd after_expat) = None)).
  { subst after_expat.
    destruct (HAVE_EXPAT && bUseExpatReader r2); [|simpl; by rewrite Hs2].
    pose proof (SetupParserExpat_slot r2) as [? ?].
    destruct (SetupParserExpat r2). simpl in *. split; [done|].
    rewrite <- Hs2. done. }
  destruct after_expat as [bRet r3]. simpl in H3. destruct H3 as [Hf3 Hs3].
  set (after_xerces := if HAVE_XERCES && negb (bUseExpatReader r3)
                       then let '(b, r') := SetupParserXerces r3 in (Some b, r')
                       else (bRet, r3)).
  assert (H4 : fpGML (snd after_xerces) = fpGML r2
               /\ (m_poCompleteFeature r = None ->
                   m_poCompleteFeature (snd after_xerces) = None)).
  { subst after_xerces.
    destruct (HAVE_XERCES && negb (bUseExpatReader r3)); [|done].
    pose proof (SetupParserXerces_slot r3) as [? ?].
    destruct (SetupParserXerces r3). simpl in *.
    split; [congruence | auto]. }
  destruct after_xerces as [bRet' r4]. simpl in H4. destruct H4 as [Hf4 Hs4].
  destruct bRet' as [[|]|]; simpl;
    (split; [by apply (orderly_input_frame r2) | done]).
Qed.

End SetupAndSlot.

Section LoopsAndSlot.
Context {env : Environment} {names : FieldNameComparison}.

Lemma orderly_cons (s : parse_step) (rest : list parse_step) :
  orderly (s :: rest) -> step_orderly s = true /\ orderly rest.
Proof. unfold orderly. simpl. by intros ?%andb_true_iff. Qed.

Lemma expat_parse_loop_orderly (steps : list parse_step) (r : GMLReader) :
  orderly steps -> orderly (fst (expat_parse_loop steps r)).
Proof.
  revert r. induction steps as [|s rest IH]; intros r Hsteps; [done|].
  apply orderly_cons in Hsteps as [_ Hrest]. cbn [expat_parse_loop].
  destruct (negb _ && negb _ && _); [by apply IH | done].
Qed.

(** The pull loop leaves alone what no handler call writes; when it ends
    by an exception, the slot is empty. *)
Lemma xerces_parse_loop_orderly (steps : list parse_step) (r : GMLReader) :
  orderly steps ->
  orderly (fst (fst (xerces_parse_loop steps r)))
  /\ handler_frame (snd (fst (xerces_parse_loop steps r))) = handler_frame r
  /\ (snd (xerces_parse_loop steps r) <> None ->
      m_poCompleteFeature (snd (fst (xerces_parse_loop steps r))) = None).
Proof.
  revert r. induction steps as [|s rest IH]; intros r Hsteps.
  - simpl. by destruct (bool_decide _ && negb _).
  - pose proof Hsteps as Hall.
    apply orderly_cons in Hsteps as [Hs Hrest]. cbn [xerces_parse_loop].
    destruct (bool_decide (m_poCompleteFeature r = None)) eqn:Hslot;
      [|by rewrite andb_false_l].
    apply bool_decide_eq_true in Hslot.
    destruct (negb (m_bStopParsing r)); [|done]. rewrite andb_true_l.
    pose proof (run_calls_frame (calls s) r) as Hframe.
    unfold step_orderly in Hs.
    destruct (outcome s); simpl in Hs |- *.
    + destruct (IH (run_calls (calls s) r) Hrest) as (Ho & Hf & Hn).
      split; [done|]. split; [congruence | done].
    + done.
    + apply negb_true_iff in Hs.
      split; [done|]. split; [done|]. intros _.
      by rewrite run_calls_slot.
    + apply negb_true_iff in Hs.
      split; [done|]. split; [done|]. intros _.
      by rewrite run_calls_slot.
Qed.

Lemma handler_frame_fields (r r' : GMLReader) :
  handler_frame r' = handler_frame r ->
  options r' = options r /\ fpGML r' = fpGML r
  /\ m_bReadStarted r' = m_bReadStarted r
  /\ m_bStopParsing r' = m_bStopParsing r.
Proof.
  unfold handler_frame. intros H. injection H. intros.
  repeat split; try done. unfold options. congruence.
Qed.

Lemma set_unread_options (rest : list parse_step) (r : GMLReader) :
  options (set_unread rest r) = options r.
Proof. unfold set_unread. by destruct (fpGML r). Qed.

(** What a call of [NextFeatureExpat] keeps. *)
Lemma NextFeatureExpat_orderly (r : GMLReader) :
  orderly_input r ->
  orderly_input (snd (NextFeatureExpat r))
  /\ m_bReadStarted (snd (NextFeatureExpat r)) = true
  /\ options (snd (NextFeatureExpat r)) = options r.
Proof.
  intros Hin. unfold NextFeatureExpat.
  set (r1 := if negb (m_bReadStarted r)
             then set_m_bReadStarted true
                    (if negb (oParser r) then snd (SetupParser r) else r)
             else r).
  assert (H1 : orderly_input r1 /\ m_bReadStarted r1 = true
               /\ options r1 = options r).
  { subst r1. destruct (m_bReadStarted r) eqn:Hst; simpl; [done|].
    destruct (oParser r); simpl; [done|].
    split; [|split; [done|]].
    - apply (orderly_input_frame (snd (SetupParser r))); [done|].
      by apply SetupParser_slot.
    - destruct (settings_options _ _ (SetupParser_settings r)) as [Ho _].
      unfold options in *. simpl. exact Ho. }
  clearbody r1. destruct H1 as (Hin1 & Hst1 & Ho1).
  destruct (fpGML r1) as [fp|] eqn:Hfp; [|done].
  destruct (m_bStopParsing r1); [done|].
  destruct (_ <? _)%nat; [done|].
  destruct (VSIFEofL fp); [done|].
  pose proof (expat_parse_loop_orderly (unread fp)
                (set_nFeatureTabIndex 0 (set_ppoFeatureTab [] r1))) as Hrest.
  pose proof (expat_parse_loop_weight (unread fp)
                (set_nFeatureTabIndex 0 (set_ppoFeatureTab [] r1)))
    as [_ Hframe].
  destruct (expat_parse_loop _ _) as [rest r3]. simpl in Hrest, Hframe.
  apply loop_frame_fields in Hframe as (Ho3 & _ & Hfp3 & Hst3 & _).
  assert (Hrest' : orderly rest).
  { apply Hrest. destruct Hin1 as [Hd _]. by apply (Hd fp). }
  assert (Hin4 : orderly_input (set_unread rest r3)).
  { apply orderly_input_set_unread; [|done].
    by apply (orderly_input_frame r1). }
  assert (Hst4 : m_bReadStarted (set_unread rest r3) = true).
  { destruct (set_unread_fields rest r3) as (_ & -> & _). by rewrite Hst3. }
  pose proof (set_unread_options rest r3) as Ho4.
  assert (Ho5 : options (set_unread rest r3) = options r).
  { rewrite Ho4, Ho3. exact Ho1. }
  by destruct (_ =? 0)%nat.
Qed.

End LoopsAndSlot.

(** What the [try] block of [NextFeatureXerces] ensures when it is entered
    by a reader that has not stopped: parsing is still not stopped when
    it returns, and the slot is empty when it throws. *)
Definition try_ok {env : Environment} (r0 : GMLReader) (res : try_result)
  : Prop :=
  match res with
  | Returns _ r' | Faults r' =>
      orderly_input r' /\ m_bReadStarted r' = true
      /\ options r' = options r0 /\ m_bStopParsing r' = false
  | Raises _ r' =>
      orderly_input r' /\ m_bReadStarted r' = true
      /\ options r' = options r0 /\ m_poCompleteFeature r' = None
  end.

Section PullAndSlot.
Context {env : Environment} {names : FieldNameComparison}.

Lemma try_ok_options (r0 r1 : GMLReader) (res : try_result) :
  options r1 = options r0 -> try_ok r1 res -> try_ok r0 res.
Proof.
  intros Ho. destruct res; simpl; intros (Hin & Hst & Hopt & Hlast);
    (split; [exact Hin|]; split; [exact Hst|]; split;
     [congruence | exact Hlast]).
Qed.

Lemma xerces_tail_ok (r4 : GMLReader) :
  orderly_input r4 -> m_bReadStarted r4 = true -> m_bStopParsing r4 = false ->
  try_ok r4
    (let '(rest, r5, exc) := xerces_parse_loop (unread_steps r4) r4 in
     match exc with
     | Some e => Raises e (set_unread rest r5)
     | None =>
         Returns (m_poCompleteFeature (set_unread rest r5))
                 (set_m_poCompleteFeature None (set_unread rest r5))
     end).
Proof.
  intros Hin Hst Hstop.
  pose proof (xerces_parse_loop_orderly (unread_steps r4) r4
                (orderly_input_unread r4 Hin)) as (Hrest & Hframe & Hexc).
  destruct (xerces_parse_loop (unread_steps r4) r4) as [[rest r5] exc].
  simpl in Hrest, Hframe, Hexc.
  apply handler_frame_fields in Hframe as (Ho5 & Hfp5 & Hst5 & Hstop5).
  assert (Hin6 : orderly_input (set_unread rest r5)).
  { apply orderly_input_set_unread; [|done].
    by apply (orderly_input_frame r4). }
  destruct (set_unread_fields rest r5) as (Hset6 & Hst6 & Hslot6).
  pose proof (set_unread_options rest r5) as Ho6.
  destruct exc as [e|]; simpl.
  - split; [exact Hin6|]. split; [congruence|]. split; [congruence|].
    rewrite Hslot6. by apply Hexc.
  - split; [by apply (orderly_input_frame (set_unread rest r5))|].
    split; [simpl; congruence|].
    split; [unfold options in *; simpl; congruence|].
    apply settings_fields in Hset6 as (_ & _ & _ & Hs & _).
    simpl. congruence.
Qed.

Lemma NextFeatureXerces_try_ok (r : GMLReader) :
  orderly_input r -> slot_free r -> m_bStopParsing r = false ->
  try_ok r (NextFeatureXerces_try r).
Proof.
  intros Hin Hfree Hstop. unfold NextFeatureXerces_try.
  destruct (m_bReadStarted r) eqn:Hst; simpl.
  { destruct (_ && _ && negb (m_poSAXReader r)); [done|].
    by apply xerces_tail_ok. }
  specialize (Hfree Hst).
  set (r1 := if negb (m_poSAXReader r) then snd (SetupParser r) else r).
  assert (H1 : orderly_input r1 /\ m_poCompleteFeature r1 = None
               /\ options r1 = options r /\ m_bStopParsing r1 = false).
  { subst r1. destruct (m_poSAXReader r); simpl; [done|].
    destruct (SetupParser_slot r Hin) as [Hin1 Hslot1].
    destruct (settings_options _ _ (SetupParser_settings r)) as [Ho _].
    pose proof (SetupParser_settings r) as Hset.
    apply settings_fields in Hset as (_ & _ & _ & Hs & _).
    split; [exact Hin1|]. split; [by apply Hslot1|].
    split; congruence. }
  clearbody r1. destruct H1 as (Hin1 & Hslot1 & Ho1 & Hstop1).
  set (r2 := set_m_bReadStarted true r1).
  assert (Hin2 : orderly_input r2) by by apply (orderly_input_frame r1).
  assert (Ho2 : options r2 = options r) by (rewrite <- Ho1; done).
  destruct (m_GMLInputSource r1); simpl; [|done].
  destruct (m_poSAXReader r1); simpl; [|done].
  unfold xerces_parse.
  pose proof (orderly_input_unread r2 Hin2) as Hsteps.
  destruct (unread_steps r2) as [|s rest]; [done|].
  apply orderly_cons in Hsteps as [Hs Hrest].
  set (r3 := run_calls (calls s) (set_unread rest r2)).
  pose proof (run_calls_frame (calls s) (set_unread rest r2)) as Hframe.
  fold r3 in Hframe.
  apply handler_frame_fields in Hframe as (Ho3 & Hfp3 & Hst3 & Hstop3).
  destruct (set_unread_fields rest r2) as (Hset & Hstu & Hslotu).
  apply settings_fields in Hset as (_ & _ & _ & Hsu & _).
  pose proof (set_unread_options rest r2) as Hou.
  assert (Hin3 : orderly_input r3).
  { apply (orderly_input_frame (set_unread rest r2)); [done|].
    by apply orderly_input_set_unread. }
  assert (Hstarted3 : m_bReadStarted r3 = true) by (by rewrite Hst3, Hstu).
  assert (Hstopped3 : m_bStopParsing r3 = false).
  { rewrite Hstop3, Hsu. exact Hstop1. }
  assert (Hopt3 : options r3 = options r) by congruence.
  assert (Hraise : raises (outcome s) = true -> m_poCompleteFeature r3 = None).
  { intros Hr. unfold step_orderly in Hs. rewrite Hr in Hs. simpl in Hs.
    apply negb_true_iff in Hs. subst r3. rewrite run_calls_slot by done.
    by rewrite Hslotu. }
  destruct (outcome s); simpl.
  - destruct (_ && _ && negb (m_poSAXReader r3)); [done|].
    apply (try_ok_options r r3); [done|]. by apply xerces_tail_ok.
  - done.
  - split; [exact Hin3|]. split; [done|]. split; [done|]. by apply Hraise.
  - split; [exact Hin3|]. split; [done|]. split; [done|]. by apply Hraise.
Qed.

(** A call of [NextFeatureXerces] by a reader that has not stopped: if it
    stops the reader, it leaves the slot empty. *)
Lemma NextFeatureXerces_orderly (r : GMLReader) :
  orderly_input r -> slot_free r -> m_bStopParsing r = false ->
  orderly_input (snd (NextFeatureXerces r))
  /\ m_bReadStarted (snd (NextFeatureXerces r)) = true
  /\ options (snd (NextFeatureXerces r)) = options r
  /\ (m_bStopParsing (snd (NextFeatureXerces r)) = true ->
      m_poCompleteFeature (snd (NextFeatureXerces r)) = None).
Proof.
  intros Hin Hfree Hstop.
  pose proof (NextFeatureXerces_try_ok r Hin Hfree Hstop) as Hok.
  unfold NextFeatureXerces.
  destruct (NextFeatureXerces_try r) as [poReturn r' | exc r' | r'];
    simpl in Hok.
  - destruct Hok as (Hin' & Hst' & Ho' & Hs'). simpl.
    split; [exact Hin'|]. split; [done|]. split; [done|]. congruence.
  - destruct Hok as (Hin' & Hst' & Ho' & Hslot').
    destruct exc; simpl;
      (split; [exact Hin'|]; split; [done|]; split; [exact Ho' | done]).
  - destruct Hok as (Hin' & Hst' & Ho' & Hs'). simpl.
    split; [exact Hin'|]. split; [done|]. split; [done|]. congruence.
Qed.

End PullAndSlot.

(** Parsing has not stopped, the input is orderly, and the slot is empty
    if reading has not started. *)
Definition not_yet_stopped {env : Environment} (r : GMLReader) : Prop :=
  m_bStopParsing r = false /\ orderly_input r /\ slot_free r.

Section ComesToAStop.
Context {env : Environment} {names : FieldNameComparison}.

(** One call of [NextFeature]: a reader that has stopped stays stopped, and
    one that has not either goes on or has stopped when the call returns,
    with the slot empty. *)
Lemma NextFeature_stops_cleanly (r : GMLReader) :
  stopped r \/ not_yet_stopped r ->
  stopped (snd (NextFeature r)) \/ not_yet_stopped (snd (NextFeature r)).
Proof.
  intros [Hstopped | (Hstop & Hin & Hfree)].
  { left. by apply NextFeature_stopped. }
  unfold NextFeature.
  destruct (HAVE_EXPAT && bUseExpatReader r) eqn:He.
  - apply andb_true_iff in He as [_ He].
    destruct (NextFeatureExpat_orderly r Hin) as (Hin' & Hst' & Ho').
    apply options_backend in Ho'.
    destruct (m_bStopParsing (snd (NextFeatureExpat r))) eqn:Hstop'.
    + left. split; [done|]. congruence.
    + right. split; [done|]. split; [done|]. intros Hno. congruence.
  - destruct (HAVE_XERCES && negb (bUseExpatReader r)) eqn:Hx.
    + destruct (NextFeatureXerces_orderly r Hin Hfree Hstop)
        as (Hin' & Hst' & Ho' & Hslot').
      destruct (m_bStopParsing (snd (NextFeatureXerces r))) eqn:Hstop'.
      * left. split; [done|]. intros _. split; [done|]. by apply Hslot'.
      * right. split; [done|]. split; [done|]. intros Hno. congruence.
    + right. simpl. split; [done|]. split; [|done].
      by apply (orderly_input_frame r).
Qed.

Lemma NextFeature_calls_stop_cleanly (n : nat) (r : GMLReader) :
  stopped r \/ not_yet_stopped r ->
  stopped (snd (NextFeature_calls n r))
  \/ not_yet_stopped (snd (NextFeature_calls n r)).
Proof.
  revert r. induction n as [|n IH]; intros r Hr; [done|]. simpl.
  pose proof (NextFeature_stops_cleanly r Hr) as Hnext.
  destruct (NextFeature r) as [poFeature r']. simpl in Hnext.
  specialize (IH r' Hnext).
  by destruct (NextFeature_calls n r') as [later r''].
Qed.

(** X2.  A reader as constructed, on any file: when the documents of the
    file system are orderly, however many calls of [NextFeature] are made, once
    [m_bStopParsing] is set the reader has stopped in the sense in which
    every later call returns no feature. *)
Theorem NextFeature_stop_is_clean
    (pszFilename : string) (bExpat bInvert bURN : bool) (n : nat) :
  (forall name doc, VSIFOpenL name = Some doc -> orderly doc) ->
  let r := snd (NextFeature_calls n
                  (SetSourceFile pszFilename
                                 (new_GMLReader bExpat bInvert bURN))) in
  m_bStopParsing r = true -> stopped r.
Proof.
  intros Hdocs r Hstop.
  destruct (NextFeature_calls_stop_cleanly n
              (SetSourceFile pszFilename (new_GMLReader bExpat bInvert bURN)))
    as [Hstopped | (Hno & _)].
  - right. split; [done|]. split; [|done]. split; [done | exact Hdocs].
  - exact Hstopped.
  - subst r. congruence.
Qed.

End ComesToAStop.

(** A document whose second feature is cut short by a tokenizer error. *)
Definition doc_cut_short : list parse_step :=
  [mkParseStep [HPushPath "FeatureCollection"; HPushPath "featureMember";
                HPushFeature "Road" (Some "r1");
                HSetFeatureProperty "name" "A"; HPopState; HPopPath]
               ParseOk false;
   mkParseStep [HPushPath "featureMember"; HPushFeature "Road" (Some "r2");
                HSetFeatureProperty "name" "B"]
               ThrowsSAXException false;
   mkParseStep [HPopState; HPopPath; HPopPath] ParseOk false].

Definition env_cut_short : Environment :=
  sample_env "" doc_cut_short FileOpenFails None.

(** With the pull backend the first feature is returned, then none: the
    third call does not deliver the feature that was being read when the
    tokenizer threw. *)
Lemma NextFeature_stop_is_clean_sample :
  let calls := @NextFeature_calls env_cut_short strcmp_names 3
                 (sample_reader env_cut_short false false false) in
  stopped (snd calls)
  /\ (fmap (M := option) m_pszFID <$> fst calls) = [Some (Some "r1"); None; None].
Proof.
  split.
  - apply (@NextFeature_stop_is_clean env_cut_short strcmp_names
             "sample.gml" false false false 3).
    + intros name doc. simpl.
      destruct (String.eqb name "sample.gml"); [|done].
      intros [= <-]. vm_compute. reflexivity.
    + vm_compute. reflexivity.
  - vm_compute. reflexivity.
Defined.

(** ** The options during a scan *)

Section OptionsKept.
Context {env : Environment} {names : FieldNameComparison}.

Lemma xerces_parse_loop_options (steps : list parse_step) (r : GMLReader) :
  options (snd (fst (xerces_parse_loop steps r))) = options r.
Proof.
  pose proof (xerces_parse_loop_weight steps r) as [_ Hf].
  by apply loop_frame_fields in Hf as [Ho _].
Qed.

Lemma NextFeatureExpat_options (r : GMLReader) :
  options (snd (NextFeatureExpat r)) = options r.
Proof.
  unfold NextFeatureExpat.
  set (r1 := if negb (m_bReadStarted r)
             then set_m_bReadStarted true
                    (if negb (oParser r) then snd (SetupParser r) else r)
             else r).
  assert (H1 : options r1 = options r).
  { subst r1. destruct (m_bReadStarted r); simpl; [done|].
    destruct (oParser r); simpl; [done|].
    destruct (settings_options _ _ (SetupParser_settings r)) as [Ho _].
    unfold options in *. simpl. exact Ho. }
  clearbody r1.
  destruct (fpGML r1) as [fp|]; [|done].
  destruct (m_bStopParsing r1); [done|].
  destruct (_ <? _)%nat; [done|].
  destruct (VSIFEofL fp); [done|].
  pose proof (expat_parse_loop_weight (unread fp)
                (set_nFeatureTabIndex 0 (set_ppoFeatureTab [] r1)))
    as [_ Hframe].
  destruct (expat_parse_loop _ _) as [rest r3]. simpl in Hframe.
  apply loop_frame_fields in Hframe as (Ho3 & _).
  pose proof (set_unread_options rest r3) as Ho4.
  assert (Ho5 : options (set_unread rest r3) = options r).
  { rewrite Ho4, Ho3. exact H1. }
  by destruct (_ =? 0)%nat.
Qed.

Lemma NextFeatureXerces_options (r : GMLReader) :
  options (snd (NextFeatureXerces r)) = options r.
Proof.
  assert (Htail : forall r4,
            match
              (let '(rest, r5, exc) := xerces_parse_loop (unread_steps r4) r4 in
               match exc with
               | Some e => Raises e (set_unread rest r5)
               | None =>
                   Returns (m_poCompleteFeature (set_unread rest r5))
                     (set_m_poCompleteFeature None (set_unread rest r5))
               end)
            with
            | Returns _ r' | Raises _ r' | Faults r' => options r' = options r4
            end).
  { intros r4.
    pose proof (xerces_parse_loop_options (unread_steps r4) r4) as Ho5.
    destruct (xerces_parse_loop _ _) as [[rest r5] exc]. simpl in Ho5.
    pose proof (set_unread_options rest r5) as Ho6.
    destruct exc; [congruence|].
    unfold options in *. simpl. congruence. }
  assert (Htry : match NextFeatureXerces_try r with
                 | Returns _ r' | Raises _ r' | Faults r' => options r' = options r
                 end).
  { unfold NextFeatureXerces_try.
    destruct (m_bReadStarted r); simpl.
    { destruct (_ && _ && negb (m_poSAXReader r)); [done|].
      by apply (Htail r). }
    set (r1 := if negb (m_poSAXReader r) then snd (SetupParser r) else r).
    assert (H1 : options r1 = options r).
    { subst r1. destruct (m_poSAXReader r); simpl; [done|].
      by destruct (settings_options _ _ (SetupParser_settings r)) as [Ho _]. }
    clearbody r1.
    assert (H2 : options (set_m_bReadStarted true r1) = options r).
    { rewrite <- H1. done. }
    destruct (m_GMLInputSource r1); simpl; [|done].
    destruct (m_poSAXReader r1); simpl; [|done].
    unfold xerces_parse.
    destruct (unread_steps (set_m_bReadStarted true r1)) as [|s rest]; [done|].
    set (r3 := run_calls (calls s)
                 (set_unread rest (set_m_bReadStarted true r1))).
    assert (H3 : options r3 = options r).
    { subst r3.
      rewrite (handler_frame_options _ _ (run_calls_frame _ _)).
      by rewrite set_unread_options. }
    destruct (outcome s); try done.
    destruct (_ && _ && negb (m_poSAXReader r3)); [done|].
    specialize (Htail r3).
    destruct (let '(rest0, r5, exc) := xerces_parse_loop (unread_steps r3) r3 in _);
      congruence. }
  unfold NextFeatureXerces.
  destruct (NextFeatureXerces_try r) as [poReturn r' | exc r' | r'];
    [done | | done].
  by destruct exc.
Qed.

Lemma NextFeature_options (r : GMLReader) :
  options (snd (NextFeature r)) = options r.
Proof.
  unfold NextFeature.
  destruct (HAVE_EXPAT && bUseExpatReader r);
    [by apply NextFeatureExpat_options|].
  destruct (HAVE_XERCES && negb (bUseExpatReader r));
    [by apply NextFeatureXerces_options | done].
Qed.

Lemma prescan_feature_options (bGetExtents : bool) (f : GMLFeature)
                              (r : GMLReader) :
  options (prescan_feature bGetExtents f r) = options r.
Proof.
  unfold prescan_feature.
  destruct (m_papoClass r !! m_poClass f) as [poClass|]; [|done].
  by destruct (if bGetExtents then _ else _).
Qed.

Lemma prescan_loop_options (turns : nat) (bGetExtents : bool)
                           (r : GMLReader) :
  options (prescan_loop turns bGetExtents r) = options r.
Proof.
  revert r. induction turns as [|turns IH]; intros r; [done|].
  cbn [prescan_loop]. pose proof (NextFeature_options r) as Ho.
  destruct (NextFeature r) as [[f|] r']; simpl in Ho; [|done].
  by rewrite IH, prescan_feature_options.
Qed.

Lemma prescan_scan_options (bGetExtents : bool) (r : GMLReader) :
  match prescan_scan bGetExtents r with
  | inl r' => options r' = options r
              \/ options r' = options (SetClassListLocked false r)
  | inr r' => options r' = options (SetClassListLocked false r)
  end.
Proof.
  unfold prescan_scan.
  destruct (m_pszFilename r); [|by left].
  destruct (settings_options _ _
              (SetupParser_settings
                 (ClearClasses (SetClassListLocked false r)))) as [Hset _].
  destruct (SetupParser _) as [ok r2]. simpl in Hset.
  destruct ok; [|simpl; right; exact Hset].
  change (negb true) with false. cbv iota zeta.
  rewrite prescan_loop_options. exact Hset.
Qed.

(** X3.  The scan reads with the options the reader was given: no call changes
    the backend, the axis inversion, the treatment of EPSG codes or the
    file name; only the lock of the class list is taken off. *)
Theorem PrescanForSchema_options (bGetExtents : bool) (r : GMLReader) :
  (forall scanned,
     prescan_scan bGetExtents r = inr scanned ->
     options scanned = options (SetClassListLocked false r))
  /\ (options (snd (PrescanForSchema bGetExtents r)) = options r
      \/ options (snd (PrescanForSchema bGetExtents r))
         = options (SetClassListLocked false r)).
Proof.
  pose proof (prescan_scan_options bGetExtents r) as Hscan.
  unfold PrescanForSchema.
  destruct (prescan_scan bGetExtents r) as [r' | r4] eqn:Hs.
  - split; [done|]. exact Hscan.
  - split; [by intros scanned [= <-]|]. right. simpl.
    destruct (settings_options _ _
                (CleanupParser_settings
                   (set_m_papoClass (fix_axis_order r4 <$> m_papoClass r4) r4)))
      as [-> _].
    exact Hscan.
Qed.

End OptionsKept.

(** ** NextFeature after parsing has stopped: the calls that follow *)

Section AfterStop.
Context {env : Environment} {names : FieldNameComparison}.





End AfterStop.





(** ** The features a document delivers *)

(** What the calls of the handler read and write besides the places where
    completed features are put, which depend on the backend. *)
Definition parse_core (r : GMLReader) :=
  (m_papoClass r, m_poState r, m_pszGlobalSRSName r, m_bConsiderEPSGAsURN r).

(** The feature a call completes: the one held by the frame [PopState]
    takes off the stack. *)
Definition completed_by (c : handler_call) (r : GMLReader) : list GMLFeature :=
  match c with
  | HPopState =>
      match m_poState r with
      | top :: _ => option_list (m_poFeature top)
      | [] => []
      end
  | _ => []
  end.

(** The features a sequence of calls completes, in order. *)
Fixpoint completed {env : Environment} {names : FieldNameComparison}
    (l : list handler_call) (r : GMLReader) : list GMLFeature :=
  match l with
  | [] => []
  | c :: l' => completed_by c r ++ completed l' (apply_call c r)
  end.

(** All the calls of a sequence of steps. *)
Definition all_calls (steps : list parse_step) : list handler_call :=
  concat (calls <$> steps).

Section Completed.
Context {env : Environment} {names : FieldNameComparison}.

Local Ltac core_eq :=
  simpl;
  repeat match goal with
         | H : _ = _ |- _ => progress rewrite H
         end;
  reflexivity.

Lemma apply_call_core (c : handler_call) (r r' : GMLReader) :
  parse_core r = parse_core r' ->
  parse_core (apply_call c r) = parse_core (apply_call c r').
Proof.
  unfold parse_core. intros H. injection H. intros Hu Hg Hs Hc.
  destruct c; simpl.
  - unfold PushFeature, GetClassCount, AddClass. rewrite Hc.
    destruct (_ =? _)%Z; core_eq.
  - unfold PopState. rewrite Hs.
    destruct (m_poState r') as [|top below] eqn:Hs'; [core_eq|].
    destruct (HAVE_XERCES && negb (bUseExpatReader r)
              && bool_decide (m_poFeature top <> None)
              && bool_decide (m_poCompleteFeature r = None)),
             (HAVE_XERCES && negb (bUseExpatReader r')
              && bool_decide (m_poFeature top <> None)
              && bool_decide (m_poCompleteFeature r' = None)); simpl;
      destruct (m_poFeature top); simpl;
      destruct (HAVE_EXPAT && bUseExpatReader r),
               (HAVE_EXPAT && bUseExpatReader r'); core_eq.
  - unfold SetFeatureProperty. rewrite Hs, Hc.
    destruct (m_poState r') as [|top below] eqn:Hs'; [core_eq|].
    destruct (m_poFeature top) as [poFeature|]; [|core_eq].
    destruct (m_papoClass r' !! m_poClass poFeature) as [poClass|];
      [|core_eq].
    destruct (_ =? _)%nat; [|core_eq].
    destruct (IsSchemaLocked poClass); [core_eq|].
    destruct (AddProperty _ poClass) as [iAdded poClass'].
    destruct (iAdded <? 0)%Z; core_eq.
  - unfold on_top_state. rewrite Hs.
    destruct (m_poState r') eqn:Hs'; core_eq.
  - unfold on_top_state. rewrite Hs.
    destruct (m_poState r') eqn:Hs'; core_eq.
  - unfold on_top_state. rewrite Hs.
    destruct (m_poState r') eqn:Hs'; core_eq.
  - unfold SetGlobalSRSName. rewrite Hg, Hu.
    destruct (m_pszGlobalSRSName r') eqn:Hg'; [core_eq|].
    destruct (strncmp_eq _ "EPSG:" 5 && m_bConsiderEPSGAsURN r'); core_eq.
Qed.

Lemma completed_by_core (c : handler_call) (r r' : GMLReader) :
  parse_core r = parse_core r' -> completed_by c r = completed_by c r'.
Proof.
  unfold parse_core. intros H. injection H. intros _ _ Hs _.
  destruct c; simpl; try done. by rewrite Hs.
Qed.

Lemma run_calls_core (l : list handler_call) (r r' : GMLReader) :
  parse_core r = parse_core r' ->
  parse_core (run_calls l r) = parse_core (run_calls l r').
Proof.
  revert r r'. induction l as [|c l IH]; intros r r' H; [done|].
  unfold run_calls in *. simpl. by apply IH, apply_call_core.
Qed.

Lemma completed_core (l : list handler_call) (r r' : GMLReader) :
  parse_core r = parse_core r' -> completed l r = completed l r'.
Proof.
  revert r r'. induction l as [|c l IH]; intros r r' H; [done|]. simpl.
  rewrite (completed_by_core c r r' H).
  by rewrite (IH _ _ (apply_call_core c r r' H)).
Qed.

Lemma run_calls_app (l1 l2 : list handler_call) (r : GMLReader) :
  run_calls (l1 ++ l2) r = run_calls l2 (run_calls l1 r).
Proof. unfold run_calls. by rewrite foldl_app. Qed.

Lemma completed_app (l1 l2 : list handler_call) (r : GMLReader) :
  completed (l1 ++ l2) r = completed l1 r ++ completed l2 (run_calls l1 r).
Proof.
  revert r. induction l1 as [|c l1 IH]; intros r; [done|]. simpl.
  by rewrite IH, app_assoc.
Qed.

End Completed.

(** A step in which nothing goes wrong: the tokenizer reports no error and
    the handler does not ask to stop. *)
Definition step_clean (s : parse_step) : bool :=
  match outcome s with
  | ParseOk => negb (handler_stopped s)
  | _ => false
  end.

Definition clean (steps : list parse_step) : Prop :=
  forallb step_clean steps = true.

Section PushDelivery.
Context {env : Environment} {names : FieldNameComparison}.
Hypothesis Hexpat : HAVE_EXPAT = true.

(** With the push backend every completed feature goes to the end of the
    table, and nothing else is written to the table. *)
Lemma apply_call_tab (c : handler_call) (r : GMLReader) :
  bUseExpatReader r = true ->
  ppoFeatureTab (apply_call c r) = ppoFeatureTab r ++ completed_by c r.
Proof.
  intros Hb. destruct c; simpl; rewrite ?app_nil_r.
  - unfold PushFeature. by destruct (_ =? _)%Z.
  - unfold PopState. rewrite Hb, Hexpat, andb_false_r. simpl.
    destruct (m_poState r) as [|top below]; [by rewrite app_nil_r|].
    destruct (m_poFeature top); simpl; by rewrite ?Hb, ?app_nil_r.
  - unfold SetFeatureProperty.
    destruct (m_poState r) as [|top below]; [done|].
    destruct (m_poFeature top) as [poFeature|]; [|done].
    destruct (m_papoClass r !! m_poClass poFeature) as [poClass|]; [|done].
    destruct (_ =? _)%nat; [|done].
    destruct (IsSchemaLocked poClass); [done|].
    destruct (AddProperty _ poClass) as [iAdded poClass'].
    by destruct (iAdded <? 0)%Z.
  - unfold on_top_state. by destruct (m_poState r).
  - unfold on_top_state. by destruct (m_poState r).
  - unfold on_top_state. by destruct (m_poState r).
  - unfold SetGlobalSRSName. destruct (m_pszGlobalSRSName r); [done|].
    by destruct (strncmp_eq _ "EPSG:" 5 && m_bConsiderEPSGAsURN r).
Qed.

Lemma run_calls_tab (l : list handler_call) (r : GMLReader) :
  bUseExpatReader r = true ->
  ppoFeatureTab (run_calls l r) = ppoFeatureTab r ++ completed l r.
Proof.
  revert r. induction l as [|c l IH]; intros r Hb; [by rewrite app_nil_r|].
  change (run_calls (c :: l) r) with (run_calls l (apply_call c r)).
  assert (Hb' : bUseExpatReader (apply_call c r) = true).
  { rewrite <- Hb. apply options_backend, handler_frame_options,
      apply_call_frame. }
  rewrite IH by done. rewrite apply_call_tab by done. simpl.
  by rewrite app_assoc.
Qed.

Lemma clean_cons (s : parse_step) (rest : list parse_step) :
  clean (s :: rest) ->
  outcome s = ParseOk /\ handler_stopped s = false /\ clean rest.
Proof.
  unfold clean, step_clean. simpl. intros [Hs Hrest]%andb_true_iff.
  destruct (outcome s); try done. by apply negb_true_iff in Hs.
Qed.

(** The loop of [NextFeatureExpat] over clean steps, entered with an empty
    table: it stops at the first step that completes a feature, or at the
    end of the file, and then the table holds what that step completed. *)
Lemma expat_parse_loop_clean (steps : list parse_step) (r : GMLReader) :
  bUseExpatReader r = true -> ppoFeatureTab r = [] ->
  m_bStopParsing r = false -> clean steps ->
  let rest := fst (expat_parse_loop steps r) in
  let r3 := snd (expat_parse_loop steps r) in
  completed (all_calls steps) r
  = ppoFeatureTab r3 ++ completed (all_calls rest) r3
  /\ (ppoFeatureTab r3 = [] -> rest = [])
  /\ m_bStopParsing r3 = false
  /\ clean rest
  /\ loop_frame r3 = loop_frame r.
Proof.
  revert r. induction steps as [|s rest IH]; intros r Hb Htab Hstop Hclean.
  { simpl. by rewrite Htab. }
  apply clean_cons in Hclean as (Hok & Hgo & Hrest).
  cbn [expat_parse_loop]. rewrite Hok.
  set (r1 := run_calls (calls s) r).
  pose proof (run_calls_frame (calls s) r) as Hframe. fold r1 in Hframe.
  apply handler_frame_fields in Hframe as (Ho1 & Hfp1 & Hst1 & Hstop1).
  assert (Hb1 : bUseExpatReader r1 = true).
  { rewrite <- Hb. by apply options_backend. }
  assert (Htab1 : ppoFeatureTab r1 = completed (calls s) r).
  { unfold r1. rewrite run_calls_tab by done. by rewrite Htab. }
  rewrite Hstop1, Hstop, Hgo. simpl negb at 1. cbv iota.
  set (r3 := set_m_bStopParsing false r1).
  assert (Hcore : parse_core r3 = parse_core r1) by done.
  assert (Hall : completed (all_calls (s :: rest)) r
                 = ppoFeatureTab r1 ++ completed (all_calls rest) r3).
  { unfold all_calls. rewrite fmap_cons. simpl concat.
    rewrite completed_app. fold r1. rewrite Htab1.
    by rewrite (completed_core _ r3 r1 Hcore). }
  assert (Hloop : loop_frame r3 = loop_frame r).
  { transitivity (loop_frame r1); [done | apply run_calls_loop_frame]. }
  change (m_bStopParsing r3) with false. simpl negb. rewrite andb_true_r.
  change (ppoFeatureTab r3) with (ppoFeatureTab r1).
  destruct rest as [|s' rest'].
  { simpl. rewrite Hall. repeat split; done. }
  simpl negb. rewrite andb_true_l.
  destruct (length (ppoFeatureTab r1) =? 0)%nat eqn:Hlen.
  - apply Nat.eqb_eq, nil_length_inv in Hlen.
    destruct (IH r3 Hb1 Hlen eq_refl Hrest) as (Hc & Hnil & Hs & Hcl & Hf).
    split; [|split; [done|split; [done|split; [done|congruence]]]].
    rewrite Hall, Hlen. exact Hc.
  - simpl. split; [exact Hall|].
    split; [|done]. intros Hnil. rewrite Hnil in Hlen. done.
Qed.

End PushDelivery.

(** The features a reader of the push backend has still to return: those
    waiting in the table, then those the steps not read yet complete. *)
Definition to_come {env : Environment} {names : FieldNameComparison}
    (r : GMLReader) : list GMLFeature :=
  drop (nFeatureTabIndex r) (ppoFeatureTab r)
  ++ completed (all_calls (unread_steps r)) r.

(** A reader of the push backend in the middle of a file without errors. *)
Definition push_reading (r : GMLReader) : Prop :=
  bUseExpatReader r = true /\ m_bReadStarted r = true
  /\ m_bStopParsing r = false /\ fpGML r <> None
  /\ clean (unread_steps r).

Section PushDeliveryCalls.
Context {env : Environment} {names : FieldNameComparison}.
Hypothesis Hexpat : HAVE_EXPAT = true.

Lemma unread_steps_set_unread (rest : list parse_step) (r : GMLReader) :
  fpGML r <> None ->
  unread_steps (set_unread rest r) = rest
  /\ fpGML (set_unread rest r) <> None.
Proof.
  unfold unread_steps, set_unread. by destruct (fpGML r).
Qed.

Lemma set_unread_core (rest : list parse_step) (r : GMLReader) :
  parse_core (set_unread rest r) = parse_core r
  /\ ppoFeatureTab (set_unread rest r) = ppoFeatureTab r
  /\ nFeatureTabIndex (set_unread rest r) = nFeatureTabIndex r.
Proof. unfold set_unread. by destruct (fpGML r). Qed.

(** One call of [NextFeatureExpat]: it returns the first of the features to
    come, and the others are still to come. *)
Lemma NextFeatureExpat_next (r : GMLReader) :
  push_reading r ->
  fst (NextFeatureExpat r) = head (to_come r)
  /\ to_come (snd (NextFeatureExpat r)) = tail (to_come r)
  /\ push_reading (snd (NextFeatureExpat r)).
Proof.
  intros Hreading. pose proof Hreading as (Hb & Hst & Hstop & Hfp & Hclean).
  unfold NextFeatureExpat. rewrite Hst. simpl negb. cbv iota.
  assert (Hfile : exists fp, fpGML r = Some fp).
  { destruct (fpGML r) as [fp|]; [by exists fp | done]. }
  destruct Hfile as [fp Hfile]. rewrite Hfile, Hstop.
  assert (Hsteps : unread_steps r = unread fp).
  { unfold unread_steps. by rewrite Hfile. }
  destruct (nFeatureTabIndex r <? length (ppoFeatureTab r))%nat eqn:Hidx.
  { apply Nat.ltb_lt in Hidx.
    destruct (lookup_lt_is_Some_2 _ _ Hidx) as [f Hf].
    assert (Hcome : to_come r
                    = f :: drop (S (nFeatureTabIndex r)) (ppoFeatureTab r)
                           ++ completed (all_calls (unread_steps r)) r).
    { unfold to_come. by rewrite (drop_S _ _ _ Hf). }
    rewrite Hcome. simpl. split; [done|]. split.
    - unfold to_come. simpl. f_equal. by apply completed_core.
    - exact Hreading. }
  apply Nat.ltb_ge in Hidx.
  assert (Hdrop : drop (nFeatureTabIndex r) (ppoFeatureTab r) = []).
  { by apply drop_ge. }
  unfold to_come at 1 3. rewrite Hdrop, Hsteps. simpl app.
  unfold VSIFEofL.
  destruct (unread fp) as [|s rest0] eqn:Hunread.
  { simpl. split; [done|]. split; [|exact Hreading].
    unfold to_come. by rewrite Hdrop, Hsteps. }
  rewrite <- Hunread in Hsteps |- *. clear Hunread s rest0.
  set (r2 := set_nFeatureTabIndex 0 (set_ppoFeatureTab [] r)).
  rewrite Hsteps in Hclean.
  destruct (expat_parse_loop_clean Hexpat (unread fp) r2 Hb eq_refl Hstop
              Hclean) as (Hall & Hnil & Hstop3 & Hclean3 & Hframe).
  destruct (expat_parse_loop (unread fp) r2) as [rest r3].
  simpl in Hall, Hnil, Hstop3, Hclean3, Hframe.
  apply loop_frame_fields in Hframe as (Ho3 & Hi3 & Hfp3 & Hst3 & _).
  assert (Hcore2 : parse_core r2 = parse_core r) by done.
  rewrite <- (completed_core _ r2 r Hcore2), Hall.
  assert (Hfp3' : fpGML r3 <> None).
  { rewrite Hfp3. simpl. by rewrite Hfile. }
  destruct (unread_steps_set_unread rest r3 Hfp3') as [Hu4 Hfp4].
  destruct (set_unread_core rest r3) as (Hcore4 & Htab4 & Hidx4).
  destruct (set_unread_fields rest r3) as (Hset4 & Hst4 & _).
  apply settings_fields in Hset4 as (Hb4 & _ & _ & Hstop4 & _).
  assert (Hb3 : bUseExpatReader r3 = true).
  { apply options_backend in Ho3. by rewrite Ho3. }
  assert (Hreading4 : push_reading (set_unread rest r3)).
  { unfold push_reading. rewrite Hb4, Hst4, Hstop4, Hu4, Hst3.
    repeat split; done. }
  rewrite Htab4, Hidx4, Hi3. simpl nFeatureTabIndex.
  destruct (ppoFeatureTab r3) as [|f tab] eqn:Htab3.
  - pose proof (Hnil eq_refl) as Hrest. subst rest. simpl. split; [done|].
    split; [|exact Hreading4]. unfold to_come.
    rewrite Htab4, Hu4. by rewrite drop_nil.
  - simpl. split; [done|]. split.
    + unfold to_come. simpl. unfold unread_steps. simpl.
      fold (unread_steps (set_unread rest r3)).
      rewrite Htab4, Hu4. simpl. f_equal.
      apply completed_core. by rewrite <- Hcore4.
    + destruct Hreading4 as (? & ? & ? & ? & ?).
      unfold push_reading, unread_steps in *. simpl. done.
Qed.

End PushDeliveryCalls.

(** A reader of the push backend at rest: no parser, reading not started,
    nothing in the table, parsing not stopped. *)
Definition push_at_rest (r : GMLReader) : Prop :=
  bUseExpatReader r = true /\ m_bReadStarted r = false /\ oParser r = false
  /\ ppoFeatureTab r = [] /\ m_bStopParsing r = false.

(** The document [SetupParser] will find: that of the file already open,
    or the one opening the source file gives. *)
Definition opens {env : Environment} (r : GMLReader) (doc : list parse_step)
  : Prop :=
  match fpGML r with
  | Some fp => document fp = doc
  | None =>
      exists name, m_pszFilename r = Some name /\ VSIFOpenL name = Some doc
  end.

Section PushDeliveryWhole.
Context {env : Environment} {names : FieldNameComparison}.
Hypothesis Hexpat : HAVE_EXPAT = true.

Lemma NextFeature_calls_push (n : nat) (r : GMLReader) :
  push_reading r ->
  fst (NextFeature_calls n r) = (fun k => to_come r !! k) <$> seq 0 n.
Proof.
  revert r. induction n as [|n IH]; intros r Hreading; [done|].
  destruct (NextFeatureExpat_next Hexpat r Hreading) as (Hhead & Htail & Hnext).
  assert (Hcall : NextFeature r = NextFeatureExpat r).
  { unfold NextFeature. destruct Hreading as (-> & _). by rewrite Hexpat. }
  cbn [NextFeature_calls]. rewrite Hcall.
  destruct (NextFeatureExpat r) as [poFeature r']. simpl in Hhead, Htail, Hnext.
  specialize (IH r' Hnext).
  destruct (NextFeature_calls n r') as [later r'']. simpl in IH |- *.
  rewrite Hhead, IH, Htail. rewrite <- seq_shift, <- list_fmap_compose.
  f_equal; [by destruct (to_come r)|].
  apply list_fmap_ext. intros _ k _. simpl. by destruct (to_come r).
Qed.

(** [SetupParser] for a reader of the push backend at rest. *)
Lemma SetupParser_push_at_rest (r : GMLReader) (doc : list parse_step) :
  push_at_rest r -> opens r doc ->
  let r' := snd (SetupParser r) in
  fpGML r' = Some (mkVSILFILE doc doc)
  /\ bUseExpatReader r' = true /\ ppoFeatureTab r' = []
  /\ nFeatureTabIndex r' = nFeatureTabIndex r
  /\ m_bStopParsing r' = false /\ oParser r' = true.
Proof.
  intros (Hb & Hst & Hp & Htab & Hstop) Hopens. unfold SetupParser.
  set (r1 := match fpGML r with
             | None => match m_pszFilename r with
                       | Some name => set_fpGML _ r
                       | None => r
                       end
             | Some _ => r
             end).
  assert (H1 : exists fp, fpGML r1 = Some fp /\ document fp = doc).
  { subst r1. unfold opens in Hopens.
    destruct (fpGML r) as [fp|] eqn:Hfile; [by exists fp|].
    destruct Hopens as (name & -> & Hdoc). simpl. rewrite Hdoc.
    by exists (mkVSILFILE doc doc). }
  assert (H1' : bUseExpatReader r1 = true /\ ppoFeatureTab r1 = []
                /\ nFeatureTabIndex r1 = nFeatureTabIndex r
                /\ m_bStopParsing r1 = false /\ oParser r1 = false).
  { subst r1. destruct (fpGML r); [done|]. by destruct (m_pszFilename r). }
  clearbody r1. destruct H1 as (fp & Hfile & Hdoc).
  destruct H1' as (Hb1 & Htab1 & Hidx1 & Hstop1 & Hp1).
  rewrite Hfile. simpl fpGML. cbn [bUseExpatReader set_fpGML].
  rewrite Hb1, Hexpat. simpl andb. cbv iota.
  unfold SetupParserExpat. simpl oParser. rewrite Hp1. cbv iota beta zeta.
  simpl bUseExpatReader. rewrite Hb1, andb_false_r. simpl.
  unfold VSIFSeekL_start. by rewrite Hdoc.
Qed.

(** From rest, the calls of [NextFeature] return, one after the other, the
    features a single pass over the calls of the whole document
    completes, and NULL from then on. *)
Lemma NextFeature_calls_push_at_rest
    (n : nat) (r : GMLReader) (doc : list parse_step) :
  push_at_rest r -> opens r doc -> clean doc ->
  fst (NextFeature_calls n r)
  = (fun k => completed (all_calls doc) (snd (SetupParser r)) !! k)
      <$> seq 0 n
  /\ completed (all_calls doc) (snd (SetupParser r))
     = ppoFeatureTab (run_calls (all_calls doc) (snd (SetupParser r))).
Proof.
  intros Hrest Hopens Hclean.
  destruct (SetupParser_push_at_rest r doc Hrest Hopens)
    as (Hfile & Hb' & Htab' & Hidx' & Hstop' & Hp').
  split; [|by rewrite (run_calls_tab Hexpat), Htab'].
  destruct Hrest as (Hb & Hst & Hp & Htab & Hstop).
  set (r1 := set_m_bReadStarted true (snd (SetupParser r))).
  assert (Hreading : push_reading r1).
  { unfold push_reading, unread_steps. subst r1. simpl.
    rewrite Hfile. simpl. repeat split; try done. }
  assert (Hcome : to_come r1 = completed (all_calls doc) (snd (SetupParser r))).
  { unfold to_come, unread_steps. subst r1. simpl. rewrite Hfile, Htab'.
    rewrite drop_nil. simpl. by apply completed_core. }
  rewrite <- Hcome, <- (NextFeature_calls_push n r1 Hreading).
  destruct n as [|n]; [done|]. cbn [NextFeature_calls].
  assert (Hsame : NextFeature r = NextFeature r1).
  { unfold NextFeature. subst r1. simpl bUseExpatReader.
    rewrite Hb, Hb', Hexpat. simpl andb. cbv iota.
    unfold NextFeatureExpat. rewrite Hst, Hp. simpl. done. }
  by rewrite Hsame.
Qed.

End PushDeliveryWhole.

Section PushInOrder.
Context {env : Environment} {names : FieldNameComparison}.
Hypothesis Hexpat : HAVE_EXPAT = true.




End PushInOrder.

(** A document of three features in two buffers, two of them in the first. *)
Definition doc_three_features : list parse_step :=
  [mkParseStep [HPushPath "FeatureCollection"; HPushPath "featureMember";
                HPushFeature "Road" (Some "r1");
                HSetFeatureProperty "name" "A"; HPopState; HPopPath;
                HPushPath "featureMember"; HPushFeature "Road" (Some "r2");
                HSetFeatureProperty "lanes" "2"; HPopState; HPopPath]
               ParseOk false;
   mkParseStep [HPushPath "featureMember"; HPushFeature "Lake" (Some "l1");
                HPopState; HPopPath; HPopPath] ParseOk false].

Definition env_three_features : Environment :=
  sample_env "" doc_three_features FileOpenFails None.




(** ** The same with the pull backend *)

(** The pull backend has one slot for a completed feature.  A step that
    completes a second feature before the first has been returned loses
    it: [PopState] deletes the frame with its feature.  The tokenizer
    is asked for one token at a time, and a step is taken to hold at most
    one call of [PopState]. *)
Definition step_pull_ok (s : parse_step) : bool :=
  match outcome s with
  | ParseOk => (length (List.filter is_PopState (calls s)) <=? 1)%nat
  | _ => false
  end.

Definition pull_ok (steps : list parse_step) : Prop :=
  forallb step_pull_ok steps = true.

Definition to_come_pull {env : Environment} {names : FieldNameComparison}
    (r : GMLReader) : list GMLFeature :=
  option_list (m_poCompleteFeature r)
  ++ completed (all_calls (unread_steps r)) r.

Section PullDelivery.
Context {env : Environment} {names : FieldNameComparison}.
Hypothesis Hxerces : HAVE_XERCES = true.

Lemma completed_no_pop (l : list handler_call) (r : GMLReader) :
  existsb is_PopState l = false -> completed l r = [].
Proof.
  revert r. induction l as [|c l IH]; intros r Hl; [done|].
  simpl in Hl. apply orb_false_iff in Hl as [Hc Hl]. simpl.
  rewrite IH by done. by destruct c.
Qed.

Lemma filter_no_pop (l : list handler_call) :
  length (List.filter is_PopState l) = 0 -> existsb is_PopState l = false.
Proof.
  induction l as [|c l IH]; [done|]. simpl.
  destruct (is_PopState c); [done | exact IH].
Qed.

Lemma PopState_slot_pull (r : GMLReader) :
  bUseExpatReader r = false -> m_poCompleteFeature r = None ->
  option_list (m_poCompleteFeature (PopState r)) = completed_by HPopState r.
Proof.
  intros Hb Hslot. unfold PopState. simpl. rewrite Hb, Hxerces, Hslot.
  destruct (m_poState r) as [|top below]; [by rewrite Hslot|].
  rewrite (bool_decide_eq_true_2 (None = None)) by done. simpl.
  destruct (m_poFeature top) as [f|] eqn:Hf.
  - rewrite bool_decide_eq_true_2 by done. done.
  - rewrite bool_decide_eq_false_2 by (intros Hne; by apply Hne).
    simpl. rewrite Hf. simpl. by rewrite Hslot.
Qed.

(** A step with at most one [PopState], run on an empty slot: the slot
    then holds what the step completed. *)
Lemma run_calls_slot_single (l : list handler_call) (r : GMLReader) :
  length (List.filter is_PopState l) <= 1 ->
  bUseExpatReader r = false -> m_poCompleteFeature r = None ->
  option_list (m_poCompleteFeature (run_calls l r)) = completed l r.
Proof.
  revert r. induction l as [|c l IH]; intros r Hone Hb Hslot.
  { simpl. by rewrite Hslot. }
  change (run_calls (c :: l) r) with (run_calls l (apply_call c r)).
  assert (Hb' : bUseExpatReader (apply_call c r) = false).
  { rewrite <- Hb. apply options_backend, handler_frame_options,
      apply_call_frame. }
  simpl in Hone. destruct (is_PopState c) eqn:Hc.
  - simpl in Hone. assert (Hno : existsb is_PopState l = false).
    { apply filter_no_pop. lia. }
    destruct c; try done. cbn [completed].
    rewrite (completed_no_pop l _ Hno), app_nil_r.
    rewrite run_calls_slot by done. by apply PopState_slot_pull.
  - cbn [completed].
    assert (Hnone : completed_by c r = []) by by destruct c.
    rewrite Hnone. simpl. apply IH; [done | done |].
    by rewrite apply_call_slot.
Qed.

Lemma pull_ok_cons (s : parse_step) (rest : list parse_step) :
  pull_ok (s :: rest) ->
  outcome s = ParseOk /\ length (List.filter is_PopState (calls s)) <= 1
  /\ pull_ok rest.
Proof.
  unfold pull_ok, step_pull_ok. simpl. intros [Hs Hrest]%andb_true_iff.
  destruct (outcome s); try done. by apply Nat.leb_le in Hs.
Qed.

(** The loop of [NextFeatureXerces] over steps without error: it stops when
    the slot is filled or the file is at its end, and loses nothing. *)
Lemma xerces_parse_loop_ok (steps : list parse_step) (r : GMLReader) :
  bUseExpatReader r = false -> m_bStopParsing r = false -> pull_ok steps ->
  let rest := fst (fst (xerces_parse_loop steps r)) in
  let r5 := snd (fst (xerces_parse_loop steps r)) in
  snd (xerces_parse_loop steps r) = None
  /\ option_list (m_poCompleteFeature r) ++ completed (all_calls steps) r
     = option_list (m_poCompleteFeature r5) ++ completed (all_calls rest) r5
  /\ (m_poCompleteFeature r5 = None -> rest = [])
  /\ pull_ok rest
  /\ handler_frame r5 = handler_frame r.
Proof.
  revert r. induction steps as [|s rest IH]; intros r Hb Hstop Hok.
  { simpl. by destruct (bool_decide _ && negb _). }
  cbn [xerces_parse_loop]. rewrite Hstop. simpl negb. rewrite andb_true_r.
  destruct (m_poCompleteFeature r) as [held|] eqn:Hslot.
  { rewrite bool_decide_eq_false_2 by done. simpl. by rewrite Hslot. }
  rewrite bool_decide_eq_true_2 by done.
  apply pull_ok_cons in Hok as (Hout & Hone & Hrest). rewrite Hout.
  set (r1 := run_calls (calls s) r).
  pose proof (run_calls_frame (calls s) r) as Hframe. fold r1 in Hframe.
  pose proof (handler_frame_fields _ _ Hframe) as (Ho1 & _ & _ & Hstop1).
  assert (Hb1 : bUseExpatReader r1 = false).
  { rewrite <- Hb. by apply options_backend. }
  destruct (IH r1 Hb1 (eq_trans Hstop1 Hstop) Hrest)
    as (Hexc & Hall & Hnil & Hok' & Hf).
  split; [done|]. split; [|split; [done|split; [done|congruence]]].
  rewrite <- Hall. unfold all_calls. rewrite fmap_cons. simpl concat.
  rewrite completed_app. fold r1. rewrite app_assoc. f_equal. simpl.
  symmetry. by apply run_calls_slot_single.
Qed.

End PullDelivery.

(** A reader of the pull backend in the middle of a file without errors. *)
Definition pull_reading (r : GMLReader) : Prop :=
  bUseExpatReader r = false /\ m_bReadStarted r = true
  /\ m_bStopParsing r = false /\ pull_ok (unread_steps r)
  /\ m_poSAXReader r = true.

Section PullDeliveryCalls.
Context {env : Environment} {names : FieldNameComparison}.
Hypothesis Hxerces : HAVE_XERCES = true.

Lemma head_tail_lookup (l : list GMLFeature) (n : nat) :
  head l :: ((fun k => tail l !! k) <$> seq 0 n)
  = (fun k => l !! k) <$> seq 0 (S n).
Proof.
  cbn [seq fmap list_fmap]. rewrite <- seq_shift, <- list_fmap_compose.
  f_equal; [by destruct l|].
  apply list_fmap_ext. intros _ k _. simpl. by destruct l.
Qed.

(** The part of [NextFeatureXerces] from the loop on. *)
Lemma xerces_tail_next (r4 : GMLReader) :
  pull_reading r4 ->
  exists poReturn r',
    (let '(rest, r5, exc) := xerces_parse_loop (unread_steps r4) r4 in
     match exc with
     | Some e => Raises e (set_unread rest r5)
     | None =>
         Returns (m_poCompleteFeature (set_unread rest r5))
                 (set_m_poCompleteFeature None (set_unread rest r5))
     end) = Returns poReturn r'
    /\ poReturn = head (to_come_pull r4)
    /\ to_come_pull r' = tail (to_come_pull r4)
    /\ pull_reading r'.
Proof.
  intros (Hb & Hst & Hstop & Hok & Hsax).
  destruct (xerces_parse_loop_ok Hxerces (unread_steps r4) r4 Hb Hstop Hok)
    as (Hexc & Hall & Hnil & Hok' & Hframe).
  assert (Hsax5 : m_poSAXReader
                    (snd (fst (xerces_parse_loop (unread_steps r4) r4)))
                  = true).
  { apply handler_loop_frame, loop_frame_fields in Hframe
      as (_ & _ & _ & _ & _ & Hs & _). congruence. }
  assert (Hend : fpGML r4 = None ->
                 fst (fst (xerces_parse_loop (unread_steps r4) r4)) = []).
  { intros Hno. unfold unread_steps. rewrite Hno. simpl.
    by destruct (bool_decide _ && negb _). }
  destruct (xerces_parse_loop (unread_steps r4) r4) as [[rest r5] exc].
  simpl in Hexc, Hall, Hnil, Hok', Hframe, Hend, Hsax5. subst exc.
  apply handler_frame_fields in Hframe as (Ho5 & Hfp5 & Hst5 & Hstop5).
  assert (Hsax6 : m_poSAXReader (set_unread rest r5) = true).
  { unfold set_unread. by destruct (fpGML r5). }
  destruct (set_unread_core rest r5) as (Hcore6 & _ & _).
  destruct (set_unread_fields rest r5) as (Hset6 & Hst6 & Hslot6).
  apply settings_fields in Hset6 as (Hb6 & _ & _ & Hstop6 & _).
  assert (Hu6 : unread_steps (set_unread rest r5) = rest).
  { unfold unread_steps, set_unread.
    destruct (fpGML r5) as [fp|] eqn:Hfile; [done|].
    rewrite Hfile. symmetry. apply Hend. congruence. }
  eexists _, _. split; [reflexivity|].
  unfold to_come_pull at 1 3. rewrite Hall, Hslot6.
  assert (Hreading : pull_reading
                       (set_m_poCompleteFeature None (set_unread rest r5))).
  { unfold pull_reading, unread_steps. simpl.
    fold (unread_steps (set_unread rest r5)). rewrite Hu6, Hb6, Hst6, Hstop6.
    apply options_backend in Ho5.
    split; [congruence|]. split; [congruence|]. split; [congruence|].
    split; [done | exact Hsax6]. }
  split; [|split; [|exact Hreading]].
  - destruct (m_poCompleteFeature r5); [done|]. by rewrite (Hnil eq_refl).
  - unfold to_come_pull, unread_steps. simpl.
    fold (unread_steps (set_unread rest r5)). rewrite Hu6.
    assert (Hc : completed (all_calls rest)
                   (set_m_poCompleteFeature None (set_unread rest r5))
                 = completed (all_calls rest) r5).
    { apply completed_core. by rewrite <- Hcore6. }
    rewrite Hc. destruct (m_poCompleteFeature r5); [done|].
    by rewrite (Hnil eq_refl).
Qed.

Lemma NextFeatureXerces_next (r : GMLReader) :
  pull_reading r ->
  fst (NextFeatureXerces r) = head (to_come_pull r)
  /\ to_come_pull (snd (NextFeatureXerces r)) = tail (to_come_pull r)
  /\ pull_reading (snd (NextFeatureXerces r)).
Proof.
  intros Hreading.
  destruct (xerces_tail_next r Hreading) as (poReturn & r' & Htail & H).
  unfold NextFeatureXerces, NextFeatureXerces_try.
  destruct Hreading as (_ & -> & _ & _ & Hsax). simpl negb. cbv iota.
  by rewrite Hsax, andb_false_r, Htail.
Qed.

Lemma NextFeature_calls_pull (n : nat) (r : GMLReader) :
  HAVE_EXPAT && bUseExpatReader r = false -> pull_reading r ->
  fst (NextFeature_calls n r) = (fun k => to_come_pull r !! k) <$> seq 0 n.
Proof.
  revert r. induction n as [|n IH]; intros r He Hreading; [done|].
  destruct (NextFeatureXerces_next r Hreading) as (Hhead & Htail & Hnext).
  assert (Hcall : NextFeature r = NextFeatureXerces r).
  { unfold NextFeature. rewrite He. destruct Hreading as (-> & _).
    by rewrite Hxerces. }
  assert (He' : HAVE_EXPAT && bUseExpatReader (snd (NextFeatureXerces r))
                = false).
  { destruct Hnext as (-> & _). apply andb_false_r. }
  rewrite <- head_tail_lookup.
  cbn [NextFeature_calls]. rewrite Hcall.
  destruct (NextFeatureXerces r) as [poFeature r']. simpl in *.
  specialize (IH r' He' Hnext).
  destruct (NextFeature_calls n r') as [later r'']. simpl in IH |- *.
  by rewrite Hhead, IH, Htail.
Qed.

End PullDeliveryCalls.

(** A reader of the pull backend at rest: no parser, reading not started,
    nothing in the slot, parsing not stopped. *)
Definition pull_at_rest (r : GMLReader) : Prop :=
  bUseExpatReader r = false /\ m_bReadStarted r = false
  /\ m_poSAXReader r = false /\ m_poCompleteFeature r = None
  /\ m_bStopParsing r = false.

Section PullDeliveryWhole.
Context {env : Environment} {names : FieldNameComparison}.
Hypothesis Hxerces : HAVE_XERCES = true.
Hypothesis Hinit : XercesInitializes = true.
Hypothesis Hcreate : XercesCreatesReader = true.

(** [SetupParser] for a reader of the pull backend at rest. *)
Lemma SetupParser_pull_at_rest (r : GMLReader) (doc : list parse_step) :
  pull_at_rest r -> opens r doc ->
  let r' := snd (SetupParser r) in
  fpGML r' = Some (mkVSILFILE doc doc)
  /\ bUseExpatReader r' = false /\ m_poCompleteFeature r' = None
  /\ m_GMLInputSource r' = true /\ m_bStopParsing r' = false
  /\ m_poSAXReader r' = true.
Proof.
  intros (Hb & Hst & Hp & Hslot & Hstop) Hopens. unfold SetupParser.
  set (r1 := match fpGML r with
             | None => match m_pszFilename r with
                       | Some name => set_fpGML _ r
                       | None => r
                       end
             | Some _ => r
             end).
  assert (H1 : exists fp, fpGML r1 = Some fp /\ document fp = doc).
  { subst r1. unfold opens in Hopens.
    destruct (fpGML r) as [fp|] eqn:Hfile; [by exists fp|].
    destruct Hopens as (name & -> & Hdoc). simpl. rewrite Hdoc.
    by exists (mkVSILFILE doc doc). }
  assert (H1' : bUseExpatReader r1 = false /\ m_poCompleteFeature r1 = None
                /\ m_bStopParsing r1 = false /\ m_poSAXReader r1 = false).
  { subst r1. destruct (fpGML r); [done|]. by destruct (m_pszFilename r). }
  clearbody r1. destruct H1 as (fp & Hfile & Hdoc).
  destruct H1' as (Hb1 & Hslot1 & Hstop1 & Hp1).
  rewrite Hfile. simpl fpGML. cbn [bUseExpatReader set_fpGML].
  rewrite Hb1, Hxerces, andb_false_r. cbv iota. simpl bUseExpatReader.
  rewrite Hb1. simpl andb. cbv iota.
  unfold SetupParserXerces. rewrite Hinit, Hcreate. simpl negb. cbv iota.
  simpl m_poSAXReader. rewrite Hp1. cbv iota beta zeta. simpl.
  unfold VSIFSeekL_start. rewrite Hdoc.
  by destruct (m_GMLInputSource r1) eqn:Hsource; simpl; rewrite ?Hsource.
Qed.

(** The first call of [NextFeatureXerces] from rest. *)
Lemma NextFeatureXerces_first (r : GMLReader) (doc : list parse_step) :
  pull_at_rest r -> opens r doc -> pull_ok doc ->
  let come := completed (all_calls doc) (snd (SetupParser r)) in
  fst (NextFeatureXerces r) = head come
  /\ to_come_pull (snd (NextFeatureXerces r)) = tail come
  /\ pull_reading (snd (NextFeatureXerces r)).
Proof.
  intros Hrest Hopens Hok.
  destruct (SetupParser_pull_at_rest r doc Hrest Hopens)
    as (Hfile & Hb' & Hslot' & Hsource' & Hstop' & Hsax').
  destruct Hrest as (Hb & Hst & Hp & Hslot & Hstop).
  unfold NextFeatureXerces, NextFeatureXerces_try.
  rewrite Hst, Hp. simpl negb. cbv iota zeta.
  set (r1 := snd (SetupParser r)) in *.
  set (r2 := set_m_bReadStarted true r1).
  change (m_GMLInputSource r2) with (m_GMLInputSource r1).
  rewrite Hsource'. simpl negb. cbv iota.
  change (m_poSAXReader r2) with (m_poSAXReader r1).
  rewrite Hsax'. simpl negb. cbv iota.
  unfold xerces_parse.
  assert (Hu2 : unread_steps r2 = doc).
  { unfold unread_steps. simpl. by rewrite Hfile. }
  rewrite Hu2. destruct doc as [|s rest].
  { simpl. split; [done|]. split.
    - unfold to_come_pull. rewrite Hu2. simpl. by rewrite Hslot'.
    - unfold pull_reading. rewrite Hu2. done. }
  apply pull_ok_cons in Hok as (Hout & Hone & Hokrest). rewrite Hout.
  set (r3 := run_calls (calls s) (set_unread rest r2)).
  assert (Hfp2 : fpGML r2 <> None) by (simpl; by rewrite Hfile).
  destruct (unread_steps_set_unread rest r2 Hfp2) as [Hu Hfpu].
  destruct (set_unread_core rest r2) as (Hcoreu & _ & _).
  destruct (set_unread_fields rest r2) as (Hsetu & Hstu & Hslotu).
  apply settings_fields in Hsetu as (Hbu & _ & _ & Hstopu & _).
  pose proof (run_calls_frame (calls s) (set_unread rest r2)) as Hframe.
  fold r3 in Hframe.
  apply handler_frame_fields in Hframe as (Ho3 & Hfp3 & Hst3 & Hstop3).
  apply options_backend in Ho3.
  assert (Hsax3 : m_poSAXReader r3 = true).
  { pose proof (run_calls_loop_frame (calls s) (set_unread rest r2)) as Hl.
    fold r3 in Hl.
    apply loop_frame_fields in Hl as (_ & _ & _ & _ & _ & -> & _).
    unfold set_unread. by destruct (fpGML r2). }
  assert (Hreading : pull_reading r3).
  { unfold pull_reading, unread_steps. rewrite Hfp3.
    fold (unread_steps (set_unread rest r2)).
    rewrite Hu, Ho3, Hst3, Hstop3, Hbu, Hstu, Hstopu. done. }
  assert (Hcome : to_come_pull r3
                  = completed (all_calls (s :: rest)) r1).
  { unfold to_come_pull, unread_steps. rewrite Hfp3.
    fold (unread_steps (set_unread rest r2)). rewrite Hu.
    unfold all_calls. rewrite fmap_cons. simpl concat. rewrite completed_app.
    assert (Hc1 : parse_core (set_unread rest r2) = parse_core r1)
      by by rewrite Hcoreu.
    rewrite <- (completed_core (calls s) _ _ Hc1).
    rewrite <- (completed_core _ _ _
                  (run_calls_core (calls s) _ _ Hc1)).
    fold r3. f_equal. apply (run_calls_slot_single Hxerces); [done|..].
    - by rewrite Hbu.
    - by rewrite Hslotu. }
  destruct (xerces_tail_next Hxerces r3 Hreading)
    as (poReturn & r' & Htail & Hhead & Hrest' & Hnext).
  rewrite Hsax3, andb_false_r, Htail. simpl. by rewrite <- Hcome.
Qed.

(** From rest, the calls of [NextFeature] return, one after the other, the
    features the calls of the whole document complete, then NULL. *)
Lemma NextFeature_calls_pull_at_rest
    (n : nat) (r : GMLReader) (doc : list parse_step) :
  pull_at_rest r -> opens r doc -> pull_ok doc ->
  fst (NextFeature_calls n r)
  = (fun k => completed (all_calls doc) (snd (SetupParser r)) !! k)
      <$> seq 0 n.
Proof.
  intros Hrest Hopens Hok. destruct n as [|n]; [done|].
  destruct (NextFeatureXerces_first r doc Hrest Hopens Hok)
    as (Hhead & Htail & Hnext).
  assert (Hcall : NextFeature r = NextFeatureXerces r).
  { unfold NextFeature. destruct Hrest as (-> & _).
    by rewrite andb_false_r, Hxerces. }
  assert (He' : HAVE_EXPAT && bUseExpatReader (snd (NextFeatureXerces r))
                = false).
  { destruct Hnext as (-> & _). apply andb_false_r. }
  rewrite <- head_tail_lookup.
  cbn [NextFeature_calls]. rewrite Hcall.
  pose proof (NextFeature_calls_pull Hxerces n _ He' Hnext) as Hlater.
  destruct (NextFeatureXerces r) as [poFeature r']. simpl in *.
  destruct (NextFeature_calls n r') as [later r'']. simpl in Hlater |- *.
  by rewrite Hhead, Hlater, Htail.
Qed.

End PullDeliveryWhole.

Section BackendsAgree.
Context {env : Environment} {names : FieldNameComparison}.

(** What [SetupParser] leaves for the handler when it succeeds on a reader
    that had no parser: the registry as it was, and one empty frame more
    on the stack. *)
Lemma SetupParser_core (r r' : GMLReader) :
  oParser r = false -> m_poSAXReader r = false ->
  SetupParser r = (true, r') ->
  parse_core r'
  = (m_papoClass r, new_GMLReadState :: m_poState r, m_pszGlobalSRSName r,
     m_bConsiderEPSGAsURN r).
Proof.
  intros Hp Hs. unfold SetupParser.
  set (r1 := match fpGML r with
             | None => match m_pszFilename r with
                       | Some name => set_fpGML _ r
                       | None => r
                       end
             | Some _ => r
             end).
  assert (H1 : parse_core r1 = parse_core r /\ oParser r1 = false
               /\ m_poSAXReader r1 = false).
  { subst r1. destruct (fpGML r); [done|]. by destruct (m_pszFilename r). }
  clearbody r1. destruct H1 as (Hc1 & Hp1 & Hs1).
  set (r2 := match fpGML r1 with
             | Some fp => set_fpGML (Some (VSIFSeekL_start fp)) r1
             | None => r1
             end).
  assert (H2 : parse_core r2 = parse_core r /\ oParser r2 = false
               /\ m_poSAXReader r2 = false).
  { subst r2. by destruct (fpGML r1). }
  clearbody r2. destruct H2 as (Hc2 & Hp2 & Hs2).
  set (after_expat := if HAVE_EXPAT && bUseExpatReader r2
                      then let '(b, r') := SetupParserExpat r2 in (Some b, r')
                      else (None, r2)).
  assert (H3 : parse_core (snd after_expat) = parse_core r
               /\ m_poSAXReader (snd after_expat) = false).
  { subst after_expat. destruct (HAVE_EXPAT && bUseExpatReader r2); [|done].
    unfold SetupParserExpat. by rewrite Hp2. }
  destruct after_expat as [bRet r3]. simpl in H3. destruct H3 as (Hc3 & Hs3).
  set (after_xerces := if HAVE_XERCES && negb (bUseExpatReader r3)
                       then let '(b, r') := SetupParserXerces r3 in (Some b, r')
                       else (bRet, r3)).
  assert (H4 : parse_core (snd after_xerces) = parse_core r).
  { subst after_xerces.
    destruct (HAVE_XERCES && negb (bUseExpatReader r3)); [|done].
    unfold SetupParserXerces. destruct XercesInitializes; [|done].
    rewrite Hs3. simpl. destruct XercesCreatesReader; [|done]. simpl.
    by destruct (negb _ && bool_decide _). }
  destruct after_xerces as [bRet' r4]. simpl in H4.
  destruct bRet' as [[|]|]; try done. intros [= <-].
  unfold parse_core in *. simpl. injection H4. intros. congruence.
Qed.

Hypothesis Hxerces : HAVE_XERCES = true.
Hypothesis Hinit : XercesInitializes = true.
Hypothesis Hcreate : XercesCreatesReader = true.

(** X6.  A reader constructed for the pull backend, on a file that opens and
    whose steps are without error and hold one [PopState] at most: the
    calls of [NextFeature] return, one after the other and in the order of
    the document, the features held by the frames that are taken off the
    stack, and NULL once these are used up. *)
Theorem NextFeature_pull_in_order
    (pszFilename : string) (bInvert bURN : bool)
    (doc : list parse_step) (n : nat) :
  VSIFOpenL pszFilename = Some doc -> pull_ok doc ->
  let r := SetSourceFile pszFilename (new_GMLReader false bInvert bURN) in
  fst (NextFeature_calls n r)
  = (fun k => completed (all_calls doc) (snd (SetupParser r)) !! k)
      <$> seq 0 n.
Proof.
  intros Hdoc Hok r.
  assert (Hrest : pull_at_rest r).
  { unfold pull_at_rest, r, new_GMLReader. simpl. rewrite Hxerces.
    by destruct HAVE_EXPAT. }
  assert (Hopens : opens r doc).
  { unfold opens, r. simpl. by exists pszFilename. }
  by apply NextFeature_calls_pull_at_rest.
Qed.

End BackendsAgree.

Lemma NextFeature_pull_in_order_sample :
  let calls := fst (@NextFeature_calls env_without_geometry strcmp_names 3
                      (sample_reader env_without_geometry false false false)) in
  calls
  = (fun k => @completed env_without_geometry strcmp_names
                (all_calls doc_without_geometry)
                (snd (@SetupParser env_without_geometry
                        (sample_reader env_without_geometry false false
                                       false))) !! k)
      <$> seq 0 3
  /\ (fmap (M := option) m_pszFID <$> calls) = [Some (Some "r1"); None; None].
Proof.
  split.
  - apply (@NextFeature_pull_in_order env_without_geometry strcmp_names
             eq_refl eq_refl eq_refl "sample.gml" false false
             doc_without_geometry 3).
    + reflexivity.
    + vm_compute. reflexivity.
  - vm_compute. reflexivity.
Defined.

(** ** Both backends on one file *)

(** The tokenizer of the push backend is handed the file buffer by buffer,
    that of the pull backend is asked for one token at a time: the steps in
    which a file comes depend on the backend.  The same environment with
    the files in other steps. *)
Definition in_steps (steps : string -> option (list parse_step))
                    (e : Environment) : Environment :=
  {| HAVE_XERCES := @HAVE_XERCES e;
     HAVE_EXPAT := @HAVE_EXPAT e;
     GML_FIELDTYPES := @GML_FIELDTYPES e;
     VSIFOpenL := steps;
     XercesInitializes := @XercesInitializes e;
     XercesCreatesReader := @XercesCreatesReader e;
     read_whole_file := @read_whole_file e;
     CPLParseXMLString := @CPLParseXMLString e;
     InitializeFromXML := @InitializeFromXML e;
     AnalysePropertyValue := @AnalysePropertyValue e;
     MergeSRSName := @MergeSRSName e;
     GML_BuildOGRGeometryFromList := @GML_BuildOGRGeometryFromList e;
     GML_ExtractSrsNameFromGeometry := @GML_ExtractSrsNameFromGeometry e;
     GML_IsSRSLatLongOrder := @GML_IsSRSLatLongOrder e;
     OGRMergeGeometryTypes := @OGRMergeGeometryTypes e;
     OGRSpatialReference := @OGRSpatialReference e;
     SetFromUserInput := @SetFromUserInput e;
     HasGEOGCS := @HasGEOGCS e;
     StripAxisNodes := @StripAxisNodes e;
     exportToWkt := @exportToWkt e |}.

Section BothBackends.
Context {env : Environment} {names : FieldNameComparison}.
Hypothesis Hxerces : HAVE_XERCES = true.
Hypothesis Hexpat : HAVE_EXPAT = true.
Hypothesis Hinit : XercesInitializes = true.
Hypothesis Hcreate : XercesCreatesReader = true.

(** What the calls of the handler do does not depend on the steps in which
    the files come. *)
Lemma apply_call_in_steps (steps : string -> option (list parse_step))
                          (c : handler_call) (r : GMLReader) :
  @apply_call (in_steps steps env) names c r = apply_call c r.
Proof. by destruct c. Qed.

Lemma completed_in_steps (steps : string -> option (list parse_step))
                         (l : list handler_call) (r : GMLReader) :
  @completed (in_steps steps env) names l r = completed l r.
Proof.
  revert r. induction l as [|c l IH]; intros r; [done|].
  cbn [completed]. by rewrite apply_call_in_steps, IH.
Qed.

(** X7.  One file, read by the push backend in buffers and by the pull
    backend in tokens.  When the buffers and the tokens make the handler
    issue the same calls in the same order, when no buffer has an error or
    a stop asked by the handler, and when no token has an error or more
    than one [PopState]: the two backends return the same features in the
    same order, call after call. *)
Theorem NextFeature_backends_agree
    (buffers tokens : string -> option (list parse_step))
    (pszFilename : string) (bInvert bURN : bool)
    (doc_push doc_pull : list parse_step) (n : nat) :
  buffers pszFilename = Some doc_push ->
  tokens pszFilename = Some doc_pull ->
  all_calls doc_push = all_calls doc_pull ->
  clean doc_push -> pull_ok doc_pull ->
  fst (@NextFeature_calls (in_steps buffers env) names n
         (SetSourceFile pszFilename
            (@new_GMLReader (in_steps buffers env) true bInvert bURN)))
  = fst (@NextFeature_calls (in_steps tokens env) names n
           (SetSourceFile pszFilename
              (@new_GMLReader (in_steps tokens env) false bInvert bURN))).
Proof.
  intros Hpushdoc Hpulldoc Hcalls Hclean Hok.
  set (rpush := SetSourceFile pszFilename
                  (@new_GMLReader (in_steps buffers env) true bInvert bURN)).
  set (rpull := SetSourceFile pszFilename
                  (@new_GMLReader (in_steps tokens env) false bInvert bURN)).
  assert (Hpush : push_at_rest rpush).
  { unfold push_at_rest, rpush, new_GMLReader. simpl.
    by rewrite Hexpat, Hxerces. }
  assert (Hpull : pull_at_rest rpull).
  { unfold pull_at_rest, rpull, new_GMLReader. simpl.
    by rewrite Hexpat, Hxerces. }
  assert (Hopush : @opens (in_steps buffers env) rpush doc_push)
    by (by exists pszFilename).
  assert (Hopull : @opens (in_steps tokens env) rpull doc_pull)
    by (by exists pszFilename).
  destruct (@NextFeature_calls_push_at_rest (in_steps buffers env) names
              Hexpat n rpush doc_push Hpush Hopush Hclean) as [-> _].
  rewrite (@NextFeature_calls_pull_at_rest (in_steps tokens env) names
             Hxerces Hinit Hcreate n rpull doc_pull Hpull Hopull Hok).
  apply list_fmap_ext. intros _ k _. f_equal.
  rewrite !completed_in_steps, Hcalls. apply completed_core.
  destruct (@SetupParser (in_steps buffers env) rpush)
    as [okpush rpush'] eqn:Hspush.
  destruct (@SetupParser (in_steps tokens env) rpull)
    as [okpull rpull'] eqn:Hspull.
  assert (okpush = true /\ okpull = true) as [-> ->].
  { revert Hspush Hspull. unfold SetupParser, rpush, rpull, new_GMLReader.
    simpl. rewrite Hpushdoc, Hpulldoc, Hexpat, Hxerces. simpl.
    unfold SetupParserXerces. simpl. rewrite Hinit, Hcreate. simpl.
    by intros [= <- _] [= <- _]. }
  simpl.
  rewrite (@SetupParser_core (in_steps buffers env) rpush rpush'
             eq_refl eq_refl Hspush).
  by rewrite (@SetupParser_core (in_steps tokens env) rpull rpull'
                eq_refl eq_refl Hspull).
Qed.

End BothBackends.

(** The document of three features as the pull backend gets it, one token
    at a time, with the end of each feature element in a token of its
    own. *)
Definition doc_three_features_in_tokens : list parse_step :=
  [mkParseStep [HPushPath "FeatureCollection"] ParseOk false;
   mkParseStep [HPushPath "featureMember"] ParseOk false;
   mkParseStep [HPushFeature "Road" (Some "r1")] ParseOk false;
   mkParseStep [HSetFeatureProperty "name" "A"] ParseOk false;
   mkParseStep [HPopState] ParseOk false;
   mkParseStep [HPopPath] ParseOk false;
   mkParseStep [HPushPath "featureMember"] ParseOk false;
   mkParseStep [HPushFeature "Road" (Some "r2")] ParseOk false;
   mkParseStep [HSetFeatureProperty "lanes" "2"] ParseOk false;
   mkParseStep [HPopState] ParseOk false;
   mkParseStep [HPopPath] ParseOk false;
   mkParseStep [HPushPath "featureMember"] ParseOk false;
   mkParseStep [HPushFeature "Lake" (Some "l1")] ParseOk false;
   mkParseStep [HPopState] ParseOk false;
   mkParseStep [HPopPath] ParseOk false;
   mkParseStep [HPopPath] ParseOk false].

Definition sample_gml (doc : list parse_step) (name : string)
  : option (list parse_step) :=
  if String.eqb name "sample.gml" then Some doc else None.

(** The push backend reads the document in the two buffers of
    [doc_three_features], the pull backend in the sixteen tokens above:
    both return the three features. *)
Lemma NextFeature_backends_agree_sample :
  let calls_push :=
    fst (@NextFeature_calls
           (in_steps (sample_gml doc_three_features) plain_env)
           strcmp_names 5
           (SetSourceFile "sample.gml"
              (@new_GMLReader
                 (in_steps (sample_gml doc_three_features) plain_env)
                 true false false))) in
  let calls_pull :=
    fst (@NextFeature_calls
           (in_steps (sample_gml doc_three_features_in_tokens) plain_env)
           strcmp_names 5
           (SetSourceFile "sample.gml"
              (@new_GMLReader
                 (in_steps (sample_gml doc_three_features_in_tokens)
                           plain_env)
                 false false false))) in
  calls_push = calls_pull
  /\ (fmap (M := option) m_pszFID <$> calls_pull)
     = [Some (Some "r1"); Some (Some "r2"); Some (Some "l1"); None; None].
Proof.
  split; [|vm_compute; reflexivity].
  apply (@NextFeature_backends_agree plain_env strcmp_names
           eq_refl eq_refl eq_refl eq_refl
           (sample_gml doc_three_features)
           (sample_gml doc_three_features_in_tokens)
           "sample.gml" false false
           doc_three_features doc_three_features_in_tokens 5).
  - reflexivity.
  - reflexivity.
  - vm_compute. reflexivity.
  - vm_compute. reflexivity.
  - vm_compute. reflexivity.
Defined.

(** ** Features that are not returned *)

Section PullKeepsFirst.
Context {env : Environment} {names : FieldNameComparison}.
Hypothesis Hxerces : HAVE_XERCES = true.

Lemma apply_call_slot_first (c : handler_call) (r : GMLReader) :
  bUseExpatReader r = false ->
  m_poCompleteFeature (apply_call c r)
  = head (option_list (m_poCompleteFeature r) ++ completed_by c r)
  /\ ppoFeatureTab (apply_call c r) = ppoFeatureTab r.
Proof.
  intros Hb.
  assert (Hhead : forall o : option GMLFeature, head (option_list o ++ []) = o).
  { by intros [f|]. }
  destruct (is_PopState c) eqn:Hc.
  - destruct c; try done. simpl. unfold PopState. rewrite Hb, Hxerces.
    destruct (m_poState r) as [|top below]; [by rewrite Hhead|].
    destruct (m_poCompleteFeature r) as [held|] eqn:Hslot;
      destruct (m_poFeature top) as [f|] eqn:Hf;
      repeat case_bool_decide; try done; simpl;
      rewrite ?Hf, ?Hb, ?andb_false_r, ?Hslot; simpl; by rewrite ?Hslot.
  - rewrite apply_call_slot by done.
    assert (Hnone : completed_by c r = []) by by destruct c.
    rewrite Hnone, Hhead. split; [done|].
    destruct c; try done; simpl.
    + unfold PushFeature. by destruct (_ =? _)%Z.
    + unfold SetFeatureProperty.
      destruct (m_poState r) as [|top below]; [done|].
      destruct (m_poFeature top) as [poFeature|]; [|done].
      destruct (m_papoClass r !! m_poClass poFeature) as [poClass|]; [|done].
      destruct (_ =? _)%nat; [|done].
      destruct (IsSchemaLocked poClass); [done|].
      destruct (AddProperty _ poClass) as [iAdded poClass'].
      by destruct (iAdded <? 0)%Z.
    + unfold on_top_state. by destruct (m_poState r).
    + unfold on_top_state. by destruct (m_poState r).
    + unfold on_top_state. by destruct (m_poState r).
    + unfold SetGlobalSRSName. destruct (m_pszGlobalSRSName r); [done|].
      by destruct (strncmp_eq _ "EPSG:" 5 && m_bConsiderEPSGAsURN r).
Qed.

(** X8.  With the pull backend, of the feature in the slot and the features
    a sequence of handler calls completes, only the first is in the slot
    afterwards; the others are in no place from which [NextFeature]
    returns features, the table being left as it was. *)
Theorem run_calls_pull_keeps_first (l : list handler_call) (r : GMLReader) :
  bUseExpatReader r = false ->
  m_poCompleteFeature (run_calls l r)
  = head (option_list (m_poCompleteFeature r) ++ completed l r)
  /\ ppoFeatureTab (run_calls l r) = ppoFeatureTab r.
Proof.
  revert r. induction l as [|c l IH]; intros r Hb.
  { simpl. split; [|done]. by destruct (m_poCompleteFeature r). }
  change (run_calls (c :: l) r) with (run_calls l (apply_call c r)).
  assert (Hb' : bUseExpatReader (apply_call c r) = false).
  { rewrite <- Hb. apply options_backend, handler_frame_options,
      apply_call_frame. }
  destruct (IH _ Hb') as [Hslot Htab].
  destruct (apply_call_slot_first c r Hb) as [Hslot1 Htab1].
  split; [|congruence].
  rewrite Hslot, Hslot1. cbn [completed].
  destruct (m_poCompleteFeature r) as [held|]; [done|]. simpl.
  by destruct (completed_by c r).
Qed.

End PullKeepsFirst.

(** With the pull backend, a step that completes two features. *)
Lemma run_calls_pull_keeps_first_sample :
  let r := snd (@SetupParser env_three_features
                  (sample_reader env_three_features false false false)) in
  let l := all_calls (take 1 doc_three_features) in
  (m_pszFID <$> @completed env_three_features strcmp_names l r)
  = [Some "r1"; Some "r2"]
  /\ (m_pszFID <$> m_poCompleteFeature
                    (@run_calls env_three_features strcmp_names l r))
     = Some (Some "r1")
  /\ m_poCompleteFeature (@run_calls env_three_features strcmp_names l r)
     = head (option_list (m_poCompleteFeature r)
             ++ @completed env_three_features strcmp_names l r).
Proof.
  split; [vm_compute; reflexivity|]. split; [vm_compute; reflexivity|].
  apply (@run_calls_pull_keeps_first env_three_features strcmp_names eq_refl).
  vm_compute. reflexivity.
Defined.

Section PushErrorInBuffer.
Context {env : Environment} {names : FieldNameComparison}.
Hypothesis Hexpat : HAVE_EXPAT = true.

Lemma NextFeature_calls_none (n : nat) (r : GMLReader) :
  stopped r -> fst (NextFeature_calls n r) = replicate n None.
Proof.
  revert r. induction n as [|n IH]; intros r Hstopped; [done|].
  destruct (NextFeature_stopped r Hstopped) as [Hnone Hnext].
  cbn [NextFeature_calls].
  destruct (NextFeature r) as [poFeature r']. simpl in Hnone, Hnext.
  specialize (IH r' Hnext).
  destruct (NextFeature_calls n r') as [later r'']. simpl in IH |- *.
  by rewrite Hnone, IH.
Qed.

(** The call of [NextFeatureExpat] that reads a buffer in which the
    tokenizer fails. *)
Lemma NextFeatureExpat_error (r : GMLReader) (fp : VSILFILE)
                             (s : parse_step) (rest : list parse_step) :
  bUseExpatReader r = true -> m_bReadStarted r = true ->
  m_bStopParsing r = false -> fpGML r = Some fp -> unread fp = s :: rest ->
  length (ppoFeatureTab r) <= nFeatureTabIndex r ->
  outcome s <> ParseOk ->
  fst (NextFeatureExpat r) = head (completed (calls s) r)
  /\ m_bStopParsing (snd (NextFeatureExpat r)) = true
  /\ bUseExpatReader (snd (NextFeatureExpat r)) = true.
Proof.
  intros Hb Hst Hstop Hfile Hunread Hidx Hout.
  unfold NextFeatureExpat. rewrite Hst. simpl negb. cbv iota.
  rewrite Hfile, Hstop.
  apply Nat.ltb_ge in Hidx. rewrite Hidx.
  unfold VSIFEofL. rewrite Hunread.
  set (r2 := set_nFeatureTabIndex 0 (set_ppoFeatureTab [] r)).
  cbn [expat_parse_loop].
  set (r1 := run_calls (calls s) r2).
  pose proof (run_calls_frame (calls s) r2) as Hframe. fold r1 in Hframe.
  apply handler_loop_frame, loop_frame_fields in Hframe
    as (Ho1 & Hidx1 & _). apply options_backend in Ho1.
  assert (Htab1 : ppoFeatureTab r1 = completed (calls s) r).
  { unfold r1. rewrite (run_calls_tab Hexpat) by done. simpl.
    by apply completed_core. }
  set (failed := set_m_bStopParsing true
                   (CPLError CE_Failure CPLE_AppDefined
                      "XML parsing of GML file failed : %s at line %d, column %d"
                      r1)).
  assert (Hloop : (let r2' := match outcome s with
                              | ParseOk => r1
                              | _ => failed
                              end in
                   let r3 := if negb (m_bStopParsing r2')
                             then set_m_bStopParsing (handler_stopped s) r2'
                             else r2' in
                   if negb (match rest with [] => true | _ => false end)
                      && negb (m_bStopParsing r3)
                      && (length (ppoFeatureTab r3) =? 0)%nat
                   then expat_parse_loop rest r3 else (rest, r3))
                  = (rest, failed)).
  { destruct (outcome s); try done; simpl; by rewrite andb_false_r. }
  cbv zeta in Hloop. rewrite Hloop.
  destruct (set_unread_core rest failed) as (_ & Htab4 & Hidx4).
  destruct (set_unread_fields rest failed) as (Hset4 & _ & _).
  apply settings_fields in Hset4 as (Hb4 & _ & _ & Hstop4 & _).
  rewrite Htab4, Hidx4. simpl ppoFeatureTab. simpl nFeatureTabIndex.
  rewrite Htab1, Hidx1. simpl nFeatureTabIndex.
  destruct (completed (calls s) r) as [|f others]; simpl;
    rewrite ?Hb4, ?Hstop4; simpl; by rewrite ?Ho1.
Qed.

(** X9.  With the push backend, when the tokenizer fails in the buffer that
    is read, the call returns the first feature that buffer had completed
    before, if there is one, and every later call returns NULL: the other
    features the buffer had completed are not returned. *)
Theorem NextFeature_push_error_in_buffer
    (r : GMLReader) (fp : VSILFILE) (s : parse_step)
    (rest : list parse_step) (n : nat) :
  bUseExpatReader r = true -> m_bReadStarted r = true ->
  m_bStopParsing r = false -> fpGML r = Some fp -> unread fp = s :: rest ->
  length (ppoFeatureTab r) <= nFeatureTabIndex r ->
  outcome s <> ParseOk ->
  fst (NextFeature_calls (S n) r)
  = head (completed (calls s) r) :: replicate n None.
Proof.
  intros Hb Hst Hstop Hfile Hunread Hidx Hout.
  destruct (NextFeatureExpat_error r fp s rest Hb Hst Hstop Hfile Hunread
              Hidx Hout) as (Hhead & Hstop' & Hb').
  assert (Hcall : NextFeature r = NextFeatureExpat r).
  { unfold NextFeature. by rewrite Hb, Hexpat. }
  cbn [NextFeature_calls]. rewrite Hcall.
  destruct (NextFeatureExpat r) as [poFeature r']. simpl in *.
  assert (Hstopped : stopped r').
  { split; [done|]. intros Hno. congruence. }
  pose proof (NextFeature_calls_none n r' Hstopped) as Hlater.
  destruct (NextFeature_calls n r') as [later r'']. simpl in *.
  by rewrite Hhead, Hlater.
Qed.

End PushErrorInBuffer.

(** The three features of the document, with an error of the tokenizer at
    the end of the first buffer. *)
Definition doc_error_in_buffer : list parse_step :=
  match doc_three_features with
  | s :: rest => mkParseStep (calls s) ParseFail false :: rest
  | [] => []
  end.

Definition env_error_in_buffer : Environment :=
  sample_env "" doc_error_in_buffer FileOpenFails None.

(** The reader of the push backend set up on that document, before the
    first call of [NextFeature]. *)
Definition reader_before_error : GMLReader :=
  set_m_bReadStarted true
    (snd (@SetupParser env_error_in_buffer
            (sample_reader env_error_in_buffer true false false))).

Lemma NextFeature_push_error_in_buffer_sample :
  let calls := fst (@NextFeature_calls env_error_in_buffer strcmp_names 3
                      reader_before_error) in
  (fmap (M := option) m_pszFID <$> calls) = [Some (Some "r1"); None; None]
  /\ (m_pszFID <$> @completed env_error_in_buffer strcmp_names
                     (all_calls (take 1 doc_error_in_buffer))
                     reader_before_error)
     = [Some "r1"; Some "r2"].
Proof.
  pose proof (@NextFeature_push_error_in_buffer env_error_in_buffer
                strcmp_names eq_refl reader_before_error
                (mkVSILFILE doc_error_in_buffer doc_error_in_buffer)
                (mkParseStep
                   [HPushPath "FeatureCollection"; HPushPath "featureMember";
                    HPushFeature "Road" (Some "r1");
                    HSetFeatureProperty "name" "A"; HPopState; HPopPath;
                    HPushPath "featureMember"; HPushFeature "Road" (Some "r2");
                    HSetFeatureProperty "lanes" "2"; HPopState; HPopPath]
                   ParseFail false)
                (drop 1 doc_error_in_buffer) 2
                eq_refl eq_refl eq_refl eq_refl eq_refl (le_n 0)
                ltac:(discriminate)) as H.
  split; [|vm_compute; reflexivity].
  cbv zeta. rewrite H. vm_compute. reflexivity.
Defined.

(** ** What relates a reader to the reader after reading *)

(** The places where classes and features are: registry, stack, table,
    slot. *)
Definition places (r : GMLReader) :=
  (m_papoClass r, m_poState r, ppoFeatureTab r, m_poCompleteFeature r).

Section ReadingRelates.
Context {env : Environment} {names : FieldNameComparison}.

(** A relation between readers that every step of reading respects. *)
Variable R : GMLReader -> GMLReader -> Prop.
Hypothesis R_refl : forall r, R r r.
Hypothesis R_trans : forall r1 r2 r3, R r1 r2 -> R r2 r3 -> R r1 r3.
Hypothesis R_call : forall c r, R r (apply_call c r).
Hypothesis R_places : forall r r', places r' = places r -> R r r'.
Hypothesis R_no_tab : forall r, R r (set_ppoFeatureTab [] r).
Hypothesis R_no_slot : forall r, R r (set_m_poCompleteFeature None r).
Hypothesis R_frame : forall r, R r (PushState new_GMLReadState r).

Lemma R_run_calls (l : list handler_call) (r : GMLReader) :
  R r (run_calls l r).
Proof.
  revert r. induction l as [|c l IH]; intros r; [apply R_refl|].
  change (run_calls (c :: l) r) with (run_calls l (apply_call c r)).
  eapply R_trans; [apply R_call | apply IH].
Qed.

Lemma R_expat_parse_loop (steps : list parse_step) (r : GMLReader) :
  R r (snd (expat_parse_loop steps r)).
Proof.
  revert r. induction steps as [|s rest IH]; intros r; [apply R_refl|].
  cbn [expat_parse_loop].
  set (r1 := run_calls (calls s) r).
  set (r2 := match outcome s with
             | ParseOk => r1
             | _ => set_m_bStopParsing true (CPLError _ _ _ r1)
             end).
  set (r3 := if negb (m_bStopParsing r2)
             then set_m_bStopParsing (handler_stopped s) r2 else r2).
  assert (H3 : R r r3).
  { apply (R_trans _ r1); [apply R_run_calls|]. apply R_places.
    subst r3 r2. destruct (outcome s); simpl;
      repeat match goal with
             | |- context [if ?c then _ else _] => destruct c
             end; done. }
  destruct (negb _ && negb _ && _); [|done].
  eapply R_trans; [exact H3 | apply IH].
Qed.

Lemma R_xerces_parse_loop (steps : list parse_step) (r : GMLReader) :
  R r (snd (fst (xerces_parse_loop steps r))).
Proof.
  revert r. induction steps as [|s rest IH]; intros r.
  - simpl. destruct (bool_decide _ && negb _); apply R_refl.
  - cbn [xerces_parse_loop].
    destruct (bool_decide _ && negb _); [|apply R_refl].
    pose proof (R_run_calls (calls s) r) as H1.
    destruct (outcome s); simpl; try done.
    eapply R_trans; [exact H1 | apply IH].
Qed.

Lemma R_set_unread (rest : list parse_step) (r : GMLReader) :
  R r (set_unread rest r).
Proof. apply R_places. unfold set_unread. by destruct (fpGML r). Qed.

Lemma R_CleanupParser (r : GMLReader) : R r (CleanupParser r).
Proof.
  unfold CleanupParser.
  destruct (HAVE_XERCES && _ && _); [apply R_refl|].
  destruct (HAVE_EXPAT && _ && _); [apply R_refl|].
  set (r1 := Nat.iter (length (m_poState r)) PopState r).
  assert (H1 : R r r1).
  { subst r1. induction (length (m_poState r)) as [|n IH]; [apply R_refl|].
    simpl. eapply R_trans; [exact IH | apply (R_call HPopState)]. }
  set (r2 := if HAVE_XERCES
             then set_m_poCompleteFeature None
                    (set_m_GMLInputSource false (set_m_poSAXReader false r1))
             else r1).
  assert (H2 : R r r2).
  { subst r2. destruct HAVE_XERCES; [|done].
    eapply R_trans; [exact H1|].
    eapply R_trans; [|apply R_no_slot]. by apply R_places. }
  set (r3 := if HAVE_EXPAT
             then set_nFeatureTabIndex 0
                    (set_ppoFeatureTab [] (set_oParser false r2))
             else r2).
  assert (H3 : R r r3).
  { subst r3. destruct HAVE_EXPAT; [|done].
    eapply R_trans; [exact H2|].
    eapply R_trans; [apply (R_places r2 (set_oParser false r2)); done|].
    eapply R_trans; [apply R_no_tab|]. by apply R_places. }
  eapply R_trans; [exact H3|]. by apply R_places.
Qed.

Lemma R_SetupParser (r : GMLReader) : R r (snd (SetupParser r)).
Proof.
  unfold SetupParser.
  set (r2 := match fpGML _ with
             | Some fp => set_fpGML (Some (VSIFSeekL_start fp)) _
             | None => _
             end).
  assert (H2 : R r r2).
  { apply R_places. subst r2.
    destruct (fpGML r) as [fp|] eqn:Hfile; simpl; [by rewrite Hfile|].
    destruct (m_pszFilename r); simpl; [|by rewrite Hfile].
    by destruct (option_map _ _). }
  clearbody r2.
  set (after_expat := if HAVE_EXPAT && bUseExpatReader r2
                      then let '(b, r') := SetupParserExpat r2 in (Some b, r')
                      else (None, r2)).
  assert (H3 : R r (snd after_expat)).
  { subst after_expat. destruct (HAVE_EXPAT && bUseExpatReader r2); [|done].
    unfold SetupParserExpat. simpl. eapply R_trans; [exact H2|].
    destruct (oParser r2).
    - eapply R_trans; [apply R_CleanupParser | by apply R_places].
    - by apply R_places. }
  destruct after_expat as [bRet r3]. simpl in H3.
  set (after_xerces := if HAVE_XERCES && negb (bUseExpatReader r3)
                       then let '(b, r') := SetupParserXerces r3 in (Some b, r')
                       else (bRet, r3)).
  assert (H4 : R r (snd after_xerces)).
  { subst after_xerces.
    destruct (HAVE_XERCES && negb (bUseExpatReader r3)); [|done].
    eapply R_trans; [exact H3|]. unfold SetupParserXerces.
    destruct XercesInitializes; [|by apply R_places]. simpl.
    set (r1 := if m_poSAXReader r3 then CleanupParser r3 else r3).
    assert (H1 : R r3 r1).
    { subst r1. destruct (m_poSAXReader r3);
        [apply R_CleanupParser | apply R_refl]. }
    eapply R_trans; [exact H1|].
    destruct XercesCreatesReader; simpl; [|by apply R_places].
    apply R_places. by destruct (negb _ && bool_decide _). }
  destruct after_xerces as [bRet' r4]. simpl in H4.
  eapply R_trans; [exact H4|].
  destruct bRet' as [[|]|]; simpl; try by apply R_places.
  eapply R_trans; [|apply R_frame]. by apply R_places.
Qed.

(** The reader after a call of [NextFeature], and where the feature the
    call returns was just before. *)
Lemma R_NextFeatureExpat (r : GMLReader) :
  R r (snd (NextFeatureExpat r))
  /\ forall f, fst (NextFeatureExpat r) = Some f ->
               f ∈ ppoFeatureTab (snd (NextFeatureExpat r)).
Proof.
  unfold NextFeatureExpat.
  set (r1 := if negb (m_bReadStarted r)
             then set_m_bReadStarted true
                    (if negb (oParser r) then snd (SetupParser r) else r)
             else r).
  assert (H1 : R r r1).
  { subst r1. destruct (m_bReadStarted r); simpl; [apply R_refl|].
    destruct (oParser r); simpl; [by apply R_places|].
    eapply R_trans; [apply R_SetupParser | by apply R_places]. }
  clearbody r1.
  destruct (fpGML r1) as [fp|]; [|done].
  destruct (m_bStopParsing r1); [done|].
  destruct (_ <? _)%nat.
  { simpl. split; [eapply R_trans; [exact H1 | by apply R_places]|].
    intros f Hf. by apply list_elem_of_lookup_2 in Hf. }
  destruct (VSIFEofL fp); [done|].
  pose proof (R_expat_parse_loop (unread fp)
                (set_nFeatureTabIndex 0 (set_ppoFeatureTab [] r1))) as H3.
  destruct (expat_parse_loop _ _) as [rest r3]. simpl in H3.
  assert (H4 : R r (set_unread rest r3)).
  { eapply R_trans; [exact H1|].
    eapply R_trans; [apply R_no_tab|].
    eapply R_trans; [|apply R_set_unread].
    eapply R_trans; [|exact H3]. by apply R_places. }
  destruct (_ =? 0)%nat; [done|]. simpl.
  split; [eapply R_trans; [exact H4 | by apply R_places]|].
  intros f Hf. by apply list_elem_of_lookup_2 in Hf.
Qed.

Lemma R_NextFeatureXerces (r : GMLReader) :
  R r (snd (NextFeatureXerces r))
  /\ forall f, fst (NextFeatureXerces r) = Some f ->
       exists r6, R r r6 /\ m_poCompleteFeature r6 = Some f
                  /\ m_papoClass (snd (NextFeatureXerces r)) = m_papoClass r6.
Proof.
  assert (Htail : forall r4, R r r4 ->
            match
              (let '(rest, r5, exc) := xerces_parse_loop (unread_steps r4) r4 in
               match exc with
               | Some e => Raises e (set_unread rest r5)
               | None =>
                   Returns (m_poCompleteFeature (set_unread rest r5))
                     (set_m_poCompleteFeature None (set_unread rest r5))
               end)
            with
            | Returns poReturn r' =>
                R r r'
                /\ forall f, poReturn = Some f ->
                     exists r6, R r r6 /\ m_poCompleteFeature r6 = Some f
                                /\ m_papoClass r' = m_papoClass r6
            | Raises _ r' | Faults r' => R r r'
            end).
  { intros r4 H4.
    pose proof (R_xerces_parse_loop (unread_steps r4) r4) as H5.
    destruct (xerces_parse_loop _ _) as [[rest r5] exc]. simpl in H5.
    assert (H6 : R r (set_unread rest r5)).
    { eapply R_trans; [exact H4|].
      eapply R_trans; [exact H5 | apply R_set_unread]. }
    destruct exc; [done|]. split.
    - eapply R_trans; [exact H6 | apply R_no_slot].
    - intros f Hf. by exists (set_unread rest r5). }
  assert (Htry : match NextFeatureXerces_try r with
                 | Returns poReturn r' =>
                     R r r'
                     /\ forall f, poReturn = Some f ->
                          exists r6, R r r6 /\ m_poCompleteFeature r6 = Some f
                                     /\ m_papoClass r' = m_papoClass r6
                 | Raises _ r' | Faults r' => R r r'
                 end).
  { unfold NextFeatureXerces_try.
    destruct (m_bReadStarted r); simpl.
    { destruct (_ && _ && negb (m_poSAXReader r)); [apply R_refl|].
      apply (Htail r), R_refl. }
    set (r1 := if negb (m_poSAXReader r) then snd (SetupParser r) else r).
    assert (H1 : R r (set_m_bReadStarted true r1)).
    { subst r1. destruct (m_poSAXReader r); simpl; [by apply R_places|].
      eapply R_trans; [apply R_SetupParser | by apply R_places]. }
    clearbody r1. destruct (m_GMLInputSource r1); simpl; [|done].
    destruct (m_poSAXReader r1); simpl; [|done].
    unfold xerces_parse.
    destruct (unread_steps (set_m_bReadStarted true r1)) as [|s rest]; [done|].
    assert (H3 : R r (run_calls (calls s)
                        (set_unread rest (set_m_bReadStarted true r1)))).
    { eapply R_trans; [exact H1|].
      eapply R_trans; [apply R_set_unread | apply R_run_calls]. }
    destruct (outcome s); try done.
    destruct (_ && _ && negb _); [done | by apply (Htail _ H3)]. }
  unfold NextFeatureXerces.
  destruct (NextFeatureXerces_try r) as [poReturn r' | exc r' | r'];
    [done | | done].
  destruct exc; simpl;
    (split; [eapply R_trans; [exact Htry | by apply R_places] | done]).
Qed.

Lemma R_NextFeature (r : GMLReader) :
  R r (snd (NextFeature r))
  /\ forall f, fst (NextFeature r) = Some f ->
       exists r6, R r r6
                  /\ (f ∈ ppoFeatureTab r6 \/ m_poCompleteFeature r6 = Some f)
                  /\ m_papoClass (snd (NextFeature r)) = m_papoClass r6.
Proof.
  unfold NextFeature.
  destruct (HAVE_EXPAT && bUseExpatReader r).
  { destruct (R_NextFeatureExpat r) as [HR Hf]. split; [done|].
    intros f Hret. exists (snd (NextFeatureExpat r)). auto. }
  destruct (HAVE_XERCES && negb (bUseExpatReader r)).
  { destruct (R_NextFeatureXerces r) as [HR Hf]. split; [done|].
    intros f Hret. destruct (Hf f Hret) as (r6 & ? & ? & ?).
    exists r6. auto. }
  split; [by apply R_places | done].
Qed.

End ReadingRelates.

(** ** The class of a feature is in the registry *)

(** The class of the feature, which the model holds as a position in the
    registry and the program as a pointer, is a class of the registry. *)
Definition registered (r : GMLReader) (f : GMLFeature) : Prop :=
  m_poClass f < length (m_papoClass r).

(** Every feature the reader holds, in a frame of the stack, in the table
    or in the slot, has its class in the registry. *)
Definition features_registered (r : GMLReader) : Prop :=
  Forall (fun s => forall f, m_poFeature s = Some f -> registered r f)
         (m_poState r)
  /\ Forall (registered r) (ppoFeatureTab r)
  /\ (forall f, m_poCompleteFeature r = Some f -> registered r f).

(** Reading keeps the features registered, and takes no class out. *)
Definition keeps_registered (r r' : GMLReader) : Prop :=
  (features_registered r -> features_registered r')
  /\ length (m_papoClass r) <= length (m_papoClass r').

Section Registered.
Context {env : Environment} {names : FieldNameComparison}.

Lemma features_registered_grow (r r' : GMLReader) :
  length (m_papoClass r) <= length (m_papoClass r') ->
  m_poState r' = m_poState r -> ppoFeatureTab r' = ppoFeatureTab r ->
  m_poCompleteFeature r' = m_poCompleteFeature r ->
  features_registered r -> features_registered r'.
Proof.
  intros Hlen Hs Ht Hc (Hstack & Htab & Hslot).
  unfold features_registered, registered in *. rewrite Hs, Ht, Hc.
  split; [|split].
  - eapply Forall_impl; [exact Hstack|]. intros s H f Hf.
    specialize (H f Hf). lia.
  - eapply Forall_impl; [exact Htab|]. intros f H. simpl in H. lia.
  - intros f Hf. specialize (Hslot f Hf). lia.
Qed.

Lemma keeps_registered_call (c : handler_call) (r : GMLReader) :
  keeps_registered r (apply_call c r).
Proof.
  destruct c; simpl.
  - unfold PushFeature, GetClassCount.
    pose proof (first_index_le (fun c => EQUAL pszElement (GetElementName c))
                  (m_papoClass r)) as Hle.
    destruct (_ =? _)%Z eqn:Hcount.
    + apply Z.eqb_eq, Nat2Z.inj in Hcount. split.
      * intros H. unfold features_registered, PushState. simpl.
        assert (Hgrow : features_registered
                          (set_m_papoClass
                             (m_papoClass r ++ [new_GMLFeatureClass pszElement])
                             r)).
        { apply (features_registered_grow r); try done. simpl.
          rewrite length_app. lia. }
        destruct Hgrow as (Hstack & Htab & Hslot).
        split; [|done]. constructor; [|done].
        intros f [= <-]. unfold registered. simpl. rewrite length_app.
        simpl. lia.
      * simpl. rewrite length_app. lia.
    + apply Z.eqb_neq in Hcount. split; [|done].
      intros (Hstack & Htab & Hslot). unfold features_registered, PushState.
      simpl. split; [|done]. constructor; [|done].
      intros f [= <-]. unfold registered. simpl. lia.
  - unfold PopState. destruct (m_poState r) as [|top below] eqn:Hst;
      [done|].
    split.
    2:{ destruct (HAVE_XERCES && _ && _ && _); simpl;
          by repeat match goal with
                    | |- context [match ?o with Some _ => _ | None => _ end] =>
                        destruct o
                    | |- context [if ?c then _ else _] => destruct c
                    end. }
    intros (Hstack & Htab & Hslot). rewrite Hst in Hstack.
    apply Forall_cons in Hstack as [Htop Hbelow].
    unfold features_registered, registered in *.
    destruct (HAVE_XERCES && negb (bUseExpatReader r)
              && bool_decide (m_poFeature top <> None)
              && bool_decide (m_poCompleteFeature r = None)); simpl.
    + split; [done|]. split; [done|]. exact Htop.
    + destruct (m_poFeature top) as [f|] eqn:Hf; [|done].
      destruct (HAVE_EXPAT && bUseExpatReader r); simpl; [|done].
      split; [done|]. split; [|done].
      apply Forall_app. split; [done|]. constructor; [|done].
      by apply Htop.
  - unfold SetFeatureProperty.
    destruct (m_poState r) as [|top below] eqn:Hst; [done|].
    destruct (m_poFeature top) as [poFeature|] eqn:Hf; [|done].
    destruct (m_papoClass r !! m_poClass poFeature) as [poClass|]; [|done].
    assert (Hstore : forall i c',
              keeps_registered r
                (store_property i pszValue poFeature c' top below r)).
    { intros i c'. unfold store_property. split.
      - intros (Hstack & Htab & Hslot). rewrite Hst in Hstack.
        apply Forall_cons in Hstack as [Htop Hbelow].
        unfold features_registered, registered in *. simpl.
        rewrite length_insert. split; [|done].
        constructor; [|done]. intros f [= <-]. simpl. by apply Htop.
      - simpl. by rewrite length_insert. }
    destruct (_ =? _)%nat; [|apply Hstore].
    destruct (IsSchemaLocked poClass); [done|].
    destruct (AddProperty _ poClass) as [iAdded poClass'].
    destruct (iAdded <? 0)%Z; [done | apply Hstore].
  - unfold on_top_state.
    destruct (m_poState r) as [|top below] eqn:Hst; [done|].
    split; [|done]. intros (Hstack & Htab & Hslot). rewrite Hst in Hstack.
    apply Forall_cons in Hstack as [Htop Hbelow].
    unfold features_registered. simpl. split; [|done]. by constructor.
  - unfold on_top_state.
    destruct (m_poState r) as [|top below] eqn:Hst; [done|].
    split; [|done]. intros (Hstack & Htab & Hslot). rewrite Hst in Hstack.
    apply Forall_cons in Hstack as [Htop Hbelow].
    unfold features_registered. simpl. split; [|done]. by constructor.
  - unfold on_top_state.
    destruct (m_poState r) as [|top below] eqn:Hst; [done|].
    split; [|done]. intros (Hstack & Htab & Hslot). rewrite Hst in Hstack.
    apply Forall_cons in Hstack as [Htop Hbelow].
    unfold features_registered. simpl. split; [|done].
    constructor; [|done]. intros f Hf. simpl in Hf.
    destruct (m_poFeature top) as [g|]; [|done]. injection Hf as <-.
    by apply (Htop g).
  - unfold SetGlobalSRSName. destruct (m_pszGlobalSRSName r); [done|].
    by destruct (strncmp_eq _ "EPSG:" 5 && m_bConsiderEPSGAsURN r).
Qed.

End Registered.

Section ReturnedFeatures.
Context {env : Environment} {names : FieldNameComparison}.

Lemma keeps_registered_refl (r : GMLReader) : keeps_registered r r.
Proof. by split. Qed.

Lemma keeps_registered_trans (r1 r2 r3 : GMLReader) :
  keeps_registered r1 r2 -> keeps_registered r2 r3 -> keeps_registered r1 r3.
Proof. intros [H12 L12] [H23 L23]. split; [auto | lia]. Qed.

Lemma keeps_registered_places (r r' : GMLReader) :
  places r' = places r -> keeps_registered r r'.
Proof.
  unfold places. intros [= Hc Hs Ht Hf]. split; [|by rewrite Hc].
  apply features_registered_grow; try done. by rewrite Hc.
Qed.

Lemma NextFeature_keeps_registered (r : GMLReader) :
  keeps_registered r (snd (NextFeature r))
  /\ forall f, fst (NextFeature r) = Some f ->
               features_registered r -> registered (snd (NextFeature r)) f.
Proof.
  destruct (R_NextFeature keeps_registered keeps_registered_refl
              keeps_registered_trans keeps_registered_call
              keeps_registered_places) with (r := r) as [HR Hf].
  - intros r0. split; [|done]. intros (Hstack & _ & Hslot). by split.
  - intros r0. split; [|done]. intros (Hstack & Htab & _). by split.
  - intros r0. split; [|done]. intros (Hstack & Htab & Hslot).
    split; [|done]. by constructor.
  - split; [done|]. intros f Hret Hreg.
    destruct (Hf f Hret) as (r6 & [H6 _] & Hwhere & Hclasses).
    unfold registered. rewrite Hclasses.
    destruct (H6 Hreg) as (_ & Htab & Hslot).
    destruct Hwhere as [Hin | Hin]; [|by apply Hslot].
    rewrite Forall_forall in Htab. by apply Htab.
Qed.

(** X10.  Whatever the document, its errors included, and whichever the
    backend: every feature that calls of [NextFeature] return has its
    class in the registry of the reader, then and after any number of
    further calls, when the features the reader held before the calls had
    theirs; a reader as constructed holds none. *)
Theorem NextFeature_returns_registered (n : nat) (r : GMLReader) :
  features_registered r ->
  Forall (fun poFeature =>
            forall f, poFeature = Some f ->
                      is_Some (m_papoClass (snd (NextFeature_calls n r))
                                 !! m_poClass f))
         (fst (NextFeature_calls n r))
  /\ features_registered (snd (NextFeature_calls n r))
  /\ length (m_papoClass r)
     <= length (m_papoClass (snd (NextFeature_calls n r))).
Proof.
  revert r. induction n as [|n IH]; intros r Hreg; [by split|].
  destruct (NextFeature_keeps_registered r) as [[Hkeep Hlen] Hret].
  cbn [NextFeature_calls].
  destruct (NextFeature r) as [poFeature r']. simpl in Hkeep, Hlen, Hret.
  destruct (IH r' (Hkeep Hreg)) as (Hlater & Hreg' & Hlen').
  destruct (NextFeature_calls n r') as [later r'']. simpl in *.
  split; [|split; [done | lia]].
  constructor; [|done]. intros f ->. apply lookup_lt_is_Some.
  specialize (Hret f eq_refl Hreg). unfold registered in Hret. lia.
Qed.

Lemma new_GMLReader_registered (pszFilename : string)
                               (bExpat bInvert bURN : bool) :
  features_registered
    (SetSourceFile pszFilename (new_GMLReader bExpat bInvert bURN)).
Proof. by split; [|split]. Qed.

End ReturnedFeatures.

Lemma NextFeature_returns_registered_sample :
  let calls := @NextFeature_calls env_cut_short strcmp_names 3
                 (sample_reader env_cut_short true false false) in
  Forall (fun poFeature =>
            forall f, poFeature = Some f ->
                      is_Some (m_papoClass (snd calls) !! m_poClass f))
         (fst calls)
  /\ length (m_papoClass (snd calls)) = 1.
Proof.
  split; [|vm_compute; reflexivity].
  apply (@NextFeature_returns_registered env_cut_short strcmp_names 3
           (sample_reader env_cut_short true false false)).
  apply (@new_GMLReader_registered env_cut_short).
Defined.

(** ** The feature counts of a scan *)

Definition counts (r : GMLReader) : list Z :=
  m_nFeatureCount <$> m_papoClass r.

(** Reading adds classes that have no count yet, and leaves the counts of
    the others. *)
Definition counts_extend (r r' : GMLReader) : Prop :=
  exists k, counts r' = counts r ++ replicate k (-1)%Z.

Section CountsOfReading.
Context {env : Environment} {names : FieldNameComparison}.

Lemma counts_extend_refl (r : GMLReader) : counts_extend r r.
Proof. exists 0. by rewrite app_nil_r. Qed.

Lemma counts_extend_trans (r1 r2 r3 : GMLReader) :
  counts_extend r1 r2 -> counts_extend r2 r3 -> counts_extend r1 r3.
Proof.
  intros [k Hk] [j Hj]. exists (k + j).
  by rewrite Hj, Hk, <- app_assoc, replicate_add.
Qed.

Lemma counts_extend_classes (r r' : GMLReader) :
  m_papoClass r' = m_papoClass r -> counts_extend r r'.
Proof. intros H. exists 0. unfold counts. by rewrite H, app_nil_r. Qed.

Lemma counts_insert (l : list GMLFeatureClass) (i : nat)
                    (c c' : GMLFeatureClass) :
  l !! i = Some c -> m_nFeatureCount c' = m_nFeatureCount c ->
  m_nFeatureCount <$> <[i := c']> l = m_nFeatureCount <$> l.
Proof.
  intros Hi Hc. rewrite list_fmap_insert, Hc.
  apply list_insert_id. by rewrite list_lookup_fmap, Hi.
Qed.

Lemma counts_extend_call (c : handler_call) (r : GMLReader) :
  counts_extend r (apply_call c r).
Proof.
  destruct c; simpl.
  - unfold PushFeature. destruct (_ =? _)%Z; simpl.
    + exists 1. unfold counts. simpl. by rewrite fmap_app.
    + by apply counts_extend_classes.
  - apply counts_extend_classes.
    by destruct (settings_options _ _ (PopState_settings r)) as [_ ->].
  - unfold SetFeatureProperty.
    destruct (m_poState r) as [|top below]; [apply counts_extend_refl|].
    destruct (m_poFeature top) as [poFeature|]; [|apply counts_extend_refl].
    destruct (m_papoClass r !! m_poClass poFeature) as [poClass|] eqn:Hc;
      [|apply counts_extend_refl].
    assert (Hstore : forall i c',
              m_nFeatureCount c' = m_nFeatureCount poClass ->
              counts_extend r
                (store_property i pszValue poFeature c' top below r)).
    { intros i c' Hcount. exists 0. rewrite app_nil_r.
      unfold counts, store_property. simpl.
      apply (counts_insert _ _ poClass); [done|]. rewrite <- Hcount.
      destruct (negb (IsSchemaLocked c')); [|done].
      by destruct (m_papoProperty c' !! i). }
    destruct (_ =? _)%nat; [|by apply Hstore].
    destruct (IsSchemaLocked poClass); [by apply counts_extend_classes|].
    unfold AddProperty.
    destruct (GetPropertyByName poClass _); simpl;
      [apply counts_extend_refl|].
    destruct (_ <? 0)%Z; [apply counts_extend_refl | by apply Hstore].
  - apply counts_extend_classes. unfold on_top_state.
    by destruct (m_poState r).
  - apply counts_extend_classes. unfold on_top_state.
    by destruct (m_poState r).
  - apply counts_extend_classes. unfold on_top_state.
    by destruct (m_poState r).
  - apply counts_extend_classes. unfold SetGlobalSRSName.
    destruct (m_pszGlobalSRSName r); [done|].
    by destruct (strncmp_eq _ "EPSG:" 5 && m_bConsiderEPSGAsURN r).
Qed.

Lemma NextFeature_counts_extend (r : GMLReader) :
  counts_extend r (snd (NextFeature r)).
Proof.
  apply (R_NextFeature counts_extend counts_extend_refl counts_extend_trans
           counts_extend_call).
  - unfold places. intros r0 r' [= Hc _ _ _]. by apply counts_extend_classes.
  - intros r0. by apply counts_extend_classes.
  - intros r0. by apply counts_extend_classes.
  - intros r0. by apply counts_extend_classes.
Qed.

End CountsOfReading.

(** The features the scan loop gets from [NextFeature], in order. *)
Fixpoint prescan_trace {env : Environment} {names : FieldNameComparison}
    (turns : nat) (bGetExtents : bool) (r : GMLReader) : list GMLFeature :=
  match turns with
  | 0 => []
  | S turns' =>
      match NextFeature r with
      | (Some poFeature, r') =>
          poFeature
          :: prescan_trace turns' bGetExtents
               (prescan_feature bGetExtents poFeature r')
      | (None, _) => []
      end
  end.

(** The features [PrescanForSchema] reads. *)
Definition prescan_features {env : Environment} {names : FieldNameComparison}
    (bGetExtents : bool) (r : GMLReader) : list GMLFeature :=
  match m_pszFilename r with
  | None => []
  | Some _ =>
      let r1 := ClearClasses (SetClassListLocked false r) in
      let '(ok, r2) := SetupParser r1 in
      if negb ok then []
      else
        let r3 := set_m_bCanUseGlobalSRSName true r2 in
        prescan_trace (S (pending_weight r3)) bGetExtents r3
  end.

(** What [GetFeatureCount] is to be for the class at position [i] when the
    features [fs] have been read: their number in that class, and -1, not
    0, when there is none. *)
Definition tally (fs : list GMLFeature) (i : nat) : Z :=
  match length (filter (fun f => m_poClass f = i) fs) with
  | 0 => (-1)%Z
  | S n => Z.of_nat (S n)
  end.

(** The reader holds no feature. *)
Definition no_features (r : GMLReader) : Prop :=
  Forall (fun s => m_poFeature s = None) (m_poState r)
  /\ ppoFeatureTab r = [] /\ m_poCompleteFeature r = None.

Section CountsOfScan.
Context {env : Environment} {names : FieldNameComparison}.

Lemma tally_snoc (fs : list GMLFeature) (f : GMLFeature) (i : nat) :
  tally (fs ++ [f]) i
  = if decide (m_poClass f = i)
    then (if (tally fs i =? -1)%Z then 1 else tally fs i + 1)%Z
    else tally fs i.
Proof.
  unfold tally. rewrite filter_app, length_app.
  destruct (decide (m_poClass f = i)) as [Hi|Hi].
  - rewrite filter_cons_True by done. simpl.
    destruct (length _) as [|n]; simpl; [done|].
    replace (S n + 1) with (S (S n)) by lia.
    destruct (Z.eqb_spec (Z.pos (Pos.of_succ_nat n)) (-1)); lia.
  - rewrite filter_cons_False by done. simpl. by rewrite Nat.add_0_r.
Qed.

Lemma tally_none (r : GMLReader) (fs : list GMLFeature) (i : nat) :
  Forall (registered r) fs -> length (m_papoClass r) <= i ->
  tally fs i = (-1)%Z.
Proof.
  intros Hfs Hi. unfold tally.
  replace (filter (fun f => m_poClass f = i) fs) with (@nil GMLFeature);
    [done|].
  symmetry. induction Hfs as [|f fs Hf Hfs IH]; [done|].
  unfold registered in Hf. rewrite filter_cons_False by lia. exact IH.
Qed.

(** What the scan does to the count of the class of a feature. *)
Lemma prescan_feature_counts (bGetExtents : bool) (f : GMLFeature)
                             (r : GMLReader) (c : GMLFeatureClass) :
  m_papoClass r !! m_poClass f = Some c ->
  counts (prescan_feature bGetExtents f r)
  = <[m_poClass f := (if (m_nFeatureCount c =? -1)%Z then 1
                      else m_nFeatureCount c + 1)%Z]> (counts r)
  /\ places (prescan_feature bGetExtents f r)
     = (<[m_poClass f := default c
                           (m_papoClass (prescan_feature bGetExtents f r)
                              !! m_poClass f)]> (m_papoClass r),
        m_poState r, ppoFeatureTab r, m_poCompleteFeature r).
Proof.
  intros Hc. unfold prescan_feature. rewrite Hc.
  set (counted := if (m_nFeatureCount c =? -1)%Z
                  then SetFeatureCount 1 c
                  else SetFeatureCount (m_nFeatureCount c + 1) c).
  assert (Hcounted : m_nFeatureCount counted
                     = (if (m_nFeatureCount c =? -1)%Z then 1
                        else m_nFeatureCount c + 1)%Z).
  { subst counted. by destruct (_ =? _)%Z. }
  clearbody counted.
  assert (Hlt : m_poClass f < length (m_papoClass r)).
  { by apply lookup_lt_is_Some_1. }
  assert (Hany : forall (c' : GMLFeatureClass) (b : bool),
            m_nFeatureCount c' = m_nFeatureCount counted ->
            counts (set_m_bCanUseGlobalSRSName b
                      (set_m_papoClass (<[m_poClass f := c']> (m_papoClass r))
                                       r))
            = <[m_poClass f := (if (m_nFeatureCount c =? -1)%Z then 1
                                else m_nFeatureCount c + 1)%Z]> (counts r)
            /\ places (set_m_bCanUseGlobalSRSName b
                         (set_m_papoClass
                            (<[m_poClass f := c']> (m_papoClass r)) r))
               = (<[m_poClass f :=
                      default c
                        (m_papoClass
                           (set_m_bCanUseGlobalSRSName b
                              (set_m_papoClass
                                 (<[m_poClass f := c']> (m_papoClass r)) r))
                           !! m_poClass f)]> (m_papoClass r),
                  m_poState r, ppoFeatureTab r, m_poCompleteFeature r)).
  { intros c' b Hcount. unfold counts, places. simpl.
    rewrite list_fmap_insert, Hcount, Hcounted.
    by rewrite list_lookup_insert_eq. }
  destruct bGetExtents; [|by apply Hany].
  destruct (GML_BuildOGRGeometryFromList _ _ _) as [poGeometry|];
    [|by apply Hany].
  apply Hany. destruct (negb (IsEmpty poGeometry)); [|done].
  by destruct (m_oExtents _) as [[[[? ?] ?] ?]|].
Qed.

End CountsOfScan.

Section CountsOfScanLoop.
Context {env : Environment} {names : FieldNameComparison}.

(** The counts agree with the features read so far. *)
Definition counts_agree (r : GMLReader) (fs : list GMLFeature) : Prop :=
  forall i, i < length (m_papoClass r) -> counts r !! i = Some (tally fs i).

Lemma counts_agree_extend (r r' : GMLReader) (fs : list GMLFeature) :
  counts_extend r r' -> Forall (registered r) fs ->
  counts_agree r fs -> counts_agree r' fs.
Proof.
  intros [k Hk] Hfs Hagree i Hi. rewrite Hk.
  assert (Hlen : length (counts r) = length (m_papoClass r)).
  { unfold counts. by rewrite length_fmap. }
  destruct (decide (i < length (m_papoClass r))) as [Hold|Hnew].
  - rewrite lookup_app_l by lia. by apply Hagree.
  - rewrite lookup_app_r by lia.
    rewrite (tally_none r fs i Hfs) by lia.
    apply lookup_replicate_2.
    assert (Hlen' : length (counts r') = length (m_papoClass r')).
    { unfold counts. by rewrite length_fmap. }
    rewrite Hk, length_app, length_replicate in Hlen'. lia.
Qed.

Lemma prescan_loop_counts (turns : nat) (bGetExtents : bool)
                          (r : GMLReader) (fs : list GMLFeature) :
  features_registered r -> Forall (registered r) fs -> counts_agree r fs ->
  counts_agree (prescan_loop turns bGetExtents r)
               (fs ++ prescan_trace turns bGetExtents r).
Proof.
  revert r fs. induction turns as [|turns IH]; intros r fs Hreg Hfs Hagree.
  { simpl. by rewrite app_nil_r. }
  cbn [prescan_loop prescan_trace].
  destruct (NextFeature_keeps_registered r) as [[Hkeep Hlen] Hret].
  pose proof (NextFeature_counts_extend r) as Hext.
  destruct (NextFeature r) as [[f|] r1]; simpl in Hkeep, Hlen, Hret, Hext.
  2:{ rewrite app_nil_r. by apply (counts_agree_extend r). }
  specialize (Hret f eq_refl Hreg). specialize (Hkeep Hreg).
  pose proof (counts_agree_extend r r1 fs Hext Hfs Hagree) as Hagree1.
  destruct (lookup_lt_is_Some_2 _ _ Hret) as [c Hc].
  destruct (prescan_feature_counts bGetExtents f r1 c Hc) as [Hcounts Hplaces].
  set (r2 := prescan_feature bGetExtents f r1) in *.
  unfold places in Hplaces. injection Hplaces. intros Hslot2 Htab2 Hst2 Hcl2.
  assert (Hlen2 : length (m_papoClass r2) = length (m_papoClass r1)).
  { by rewrite Hcl2, length_insert. }
  assert (Hreg2 : features_registered r2).
  { apply (features_registered_grow r1); try done. lia. }
  assert (Hfs2 : Forall (registered r2) (fs ++ [f])).
  { apply Forall_app. split.
    - eapply Forall_impl; [exact Hfs|]. unfold registered. intros g Hg.
      simpl in Hg. lia.
    - constructor; [|done]. unfold registered in *. lia. }
  replace (fs ++ f :: prescan_trace turns bGetExtents r2)
    with ((fs ++ [f]) ++ prescan_trace turns bGetExtents r2)
    by by rewrite <- app_assoc.
  apply IH; try done.
  intros i Hi. rewrite Hcounts, tally_snoc.
  assert (Hcount1 : counts r1 !! m_poClass f = Some (m_nFeatureCount c)).
  { unfold counts. by rewrite list_lookup_fmap, Hc. }
  destruct (decide (m_poClass f = i)) as [<-|Hne].
  - rewrite list_lookup_insert_eq
      by (unfold counts; rewrite length_fmap; exact Hret).
    rewrite (Hagree1 _ Hret) in Hcount1. by injection Hcount1 as ->.
  - rewrite list_lookup_insert_ne by done. apply Hagree1. lia.
Qed.

Lemma fix_axis_order_count (r : GMLReader) (c : GMLFeatureClass) :
  m_nFeatureCount (fix_axis_order r c) = m_nFeatureCount c.
Proof.
  unfold fix_axis_order.
  destruct (_ && _); [|done].
  destruct (SetFromUserInput _) as [oSRS|]; [|done].
  destruct (HasGEOGCS oSRS); [|done].
  destruct (exportToWkt _); destruct (m_bCanUseGlobalSRSName r); simpl;
    try done.
  - by destruct (m_oExtents c) as [[[[? ?] ?] ?]|].
  - by destruct (m_oExtents c) as [[[[? ?] ?] ?]|].
Qed.

(** X11.  After [PrescanForSchema] on a reader that has a file name and
    held no feature, the feature count of every class of the registry is
    the number of the features of that class that the scan got from
    [NextFeature], and -1 for a class of which it got none (a class whose
    features were all cut short or lost). *)
Theorem PrescanForSchema_feature_counts
    (bGetExtents : bool) (r : GMLReader) (i : nat) (c : GMLFeatureClass) :
  no_features r -> m_pszFilename r <> None ->
  m_papoClass (snd (PrescanForSchema bGetExtents r)) !! i = Some c ->
  m_nFeatureCount c = tally (prescan_features bGetExtents r) i.
Proof.
  intros (Hstack & Htab & Hslot) Hname.
  unfold PrescanForSchema, prescan_scan, prescan_features.
  destruct (m_pszFilename r) as [name|]; [|done].
  set (r1 := ClearClasses (SetClassListLocked false r)).
  assert (Hreg1 : features_registered r1).
  { unfold features_registered. simpl. rewrite Htab, Hslot.
    split; [|by split].
    eapply Forall_impl; [exact Hstack|]. intros s Hs f Hf. congruence. }
  destruct (R_SetupParser keeps_registered keeps_registered_refl
              keeps_registered_trans keeps_registered_call
              keeps_registered_places) with (r := r1) as [Hkeep _].
  { intros r0. split; [|done]. intros (? & _ & ?). by split. }
  { intros r0. split; [|done]. intros (? & ? & _). by split. }
  { intros r0. split; [|done]. intros (? & ? & ?).
    split; [|done]. by constructor. }
  pose proof (SetupParser_settings r1) as Hset.
  destruct (SetupParser r1) as [ok r2]. simpl in Hkeep, Hset.
  apply settings_fields in Hset as (_ & Hclasses & _).
  destruct ok; [|simpl; by rewrite Hclasses].
  change (negb true) with false. cbv iota zeta.
  set (r3 := set_m_bCanUseGlobalSRSName true r2).
  assert (Hagree : counts_agree (prescan_loop (S (pending_weight r3))
                                              bGetExtents r3)
                     ([] ++ prescan_trace (S (pending_weight r3))
                                          bGetExtents r3)).
  { apply prescan_loop_counts; [by apply Hkeep | done |].
    intros j Hj. simpl in Hj. rewrite Hclasses in Hj. simpl in Hj. lia. }
  set (r4 := prescan_loop (S (pending_weight r3)) bGetExtents r3) in *.
  cbn [snd].
  destruct (settings_options _ _
              (CleanupParser_settings
                 (set_m_papoClass (fix_axis_order r4 <$> m_papoClass r4) r4)))
    as [_ ->].
  change (m_papoClass (set_m_papoClass (fix_axis_order r4 <$> m_papoClass r4)
                                       r4))
    with (fix_axis_order r4 <$> m_papoClass r4).
  rewrite list_lookup_fmap.
  destruct (m_papoClass r4 !! i) as [c4|] eqn:Hc4; [|done].
  intros [= <-]. rewrite fix_axis_order_count.
  assert (Hi : i < length (m_papoClass r4)) by by apply lookup_lt_is_Some_1.
  specialize (Hagree i Hi). unfold counts in Hagree.
  rewrite list_lookup_fmap, Hc4 in Hagree. by injection Hagree.
Qed.

End CountsOfScanLoop.

Lemma PrescanForSchema_feature_counts_sample :
  let r := sample_reader env_three_features true false false in
  let scanned := snd (@PrescanForSchema env_three_features strcmp_names
                        false r) in
  (m_nFeatureCount <$> m_papoClass scanned !! 0)
  = Some (tally (@prescan_features env_three_features strcmp_names false r) 0)
  /\ (m_nFeatureCount <$> m_papoClass scanned) = [2%Z; 1%Z]
  /\ (m_pszFID <$> @prescan_features env_three_features strcmp_names false r)
     = [Some "r1"; Some "r2"; Some "l1"].
Proof.
  split; [|split; vm_compute; reflexivity].
  cbv zeta.
  destruct (m_papoClass
              (snd (@PrescanForSchema env_three_features strcmp_names false
                      (sample_reader env_three_features true false false)))
              !! 0) as [c|] eqn:Hc; [|vm_compute in Hc; discriminate].
  simpl. f_equal.
  apply (@PrescanForSchema_feature_counts env_three_features strcmp_names
           false (sample_reader env_three_features true false false) 0 c).
  - split; [constructor | split; reflexivity].
  - discriminate.
  - exact Hc.
Defined.

(** ** What a scan finds for a class *)

(** The geometry the loop body of [PrescanForSchema] builds for a feature:
    none when extents are not asked for. *)
Definition built_geometry {env : Environment}
    (bGetExtents : bool) (r : GMLReader) (f : GMLFeature)
  : option OGRGeometry :=
  if bGetExtents
  then GML_BuildOGRGeometryFromList (m_papsGeometry f)
         (m_bInvertAxisOrderIfLatLong r) (m_bConsiderEPSGAsURN r)
  else None.

(** A geometry is built for the feature and it names an SRS: the case in
    which the loop body clears [m_bCanUseGlobalSRSName]. *)
Definition carries_srs {env : Environment}
    (bGetExtents : bool) (r : GMLReader) (f : GMLFeature) : bool :=
  match built_geometry bGetExtents r f with
  | Some _ =>
      bool_decide (GML_ExtractSrsNameFromGeometry (m_papsGeometry f)
                     (m_bConsiderEPSGAsURN r) <> None)
  | None => false
  end.

(** What the scan reads and writes of a class: the feature count, the
    geometry type, the extents, the SRS name with its mark. *)
Record class_scan := mkClassScan {
  scan_count : Z;
  scan_type : Z;
  scan_extents : option extents;
  scan_srs : srs_state
}.

Definition scan_of (c : GMLFeatureClass) : class_scan :=
  mkClassScan (m_nFeatureCount c) (m_nGeometryType c) (m_oExtents c)
              (m_pszSRSName c, m_bSRSNameConsistent c).

(** These values for a class as [PushFeature] adds it. *)
Definition scan_start : class_scan :=
  mkClassScan (-1) wkbUnknown None (None, true).

(** What one turn of the loop makes of them, for a feature of the class:
    the count goes up, and the rest is touched only when a geometry is
    built for the feature. *)
Definition scan_step {env : Environment}
    (bGetExtents : bool) (r : GMLReader) (st : class_scan) (f : GMLFeature)
  : class_scan :=
  let n := if (scan_count st =? -1)%Z then 1%Z else (scan_count st + 1)%Z in
  match built_geometry bGetExtents r f with
  | None => mkClassScan n (scan_type st) (scan_extents st) (scan_srs st)
  | Some poGeometry =>
      let pszSRSName :=
        GML_ExtractSrsNameFromGeometry (m_papsGeometry f)
                                       (m_bConsiderEPSGAsURN r) in
      let eGType :=
        if (n =? 1)%Z && (scan_type st =? wkbUnknown)%Z
        then wkbNone else scan_type st in
      let sEnvelope := getEnvelope poGeometry in
      mkClassScan n
        (OGRMergeGeometryTypes eGType (getGeometryType poGeometry))
        (if negb (IsEmpty poGeometry) then
           match scan_extents st with
           | Some (dfXMin, dfXMax, dfYMin, dfYMax) =>
               Some (MIN dfXMin (MinX sEnvelope), MAX dfXMax (MaxX sEnvelope),
                     MIN dfYMin (MinY sEnvelope), MAX dfYMax (MaxY sEnvelope))
           | None =>
               Some (MinX sEnvelope, MaxX sEnvelope,
                     MinY sEnvelope, MaxY sEnvelope)
           end
         else scan_extents st)
        (MergeSRSName (scan_srs st) pszSRSName)
  end.

(** The features of the class at position [i] among [fs], in order, and
    what the turns of the loop for them make of a new class. *)
Definition of_class (i : nat) (fs : list GMLFeature) : list GMLFeature :=
  filter (fun f => m_poClass f = i) fs.

Definition scan_fold {env : Environment}
    (bGetExtents : bool) (r : GMLReader) (fs : list GMLFeature) : class_scan :=
  foldl (scan_step bGetExtents r) scan_start fs.

(** The options and the mark of the global SRS, which reading leaves. *)
Definition scan_frame (r : GMLReader) :=
  (options r, m_bCanUseGlobalSRSName r).

Definition scans (r : GMLReader) : list class_scan :=
  scan_of <$> m_papoClass r.

(** Reading adds new classes and leaves these values of the others. *)
Definition scans_extend (r r' : GMLReader) : Prop :=
  exists k, scans r' = scans r ++ replicate k scan_start.

Section ScanFrame.
Context {env : Environment} {names : FieldNameComparison}.

Lemma loop_frame_scan_frame (r r' : GMLReader) :
  loop_frame r' = loop_frame r -> scan_frame r' = scan_frame r.
Proof.
  unfold loop_frame, scan_frame. intros H. injection H. intros. congruence.
Qed.

Lemma settings_scan_frame (r r' : GMLReader) :
  settings r' = settings r -> scan_frame r' = scan_frame r.
Proof.
  intros H. destruct (settings_options _ _ H) as [Ho _].
  apply settings_fields in H as (_ & _ & _ & _ & _ & _ & Hflag).
  unfold scan_frame. congruence.
Qed.

Lemma set_unread_scan_frame (rest : list parse_step) (r : GMLReader) :
  scan_frame (set_unread rest r) = scan_frame r.
Proof. unfold set_unread. by destruct (fpGML r). Qed.

Lemma NextFeatureExpat_scan_frame (r : GMLReader) :
  scan_frame (snd (NextFeatureExpat r)) = scan_frame r.
Proof.
  unfold NextFeatureExpat.
  set (r1 := if negb (m_bReadStarted r)
             then set_m_bReadStarted true
                    (if negb (oParser r) then snd (SetupParser r) else r)
             else r).
  assert (H1 : scan_frame r1 = scan_frame r).
  { subst r1. destruct (m_bReadStarted r); simpl; [done|].
    destruct (oParser r); simpl; [done|].
    pose proof (settings_scan_frame _ _ (SetupParser_settings r)) as Hs.
    unfold scan_frame, options in *. simpl. exact Hs. }
  clearbody r1.
  destruct (fpGML r1) as [fp|]; [|done].
  destruct (m_bStopParsing r1); [done|].
  destruct (_ <? _)%nat; [done|].
  destruct (VSIFEofL fp); [done|].
  pose proof (expat_parse_loop_weight (unread fp)
                (set_nFeatureTabIndex 0 (set_ppoFeatureTab [] r1)))
    as [_ Hframe].
  destruct (expat_parse_loop _ _) as [rest r3]. simpl in Hframe.
  apply loop_frame_scan_frame in Hframe.
  pose proof (set_unread_scan_frame rest r3) as H4.
  assert (H5 : scan_frame (set_unread rest r3) = scan_frame r).
  { rewrite H4, Hframe. exact H1. }
  by destruct (_ =? 0)%nat.
Qed.

Lemma NextFeatureXerces_scan_frame (r : GMLReader) :
  scan_frame (snd (NextFeatureXerces r)) = scan_frame r.
Proof.
  assert (Htail : forall r4,
            match
              (let '(rest, r5, exc) := xerces_parse_loop (unread_steps r4) r4 in
               match exc with
               | Some e => Raises e (set_unread rest r5)
               | None =>
                   Returns (m_poCompleteFeature (set_unread rest r5))
                     (set_m_poCompleteFeature None (set_unread rest r5))
               end)
            with
            | Returns _ r' | Raises _ r' | Faults r' =>
                scan_frame r' = scan_frame r4
            end).
  { intros r4.
    pose proof (xerces_parse_loop_weight (unread_steps r4) r4) as [_ Hf].
    apply loop_frame_scan_frame in Hf.
    destruct (xerces_parse_loop _ _) as [[rest r5] exc]. simpl in Hf.
    pose proof (set_unread_scan_frame rest r5) as H6.
    destruct exc; [congruence|].
    unfold scan_frame, options in *. simpl. congruence. }
  assert (Htry : match NextFeatureXerces_try r with
                 | Returns _ r' | Raises _ r' | Faults r' =>
                     scan_frame r' = scan_frame r
                 end).
  { unfold NextFeatureXerces_try.
    destruct (m_bReadStarted r); simpl.
    { destruct (_ && _ && negb (m_poSAXReader r)); [done|].
      by apply (Htail r). }
    set (r1 := if negb (m_poSAXReader r) then snd (SetupParser r) else r).
    assert (H1 : scan_frame r1 = scan_frame r).
    { subst r1. destruct (m_poSAXReader r); simpl; [done|].
      apply settings_scan_frame, SetupParser_settings. }
    clearbody r1.
    assert (H2 : scan_frame (set_m_bReadStarted true r1) = scan_frame r).
    { rewrite <- H1. done. }
    destruct (m_GMLInputSource r1); simpl; [|done].
    destruct (m_poSAXReader r1); simpl; [|done].
    unfold xerces_parse.
    destruct (unread_steps (set_m_bReadStarted true r1)) as [|s rest]; [done|].
    set (r3 := run_calls (calls s)
                 (set_unread rest (set_m_bReadStarted true r1))).
    assert (H3 : scan_frame r3 = scan_frame r).
    { subst r3.
      rewrite (loop_frame_scan_frame _ _ (run_calls_loop_frame _ _)).
      by rewrite set_unread_scan_frame. }
    destruct (outcome s); try done.
    destruct (_ && _ && negb (m_poSAXReader r3)); [done|].
    specialize (Htail r3).
    destruct (let '(rest0, r5, exc) := xerces_parse_loop (unread_steps r3) r3 in _);
      congruence. }
  unfold NextFeatureXerces.
  destruct (NextFeatureXerces_try r) as [poReturn r' | exc r' | r'];
    [done | | done].
  by destruct exc.
Qed.

Lemma NextFeature_scan_frame (r : GMLReader) :
  scan_frame (snd (NextFeature r)) = scan_frame r.
Proof.
  unfold NextFeature.
  destruct (HAVE_EXPAT && bUseExpatReader r);
    [apply NextFeatureExpat_scan_frame|].
  destruct (HAVE_XERCES && negb (bUseExpatReader r));
    [apply NextFeatureXerces_scan_frame | done].
Qed.

Lemma scan_frame_fields (r r' : GMLReader) :
  scan_frame r' = scan_frame r ->
  m_bInvertAxisOrderIfLatLong r' = m_bInvertAxisOrderIfLatLong r
  /\ m_bConsiderEPSGAsURN r' = m_bConsiderEPSGAsURN r
  /\ m_bCanUseGlobalSRSName r' = m_bCanUseGlobalSRSName r.
Proof.
  unfold scan_frame, options. intros H. injection H. by intros.
Qed.

End ScanFrame.

Section ScansOfReading.
Context {env : Environment} {names : FieldNameComparison}.

Lemma scans_extend_refl (r : GMLReader) : scans_extend r r.
Proof. exists 0. by rewrite app_nil_r. Qed.

Lemma scans_extend_trans (r1 r2 r3 : GMLReader) :
  scans_extend r1 r2 -> scans_extend r2 r3 -> scans_extend r1 r3.
Proof.
  intros [k Hk] [j Hj]. exists (k + j).
  by rewrite Hj, Hk, <- app_assoc, replicate_add.
Qed.

Lemma scans_extend_classes (r r' : GMLReader) :
  m_papoClass r' = m_papoClass r -> scans_extend r r'.
Proof. intros H. exists 0. unfold scans. by rewrite H, app_nil_r. Qed.

Lemma scans_insert (l : list GMLFeatureClass) (i : nat)
                   (c c' : GMLFeatureClass) :
  l !! i = Some c -> scan_of c' = scan_of c ->
  scan_of <$> <[i := c']> l = scan_of <$> l.
Proof.
  intros Hi Hc. rewrite list_fmap_insert, Hc.
  apply list_insert_id. by rewrite list_lookup_fmap, Hi.
Qed.

Lemma scans_extend_call (c : handler_call) (r : GMLReader) :
  scans_extend r (apply_call c r).
Proof.
  destruct c; simpl.
  - unfold PushFeature. destruct (_ =? _)%Z; simpl.
    + exists 1. unfold scans. simpl. by rewrite fmap_app.
    + by apply scans_extend_classes.
  - apply scans_extend_classes.
    by destruct (settings_options _ _ (PopState_settings r)) as [_ ->].
  - unfold SetFeatureProperty.
    destruct (m_poState r) as [|top below]; [apply scans_extend_refl|].
    destruct (m_poFeature top) as [poFeature|]; [|apply scans_extend_refl].
    destruct (m_papoClass r !! m_poClass poFeature) as [poClass|] eqn:Hc;
      [|apply scans_extend_refl].
    assert (Hstore : forall i c',
              scan_of c' = scan_of poClass ->
              scans_extend r
                (store_property i pszValue poFeature c' top below r)).
    { intros i c' Hscan. exists 0. rewrite app_nil_r.
      unfold scans, store_property. simpl.
      apply (scans_insert _ _ poClass); [done|]. rewrite <- Hscan.
      destruct (negb (IsSchemaLocked c')); [|done].
      by destruct (m_papoProperty c' !! i). }
    destruct (_ =? _)%nat; [|by apply Hstore].
    destruct (IsSchemaLocked poClass); [by apply scans_extend_classes|].
    unfold AddProperty.
    destruct (GetPropertyByName poClass _); simpl;
      [apply scans_extend_refl|].
    destruct (_ <? 0)%Z; [apply scans_extend_refl | by apply Hstore].
  - apply scans_extend_classes. unfold on_top_state.
    by destruct (m_poState r).
  - apply scans_extend_classes. unfold on_top_state.
    by destruct (m_poState r).
  - apply scans_extend_classes. unfold on_top_state.
    by destruct (m_poState r).
  - apply scans_extend_classes. unfold SetGlobalSRSName.
    destruct (m_pszGlobalSRSName r); [done|].
    by destruct (strncmp_eq _ "EPSG:" 5 && m_bConsiderEPSGAsURN r).
Qed.

Lemma NextFeature_scans_extend (r : GMLReader) :
  scans_extend r (snd (NextFeature r)).
Proof.
  apply (R_NextFeature scans_extend scans_extend_refl scans_extend_trans
           scans_extend_call).
  - unfold places. intros r0 r' [= Hc _ _ _]. by apply scans_extend_classes.
  - intros r0. by apply scans_extend_classes.
  - intros r0. by apply scans_extend_classes.
  - intros r0. by apply scans_extend_classes.
Qed.

End ScansOfReading.

Section ScanOfLoop.
Context {env : Environment} {names : FieldNameComparison}.

(** The scan looks at the features with two options of the reader. *)
Lemma built_geometry_options (bGetExtents : bool) (r r' : GMLReader)
                             (f : GMLFeature) :
  m_bInvertAxisOrderIfLatLong r' = m_bInvertAxisOrderIfLatLong r ->
  m_bConsiderEPSGAsURN r' = m_bConsiderEPSGAsURN r ->
  built_geometry bGetExtents r' f = built_geometry bGetExtents r f
  /\ carries_srs bGetExtents r' f = carries_srs bGetExtents r f
  /\ forall st, scan_step bGetExtents r' st f = scan_step bGetExtents r st f.
Proof.
  intros Hi Hu. unfold carries_srs, scan_step, built_geometry.
  by rewrite Hi, Hu.
Qed.

Lemma scan_fold_options (bGetExtents : bool) (r r' : GMLReader)
                        (fs : list GMLFeature) :
  m_bInvertAxisOrderIfLatLong r' = m_bInvertAxisOrderIfLatLong r ->
  m_bConsiderEPSGAsURN r' = m_bConsiderEPSGAsURN r ->
  scan_fold bGetExtents r' fs = scan_fold bGetExtents r fs
  /\ existsb (carries_srs bGetExtents r') fs
     = existsb (carries_srs bGetExtents r) fs.
Proof.
  intros Hi Hu. unfold scan_fold. generalize scan_start.
  induction fs as [|f fs IH]; intros st; [done|]. simpl.
  destruct (built_geometry_options bGetExtents r r' f Hi Hu)
    as (_ & -> & Hstep).
  rewrite Hstep. destruct (IH (scan_step bGetExtents r st f)) as [-> ->].
  done.
Qed.

(** One turn of the loop body, for a feature whose class is in the
    registry. *)
Lemma prescan_feature_scan (bGetExtents : bool) (f : GMLFeature)
                           (r : GMLReader) (c : GMLFeatureClass) :
  m_papoClass r !! m_poClass f = Some c ->
  scans (prescan_feature bGetExtents f r)
  = <[m_poClass f := scan_step bGetExtents r (scan_of c) f]> (scans r)
  /\ m_bCanUseGlobalSRSName (prescan_feature bGetExtents f r)
     = m_bCanUseGlobalSRSName r && negb (carries_srs bGetExtents r f).
Proof.
  intros Hc. unfold prescan_feature. rewrite Hc.
  unfold scan_step, carries_srs, built_geometry, scans.
  set (counted := if (m_nFeatureCount c =? -1)%Z
                  then SetFeatureCount 1 c
                  else SetFeatureCount (m_nFeatureCount c + 1) c).
  assert (Hcounted : scan_of counted
                     = mkClassScan
                         (if (m_nFeatureCount c =? -1)%Z then 1
                          else m_nFeatureCount c + 1)%Z
                         (m_nGeometryType c) (m_oExtents c)
                         (m_pszSRSName c, m_bSRSNameConsistent c)).
  { subst counted. by destruct (_ =? _)%Z. }
  destruct bGetExtents.
  2:{ simpl. rewrite list_fmap_insert, Hcounted, andb_true_r. done. }
  destruct (GML_BuildOGRGeometryFromList _ _ _) as [poGeometry|].
  2:{ simpl. rewrite list_fmap_insert, Hcounted, andb_true_r. done. }
  injection Hcounted as Hn Ht He Hs Hm. clearbody counted.
  split.
  - simpl m_papoClass. rewrite list_fmap_insert. f_equal.
    set (pszSRSName := GML_ExtractSrsNameFromGeometry _ _).
    unfold scan_of at 2. simpl scan_count. simpl scan_type.
    simpl scan_extents. simpl scan_srs.
    rewrite <- Hs, <- Hm, <- Ht, <- He, <- Hn.
    destruct (MergeSRSName (m_pszSRSName counted, m_bSRSNameConsistent counted)
                pszSRSName) as [name mark] eqn:Hmerge.
    destruct (IsEmpty poGeometry); simpl.
    + unfold scan_of. simpl. by rewrite ?Hmerge.
    + destruct (m_oExtents counted) as [[[[? ?] ?] ?]|] eqn:Hext;
        unfold scan_of; simpl; by rewrite ?Hmerge, ?Hext.
  - simpl. destruct (GML_ExtractSrsNameFromGeometry _ _).
    + rewrite bool_decide_eq_true_2 by done. by rewrite andb_false_r.
    + rewrite bool_decide_eq_false_2 by (intros H; by apply H).
      by rewrite andb_true_r.
Qed.

(** The values of the classes agree with the features read so far, and the
    mark of the global SRS with whether one of them carried an SRS name. *)
Definition scan_agrees (bGetExtents : bool) (r : GMLReader)
                       (fs : list GMLFeature) : Prop :=
  (forall i, i < length (m_papoClass r) ->
             scans r !! i = Some (scan_fold bGetExtents r (of_class i fs)))
  /\ m_bCanUseGlobalSRSName r = negb (existsb (carries_srs bGetExtents r) fs).

Lemma of_class_none (r : GMLReader) (fs : list GMLFeature) (i : nat) :
  Forall (registered r) fs -> length (m_papoClass r) <= i ->
  of_class i fs = [].
Proof.
  intros Hfs Hi. unfold of_class.
  induction Hfs as [|f fs Hf Hfs IH]; [done|].
  unfold registered in Hf. rewrite filter_cons_False by lia. exact IH.
Qed.

Lemma scan_agrees_read (bGetExtents : bool) (r r' : GMLReader)
                       (fs : list GMLFeature) :
  scans_extend r r' -> scan_frame r' = scan_frame r ->
  Forall (registered r) fs ->
  scan_agrees bGetExtents r fs -> scan_agrees bGetExtents r' fs.
Proof.
  intros [k Hk] Hframe Hfs [Hagree Hflag].
  apply scan_frame_fields in Hframe as (Hi & Hu & Hg).
  destruct (scan_fold_options bGetExtents r r' fs Hi Hu) as [_ Hex].
  split; [|by rewrite Hg, Hex].
  intros i Hlt.
  rewrite (proj1 (scan_fold_options bGetExtents r r' (of_class i fs) Hi Hu)).
  rewrite Hk.
  assert (Hlen : length (scans r) = length (m_papoClass r)).
  { unfold scans. by rewrite length_fmap. }
  destruct (decide (i < length (m_papoClass r))) as [Hold|Hnew].
  - rewrite lookup_app_l by lia. by apply Hagree.
  - rewrite lookup_app_r by lia.
    rewrite (of_class_none r fs i Hfs) by lia.
    apply lookup_replicate_2.
    assert (Hlen' : length (scans r') = length (m_papoClass r')).
    { unfold scans. by rewrite length_fmap. }
    rewrite Hk, length_app, length_replicate in Hlen'. lia.
Qed.

Lemma of_class_snoc (i : nat) (fs : list GMLFeature) (f : GMLFeature) :
  of_class i (fs ++ [f])
  = if decide (m_poClass f = i) then of_class i fs ++ [f] else of_class i fs.
Proof.
  unfold of_class. rewrite filter_app.
  destruct (decide (m_poClass f = i)) as [Hi|Hi].
  - by rewrite filter_cons_True by done.
  - rewrite filter_cons_False by done. simpl. by rewrite app_nil_r.
Qed.

Lemma prescan_loop_scan (turns : nat) (bGetExtents : bool)
                        (r : GMLReader) (fs : list GMLFeature) :
  features_registered r -> Forall (registered r) fs ->
  scan_agrees bGetExtents r fs ->
  let r' := prescan_loop turns bGetExtents r in
  scan_agrees bGetExtents r' (fs ++ prescan_trace turns bGetExtents r)
  /\ m_bInvertAxisOrderIfLatLong r' = m_bInvertAxisOrderIfLatLong r
  /\ m_bConsiderEPSGAsURN r' = m_bConsiderEPSGAsURN r.
Proof.
  revert r fs. induction turns as [|turns IH]; intros r fs Hreg Hfs Hagree.
  { simpl. by rewrite app_nil_r. }
  cbn [prescan_loop prescan_trace].
  destruct (NextFeature_keeps_registered r) as [[Hkeep Hlen] Hret].
  pose proof (NextFeature_scans_extend r) as Hext.
  pose proof (NextFeature_scan_frame r) as Hframe.
  destruct (NextFeature r) as [[f|] r1];
    simpl in Hkeep, Hlen, Hret, Hext, Hframe.
  2:{ cbv zeta. rewrite app_nil_r.
      pose proof (scan_frame_fields _ _ Hframe) as (Hi & Hu & _).
      split; [by apply (scan_agrees_read bGetExtents r)|done]. }
  specialize (Hret f eq_refl Hreg). specialize (Hkeep Hreg).
  pose proof (scan_agrees_read bGetExtents r r1 fs Hext Hframe Hfs Hagree)
    as [Hagree1 Hflag1].
  pose proof (scan_frame_fields _ _ Hframe) as (Hi1 & Hu1 & _).
  destruct (lookup_lt_is_Some_2 _ _ Hret) as [c Hc].
  destruct (prescan_feature_scan bGetExtents f r1 c Hc) as [Hscans Hflag2].
  destruct (prescan_feature_counts bGetExtents f r1 c Hc) as [_ Hplaces].
  destruct (prescan_feature_weight bGetExtents f r1) as (_ & _ & Ho2).
  set (r2 := prescan_feature bGetExtents f r1) in *.
  unfold places in Hplaces. injection Hplaces. intros Hslot2 Htab2 Hst2 Hcl2.
  assert (Hlen2 : length (m_papoClass r2) = length (m_papoClass r1)).
  { by rewrite Hcl2, length_insert. }
  assert (Hopt2 : m_bInvertAxisOrderIfLatLong r2
                  = m_bInvertAxisOrderIfLatLong r1
                  /\ m_bConsiderEPSGAsURN r2 = m_bConsiderEPSGAsURN r1).
  { unfold options in Ho2. injection Ho2. by intros. }
  destruct Hopt2 as [Hi2 Hu2].
  assert (Hreg2 : features_registered r2).
  { apply (features_registered_grow r1); try done. lia. }
  assert (Hfs2 : Forall (registered r2) (fs ++ [f])).
  { apply Forall_app. split.
    - eapply Forall_impl; [exact Hfs|]. unfold registered. intros g Hg.
      simpl in Hg. lia.
    - constructor; [|done]. unfold registered in *. lia. }
  replace (fs ++ f :: prescan_trace turns bGetExtents r2)
    with ((fs ++ [f]) ++ prescan_trace turns bGetExtents r2)
    by by rewrite <- app_assoc.
  assert (Hagree2 : scan_agrees bGetExtents r2 (fs ++ [f])).
  { split.
    - intros i Hlt.
      rewrite (proj1 (scan_fold_options bGetExtents r1 r2 _ Hi2 Hu2)).
      rewrite Hscans, of_class_snoc.
      assert (Hscan1 : scans r1 !! m_poClass f = Some (scan_of c)).
      { unfold scans. by rewrite list_lookup_fmap, Hc. }
      destruct (decide (m_poClass f = i)) as [<-|Hne].
      + rewrite list_lookup_insert_eq
          by (unfold scans; rewrite length_fmap; exact Hret).
        rewrite (Hagree1 _ Hret) in Hscan1. injection Hscan1 as Hscan1.
        unfold scan_fold at 1. rewrite foldl_app. simpl.
        fold (scan_fold bGetExtents r1 (of_class (m_poClass f) fs)).
        by rewrite Hscan1.
      + rewrite list_lookup_insert_ne by done. apply Hagree1. lia.
    - rewrite (proj2 (scan_fold_options bGetExtents r1 r2 _ Hi2 Hu2)).
      rewrite Hflag2, Hflag1, existsb_app. simpl.
      rewrite orb_false_r. by rewrite negb_orb. }
  destruct (IH r2 (fs ++ [f]) Hreg2 Hfs2 Hagree2) as (Hall & Hi3 & Hu3).
  cbv zeta. split; [exact Hall|]. split; congruence.
Qed.

(** The scan loop of [PrescanForSchema] as a whole, on a reader that holds
    no feature: of every class of the registry, the count, the geometry
    type, the extents and the SRS name are what the turns of the loop for
    the features of the class make of a new class, in the order in which
    the features were read; and the mark of the global SRS is still set
    exactly when no feature read carried an SRS name. *)
Lemma prescan_scan_finds (bGetExtents : bool) (r scanned : GMLReader) :
  no_features r -> prescan_scan bGetExtents r = inr scanned ->
  (forall i c, m_papoClass scanned !! i = Some c ->
               scan_of c
               = scan_fold bGetExtents r
                   (of_class i (prescan_features bGetExtents r)))
  /\ m_bCanUseGlobalSRSName scanned
     = negb (existsb (carries_srs bGetExtents r)
                     (prescan_features bGetExtents r))
  /\ m_bInvertAxisOrderIfLatLong scanned = m_bInvertAxisOrderIfLatLong r
  /\ m_bConsiderEPSGAsURN scanned = m_bConsiderEPSGAsURN r.
Proof.
  intros (Hstack & Htab & Hslot).
  unfold prescan_scan, prescan_features.
  destruct (m_pszFilename r) as [name|]; [|done].
  set (r1 := ClearClasses (SetClassListLocked false r)).
  assert (Hreg1 : features_registered r1).
  { unfold features_registered. simpl. rewrite Htab, Hslot.
    split; [|by split].
    eapply Forall_impl; [exact Hstack|]. intros s Hs f Hf. congruence. }
  destruct (R_SetupParser keeps_registered keeps_registered_refl
              keeps_registered_trans keeps_registered_call
              keeps_registered_places) with (r := r1) as [Hkeep _].
  { intros r0. split; [|done]. intros (? & _ & ?). by split. }
  { intros r0. split; [|done]. intros (? & ? & _). by split. }
  { intros r0. split; [|done]. intros (? & ? & ?).
    split; [|done]. by constructor. }
  pose proof (SetupParser_settings r1) as Hset.
  pose proof (settings_options _ _ (SetupParser_settings r1)) as [Ho2 _].
  destruct (SetupParser r1) as [ok r2]. simpl in Hkeep, Hset, Ho2.
  apply settings_fields in Hset as (_ & Hclasses & _ & _ & Hi2 & _ & _).
  destruct ok; [|done].
  change (negb true) with false. cbv iota zeta.
  set (r3 := set_m_bCanUseGlobalSRSName true r2).
  set (r4 := prescan_loop (S (pending_weight r3)) bGetExtents r3).
  set (fs := prescan_trace (S (pending_weight r3)) bGetExtents r3).
  intros Heq. assert (Hscanned : scanned = r4) by congruence.
  clear Heq. subst scanned.
  assert (Hagree3 : scan_agrees bGetExtents r3 []).
  { split; [|done]. intros j Hj. simpl in Hj. rewrite Hclasses in Hj.
    simpl in Hj. lia. }
  destruct (prescan_loop_scan (S (pending_weight r3)) bGetExtents r3 []
              (Hkeep Hreg1) (Forall_nil_2 _) Hagree3)
    as ([Hall Hflag] & Hi & Hu).
  fold r4 fs in Hall, Hflag, Hi, Hu. simpl app in Hall, Hflag.
  assert (Hi4 : m_bInvertAxisOrderIfLatLong r4 = m_bInvertAxisOrderIfLatLong r).
  { rewrite Hi. simpl. rewrite Hi2. done. }
  assert (Hu4 : m_bConsiderEPSGAsURN r4 = m_bConsiderEPSGAsURN r).
  { rewrite Hu. simpl. unfold options in Ho2. injection Ho2. by intros. }
  split; [|split; [|done]].
  - intros i c Hc.
    assert (Hlt : i < length (m_papoClass r4)) by by apply lookup_lt_is_Some_1.
    specialize (Hall i Hlt). unfold scans in Hall.
    rewrite list_lookup_fmap, Hc in Hall. injection Hall as ->.
    apply scan_fold_options; congruence.
  - rewrite Hflag. f_equal. apply scan_fold_options; congruence.
Qed.

End ScanOfLoop.

(** ** The geometry type of a class after the scan *)

(** The number [GetFeatureCount] gives after the loop has had [fs]: -1
    without a feature. *)
Definition count_of (fs : list GMLFeature) : Z :=
  match length fs with
  | 0 => (-1)%Z
  | S n => Z.of_nat (S n)
  end.

(** The type from which the merges of a class start: none when a geometry
    is built for the first feature of the class, unknown otherwise. *)
Definition first_type {env : Environment}
    (bGetExtents : bool) (r : GMLReader) (fs : list GMLFeature) : Z :=
  match fs with
  | f :: _ =>
      match built_geometry bGetExtents r f with
      | Some _ => wkbNone
      | None => wkbUnknown
      end
  | [] => wkbUnknown
  end.

(** The types of the geometries built for the features, in order. *)
Definition built_types {env : Environment}
    (bGetExtents : bool) (r : GMLReader) (fs : list GMLFeature) : list Z :=
  getGeometryType <$> omap (built_geometry bGetExtents r) fs.

Section GeometryTypeOfScan.
Context {env : Environment} {names : FieldNameComparison}.

Lemma fix_axis_order_geometry_type (r : GMLReader) (c : GMLFeatureClass) :
  m_nGeometryType (fix_axis_order r c) = m_nGeometryType c
  /\ m_nFeatureCount (fix_axis_order r c) = m_nFeatureCount c
  /\ m_bSRSNameConsistent (fix_axis_order r c) = m_bSRSNameConsistent c
  /\ (m_oExtents c = None -> m_oExtents (fix_axis_order r c) = None).
Proof.
  unfold fix_axis_order.
  destruct (_ && _); [|done].
  destruct (SetFromUserInput _) as [oSRS|]; [|done].
  destruct (HasGEOGCS oSRS); [|done].
  destruct (exportToWkt _); destruct (m_bCanUseGlobalSRSName r); simpl;
    try done; destruct (m_oExtents c) as [[[[? ?] ?] ?]|] eqn:He; simpl;
    rewrite ?He; done.
Qed.

Lemma PrescanForSchema_scanned (bGetExtents : bool) (r : GMLReader)
                               (i : nat) (c : GMLFeatureClass) :
  m_pszFilename r <> None ->
  m_papoClass (snd (PrescanForSchema bGetExtents r)) !! i = Some c ->
  exists scanned c4,
    prescan_scan bGetExtents r = inr scanned
    /\ m_papoClass scanned !! i = Some c4
    /\ c = fix_axis_order scanned c4
    /\ settings (snd (PrescanForSchema bGetExtents r))
       = settings (set_m_papoClass
                     (fix_axis_order scanned <$> m_papoClass scanned) scanned).
Proof.
  intros Hname. unfold PrescanForSchema.
  destruct (prescan_scan bGetExtents r) as [r'|scanned] eqn:Hscan.
  { revert Hscan. unfold prescan_scan.
    destruct (m_pszFilename r); [|done].
    pose proof (SetupParser_settings
                  (ClearClasses (SetClassListLocked false r))) as Hset.
    destruct (SetupParser _) as [ok r2]. simpl in Hset.
    apply settings_fields in Hset as (_ & Hc & _).
    destruct ok; [done|]. intros [= <-]. simpl. by rewrite Hc. }
  cbn [snd].
  pose proof (CleanupParser_settings
                (set_m_papoClass
                   (fix_axis_order scanned <$> m_papoClass scanned) scanned))
    as Hset.
  destruct (settings_options _ _ Hset) as [_ ->].
  change (m_papoClass (set_m_papoClass
                         (fix_axis_order scanned <$> m_papoClass scanned)
                         scanned))
    with (fix_axis_order scanned <$> m_papoClass scanned).
  rewrite list_lookup_fmap.
  destruct (m_papoClass scanned !! i) as [c4|] eqn:Hc4; [|done].
  intros [= <-]. by exists scanned, c4.
Qed.

(** Once the count is at least 1 the start of the merges is not
    touched. *)
Lemma scan_fold_later (bGetExtents : bool) (r : GMLReader)
                      (fs : list GMLFeature) (st : class_scan) :
  (1 <= scan_count st)%Z ->
  scan_type (foldl (scan_step bGetExtents r) st fs)
  = foldl OGRMergeGeometryTypes (scan_type st)
          (built_types bGetExtents r fs).
Proof.
  revert st. induction fs as [|f fs IH]; intros st Hst; [done|].
  simpl foldl. unfold built_types in *. simpl omap.
  assert (Hn : ((if (scan_count st =? -1)%Z then 1 else scan_count st + 1)
                =? 1)%Z = false).
  { destruct (Z.eqb_spec (scan_count st) (-1)); [lia|].
    apply Z.eqb_neq. lia. }
  assert (Hnext : (1 <= scan_count (scan_step bGetExtents r st f))%Z).
  { unfold scan_step.
    destruct (built_geometry bGetExtents r f); simpl;
      destruct (Z.eqb_spec (scan_count st) (-1)); lia. }
  rewrite (IH _ Hnext). unfold scan_step.
  destruct (built_geometry bGetExtents r f) as [g|]; simpl; [|done].
  by rewrite Hn.
Qed.

Lemma scan_fold_type (bGetExtents : bool) (r : GMLReader)
                     (fs : list GMLFeature) :
  scan_type (scan_fold bGetExtents r fs)
  = foldl OGRMergeGeometryTypes (first_type bGetExtents r fs)
          (built_types bGetExtents r fs).
Proof.
  unfold scan_fold. destruct fs as [|f fs]; [done|]. simpl foldl.
  rewrite scan_fold_later.
  2:{ unfold scan_step. by destruct (built_geometry bGetExtents r f). }
  unfold scan_step, first_type, built_types. simpl omap.
  by destruct (built_geometry bGetExtents r f).
Qed.

Lemma built_types_none (bGetExtents : bool) (r : GMLReader)
                       (fs : list GMLFeature) :
  Forall (fun f => built_geometry bGetExtents r f = None) fs ->
  built_types bGetExtents r fs = []
  /\ first_type bGetExtents r fs = wkbUnknown.
Proof.
  intros Hfs. unfold built_types, first_type. split.
  - induction Hfs as [|f fs Hf Hfs IH]; [done|]. simpl. by rewrite Hf.
  - destruct Hfs as [|f fs Hf Hfs]; [done|]. by rewrite Hf.
Qed.

(** C1, amended.  After [PrescanForSchema] on a reader that has a file name
    and holds no feature, the geometry type of a class is the merge, in the
    order of reading, of the types of the geometries built for the features
    of the class.  The merges start from none when a geometry is built for
    the first feature of the class, and from unknown otherwise: a feature
    for which no geometry is built, because extents are not asked for or
    because the builder returns none, is counted and contributes nothing.
    So a class all of whose features lack geometry ends with the geometry
    type unknown, not none. *)
Theorem PrescanForSchema_geometry_type
    (bGetExtents : bool) (r : GMLReader) (i : nat) (c : GMLFeatureClass) :
  no_features r -> m_pszFilename r <> None ->
  m_papoClass (snd (PrescanForSchema bGetExtents r)) !! i = Some c ->
  let fs := of_class i (prescan_features bGetExtents r) in
  m_nGeometryType c
  = foldl OGRMergeGeometryTypes (first_type bGetExtents r fs)
          (built_types bGetExtents r fs)
  /\ (Forall (fun f => built_geometry bGetExtents r f = None) fs ->
      m_nGeometryType c = wkbUnknown).
Proof.
  intros Hno Hname Hc fs.
  destruct (PrescanForSchema_scanned bGetExtents r i c Hname Hc)
    as (scanned & c4 & Hscan & Hc4 & -> & _).
  destruct (prescan_scan_finds bGetExtents r scanned Hno Hscan)
    as (Hall & _).
  destruct (fix_axis_order_geometry_type scanned c4) as (-> & _).
  assert (Htype : m_nGeometryType c4
                  = scan_type (scan_fold bGetExtents r fs)).
  { change (m_nGeometryType c4) with (scan_type (scan_of c4)).
    by rewrite (Hall i c4 Hc4). }
  rewrite Htype, scan_fold_type. split; [done|].
  intros Hfs. by destruct (built_types_none bGetExtents r fs Hfs) as [-> ->].
Qed.

End GeometryTypeOfScan.

(** A document with three features of one class: the first has no
    geometry, the other two have a point. *)
Definition doc_geometry_later : list parse_step :=
  [mkParseStep [HPushPath "FeatureCollection"; HPushPath "featureMember";
                HPushFeature "Road" (Some "r1");
                HSetFeatureProperty "name" "A"; HPopState; HPopPath]
               ParseOk false;
   mkParseStep [HPushPath "featureMember"; HPushFeature "Road" (Some "r2");
                HAddGeometry point_without_srs; HPopState; HPopPath]
               ParseOk false;
   mkParseStep [HPushPath "featureMember"; HPushFeature "Road" (Some "r3");
                HAddGeometry point_without_srs; HPopState; HPopPath; HPopPath]
               ParseOk false].

Definition env_geometry_later : Environment :=
  sample_env "" doc_geometry_later FileOpenFails None.

(** The scan of that document with the pull backend: the merges start from
    unknown, since the first feature has no geometry, and the class ends
    with what merging two points into unknown gives. *)
Lemma PrescanForSchema_geometry_type_witness :
  let r := sample_reader env_geometry_later false false false in
  let scanned := snd (@PrescanForSchema env_geometry_later strcmp_names
                        true r) in
  let fs := of_class 0 (@prescan_features env_geometry_later strcmp_names
                          true r) in
  (m_nGeometryType <$> m_papoClass scanned !! 0)
  = Some (foldl (@OGRMergeGeometryTypes env_geometry_later)
                (@first_type env_geometry_later true r fs)
                (@built_types env_geometry_later true r fs))
  /\ @first_type env_geometry_later true r fs = wkbUnknown
  /\ @built_types env_geometry_later true r fs = [1%Z; 1%Z]
  /\ (m_pszFID <$> fs) = [Some "r1"; Some "r2"; Some "r3"].
Proof.
  split; [|split; [|split]; vm_compute; reflexivity].
  cbv zeta.
  destruct (m_papoClass
              (snd (@PrescanForSchema env_geometry_later strcmp_names true
                      (sample_reader env_geometry_later false false false)))
              !! 0) as [c|] eqn:Hc; [|vm_compute in Hc; discriminate].
  cbn [fmap option_fmap option_map]. f_equal.
  exact (proj1 (@PrescanForSchema_geometry_type env_geometry_later
                  strcmp_names true
                  (sample_reader env_geometry_later false false false) 0 c
                  (conj (Forall_nil_2 _) (conj eq_refl eq_refl))
                  ltac:(discriminate) Hc)).
Defined.

(** ** A scan that builds no geometry *)

Section ScanWithoutGeometry.
Context {env : Environment} {names : FieldNameComparison}.

Lemma scan_fold_unbuilt (bGetExtents : bool) (r : GMLReader)
                        (fs : list GMLFeature) :
  Forall (fun f => built_geometry bGetExtents r f = None) fs ->
  scan_fold bGetExtents r fs
  = mkClassScan (count_of fs) wkbUnknown None (None, true).
Proof.
  induction fs as [|f fs IH] using rev_ind; [done|].
  intros [Hfs Hf]%Forall_app. apply Forall_cons in Hf as [Hf _].
  unfold scan_fold in *. rewrite foldl_app. simpl. rewrite (IH Hfs).
  unfold scan_step. rewrite Hf. simpl. f_equal.
  unfold count_of. rewrite length_app. simpl.
  destruct (length fs) as [|n]; simpl; [done|].
  replace (S n + 1) with (S (S n)) by lia.
  destruct (Z.eqb_spec (Z.pos (Pos.of_succ_nat n)) (-1)); lia.
Qed.

(** X1.  [PrescanForSchema] on a reader that has a file name and holds no
    feature, when no geometry is built for any of the features read
    (extents are not asked for, or the builder finds none in them): every
    class of the registry has its features counted and is otherwise as
    [PushFeature] made it as far as the scan goes, with geometry type
    unknown, without extents and without an SRS conflict; the mark of the
    global SRS stays set, and the SRS name of a class is left empty unless
    the axis-order step stores the global SRS for it. *)
Theorem PrescanForSchema_without_geometry
    (bGetExtents : bool) (r : GMLReader) (i : nat) (c : GMLFeatureClass) :
  no_features r -> m_pszFilename r <> None ->
  Forall (fun f => built_geometry bGetExtents r f = None)
         (prescan_features bGetExtents r) ->
  m_papoClass (snd (PrescanForSchema bGetExtents r)) !! i = Some c ->
  m_nFeatureCount c = tally (prescan_features bGetExtents r) i
  /\ m_nGeometryType c = wkbUnknown
  /\ m_oExtents c = None
  /\ m_bSRSNameConsistent c = true
  /\ m_bCanUseGlobalSRSName (snd (PrescanForSchema bGetExtents r)) = true
  /\ (m_pszSRSName c = None
      \/ exists oSRS,
           SetFromUserInput
             (m_pszGlobalSRSName (snd (PrescanForSchema bGetExtents r)))
           = Some oSRS
           /\ m_pszSRSName c = exportToWkt (StripAxisNodes oSRS)).
Proof.
  intros Hno Hname Hfs Hc.
  destruct (PrescanForSchema_scanned bGetExtents r i c Hname Hc)
    as (scanned & c4 & Hscan & Hc4 & -> & Hset).
  destruct (prescan_scan_finds bGetExtents r scanned Hno Hscan)
    as (Hall & Hflag & _).
  assert (Hof : Forall (fun f => built_geometry bGetExtents r f = None)
                       (of_class i (prescan_features bGetExtents r))).
  { unfold of_class. apply Forall_forall. intros f Hf.
    apply list_elem_of_filter in Hf as [_ Hf].
    rewrite Forall_forall in Hfs. by apply Hfs. }
  pose proof (Hall i c4 Hc4) as Hscan4.
  rewrite (scan_fold_unbuilt bGetExtents r _ Hof) in Hscan4.
  injection Hscan4 as Hn Ht He Hs Hm.
  assert (Hnone : existsb (carries_srs bGetExtents r)
                          (prescan_features bGetExtents r) = false).
  { clear -Hfs. induction Hfs as [|f fs Hf Hfs IH]; [done|]. simpl.
    unfold carries_srs at 1. by rewrite Hf. }
  rewrite Hnone in Hflag. simpl in Hflag.
  apply settings_fields in Hset as (_ & _ & _ & _ & _ & Hg & Hcan).
  destruct (fix_axis_order_geometry_type scanned c4) as (-> & -> & -> & He').
  split; [exact Hn|]. split; [exact Ht|]. split; [by apply He'|].
  split; [exact Hm|]. split; [by rewrite Hcan|].
  rewrite Hg. simpl m_pszGlobalSRSName.
  unfold fix_axis_order. rewrite Hflag.
  destruct (_ && _); [|by left].
  destruct (SetFromUserInput _) as [oSRS|]; [|by left].
  destruct (HasGEOGCS oSRS); [|by left].
  destruct (exportToWkt (StripAxisNodes oSRS)) as [wkt|] eqn:Hwkt.
  - right. exists oSRS. split; [done|]. rewrite Hwkt.
    by destruct (m_oExtents _) as [[[[? ?] ?] ?]|].
  - left. by destruct (m_oExtents c4) as [[[[? ?] ?] ?]|].
Qed.

End ScanWithoutGeometry.

(** The document of three features in two classes has no geometry: its
    scan with extents leaves both classes as the theorem says. *)
Lemma PrescanForSchema_without_geometry_sample :
  let r := sample_reader env_three_features true false false in
  let scanned := snd (@PrescanForSchema env_three_features strcmp_names
                        true r) in
  (forall c, m_papoClass scanned !! 1 = Some c ->
     m_nFeatureCount c
     = tally (@prescan_features env_three_features strcmp_names true r) 1
     /\ m_nGeometryType c = wkbUnknown
     /\ m_oExtents c = None
     /\ m_bSRSNameConsistent c = true
     /\ m_bCanUseGlobalSRSName scanned = true
     /\ (m_pszSRSName c = None
         \/ exists oSRS,
              @SetFromUserInput env_three_features
                (m_pszGlobalSRSName scanned) = Some oSRS
              /\ m_pszSRSName c
                 = @exportToWkt env_three_features
                     (@StripAxisNodes env_three_features oSRS)))
  /\ (m_pszClassName <$> m_papoClass scanned) = ["Road"; "Lake"]
  /\ (m_nFeatureCount <$> m_papoClass scanned) = [2%Z; 1%Z].
Proof.
  split; [|split; vm_compute; reflexivity].
  intros c Hc.
  apply (@PrescanForSchema_without_geometry env_three_features strcmp_names
           true (sample_reader env_three_features true false false) 1 c).
  - split; [constructor | split; reflexivity].
  - discriminate.
  - vm_compute. repeat constructor.
  - exact Hc.
Defined.

(** ** The axis order after the scan *)

Section AxisOrderOfScan.
Context {env : Environment} {names : FieldNameComparison}.

(** C5, amended.  [PrescanForSchema] on a reader that holds no feature,
    once the scan loop has ended.  The mark [m_bCanUseGlobalSRSName] is
    still set exactly when no feature read had a geometry built that names
    an SRS, and of every class the extents and the SRS name are what the
    turns of the loop for its features have accumulated.  Every class then
    goes through the axis-order step, with the global SRS name in place of
    its own when the mark is set.  Under bInvertAxisOrderIfLatLong, for a
    class whose effective SRS name is lat/long ordered by
    [GML_IsSRSLatLongOrder], parses, and has a GEOGCS node, the AXIS nodes
    are stripped, the WKT exported after that is stored as the SRS of the
    class whenever the export succeeds, and the extents, if the class has
    any, have their axes exchanged exactly when the mark is set, that is
    when the global SRS was substituted; nothing else of the class
    changes.  In every other case the class is left as it is. *)
Theorem PrescanForSchema_axis_order
    (bGetExtents : bool) (r scanned : GMLReader) :
  no_features r ->
  prescan_scan bGetExtents r = inr scanned ->
  let global := negb (existsb (carries_srs bGetExtents r)
                              (prescan_features bGetExtents r)) in
  m_bCanUseGlobalSRSName scanned = global
  /\ m_bInvertAxisOrderIfLatLong scanned = m_bInvertAxisOrderIfLatLong r
  /\ (forall i c, m_papoClass scanned !! i = Some c ->
        scan_of c
        = scan_fold bGetExtents r
            (of_class i (prescan_features bGetExtents r)))
  /\ m_papoClass (snd (PrescanForSchema bGetExtents r))
     = fix_axis_order scanned <$> m_papoClass scanned
  /\ forall poClass,
       let pszSRSName := if global then m_pszGlobalSRSName scanned
                         else m_pszSRSName poClass in
       (forall oSRS,
          m_bInvertAxisOrderIfLatLong r = true ->
          GML_IsSRSLatLongOrder pszSRSName = true ->
          SetFromUserInput pszSRSName = Some oSRS ->
          HasGEOGCS oSRS = true ->
          m_pszSRSName (fix_axis_order scanned poClass)
          = match exportToWkt (StripAxisNodes oSRS) with
            | Some pszWKT => Some pszWKT
            | None => m_pszSRSName poClass
            end
          /\ m_oExtents (fix_axis_order scanned poClass)
             = (if global then swap_axes <$> m_oExtents poClass
                else m_oExtents poClass)
          /\ beside_srs_and_extents (fix_axis_order scanned poClass)
             = beside_srs_and_extents poClass)
       /\ (m_bInvertAxisOrderIfLatLong r = false
           \/ GML_IsSRSLatLongOrder pszSRSName = false
           \/ SetFromUserInput pszSRSName = None
           \/ (exists oSRS,
                 SetFromUserInput pszSRSName = Some oSRS
                 /\ HasGEOGCS oSRS = false) ->
           fix_axis_order scanned poClass = poClass).
Proof.
  intros Hno Hscan global.
  destruct (prescan_scan_finds bGetExtents r scanned Hno Hscan)
    as (Hall & Hflag & Hinv & _).
  split; [exact Hflag|]. split; [exact Hinv|]. split; [exact Hall|].
  split; [by apply PrescanForSchema_classes|].
  intros poClass pszSRSName. unfold fix_axis_order.
  fold global in Hflag. rewrite Hflag, Hinv. fold pszSRSName.
  split.
  - intros oSRS -> -> -> ->. simpl.
    destruct (exportToWkt (StripAxisNodes oSRS)) as [pszWKT|];
      destruct global; simpl;
      destruct poClass as [? ? ? ? ? ? [[[[? ?] ?] ?]|] ? ?]; done.
  - intros [-> | [-> | [-> | [oSRS [-> ->]]]]];
      [done | by rewrite andb_false_r | | ];
      by destruct (m_bInvertAxisOrderIfLatLong r
                   && GML_IsSRSLatLongOrder pszSRSName).
Qed.

End AxisOrderOfScan.

(** The scan of the document whose collection names EPSG:4326 and whose
    point names none: the mark stays set, the global SRS is stored with
    its AXIS nodes stripped, and the axes of the extents are exchanged. *)
Lemma PrescanForSchema_axis_order_witness :
  let r := sample_reader (env_global_srs "EPSG:4326") true true true in
  m_bCanUseGlobalSRSName scanned_global_srs
  = negb (existsb (@carries_srs (env_global_srs "EPSG:4326") true r)
                  (@prescan_features (env_global_srs "EPSG:4326")
                     strcmp_names true r))
  /\ m_bCanUseGlobalSRSName scanned_global_srs = true
  /\ (fun c => (m_pszSRSName c, m_oExtents c))
       <$> m_papoClass
             (snd (@PrescanForSchema (env_global_srs "EPSG:4326")
                     strcmp_names true r))
     = [(Some "GEOGCS[urn:ogc:def:crs:EPSG::4326]",
         Some (swap_axes (10, 20, 50, 60)%float))].
Proof.
  split; [|split; vm_compute; reflexivity].
  apply (proj1 (@PrescanForSchema_axis_order (env_global_srs "EPSG:4326")
                  strcmp_names true
                  (sample_reader (env_global_srs "EPSG:4326") true true true)
                  scanned_global_srs
                  ltac:(split; [constructor | split; reflexivity])
                  ltac:(vm_compute; reflexivity))).
Defined.

(** ** The stop flag is never taken back *)

Section StopIsKept.
Context {env : Environment} {names : FieldNameComparison}.

Lemma settings_stop (r r' : GMLReader) :
  settings r' = settings r -> m_bStopParsing r' = m_bStopParsing r.
Proof. by intros (_ & _ & _ & H & _)%settings_fields. Qed.

Lemma NextFeatureXerces_keeps_stop (r : GMLReader) :
  m_bStopParsing r = true ->
  m_bStopParsing (snd (NextFeatureXerces r)) = true.
Proof.
  intros Hstop.
  assert (Htail : forall r4, m_bStopParsing r4 = true ->
            match
              (let '(rest, r5, exc) := xerces_parse_loop (unread_steps r4) r4 in
               match exc with
               | Some e => Raises e (set_unread rest r5)
               | None =>
                   Returns (m_poCompleteFeature (set_unread rest r5))
                     (set_m_poCompleteFeature None (set_unread rest r5))
               end)
            with
            | Returns _ r' | Raises _ r' | Faults r' => m_bStopParsing r' = true
            end).
  { intros r4 H4.
    assert (Hloop : xerces_parse_loop (unread_steps r4) r4
                    = (unread_steps r4, r4, None)).
    { destruct (unread_steps r4); simpl; by rewrite H4, andb_false_r. }
    rewrite Hloop. simpl.
    destruct (set_unread_fields (unread_steps r4) r4) as (Hset & _).
    by rewrite (settings_stop _ _ Hset). }
  assert (Htry : match NextFeatureXerces_try r with
                 | Returns _ r' | Raises _ r' | Faults r' => m_bStopParsing r' = true
                 end).
  { unfold NextFeatureXerces_try.
    destruct (m_bReadStarted r); simpl.
    { destruct (_ && _ && negb (m_poSAXReader r)); [done|].
      by apply (Htail r). }
    set (r1 := if negb (m_poSAXReader r) then snd (SetupParser r) else r).
    assert (H1 : m_bStopParsing r1 = true).
    { subst r1. destruct (m_poSAXReader r); simpl; [done|].
      by rewrite (settings_stop _ _ (SetupParser_settings r)). }
    clearbody r1. destruct (m_GMLInputSource r1); simpl; [|done].
    destruct (m_poSAXReader r1); simpl; [|done].
    unfold xerces_parse.
    destruct (unread_steps (set_m_bReadStarted true r1)) as [|s rest]; [done|].
    set (r3 := run_calls (calls s)
                 (set_unread rest (set_m_bReadStarted true r1))).
    assert (H3 : m_bStopParsing r3 = true).
    { subst r3.
      destruct (handler_frame_fields _ _ (run_calls_frame (calls s)
                  (set_unread rest (set_m_bReadStarted true r1))))
        as (_ & _ & _ & ->).
      destruct (set_unread_fields rest (set_m_bReadStarted true r1))
        as (Hset & _).
      by rewrite (settings_stop _ _ Hset). }
    destruct (outcome s); try done.
    destruct (_ && _ && negb _); [done | by apply (Htail r3)]. }
  unfold NextFeatureXerces.
  destruct (NextFeatureXerces_try r) as [poReturn r' | exc r' | r'];
    [done | | done].
  by destruct exc.
Qed.

Lemma NextFeature_keeps_stop (r : GMLReader) :
  m_bStopParsing r = true -> m_bStopParsing (snd (NextFeature r)) = true.
Proof.
  intros Hstop. unfold NextFeature.
  destruct (HAVE_EXPAT && bUseExpatReader r).
  { destruct (NextFeatureExpat_stopped r Hstop) as [_ Hset].
    by rewrite (settings_stop _ _ Hset). }
  destruct (HAVE_XERCES && negb (bUseExpatReader r));
    [by apply NextFeatureXerces_keeps_stop | done].
Qed.

Lemma prescan_feature_stop (bGetExtents : bool) (f : GMLFeature)
                           (r : GMLReader) :
  m_bStopParsing (prescan_feature bGetExtents f r) = m_bStopParsing r.
Proof.
  unfold prescan_feature.
  destruct (m_papoClass r !! m_poClass f) as [poClass|]; [|done].
  by destruct (if bGetExtents then _ else _).
Qed.

Lemma prescan_loop_keeps_stop (turns : nat) (bGetExtents : bool)
                              (r : GMLReader) :
  m_bStopParsing r = true ->
  m_bStopParsing (prescan_loop turns bGetExtents r) = true.
Proof.
  revert r. induction turns as [|turns IH]; intros r Hstop; [done|].
  cbn [prescan_loop]. pose proof (NextFeature_keeps_stop r Hstop) as H.
  destruct (NextFeature r) as [[f|] r']; simpl in H; [|done].
  apply IH. by rewrite prescan_feature_stop.
Qed.

Lemma LoadClasses_stop (pszFile : option string) (r : GMLReader) :
  m_bStopParsing (snd (LoadClasses pszFile r)) = m_bStopParsing r.
Proof.
  unfold LoadClasses. destruct pszFile as [file|]; [|done].
  destruct (read_whole_file file); try done.
  destruct (negb (strstr _ _)); [done|].
  destruct (CPLParseXMLString _) as [psRoot|]; [|done].
  destruct (negb _ || negb _); [done|].
  by rewrite load_class_nodes_spec.
Qed.

(** X12.  No method of the reader takes the stop flag back: once
    [m_bStopParsing] is set it stays set through [NextFeature],
    [ResetReading], [SetupParser], [CleanupParser], [PrescanForSchema] and
    [LoadClasses], with either backend. *)
Theorem stop_flag_is_kept (r : GMLReader) :
  m_bStopParsing r = true ->
  m_bStopParsing (snd (NextFeature r)) = true
  /\ m_bStopParsing (ResetReading r) = true
  /\ m_bStopParsing (snd (SetupParser r)) = true
  /\ m_bStopParsing (CleanupParser r) = true
  /\ (forall bGetExtents,
        m_bStopParsing (snd (PrescanForSchema bGetExtents r)) = true)
  /\ (forall pszFile, m_bStopParsing (snd (LoadClasses pszFile r)) = true).
Proof.
  intros Hstop.
  assert (Hclean : forall r0, m_bStopParsing (CleanupParser r0)
                              = m_bStopParsing r0).
  { intros r0. apply settings_stop, CleanupParser_settings. }
  assert (Hsetup : forall r0, m_bStopParsing (snd (SetupParser r0))
                              = m_bStopParsing r0).
  { intros r0. apply settings_stop, SetupParser_settings. }
  split; [by apply NextFeature_keeps_stop|].
  split; [unfold ResetReading; simpl; by rewrite Hclean|].
  split; [by rewrite Hsetup|]. split; [by rewrite Hclean|].
  split; [|intros pszFile; by rewrite LoadClasses_stop].
  intros bGetExtents. unfold PrescanForSchema, prescan_scan.
  destruct (m_pszFilename r); [|done].
  pose proof (Hsetup (ClearClasses (SetClassListLocked false r))) as H2.
  destruct (SetupParser _) as [ok r2]. simpl in H2.
  destruct ok; [|simpl; by rewrite H2].
  change (negb true) with false. cbv iota zeta. cbn [snd].
  rewrite Hclean.
  set (r3 := set_m_bCanUseGlobalSRSName true r2).
  set (r4 := prescan_loop (S (pending_weight r3)) bGetExtents r3).
  change (m_bStopParsing r4 = true).
  apply prescan_loop_keeps_stop. simpl. by rewrite H2.
Qed.

End StopIsKept.

Lemma stop_flag_is_kept_sample :
  m_bStopParsing
    (snd (@NextFeature env_without_geometry strcmp_names stopped_expat_reader))
  = true
  /\ m_bStopParsing (@ResetReading env_without_geometry stopped_expat_reader)
     = true
  /\ m_bStopParsing
       (snd (@SetupParser env_without_geometry stopped_expat_reader)) = true
  /\ m_bStopParsing (@CleanupParser env_without_geometry stopped_expat_reader)
     = true
  /\ (forall bGetExtents,
        m_bStopParsing
          (snd (@PrescanForSchema env_without_geometry strcmp_names
                  bGetExtents stopped_expat_reader)) = true)
  /\ (forall pszFile,
        m_bStopParsing
          (snd (@LoadClasses env_without_geometry pszFile
                  stopped_expat_reader)) = true).
Proof.
  apply (@stop_flag_is_kept env_without_geometry strcmp_names
           stopped_expat_reader).
  reflexivity.
Defined.

Section StoppedPushReader.
Context {env : Environment} {names : FieldNameComparison}.
Hypothesis Hexpat : HAVE_EXPAT = true.

(** X13.  A reader of the push backend that has stopped is not revived by
    [ResetReading]: every call of [NextFeature] after it returns NULL.  Nor
    by [PrescanForSchema], which then reads no feature, returns FALSE and
    leaves the registry empty. *)
Theorem stopped_push_reader_stays_stopped (r : GMLReader) :
  bUseExpatReader r = true -> m_bStopParsing r = true ->
  (forall n, fst (NextFeature_calls n (ResetReading r)) = replicate n None)
  /\ (forall bGetExtents,
        m_pszFilename r <> None ->
        fst (PrescanForSchema bGetExtents r) = false
        /\ m_papoClass (snd (PrescanForSchema bGetExtents r)) = []).
Proof.
  intros Hb Hstop. split.
  - intros n. apply NextFeature_calls_none.
    pose proof (CleanupParser_settings r) as Hset.
    apply settings_fields in Hset as (Hb' & _ & _ & Hstop' & _).
    unfold ResetReading. split; simpl; [congruence|]. intros Hno. congruence.
  - intros bGetExtents Hname. unfold PrescanForSchema, prescan_scan.
    destruct (m_pszFilename r); [|done].
    pose proof (SetupParser_settings
                  (ClearClasses (SetClassListLocked false r))) as Hset.
    destruct (SetupParser _) as [ok r2]. simpl in Hset.
    apply settings_fields in Hset as (Hb2 & Hcl2 & _ & Hstop2 & _).
    simpl in Hb2, Hcl2, Hstop2.
    destruct ok; [|simpl; by rewrite Hcl2].
    change (negb true) with false. cbv iota zeta.
    set (r3 := set_m_bCanUseGlobalSRSName true r2).
    assert (Hcall : NextFeature r3 = NextFeatureExpat r3).
    { unfold NextFeature. simpl bUseExpatReader.
      by rewrite Hb2, Hb, Hexpat. }
    assert (Hstop3 : m_bStopParsing r3 = true) by (simpl; congruence).
    destruct (NextFeatureExpat_stopped r3 Hstop3) as [Hnone Hset3].
    apply settings_fields in Hset3 as (_ & Hcl3 & _).
    cbn [prescan_loop]. rewrite Hcall.
    destruct (NextFeatureExpat r3) as [poFeature r4]. simpl in Hnone, Hcl3.
    subst poFeature. cbn [fst snd].
    destruct (settings_options _ _
                (CleanupParser_settings
                   (set_m_papoClass (fix_axis_order r4 <$> m_papoClass r4) r4)))
      as [_ Hcl5].
    unfold GetClassCount. rewrite Hcl5. simpl m_papoClass.
    rewrite Hcl3. simpl m_papoClass. rewrite Hcl2. done.
Qed.

End StoppedPushReader.

Lemma stopped_push_reader_stays_stopped_sample :
  (forall n,
     fst (@NextFeature_calls env_without_geometry strcmp_names n
            (@ResetReading env_without_geometry stopped_expat_reader))
     = replicate n None)
  /\ (forall bGetExtents,
        m_pszFilename stopped_expat_reader <> None ->
        fst (@PrescanForSchema env_without_geometry strcmp_names bGetExtents
               stopped_expat_reader) = false
        /\ m_papoClass
             (snd (@PrescanForSchema env_without_geometry strcmp_names
                     bGetExtents stopped_expat_reader)) = []).
Proof.
  apply (@stopped_push_reader_stays_stopped env_without_geometry strcmp_names
           eq_refl stopped_expat_reader); reflexivity.
Defined.

(** ** Looking a class up by name after AddClass *)

Section LookupAfterAdd.

Lemma first_index_app {A} (test : A -> bool) (l more : list A) :
  first_index test (l ++ more)
  = if (first_index test l <? length l)%nat then first_index test l
    else length l + first_index test more.
Proof.
  induction l as [|x l IH]; simpl; [done|].
  destruct (test x); [done|]. rewrite IH.
  change (S (first_index test l) <? S (length l))%nat
    with (first_index test l <? length l)%nat.
  by destruct (first_index test l <? length l)%nat.
Qed.

Lemma GetClassByName_spec (r : GMLReader) (pszName : string) :
  GetClassByName r pszName
  = m_papoClass r
      !! first_index (fun c => EQUAL (GetName c) pszName) (m_papoClass r).
Proof.
  unfold GetClassByName, GetClassCount.
  set (i := first_index _ _).
  destruct (Z.ltb_spec (Z.of_nat i) (Z.of_nat (length (m_papoClass r))))
    as [Hlt|Hge].
  - destruct (GetClass_in_range r (Z.of_nat i)) as [-> _].
    + unfold GetClassCount. lia.
    + by rewrite Nat2Z.id.
  - symmetry. apply lookup_ge_None. lia.
Qed.

(** X14.  [AddClass] does not look for a class of the same name, and
    [GetClass(name)] returns the first class whose name matches up to the
    case of letters.  So after [AddClass] a name that found a class before
    still finds that class, the new class is found under its own name only
    when no earlier class matches it, and a class added under a name that
    is taken can be reached by its position only. *)
Theorem GetClassByName_after_AddClass
    (r : GMLReader) (poNewClass : GMLFeatureClass) (pszName : string) :
  let r' := snd (AddClass poNewClass r) in
  GetClassCount r' = (GetClassCount r + 1)%Z
  /\ GetClass r' (fst (AddClass poNewClass r)) = Some poNewClass
  /\ GetClassByName r' pszName
     = match GetClassByName r pszName with
       | Some poClass => Some poClass
       | None =>
           if EQUAL (GetName poNewClass) pszName then Some poNewClass
           else None
       end.
Proof.
  intros r'. subst r'. unfold AddClass. cbn [fst snd].
  assert (Hcount : GetClassCount
                     (set_m_papoClass (m_papoClass r ++ [poNewClass]) r)
                   = (GetClassCount r + 1)%Z).
  { unfold GetClassCount. simpl. rewrite length_app. simpl. lia. }
  split; [done|]. split.
  - destruct (GetClass_in_range
                (set_m_papoClass (m_papoClass r ++ [poNewClass]) r)
                (GetClassCount
                   (set_m_papoClass (m_papoClass r ++ [poNewClass]) r) - 1))
      as [-> _].
    { rewrite Hcount. unfold GetClassCount. lia. }
    rewrite Hcount. simpl. unfold GetClassCount.
    replace (Z.to_nat (Z.of_nat (length (m_papoClass r)) + 1 - 1))
      with (length (m_papoClass r)) by lia.
    by rewrite lookup_app_r, Nat.sub_diag.
  - rewrite !GetClassByName_spec. simpl m_papoClass.
    rewrite first_index_app.
    set (i := first_index (fun c => EQUAL (GetName c) pszName)
                          (m_papoClass r)).
    destruct (Nat.ltb_spec i (length (m_papoClass r))) as [Hlt|Hge].
    + rewrite lookup_app_l by done.
      by destruct (lookup_lt_is_Some_2 _ _ Hlt) as [c ->].
    + rewrite (proj2 (lookup_ge_None _ _) Hge).
      rewrite lookup_app_r by lia. simpl.
      destruct (EQUAL (GetName poNewClass) pszName); simpl.
      * by replace (length (m_papoClass r) + 0 - length (m_papoClass r))
          with 0 by lia.
      * by replace (length (m_papoClass r) + 1 - length (m_papoClass r))
          with 1 by lia.
Qed.

End LookupAfterAdd.

(** ** What CleanupParser leaves *)

(** The reader has no parser of its backend: [CleanupParser] returns at
    once. *)
Definition no_parser {env : Environment} (r : GMLReader) : bool :=
  (HAVE_XERCES && negb (bUseExpatReader r) && negb (m_poSAXReader r))
  || (HAVE_EXPAT && bUseExpatReader r && negb (oParser r)).

Section CleanupResets.
Context {env : Environment} {names : FieldNameComparison}.

Lemma PopState_stack (r : GMLReader) :
  m_poState (PopState r) = tail (m_poState r).
Proof.
  unfold PopState. destruct (m_poState r) as [|top below] eqn:Hst; [done|].
  destruct (HAVE_XERCES && _ && _ && _); simpl;
    by repeat match goal with
              | |- context [match ?o with Some _ => _ | None => _ end] =>
                  destruct o
              | |- context [if ?c then _ else _] => destruct c
              end.
Qed.

Lemma iter_PopState_stack (n : nat) (r : GMLReader) :
  m_poState (Nat.iter n PopState r) = drop n (m_poState r).
Proof.
  induction n as [|n IH]; simpl; [by rewrite drop_0|].
  rewrite PopState_stack, IH.
  clear IH. revert n. induction (m_poState r) as [|s l IHl]; intros n.
  - by rewrite drop_nil.
  - destruct n as [|n]; simpl; [by rewrite drop_0 | apply IHl].
Qed.

(** What [CleanupParser] does when there is a parser. *)
Lemma CleanupParser_with_parser (r : GMLReader) :
  no_parser r = false ->
  m_poState (CleanupParser r) = []
  /\ m_bReadStarted (CleanupParser r) = false
  /\ (HAVE_XERCES = true ->
      m_poSAXReader (CleanupParser r) = false
      /\ m_GMLInputSource (CleanupParser r) = false
      /\ m_poCompleteFeature (CleanupParser r) = None)
  /\ (HAVE_EXPAT = true ->
      oParser (CleanupParser r) = false
      /\ ppoFeatureTab (CleanupParser r) = []
      /\ nFeatureTabIndex (CleanupParser r) = 0).
Proof.
  unfold no_parser, CleanupParser. intros [Hx He]%orb_false_iff.
  rewrite Hx, He.
  pose proof (iter_PopState_stack (length (m_poState r)) r) as Hstack.
  rewrite drop_all in Hstack.
  set (r1 := Nat.iter (length (m_poState r)) PopState r) in *.
  clearbody r1.
  destruct HAVE_XERCES, HAVE_EXPAT; simpl; repeat split; done.
Qed.

(** X17.  [CleanupParser] on a reader without a parser of its backend
    changes nothing.  Otherwise it empties the stack of read states,
    whatever its depth, marks reading as not started, and drops parser,
    input source, completed feature and feature table, as far as the
    backends are compiled in.  In both cases the registry, the options, the
    stop flag and the open file stay, and a second [CleanupParser] changes
    nothing more; [ResetReading] does the same and takes the class filter
    off. *)
Theorem CleanupParser_resets (r : GMLReader) :
  (no_parser r = true -> CleanupParser r = r)
  /\ (no_parser r = false ->
      m_poState (CleanupParser r) = []
      /\ m_bReadStarted (CleanupParser r) = false
      /\ (HAVE_XERCES = true ->
          m_poSAXReader (CleanupParser r) = false
          /\ m_GMLInputSource (CleanupParser r) = false
          /\ m_poCompleteFeature (CleanupParser r) = None)
      /\ (HAVE_EXPAT = true ->
          oParser (CleanupParser r) = false
          /\ ppoFeatureTab (CleanupParser r) = []
          /\ nFeatureTabIndex (CleanupParser r) = 0))
  /\ settings (CleanupParser r) = settings r
  /\ fpGML (CleanupParser r) = fpGML r
  /\ CleanupParser (CleanupParser r) = CleanupParser r
  /\ ResetReading r = set_m_pszFilteredClassName None (CleanupParser r).
Proof.
  assert (Hnone : no_parser r = true -> CleanupParser r = r).
  { unfold no_parser, CleanupParser. intros [H|H]%orb_true_iff.
    - by rewrite H.
    - rewrite H. by destruct (HAVE_XERCES && _ && _). }
  split; [exact Hnone|].
  split; [apply CleanupParser_with_parser|].
  split; [apply CleanupParser_settings|].
  split; [apply CleanupParser_fpGML|].
  split; [|done].
  destruct (no_parser r) eqn:Hno.
  { by rewrite !(Hnone eq_refl). }
  destruct (CleanupParser_with_parser r Hno) as (Hst & Hstarted & Hx & He).
  pose proof (CleanupParser_settings r) as Hset.
  apply settings_fields in Hset as (Hb & _).
  set (r' := CleanupParser r) in *.
  assert (Hform : r' = set_m_bReadStarted (m_bReadStarted r') r').
  { subst r'. unfold CleanupParser. unfold no_parser in Hno.
    apply orb_false_iff in Hno as [H1 H2]. by rewrite H1, H2. }
  unfold CleanupParser at 1.
  destruct (HAVE_XERCES && negb (bUseExpatReader r') && negb (m_poSAXReader r'));
    [done|].
  destruct (HAVE_EXPAT && bUseExpatReader r' && negb (oParser r')); [done|].
  rewrite Hst. simpl Nat.iter.
  etransitivity; [|symmetry; exact Hform]. rewrite Hstarted.
  destruct HAVE_XERCES, HAVE_EXPAT; unfold set_m_bReadStarted; simpl.
  - destruct (Hx eq_refl) as (-> & -> & ->).
    destruct (He eq_refl) as (-> & -> & ->). done.
  - destruct (Hx eq_refl) as (-> & -> & ->). done.
  - destruct (He eq_refl) as (-> & -> & ->). done.
  - done.
Qed.

End CleanupResets.

(** ** What SetupParser sets up *)

Section SetupSetsUp.
Context {env : Environment} {names : FieldNameComparison}.

(** The file [SetupParser] works on: opened if it was not and can be, and
    at its start. *)
Definition rewound (r : GMLReader) : GMLReader :=
  let r1 :=
    match fpGML r with
    | None =>
        match m_pszFilename r with
        | Some name =>
            set_fpGML (option_map (fun d => mkVSILFILE d d) (VSIFOpenL name)) r
        | None => r
        end
    | Some _ => r
    end in
  match fpGML r1 with
  | Some fp => set_fpGML (Some (VSIFSeekL_start fp)) r1
  | None => r1
  end.

Lemma rewound_fields (r : GMLReader) :
  settings (rewound r) = settings r
  /\ no_parser (rewound r) = no_parser r
  /\ m_poState (rewound r) = m_poState r
  /\ (forall fp, fpGML (rewound r) = Some fp -> unread fp = document fp).
Proof.
  unfold rewound, no_parser.
  destruct (fpGML r) as [fp|] eqn:Hfile; simpl.
  { rewrite Hfile. simpl. repeat split; try done. by intros fp' [= <-]. }
  destruct (m_pszFilename r) as [name|] eqn:Hname; simpl.
  - destruct (VSIFOpenL name) as [doc|]; simpl; repeat split; try done;
      try (unfold settings; simpl; by rewrite Hname).
    by intros fp' [= <-].
  - rewrite Hfile. repeat split; try done. intros fp. by rewrite Hfile.
Qed.

(** X18.  [SetupParser] succeeds exactly when the backend of the reader is
    compiled in and, for the pull backend, Xerces starts and gives a
    reader; whether the file can be opened plays no part.  After a success
    the stack holds one empty read state, on top of nothing when there was
    a parser (it is cleaned up first) and on top of the old stack
    otherwise; reading is marked as not started, the file, if there is
    one, is at its start, and the reader has a parser.  Registry, options
    and stop flag are left as they were in any case. *)
Theorem SetupParser_sets_up (r : GMLReader) :
  fst (SetupParser r)
  = (HAVE_EXPAT && bUseExpatReader r)
    || (HAVE_XERCES && negb (bUseExpatReader r)
        && XercesInitializes && XercesCreatesReader)
  /\ settings (snd (SetupParser r)) = settings r
  /\ (fst (SetupParser r) = true ->
      m_poState (snd (SetupParser r))
      = new_GMLReadState :: (if no_parser r then m_poState r else [])
      /\ m_bReadStarted (snd (SetupParser r)) = false
      /\ no_parser (snd (SetupParser r)) = false
      /\ (forall fp, fpGML (snd (SetupParser r)) = Some fp ->
                     unread fp = document fp)).
Proof.
  split; [|split; [apply SetupParser_settings|]].
  - unfold SetupParser. fold (rewound r).
    destruct (rewound_fields r) as (Hset & _).
    apply settings_fields in Hset as (Hb & _). rewrite <- Hb.
    destruct (HAVE_EXPAT && bUseExpatReader (rewound r)) eqn:He.
    + apply andb_true_iff in He as [_ He].
      unfold SetupParserExpat. cbn [fst snd].
      assert (Hb3 : bUseExpatReader
                      (set_oParser true
                         (if oParser (rewound r)
                          then CleanupParser (rewound r) else rewound r))
                    = true).
      { simpl. destruct (oParser (rewound r)); [|done].
        pose proof (CleanupParser_settings (rewound r)) as H.
        apply settings_fields in H as (-> & _). done. }
      rewrite Hb3, andb_false_r. done.
    + destruct (HAVE_XERCES && negb (bUseExpatReader (rewound r))) eqn:Hx;
        [|done].
      unfold SetupParserXerces.
      destruct XercesInitializes; [|done].
      simpl negb. cbv iota.
      by destruct XercesCreatesReader.
  - unfold SetupParser. fold (rewound r).
    destruct (rewound_fields r) as (Hset & Hno & Hst & Hfile).
    apply settings_fields in Hset as (Hb & _).
    destruct (HAVE_EXPAT && bUseExpatReader (rewound r)) eqn:He.
    + pose proof He as He'. apply andb_true_iff in He' as [Hexpat Hpush].
      assert (Hnp : no_parser r = negb (oParser (rewound r))).
      { rewrite <- Hno. unfold no_parser.
        by rewrite Hpush, Hexpat, andb_false_r. }
      unfold SetupParserExpat. cbn [fst snd].
      set (r1 := if oParser (rewound r)
                 then CleanupParser (rewound r) else rewound r).
      assert (H1 : bUseExpatReader r1 = true
                   /\ m_poState r1
                      = (if no_parser r then m_poState r else [])
                   /\ forall fp, fpGML r1 = Some fp -> unread fp = document fp).
      { subst r1. rewrite Hnp.
        destruct (oParser (rewound r)) eqn:Hp; [|done].
        pose proof (CleanupParser_settings (rewound r)) as H.
        apply settings_fields in H as (-> & _).
        destruct (CleanupParser_with_parser (rewound r)) as (-> & _).
        { unfold no_parser. by rewrite Hp, Hpush, !andb_false_r. }
        rewrite CleanupParser_fpGML. done. }
      clearbody r1. destruct H1 as (Hb1 & Hst1 & Hfile1).
      simpl bUseExpatReader. rewrite Hb1, andb_false_r. simpl.
      intros _. rewrite Hst1. split; [done|]. split; [done|].
      split; [|done]. unfold no_parser. simpl.
      by rewrite Hb1, !andb_false_r.
    + destruct (HAVE_XERCES && negb (bUseExpatReader (rewound r))) eqn:Hx;
        [|done].
      pose proof Hx as Hx'. apply andb_true_iff in Hx' as [Hxerces Hpull].
      apply negb_true_iff in Hpull.
      assert (Hnp : no_parser r = negb (m_poSAXReader (rewound r))).
      { rewrite <- Hno. unfold no_parser.
        by rewrite Hpull, Hxerces, andb_false_r, orb_false_r. }
      unfold SetupParserXerces.
      destruct XercesInitializes; [|done]. simpl negb. cbv iota.
      set (r1 := if m_poSAXReader (rewound r)
                 then CleanupParser (rewound r) else rewound r).
      assert (H1 : bUseExpatReader r1 = false
                   /\ m_poState r1
                      = (if no_parser r then m_poState r else [])
                   /\ forall fp, fpGML r1 = Some fp -> unread fp = document fp).
      { subst r1. rewrite Hnp.
        destruct (m_poSAXReader (rewound r)) eqn:Hp; [|done].
        pose proof (CleanupParser_settings (rewound r)) as H.
        apply settings_fields in H as (-> & _).
        destruct (CleanupParser_with_parser (rewound r)) as (-> & _).
        { unfold no_parser. rewrite Hp, Hpull, Hxerces. simpl.
          by rewrite andb_false_r. }
        rewrite CleanupParser_fpGML. done. }
      clearbody r1. destruct H1 as (Hb1 & Hst1 & Hfile1).
      destruct XercesCreatesReader; [|done]. simpl negb. cbv iota.
      intros _. cbn [fst snd].
      assert (Hnow : forall x, bUseExpatReader x = false ->
                m_poSAXReader x = true -> no_parser x = false).
      { intros x Hbx Hsx. unfold no_parser.
        by rewrite Hbx, Hsx, !andb_false_r. }
      destruct (negb _ && bool_decide _); simpl; rewrite Hst1;
        (split; [done|]; split; [done|]; split; [by apply Hnow | done]).
Qed.

End SetupSetsUp.

(** ** The attribute tests and SetFeatureProperty *)

(** [osElemPath] of [GMLReader::IsAttributeElement]: the element alone at
    the top of the feature, and otherwise the path, a bar, the element. *)
Definition elem_path (s : GMLReadState) (pszElement : string) : string :=
  if (m_nPathLength s =? 0)%nat then pszElement
  else m_pszPath s +:+ "|" +:+ pszElement.

(** The loop over the properties of a class that looks for a source
    element. *)
Definition has_source (c : GMLFeatureClass) (pszPath : string) : bool :=
  existsb (fun p => strcmp_eq (m_pszSrcElement p) pszPath) (m_papoProperty c).

(** [GMLReader::IsAttributeElement]; [None] when there is no read state,
    which the function dereferences, or when the class of the feature is
    not in the registry. *)
Definition IsAttributeElement (pszElement : string) (r : GMLReader)
  : option bool :=
  match m_poState r with
  | [] => None
  | top :: _ =>
      match m_poFeature top with
      | None => Some false
      | Some poFeature =>
          match m_papoClass r !! m_poClass poFeature with
          | None => None
          | Some poClass =>
              if negb (IsSchemaLocked poClass) then Some true
              else Some (has_source poClass (elem_path top pszElement))
          end
      end
  end.

(** [GMLReader::IsCityGMLGenericAttributeElement]; [pszVal] is what
    [m_poGMLHandler->GetAttributeValue(attr, "name")] returns. *)
Definition IsCityGMLGenericAttributeElement
    (pszElement : string) (pszVal : option string) (r : GMLReader)
  : option bool :=
  if negb (strcmp_eq pszElement "stringAttribute")
     && negb (strcmp_eq pszElement "intAttribute")
     && negb (strcmp_eq pszElement "doubleAttribute")
  then Some false
  else
    match m_poState r with
    | [] => None
    | top :: _ =>
        match m_poFeature top with
        | None => Some false
        | Some poFeature =>
            match pszVal with
            | None => Some false
            | Some val =>
                match m_papoClass r !! m_poClass poFeature with
                | None => None
                | Some poClass =>
                    if negb (IsSchemaLocked poClass) then Some true
                    else Some (has_source poClass val)
                end
            end
        end
    end.

(** [SetFeatureProperty] stores the value in the current feature, under a
    property the class has for the path, and writes neither to the
    registry nor to the log. *)
Definition stored {env : Environment} {names : FieldNameComparison}
    (pszPath pszValue : string) (c : GMLFeatureClass)
    (top : GMLReadState) (below : list GMLReadState) (r : GMLReader) : Prop :=
  exists r' f' i p,
    SetFeatureProperty pszPath pszValue r = Some r'
    /\ m_papoClass r' = m_papoClass r /\ cpl_log r' = cpl_log r
    /\ m_poState r' = set_m_poFeature (Some f') top :: below
    /\ m_papoProperty c !! i = Some p /\ m_pszSrcElement p = pszPath
    /\ m_papszProperty f' !! i = Some (Some pszValue).

(** [SetFeatureProperty] drops the value, with a debug message. *)
Definition dropped {env : Environment} {names : FieldNameComparison}
    (pszPath pszValue : string) (r : GMLReader) : Prop :=
  SetFeatureProperty pszPath pszValue r
  = Some (CPLDebug "GML" "Encountered property missing from class schema." r).

Section AttributeTests.
Context {env : Environment} {names : FieldNameComparison}.

Lemma first_index_existsb {A} (test : A -> bool) (l : list A) :
  (first_index test l =? length l)%nat = negb (existsb test l).
Proof.
  induction l as [|x l IH]; simpl; [done|].
  destruct (test x); [done|]. exact IH.
Qed.

Lemma SetFeatureProperty_locked
    (pszPath pszValue : string) (r : GMLReader) (top : GMLReadState)
    (below : list GMLReadState) (f : GMLFeature) (c : GMLFeatureClass) :
  m_poState r = top :: below -> m_poFeature top = Some f ->
  m_papoClass r !! m_poClass f = Some c -> IsSchemaLocked c = true ->
  if has_source c pszPath then stored pszPath pszValue c top below r
  else dropped pszPath pszValue r.
Proof.
  intros Hst Hf Hc Hlocked. unfold stored, dropped, SetFeatureProperty.
  rewrite Hst, Hf, Hc. unfold GetPropertyCount.
  rewrite first_index_existsb. fold (has_source c pszPath).
  destruct (has_source c pszPath) eqn:Hsrc; simpl; [|by rewrite Hlocked].
  set (test := fun p => strcmp_eq (m_pszSrcElement p) pszPath).
  set (i := first_index test (m_papoProperty c)).
  assert (Hi : i < length (m_papoProperty c)).
  { pose proof (first_index_le test (m_papoProperty c)) as Hle.
    pose proof (first_index_existsb test (m_papoProperty c)) as Hex.
    unfold has_source in Hsrc. fold test in Hsrc. rewrite Hsrc in Hex.
    apply Nat.eqb_neq in Hex. fold i in Hle, Hex. lia. }
  destruct (first_index_found test (m_papoProperty c) Hi) as (p & Hp & Htest).
  fold i in Hp.
  eexists _, (SetProperty i pszValue f), i, p.
  split; [reflexivity|]. unfold store_property. rewrite Hlocked. simpl.
  split; [by apply list_insert_id|]. split; [done|]. split; [done|].
  split; [done|]. split; [by apply strcmp_eq_true|].
  apply list_lookup_insert_eq. rewrite length_app, length_replicate. lia.
Qed.

(** X16.  Inside a feature whose class has its schema locked, the two
    tests by which the handler decides that an element is an attribute
    agree with what [SetFeatureProperty] then does with the path of that
    element.  When [IsAttributeElement] accepts an element, the value given
    for its path is stored in the feature under a property of the class
    with that source element, and nothing is written to the registry or
    to the log; when it refuses, the value would be dropped.  The same
    holds for [IsCityGMLGenericAttributeElement] and the name of the
    generic attribute. *)
Theorem attribute_tests_agree_with_store
    (pszElement pszValue : string) (r : GMLReader) (top : GMLReadState)
    (below : list GMLReadState) (f : GMLFeature) (c : GMLFeatureClass) :
  m_poState r = top :: below -> m_poFeature top = Some f ->
  m_papoClass r !! m_poClass f = Some c -> IsSchemaLocked c = true ->
  (IsAttributeElement pszElement r = Some true ->
   stored (elem_path top pszElement) pszValue c top below r)
  /\ (IsAttributeElement pszElement r = Some false ->
      dropped (elem_path top pszElement) pszValue r)
  /\ (forall val,
        (IsCityGMLGenericAttributeElement pszElement (Some val) r = Some true ->
         stored val pszValue c top below r)
        /\ (IsCityGMLGenericAttributeElement pszElement (Some val) r
            = Some false ->
            strcmp_eq pszElement "stringAttribute"
            || strcmp_eq pszElement "intAttribute"
            || strcmp_eq pszElement "doubleAttribute" = true ->
            dropped val pszValue r)).
Proof.
  intros Hst Hf Hc Hlocked.
  assert (Hstore := fun path =>
            SetFeatureProperty_locked path pszValue r top below f c
                                       Hst Hf Hc Hlocked).
  unfold IsAttributeElement, IsCityGMLGenericAttributeElement.
  rewrite Hst, Hf, Hc, Hlocked. simpl negb. cbv iota.
  split; [|split].
  - intros [= Hsrc]. specialize (Hstore (elem_path top pszElement)).
    by rewrite Hsrc in Hstore.
  - intros [= Hsrc]. specialize (Hstore (elem_path top pszElement)).
    by rewrite Hsrc in Hstore.
  - intros val. specialize (Hstore val).
    destruct (strcmp_eq pszElement "stringAttribute"),
             (strcmp_eq pszElement "intAttribute"),
             (strcmp_eq pszElement "doubleAttribute"); simpl;
      (split; [intros H | intros H Hone]); try done;
      injection H as Hsrc; by rewrite Hsrc in Hstore.
Qed.

End AttributeTests.

(** Inside a feature of the locked class Road, below the element
    [details]: [name] is refused there, the class knowing it at the top
    of the feature only. *)
Lemma attribute_tests_agree_with_store_sample :
  let r := reader_in_feature [locked_Road] true [] in
  let deep := reader_in_feature [locked_Road] true ["details"] in
  @IsAttributeElement "name" r = Some true
  /\ @IsAttributeElement "name" deep = Some false
  /\ @stored plain_env strcmp_names "name" "A" locked_Road
       (mkGMLReadState (Some (mkGMLFeature 0 None [] [])) [])
       [new_GMLReadState] r
  /\ @dropped plain_env strcmp_names "details|name" "A" deep.
Proof.
  split; [reflexivity|]. split; [reflexivity|]. split.
  - apply (proj1 (@attribute_tests_agree_with_store plain_env strcmp_names
             "name" "A" (reader_in_feature [locked_Road] true [])
             (mkGMLReadState (Some (mkGMLFeature 0 None [] [])) [])
             [new_GMLReadState] (mkGMLFeature 0 None [] []) locked_Road
             eq_refl eq_refl eq_refl eq_refl)).
    reflexivity.
  - apply (proj1 (proj2 (@attribute_tests_agree_with_store plain_env
             strcmp_names
             "name" "A" (reader_in_feature [locked_Road] true ["details"])
             (mkGMLReadState (Some (mkGMLFeature 0 None [] [])) ["details"])
             [new_GMLReadState] (mkGMLFeature 0 None [] []) locked_Road
             eq_refl eq_refl eq_refl eq_refl))).
    reflexivity.
Defined.

(** ** Calls through a parser that is not there *)

(** One of the calls of [NextFeature] in the scan loop does. *)
Fixpoint prescan_loop_faults
    {env : Environment} {names : FieldNameComparison}
    (turns : nat) (bGetExtents : bool) (r : GMLReader) : bool :=
  match turns with
  | 0 => false
  | S turns' =>
      NextFeature_faults r
      || match NextFeature r with
         | (Some poFeature, r') =>
             prescan_loop_faults turns' bGetExtents
                                 (prescan_feature bGetExtents poFeature r')
         | (None, _) => false
         end
  end.

Definition PrescanForSchema_faults
    {env : Environment} {names : FieldNameComparison}
    (bGetExtents : bool) (r : GMLReader) : bool :=
  match m_pszFilename r with
  | None => false
  | Some _ =>
      let r1 := ClearClasses (SetClassListLocked false r) in
      let '(ok, r2) := SetupParser r1 in
      if negb ok then false
      else
        let r3 := set_m_bCanUseGlobalSRSName true r2 in
        prescan_loop_faults (S (pending_weight r3)) bGetExtents r3
  end.

(** A reader of the pull backend has its parser. *)
Definition with_parser (r : GMLReader) : Prop :=
  bUseExpatReader r = false -> m_poSAXReader r = true.

Section WithParser.
Context {env : Environment} {names : FieldNameComparison}.

Lemma set_unread_parser (rest : list parse_step) (r : GMLReader) :
  m_poSAXReader (set_unread rest r) = m_poSAXReader r.
Proof. unfold set_unread. by destruct (fpGML r). Qed.

Lemma xerces_parse_loop_parser (steps : list parse_step) (r : GMLReader) :
  m_poSAXReader (snd (fst (xerces_parse_loop steps r))) = m_poSAXReader r.
Proof.
  destruct (xerces_parse_loop_weight steps r) as [_ Hf].
  by apply loop_frame_fields in Hf as (_ & _ & _ & _ & _ & -> & _).
Qed.

Lemma run_calls_parser (l : list handler_call) (r : GMLReader) :
  m_poSAXReader (run_calls l r) = m_poSAXReader r.
Proof.
  pose proof (run_calls_loop_frame l r) as Hf.
  by apply loop_frame_fields in Hf as (_ & _ & _ & _ & _ & -> & _).
Qed.

(** With its parser, the pull backend does not fault and keeps the
    parser. *)
Lemma NextFeatureXerces_with_parser (r : GMLReader) :
  m_poSAXReader r = true ->
  match NextFeatureXerces_try r with
  | Returns _ r' | Raises _ r' => m_poSAXReader r' = true
  | Faults _ => False
  end.
Proof.
  intros Hsax.
  assert (Htail : forall r4, m_poSAXReader r4 = true ->
            match
              (if bool_decide (m_poCompleteFeature r4 = None)
                  && negb (m_bStopParsing r4) && negb (m_poSAXReader r4)
               then Faults r4
               else
                 let '(rest, r5, exc) :=
                   xerces_parse_loop (unread_steps r4) r4 in
                 match exc with
                 | Some e => Raises e (set_unread rest r5)
                 | None =>
                     Returns (m_poCompleteFeature (set_unread rest r5))
                       (set_m_poCompleteFeature None (set_unread rest r5))
                 end)
            with
            | Returns _ r' | Raises _ r' => m_poSAXReader r' = true
            | Faults _ => False
            end).
  { intros r4 H4. rewrite H4, andb_false_r.
    pose proof (xerces_parse_loop_parser (unread_steps r4) r4) as H5.
    destruct (xerces_parse_loop _ _) as [[rest r5] exc]. simpl in H5.
    destruct exc; simpl; rewrite set_unread_parser; congruence. }
  unfold NextFeatureXerces_try.
  destruct (m_bReadStarted r); simpl; [by apply Htail|].
  rewrite Hsax. simpl.
  destruct (m_GMLInputSource r); simpl; [|done].
  rewrite Hsax. simpl. unfold xerces_parse.
  destruct (unread_steps (set_m_bReadStarted true r)) as [|s rest]; [done|].
  assert (H3 : m_poSAXReader
                 (run_calls (calls s)
                    (set_unread rest (set_m_bReadStarted true r))) = true).
  { by rewrite run_calls_parser, set_unread_parser. }
  destruct (outcome s); try done. by apply Htail.
Qed.

Lemma NextFeature_with_parser (r : GMLReader) :
  with_parser r ->
  NextFeature_faults r = false /\ with_parser (snd (NextFeature r)).
Proof.
  intros Hr. unfold NextFeature_faults, NextFeature, with_parser.
  destruct (HAVE_EXPAT && bUseExpatReader r) eqn:He.
  { split; [done|]. intros Hb.
    pose proof (options_backend _ _ (NextFeatureExpat_options r)) as Hsame.
    apply andb_true_iff in He as [_ He]. congruence. }
  destruct (HAVE_XERCES && negb (bUseExpatReader r)) eqn:Hx; [|done].
  apply andb_true_iff in Hx as [_ Hx]. apply negb_true_iff in Hx.
  pose proof (NextFeatureXerces_with_parser r (Hr Hx)) as Htry.
  unfold NextFeatureXerces.
  destruct (NextFeatureXerces_try r) as [poReturn r' | exc r' | r'];
    [done | | done].
  split; [done|]. by destruct exc.
Qed.

Lemma NextFeature_calls_with_parser (n : nat) (r : GMLReader) :
  with_parser r -> NextFeature_calls_fault n r = false.
Proof.
  revert r. induction n as [|n IH]; intros r Hr; [done|]. simpl.
  destruct (NextFeature_with_parser r Hr) as [-> Hnext]. by apply IH.
Qed.

Lemma prescan_feature_with_parser (bGetExtents : bool) (f : GMLFeature)
                                  (r : GMLReader) :
  with_parser r -> with_parser (prescan_feature bGetExtents f r).
Proof.
  unfold prescan_feature, with_parser.
  destruct (m_papoClass r !! m_poClass f) as [poClass|]; [|done].
  destruct bGetExtents; [|done].
  destruct (GML_BuildOGRGeometryFromList _ _ _); [|done].
  by destruct (GML_ExtractSrsNameFromGeometry _ _).
Qed.

Lemma prescan_loop_with_parser (turns : nat) (bGetExtents : bool)
                               (r : GMLReader) :
  with_parser r -> prescan_loop_faults turns bGetExtents r = false.
Proof.
  revert r. induction turns as [|turns IH]; intros r Hr; [done|]. simpl.
  destruct (NextFeature_with_parser r Hr) as [-> Hnext]. simpl.
  destruct (NextFeature r) as [[f|] r']; [|done].
  by apply IH, prescan_feature_with_parser.
Qed.

(** When [SetupParser] succeeds, the parser of the backend is there. *)
Lemma SetupParser_with_parser (r r' : GMLReader) :
  SetupParser r = (true, r') -> with_parser r'.
Proof.
  intros Hsetup. pose proof (SetupParser_ready r r' Hsetup) as Hready.
  assert (Hst : m_bReadStarted r' = false).
  { revert Hsetup. unfold SetupParser.
    repeat match goal with
           | |- context [let '(_, _) := ?x in _] => destruct x
           | |- context [if ?c then _ else _] => destruct c
           | |- context [match ?x with Some _ => _ | None => _ end] =>
               destruct x
           end; try done; by intros [= <-]. }
  intros Hb. destruct Hready as [? | [[? _] | [_ ?]]]; congruence.
Qed.

(** The scan never calls through a parser that is not there: it gives up
    when [SetupParser] fails. *)
Lemma PrescanForSchema_never_faults (bGetExtents : bool) (r : GMLReader) :
  PrescanForSchema_faults bGetExtents r = false.
Proof.
  unfold PrescanForSchema_faults. destruct (m_pszFilename r); [|done].
  destruct (SetupParser _) as [ok r2] eqn:Hsetup.
  destruct ok; [|done]. change (negb true) with false. cbv iota zeta.
  apply prescan_loop_with_parser.
  by apply SetupParser_with_parser in Hsetup.
Qed.

End WithParser.

(** ** A file that cannot be opened *)

(** The reader has no open file, no input source and no completed feature,
    and opening its source file fails. *)
Definition nothing_to_read {env : Environment} (r : GMLReader) : Prop :=
  fpGML r = None /\ m_poCompleteFeature r = None
  /\ m_GMLInputSource r = false
  /\ exists name, m_pszFilename r = Some name /\ VSIFOpenL name = None.

(** The same environment with another outcome of setting Xerces up. *)
Definition with_xerces_setup (init create : bool) (e : Environment)
  : Environment :=
  {| HAVE_XERCES := @HAVE_XERCES e;
     HAVE_EXPAT := @HAVE_EXPAT e;
     GML_FIELDTYPES := @GML_FIELDTYPES e;
     VSIFOpenL := @VSIFOpenL e;
     XercesInitializes := init;
     XercesCreatesReader := create;
     read_whole_file := @read_whole_file e;
     CPLParseXMLString := @CPLParseXMLString e;
     InitializeFromXML := @InitializeFromXML e;
     AnalysePropertyValue := @AnalysePropertyValue e;
     MergeSRSName := @MergeSRSName e;
     GML_BuildOGRGeometryFromList := @GML_BuildOGRGeometryFromList e;
     GML_ExtractSrsNameFromGeometry := @GML_ExtractSrsNameFromGeometry e;
     GML_IsSRSLatLongOrder := @GML_IsSRSLatLongOrder e;
     OGRMergeGeometryTypes := @OGRMergeGeometryTypes e;
     OGRSpatialReference := @OGRSpatialReference e;
     SetFromUserInput := @SetFromUserInput e;
     HasGEOGCS := @HasGEOGCS e;
     StripAxisNodes := @StripAxisNodes e;
     exportToWkt := @exportToWkt e |}.

Section NothingToRead.
Context {env : Environment} {names : FieldNameComparison}.

Lemma nothing_to_read_frame (r r' : GMLReader) :
  fpGML r' = fpGML r -> m_poCompleteFeature r' = m_poCompleteFeature r ->
  m_GMLInputSource r' = m_GMLInputSource r ->
  m_pszFilename r' = m_pszFilename r ->
  nothing_to_read r -> nothing_to_read r'.
Proof. unfold nothing_to_read. by intros -> -> -> ->. Qed.

Lemma settings_filename (r r' : GMLReader) :
  settings r' = settings r -> m_pszFilename r' = m_pszFilename r.
Proof. unfold settings. intros H. injection H. by intros. Qed.

Lemma CleanupParser_nothing (r : GMLReader) :
  nothing_to_read r -> nothing_to_read (CleanupParser r).
Proof.
  intros (Hfile & Hslot & Hsource & Hname). unfold nothing_to_read.
  rewrite CleanupParser_fpGML, (CleanupParser_slot r Hslot).
  rewrite (settings_filename _ _ (CleanupParser_settings r)).
  split; [done|]. split; [done|]. split; [|done].
  unfold CleanupParser.
  destruct (HAVE_XERCES && _ && _); [done|].
  destruct (HAVE_EXPAT && _ && _); [done|].
  assert (Hiter : forall n, m_GMLInputSource (Nat.iter n PopState r) = false).
  { induction n as [|n IH]; [done|]. simpl.
    pose proof (PopState_frame (Nat.iter n PopState r)) as Hf.
    apply handler_loop_frame, loop_frame_fields in Hf
      as (_ & _ & _ & _ & _ & _ & ->). exact IH. }
  destruct HAVE_XERCES, HAVE_EXPAT; simpl; try done; apply Hiter.
Qed.

Lemma SetupParser_nothing (r : GMLReader) :
  nothing_to_read r -> nothing_to_read (snd (SetupParser r)).
Proof.
  intros Hr. unfold SetupParser. fold (rewound r).
  assert (H2 : nothing_to_read (rewound r)).
  { destruct Hr as (Hfile & Hslot & Hsource & name & Hn & Hname).
    unfold rewound, nothing_to_read. rewrite Hfile, Hn. simpl.
    rewrite Hname. simpl. rewrite Hn. split; [done|]. split; [done|].
    split; [done|]. by exists name. }
  set (r2 := rewound r) in *. clearbody r2.
  set (after_expat := if HAVE_EXPAT && bUseExpatReader r2
                      then let '(b, r') := SetupParserExpat r2 in (Some b, r')
                      else (None, r2)).
  assert (H3 : nothing_to_read (snd after_expat)).
  { subst after_expat. destruct (HAVE_EXPAT && bUseExpatReader r2); [|done].
    unfold SetupParserExpat. simpl.
    destruct (oParser r2); [|done].
    by apply (nothing_to_read_frame (CleanupParser r2)), CleanupParser_nothing. }
  destruct after_expat as [bRet r3]. simpl in H3.
  set (after_xerces := if HAVE_XERCES && negb (bUseExpatReader r3)
                       then let '(b, r') := SetupParserXerces r3 in (Some b, r')
                       else (bRet, r3)).
  assert (H4 : nothing_to_read (snd after_xerces)).
  { subst after_xerces.
    destruct (HAVE_XERCES && negb (bUseExpatReader r3)); [|done].
    unfold SetupParserXerces. destruct XercesInitializes; [|done]. simpl.
    set (r1 := if m_poSAXReader r3 then CleanupParser r3 else r3).
    assert (H1 : nothing_to_read r1).
    { subst r1. destruct (m_poSAXReader r3); [|done].
      by apply CleanupParser_nothing. }
    clearbody r1. destruct XercesCreatesReader; [|done]. simpl.
    destruct H1 as (Hfile & ?). rewrite Hfile.
    rewrite bool_decide_eq_false_2 by (intros Hne; by apply Hne).
    rewrite andb_false_r. by split. }
  destruct after_xerces as [bRet' r4]. simpl in H4.
  by destruct bRet' as [[|]|].
Qed.

Lemma NextFeature_nothing (r : GMLReader) :
  nothing_to_read r ->
  fst (NextFeature r) = None
  /\ nothing_to_read (snd (NextFeature r))
  /\ m_papoClass (snd (NextFeature r)) = m_papoClass r.
Proof.
  intros Hr.
  assert (Hsetup : nothing_to_read (snd (SetupParser r))
                   /\ m_papoClass (snd (SetupParser r)) = m_papoClass r).
  { split; [by apply SetupParser_nothing|].
    by destruct (settings_options _ _ (SetupParser_settings r)). }
  destruct Hsetup as [Hs Hc]. unfold NextFeature.
  destruct (HAVE_EXPAT && bUseExpatReader r).
  { unfold NextFeatureExpat.
    set (r1 := if negb (m_bReadStarted r)
               then set_m_bReadStarted true
                      (if negb (oParser r) then snd (SetupParser r) else r)
               else r).
    assert (H1 : nothing_to_read r1 /\ m_papoClass r1 = m_papoClass r).
    { subst r1. destruct (m_bReadStarted r); simpl; [done|].
      by destruct (oParser r). }
    clearbody r1. destruct H1 as [H1 Hc1].
    pose proof H1 as (Hfile & _). by rewrite Hfile. }
  destruct (HAVE_XERCES && negb (bUseExpatReader r)); [|done].
  unfold NextFeatureXerces, NextFeatureXerces_try.
  destruct (m_bReadStarted r); simpl.
  - destruct (_ && _ && negb (m_poSAXReader r)); [done|].
    pose proof Hr as (Hfile & Hslot & Hsource & Hname).
    unfold unread_steps, set_unread. rewrite Hfile. simpl.
    assert (Hloop : (if bool_decide (m_poCompleteFeature r = None)
                        && negb (m_bStopParsing r)
                     then ([], r, None) else ([], r, None))
                    = (@nil parse_step, r, @None parse_outcome)).
    { by destruct (_ && _). }
    rewrite Hloop. simpl. rewrite Hfile, Hslot. by repeat split.
  - set (r1 := if negb (m_poSAXReader r) then snd (SetupParser r) else r).
    assert (H1 : nothing_to_read r1 /\ m_papoClass r1 = m_papoClass r).
    { subst r1. by destruct (m_poSAXReader r). }
    clearbody r1. destruct H1 as [H1 Hc1].
    pose proof H1 as (_ & _ & Hsource & _). by rewrite Hsource.
Qed.

(** The first call on a reader that has not started reading returns before
    it uses the parser. *)
Lemma NextFeature_nothing_first (r : GMLReader) :
  nothing_to_read r -> m_bReadStarted r = false ->
  NextFeature_faults r = false
  /\ snd (NextFeature r)
     = (if HAVE_EXPAT && bUseExpatReader r
        then set_m_bReadStarted true
               (if negb (oParser r) then snd (SetupParser r) else r)
        else if HAVE_XERCES && negb (bUseExpatReader r)
        then set_m_bReadStarted true
               (if negb (m_poSAXReader r) then snd (SetupParser r) else r)
        else CPLError CE_Failure CPLE_AppDefined
               "NextFeature(): Should not happen" r).
Proof.
  intros Hr Hst. unfold NextFeature_faults, NextFeature.
  destruct (HAVE_EXPAT && bUseExpatReader r).
  { split; [done|]. unfold NextFeatureExpat. rewrite Hst. simpl.
    set (r1 := if negb (oParser r) then snd (SetupParser r) else r).
    assert (H1 : nothing_to_read r1).
    { subst r1. destruct (oParser r); [done|]. by apply SetupParser_nothing. }
    destruct H1 as (Hfile & _). by rewrite Hfile. }
  destruct (HAVE_XERCES && negb (bUseExpatReader r)); [|done].
  unfold NextFeatureXerces, NextFeatureXerces_try. rewrite Hst. simpl.
  set (r1 := if negb (m_poSAXReader r) then snd (SetupParser r) else r).
  assert (H1 : nothing_to_read r1).
  { subst r1. destruct (m_poSAXReader r); [done|]. by apply SetupParser_nothing. }
  destruct H1 as (_ & _ & Hsource & _). by rewrite Hsource.
Qed.

(** From then on no call faults when the parser is there, when parsing
    has been stopped, or when the pull backend is not built in. *)
Definition out_of_harm (r : GMLReader) : Prop :=
  with_parser r
  \/ (m_bStopParsing r = true
      /\ (bUseExpatReader r = false -> m_bReadStarted r = true))
  \/ HAVE_XERCES = false.

Lemma NextFeature_out_of_harm (r : GMLReader) :
  nothing_to_read r -> out_of_harm r ->
  NextFeature_faults r = false /\ out_of_harm (snd (NextFeature r)).
Proof.
  intros Hr [Hp | [[Hstop Hst] | Hno]].
  - destruct (NextFeature_with_parser r Hp) as [Hf Hp']. split; [done|].
    by left.
  - assert (Hstopped : stopped r).
    { split; [done|]. intros Hb. split; [by apply Hst|]. by destruct Hr as (_ & ? & _). }
    destruct (NextFeature_stopped r Hstopped) as [_ [Hstop' Hst']].
    split; [|right; left; split; [done|]; intros Hb; by apply Hst'].
    unfold NextFeature_faults.
    destruct (HAVE_EXPAT && bUseExpatReader r); [done|].
    destruct (HAVE_XERCES && negb (bUseExpatReader r)) eqn:Hx; [|done].
    apply andb_true_iff in Hx as [_ Hx]. apply negb_true_iff in Hx.
    unfold NextFeatureXerces_try. rewrite (Hst Hx). simpl.
    rewrite Hstop, andb_false_r. simpl.
    destruct (xerces_parse_loop _ _) as [[rest r5] exc]. by destruct exc.
  - split; [|by right; right].
    unfold NextFeature_faults. by rewrite Hno, andb_false_r.
Qed.

Lemma NextFeature_calls_out_of_harm (n : nat) (r : GMLReader) :
  nothing_to_read r -> out_of_harm r ->
  fst (NextFeature_calls n r) = replicate n None
  /\ NextFeature_calls_fault n r = false.
Proof.
  revert r. induction n as [|n IH]; intros r Hr Hsafe; [done|].
  destruct (NextFeature_nothing r Hr) as (Hnone & Hnext & _).
  destruct (NextFeature_out_of_harm r Hr Hsafe) as [Hf Hsafe'].
  cbn [NextFeature_calls NextFeature_calls_fault]. rewrite Hf.
  destruct (IH _ Hnext Hsafe') as [IH1 IH2]. rewrite IH2.
  destruct (NextFeature r) as [poFeature r']. simpl in *.
  destruct (NextFeature_calls n r') as [later r'']. simpl in *.
  by rewrite Hnone, IH1.
Qed.

(** [SetupParser] on a reader of the pull backend that has no parser:
    whether there is one afterwards is up to Xerces. *)
Lemma SetupParser_pull_parser (r : GMLReader) :
  HAVE_XERCES = true -> bUseExpatReader r = false -> m_poSAXReader r = false ->
  m_poSAXReader (snd (SetupParser r)) = XercesInitializes && XercesCreatesReader
  /\ bUseExpatReader (snd (SetupParser r)) = false
  /\ m_bStopParsing (snd (SetupParser r)) = m_bStopParsing r.
Proof.
  intros Hx Hb Hsax.
  pose proof (SetupParser_settings r) as Hset.
  apply settings_fields in Hset as (Hb' & _ & _ & Hstop' & _).
  split; [|split; congruence].
  unfold SetupParser. fold (rewound r).
  assert (H2 : bUseExpatReader (rewound r) = false
               /\ m_poSAXReader (rewound r) = false).
  { unfold rewound. destruct (fpGML r) eqn:Hfile; simpl.
    - by rewrite Hfile.
    - destruct (m_pszFilename r); simpl; [|by rewrite Hfile].
      by destruct (option_map _ _). }
  set (r2 := rewound r) in *. clearbody r2. destruct H2 as [Hb2 Hsax2].
  rewrite Hb2, andb_false_r, Hx. simpl. rewrite Hb2. simpl.
  unfold SetupParserXerces. destruct XercesInitializes; simpl; [|done].
  rewrite Hsax2. destruct XercesCreatesReader; simpl; [|done].
  by destruct (negb _ && bool_decide _).
Qed.

(** X15.  The source file of the reader cannot be opened, and the reader
    has not started reading.  The first call of [NextFeature] returns NULL
    and does not use the parser.  With the push backend, with a parser of
    the pull backend, with parsing stopped, or when Xerces can be set up,
    every later call returns NULL as well and none faults.  With the pull
    backend, no parser, and Xerces failing to initialise or to create a
    reader, the second call calls [parseNext] through the NULL parser.
    [PrescanForSchema] reads no feature, returns FALSE, leaves the
    registry empty and does not fault. *)
Theorem file_that_cannot_be_opened (r : GMLReader) :
  nothing_to_read r -> m_bReadStarted r = false ->
  (fst (NextFeature r) = None /\ NextFeature_faults r = false)
  /\ (bUseExpatReader r = true \/ m_poSAXReader r = true
      \/ m_bStopParsing r = true
      \/ XercesInitializes && XercesCreatesReader = true ->
      forall n, fst (NextFeature_calls n r) = replicate n None
                /\ NextFeature_calls_fault n r = false)
  /\ (HAVE_XERCES = true -> bUseExpatReader r = false ->
      m_poSAXReader r = false -> m_bStopParsing r = false ->
      XercesInitializes && XercesCreatesReader = false ->
      NextFeature_faults (snd (NextFeature r)) = true)
  /\ (forall bGetExtents,
        fst (PrescanForSchema bGetExtents r) = false
        /\ m_papoClass (snd (PrescanForSchema bGetExtents r)) = []
        /\ prescan_features bGetExtents r = []
        /\ PrescanForSchema_faults bGetExtents r = false).
Proof.
  intros Hr Hst.
  destruct (NextFeature_nothing r Hr) as (Hnone & Hnext & _).
  destruct (NextFeature_nothing_first r Hr Hst) as [Hfirst Hafter].
  split; [done|]. split; [|split].
  - intros Hcase n. destruct n as [|n]; [done|].
    assert (Hsafe : out_of_harm (snd (NextFeature r))).
    { pose proof (NextFeature_options r) as Ho. apply options_backend in Ho.
      destruct (bUseExpatReader r) eqn:Hb.
      { left. intros Hb'. congruence. }
      destruct HAVE_XERCES eqn:Hx; [|by right; right].
      rewrite andb_false_r in Hafter. simpl in Hafter. rewrite Hafter.
      destruct (m_poSAXReader r) eqn:Hsax; [left; by intros _|]. simpl.
      destruct (SetupParser_pull_parser r Hx Hb Hsax) as (Hp & Hb' & Hstop').
      destruct Hcase as [? | [? | [Hstop | Hok]]]; try done.
      - right. left. simpl. split; [congruence | done].
      - left. intros _. simpl. congruence. }
    destruct (NextFeature_calls_out_of_harm n _ Hnext Hsafe) as [Hn Hf].
    cbn [NextFeature_calls NextFeature_calls_fault]. rewrite Hfirst, Hf.
    destruct (NextFeature r) as [poFeature r']. simpl in *.
    destruct (NextFeature_calls n r') as [later r'']. simpl in *.
    by rewrite Hnone, Hn.
  - intros Hx Hb Hsax Hstop Hfail.
    destruct (SetupParser_pull_parser r Hx Hb Hsax) as (Hp & Hb' & Hstop').
    pose proof (SetupParser_nothing r Hr) as (_ & Hslot & _).
    rewrite Hb, andb_false_r, Hx, Hsax in Hafter. simpl in Hafter.
    rewrite Hafter.
    unfold NextFeature_faults, NextFeatureXerces_try. simpl.
    by rewrite Hb', andb_false_r, Hx, Hslot, Hstop', Hstop, Hp, Hfail.
  - intros bGetExtents.
    split; [|split; [|split; [|apply PrescanForSchema_never_faults]]];
      unfold PrescanForSchema, prescan_scan, prescan_features;
      destruct Hr as (Hfile & Hslot & Hsource & name & Hn & Hname);
      rewrite Hn;
      set (r1 := ClearClasses (SetClassListLocked false r));
      (assert (H1 : nothing_to_read r1)
        by (apply (nothing_to_read_frame r); try done;
            split; [done|]; split; [done|]; split; [done|]; by exists name));
      pose proof (SetupParser_nothing r1 H1) as H2;
      destruct (settings_options _ _ (SetupParser_settings r1)) as [_ Hc2];
      destruct (SetupParser r1) as [ok r2]; simpl in H2, Hc2;
      (destruct ok; [|simpl; by rewrite ?Hc2]);
      change (negb true) with false; cbv iota zeta;
      set (r3 := set_m_bCanUseGlobalSRSName true r2);
      (assert (H3 : nothing_to_read r3) by done);
      destruct (NextFeature_nothing r3 H3) as (Hnone3 & _ & Hc4);
      cbn [prescan_loop prescan_trace];
      destruct (NextFeature r3) as [poFeature r4]; simpl in Hnone3, Hc4;
      subst poFeature; cbn [fst snd]; try done;
      destruct (settings_options _ _
                  (CleanupParser_settings
                     (set_m_papoClass (fix_axis_order r4 <$> m_papoClass r4)
                                      r4))) as [_ Hc5];
      unfold GetClassCount; rewrite Hc5; simpl m_papoClass;
      rewrite Hc4; simpl m_papoClass; rewrite Hc2; done.
Qed.

End NothingToRead.

(** Xerces is built in, and no reader can be created. *)
Definition env_no_xerces_reader : Environment :=
  with_xerces_setup true false plain_env.

(** A reader of the pull backend on a file that does not open, when Xerces
    cannot create its reader: the first call returns NULL, the second goes
    through the NULL parser; with the push backend nothing of the kind
    happens. *)
Lemma file_that_cannot_be_opened_sample :
  let r := SetSourceFile "missing.gml"
             (@new_GMLReader env_no_xerces_reader false false false) in
  ((fst (@NextFeature env_no_xerces_reader strcmp_names r) = None
    /\ @NextFeature_faults env_no_xerces_reader strcmp_names r = false)
   /\ (bUseExpatReader r = true \/ m_poSAXReader r = true
       \/ m_bStopParsing r = true
       \/ @XercesInitializes env_no_xerces_reader
          && @XercesCreatesReader env_no_xerces_reader = true ->
       forall n,
         fst (@NextFeature_calls env_no_xerces_reader strcmp_names n r)
         = replicate n None
         /\ @NextFeature_calls_fault env_no_xerces_reader strcmp_names n r
            = false)
   /\ (@HAVE_XERCES env_no_xerces_reader = true ->
       bUseExpatReader r = false ->
       m_poSAXReader r = false -> m_bStopParsing r = false ->
       @XercesInitializes env_no_xerces_reader
       && @XercesCreatesReader env_no_xerces_reader = false ->
       @NextFeature_faults env_no_xerces_reader strcmp_names
         (snd (@NextFeature env_no_xerces_reader strcmp_names r)) = true)
   /\ (forall bGetExtents,
         fst (@PrescanForSchema env_no_xerces_reader strcmp_names
                bGetExtents r) = false
         /\ m_papoClass
              (snd (@PrescanForSchema env_no_xerces_reader strcmp_names
                      bGetExtents r)) = []
         /\ @prescan_features env_no_xerces_reader strcmp_names
              bGetExtents r = []
         /\ @PrescanForSchema_faults env_no_xerces_reader strcmp_names
              bGetExtents r = false))
  /\ @NextFeature_calls_fault env_no_xerces_reader strcmp_names 2 r = true
  /\ @NextFeature_calls_fault env_no_xerces_reader strcmp_names 5
       (SetSourceFile "missing.gml"
          (@new_GMLReader env_no_xerces_reader true false false)) = false.
Proof.
  split; [|split; vm_compute; reflexivity].
  apply (@file_that_cannot_be_opened env_no_xerces_reader strcmp_names
           (SetSourceFile "missing.gml"
              (@new_GMLReader env_no_xerces_reader false false false))).
  - split; [reflexivity|]. split; [reflexivity|]. split; [reflexivity|].
    exists "missing.gml". split; reflexivity.
  - reflexivity.
Defined.

(** ** A locked class list and PushFeature *)

Section LockedClassList.
Context {env : Environment} {names : FieldNameComparison}.

(** X19.  [PushFeature] asserts that the class list is not locked when it
    has to add a class.  When the class list is locked and
    [IsFeatureElement] has accepted the element, the element the handler
    then passes to [PushFeature] has a class in the registry:
    [PushFeature] adds none, and the feature it pushes is of the first
    class whose element name matches up to the case of letters. *)
Theorem PushFeature_after_IsFeatureElement
    (byte_before : ascii) (pszElement : string) (pszFID : option string)
    (r : GMLReader) :
  IsClassListLocked r = true ->
  IsFeatureElement byte_before pszElement r = Some true ->
  m_papoClass (PushFeature pszElement pszFID r) = m_papoClass r
  /\ exists i c,
       m_poState (PushFeature pszElement pszFID r)
       = mkGMLReadState (Some (mkGMLFeature i pszFID [] [])) [] :: m_poState r
       /\ m_papoClass r !! i = Some c
       /\ EQUAL pszElement (GetElementName c) = true
       /\ forall j c', j < i -> m_papoClass r !! j = Some c' ->
                       EQUAL pszElement (GetElementName c') = false.
Proof.
  intros Hlocked. unfold IsFeatureElement.
  destruct (m_poState r) as [|top below] eqn:Hst; [done|].
  destruct (feature_context byte_before (GetLastComponent top) pszElement)
    as [b|] eqn:Hctx.
  { intros [= ->]. by apply feature_context_never_true in Hctx. }
  rewrite Hlocked. simpl negb. cbv iota. intros [= Hex].
  apply existsb_elem_of in Hex as (c & Hc & Hname).
  destruct (PushFeature_known pszElement pszFID r c Hc Hname)
    as (i & c' & Hpush & Hi & Hc' & Hname').
  rewrite Hpush. split; [done|]. exists i, c'.
  split; [by rewrite <- Hst|]. split; [done|]. split; [done|].
  intros j cj Hj Hcj. subst i.
  clear - Hj Hcj. revert j Hj Hcj.
  induction (m_papoClass r) as [|x l IH]; intros j Hj Hcj; [done|].
  simpl in Hj. destruct (EQUAL pszElement (GetElementName x)) eqn:Hx; [lia|].
  destruct j as [|j]; simpl in Hcj; [by injection Hcj as <-|].
  apply (IH j); [lia | done].
Qed.

End LockedClassList.

Lemma PushFeature_after_IsFeatureElement_sample :
  m_papoClass (PushFeature "ROAD" (Some "r1") locked_member_reader)
  = m_papoClass locked_member_reader
  /\ exists i c,
       m_poState (PushFeature "ROAD" (Some "r1") locked_member_reader)
       = mkGMLReadState (Some (mkGMLFeature i (Some "r1") [] [])) []
         :: m_poState locked_member_reader
       /\ m_papoClass locked_member_reader !! i = Some c
       /\ EQUAL "ROAD" (GetElementName c) = true
       /\ forall j c', j < i -> m_papoClass locked_member_reader !! j = Some c' ->
                       EQUAL "ROAD" (GetElementName c') = false.
Proof.
  apply (PushFeature_after_IsFeatureElement "000" "ROAD" (Some "r1")
           locked_member_reader); reflexivity.
Defined.

(** ** A second value for the same element path *)

Section SecondValue.
Context {env : Environment} {names : FieldNameComparison}.

Lemma new_field_name_free (c : GMLFeatureClass) (pszElement : string) :
  field_name_taken c (new_field_name c pszElement) = false.
Proof.
  unfold new_field_name. cbv zeta.
  set (base := match strchr pszElement "|" with
               | None => pszElement
               | Some _ => _
               end).
  destruct (append_underscores_spec (S (longest_name c)) c base)
    as (k & -> & Hfree & _); [lia | done].
Qed.

(** What [SetFeatureProperty] returns for an element path that is new to an
    unlocked class. *)
Lemma SetFeatureProperty_new_form
    (pszElement pszValue : string) (r : GMLReader)
    (top : GMLReadState) (below : list GMLReadState)
    (poFeature : GMLFeature) (poClass : GMLFeatureClass) :
  m_poState r = top :: below ->
  m_poFeature top = Some poFeature ->
  m_papoClass r !! m_poClass poFeature = Some poClass ->
  IsSchemaLocked poClass = false ->
  (forall p, p ∈ m_papoProperty poClass -> m_pszSrcElement p <> pszElement) ->
  let t0 := if EQUAL GML_FIELDTYPES "ALWAYS_STRING"
            then GMLPT_String else GMLPT_Untyped in
  let p := mkGMLPropertyDefn (new_field_name poClass pszElement) pszElement
             (AnalysePropertyValue t0 pszValue) in
  SetFeatureProperty pszElement pszValue r
  = Some (set_m_poState
            (set_m_poFeature
               (Some (SetProperty (length (m_papoProperty poClass)) pszValue
                                  poFeature)) top :: below)
            (set_m_papoClass
               (<[m_poClass poFeature :=
                    set_m_papoProperty (m_papoProperty poClass ++ [p])
                                       poClass]> (m_papoClass r)) r)).
Proof.
  intros Hst Hf Hc Hunlocked Hnone t0 p.
  assert (Hidx : first_index
                   (fun p => strcmp_eq (m_pszSrcElement p) pszElement)
                   (m_papoProperty poClass) = GetPropertyCount poClass).
  { apply first_index_none. intros q Hq.
    destruct (strcmp_eq (m_pszSrcElement q) pszElement) eqn:E; [|done].
    apply strcmp_eq_true in E. by destruct (Hnone q Hq). }
  unfold SetFeatureProperty. rewrite Hst, Hf, Hc, Hidx, Nat.eqb_refl.
  rewrite Hunlocked.
  set (p0 := mkGMLPropertyDefn (new_field_name poClass pszElement) pszElement
               t0).
  assert (Hdefn :
            (if EQUAL GML_FIELDTYPES "ALWAYS_STRING"
             then SetType GMLPT_String
                    (new_GMLPropertyDefn (new_field_name poClass pszElement)
                                         pszElement)
             else new_GMLPropertyDefn (new_field_name poClass pszElement)
                                      pszElement)
            = p0).
  { subst p0 t0. by destruct (EQUAL GML_FIELDTYPES "ALWAYS_STRING"). }
  cbv zeta. rewrite Hdefn. unfold AddProperty.
  assert (Hget : GetPropertyByName poClass (m_pszName p0) = None).
  { apply GetPropertyByName_taken. simpl. apply new_field_name_free. }
  rewrite Hget. simpl. f_equal. unfold store_property.
  unfold IsSchemaLocked in *. simpl. rewrite Hunlocked. simpl.
  unfold GetPropertyCount.
  rewrite lookup_app_r, Nat.sub_diag by lia. simpl.
  destruct (Z.ltb_spec (Z.of_nat (length (m_papoProperty poClass))) 0);
    [lia|].
  by rewrite insert_app_last.
Qed.

(** X20.  Two values in a row for an element path that is new to an
    unlocked class: the first call of [SetFeatureProperty] adds a property
    for the path, the second finds it and adds none.  After both the class
    has exactly one property more, with the path as its source element and
    the field name the first call chose; its type is what
    [AnalysePropertyValue] makes of the second value after the first; the
    feature holds the second value at the position of the property; and
    nothing is logged. *)
Theorem SetFeatureProperty_twice
    (pszElement first second : string) (r : GMLReader)
    (top : GMLReadState) (below : list GMLReadState)
    (poFeature : GMLFeature) (poClass : GMLFeatureClass) :
  m_poState r = top :: below ->
  m_poFeature top = Some poFeature ->
  m_papoClass r !! m_poClass poFeature = Some poClass ->
  IsSchemaLocked poClass = false ->
  (forall p, p ∈ m_papoProperty poClass -> m_pszSrcElement p <> pszElement) ->
  exists r1 r2 poClass2 poFeature2,
    SetFeatureProperty pszElement first r = Some r1
    /\ SetFeatureProperty pszElement second r1 = Some r2
    /\ m_papoClass r2 = <[m_poClass poFeature := poClass2]> (m_papoClass r)
    /\ m_papoProperty poClass2
       = m_papoProperty poClass
         ++ [mkGMLPropertyDefn (new_field_name poClass pszElement) pszElement
               (AnalysePropertyValue
                  (AnalysePropertyValue
                     (if EQUAL GML_FIELDTYPES "ALWAYS_STRING"
                      then GMLPT_String else GMLPT_Untyped) first) second)]
    /\ m_poState r2 = set_m_poFeature (Some poFeature2) top :: below
    /\ m_papszProperty poFeature2 !! length (m_papoProperty poClass)
       = Some (Some second)
    /\ cpl_log r2 = cpl_log r.
Proof.
  intros Hst Hf Hc Hunlocked Hnone.
  pose proof (SetFeatureProperty_new_form pszElement first r top below
                poFeature poClass Hst Hf Hc Hunlocked Hnone) as Hfirst.
  cbv zeta in Hfirst.
  set (t1 := AnalysePropertyValue
               (if EQUAL GML_FIELDTYPES "ALWAYS_STRING"
                then GMLPT_String else GMLPT_Untyped) first) in *.
  set (p := mkGMLPropertyDefn (new_field_name poClass pszElement) pszElement
              t1) in *.
  set (n := length (m_papoProperty poClass)) in *.
  set (poClass1 := set_m_papoProperty (m_papoProperty poClass ++ [p]) poClass)
    in *.
  set (poFeature1 := SetProperty n first poFeature) in *.
  set (r1 := set_m_poState _ _) in Hfirst.
  assert (Hlt : m_poClass poFeature < length (m_papoClass r)).
  { by apply lookup_lt_is_Some_1. }
  assert (Hidx : first_index
                   (fun q => strcmp_eq (m_pszSrcElement q) pszElement)
                   (m_papoProperty poClass ++ [p]) = n).
  { apply first_index_app_new; [|simpl; apply strcmp_eq_refl].
    apply first_index_none. intros q Hq.
    destruct (strcmp_eq (m_pszSrcElement q) pszElement) eqn:E; [|done].
    apply strcmp_eq_true in E. by destruct (Hnone q Hq). }
  set (p2 := mkGMLPropertyDefn (new_field_name poClass pszElement) pszElement
               (AnalysePropertyValue t1 second)).
  exists r1, (store_property n second poFeature1 poClass1
                (set_m_poFeature (Some poFeature1) top) below r1),
    (set_m_papoProperty (m_papoProperty poClass ++ [p2]) poClass),
    (SetProperty n second poFeature1).
  split; [exact Hfirst|]. split.
  { unfold SetFeatureProperty. subst r1. simpl.
    rewrite list_lookup_insert_eq by done. simpl.
    rewrite Hidx. unfold GetPropertyCount. simpl.
    rewrite length_app. simpl. fold n.
    destruct (Nat.eqb_spec n (n + 1)); [lia | done]. }
  unfold store_property. simpl.
  rewrite list_insert_insert_eq. unfold IsSchemaLocked in *. simpl.
  rewrite Hunlocked. simpl.
  rewrite lookup_app_r, Nat.sub_diag by (subst n; lia). simpl.
  subst n. rewrite insert_app_last.
  split; [done|]. split; [done|]. split; [done|]. split; [|done].
  apply list_lookup_insert_eq. rewrite length_app, length_replicate.
  unfold poFeature1, SetProperty. simpl. rewrite length_insert, length_app.
  lia.
Qed.

End SecondValue.

Lemma SetFeatureProperty_twice_sample :
  let r := reader_in_feature [open_Road] false ["foo"] in
  let top := mkGMLReadState (Some (mkGMLFeature 0 None [] [])) ["foo"] in
  exists r1 r2 poClass2 poFeature2,
    @SetFeatureProperty plain_env EQUAL_names "foo|name" "12" r = Some r1
    /\ @SetFeatureProperty plain_env EQUAL_names "foo|name" "1.5" r1 = Some r2
    /\ m_papoClass r2 = <[0 := poClass2]> (m_papoClass r)
    /\ m_papoProperty poClass2
       = m_papoProperty open_Road
         ++ [mkGMLPropertyDefn
               (@new_field_name EQUAL_names open_Road "foo|name") "foo|name"
               (@AnalysePropertyValue plain_env
                  (@AnalysePropertyValue plain_env
                     (if EQUAL (@GML_FIELDTYPES plain_env) "ALWAYS_STRING"
                      then GMLPT_String else GMLPT_Untyped) "12") "1.5")]
    /\ m_poState r2 = set_m_poFeature (Some poFeature2) top :: [new_GMLReadState]
    /\ m_papszProperty poFeature2 !! length (m_papoProperty open_Road)
       = Some (Some "1.5")
    /\ cpl_log r2 = cpl_log r.
Proof.
  apply (@SetFeatureProperty_twice plain_env EQUAL_names "foo|name" "12" "1.5"
           (reader_in_feature [open_Road] false ["foo"])
           (mkGMLReadState (Some (mkGMLFeature 0 None [] [])) ["foo"])
           [new_GMLReadState] (mkGMLFeature 0 None [] []) open_Road);
    [reflexivity | reflexivity | reflexivity | reflexivity |].
  intros p Hp. apply list_elem_of_singleton in Hp. subst p. discriminate.
Defined.
